(** * FinDIT camera-RAW bridges: braw-tool and r3d-tool

    A shallow embedding of [tools/braw-tool/main.cpp] and
    [tools/r3d-tool/main.cpp].  Machine integers are [Z] with their
    wrap-around written out, [double] and [float] are IEEE-754 binary64 and
    binary32 values of the standard library's [spec_float], C strings are
    [string], and every vendor-SDK or platform call is an outcome supplied by
    an explicit oracle record. *)

From Stdlib Require Import ZArith Bool List String Ascii Lia.
From Stdlib Require Import SpecFloat.
Import ListNotations.

Local Open Scope Z_scope.

(** ** Machine integers *)

Module CInt.

Definition wrap (bits : Z) (z : Z) : Z := z mod 2 ^ bits.

Definition to_signed (bits : Z) (z : Z) : Z :=
  let u := wrap bits z in
  if u <? 2 ^ (bits - 1) then u else u - 2 ^ bits.

Definition uint16_t (z : Z) : Z := wrap 16 z.
Definition uint32_t (z : Z) : Z := wrap 32 z.
Definition uint64_t (z : Z) : Z := wrap 64 z.
Definition int16_t (z : Z) : Z := to_signed 16 z.
Definition int32_t (z : Z) : Z := to_signed 32 z.

Definition UINT32_MAX : Z := 2 ^ 32 - 1.
Definition SIZE_MAX : Z := 2 ^ 64 - 1.
Definition INT_MAX : Z := 2 ^ 31 - 1.
Definition INT_MIN : Z := - 2 ^ 31.

(** [(x + 1) & ~1u] on a [bits]-wide unsigned integer. *)
Definition round_even (bits : Z) (x : Z) : Z :=
  Z.land (wrap bits (x + 1)) (2 ^ bits - 2).

End CInt.

(** ** IEEE-754 arithmetic as the compiler emits it *)

Module IEEE.

Definition float : Type := spec_float.

(** binary64, the C [double]. *)
Definition dprec : Z := 53.
Definition demax : Z := 1024.
(** binary32, the C [float]. *)
Definition fprec : Z := 24.
Definition femax : Z := 128.

Definition dmul : float -> float -> float := SFmul dprec demax.
Definition ddiv : float -> float -> float := SFdiv dprec demax.
Definition fmul : float -> float -> float := SFmul fprec femax.

(** Integer to [double] conversion, rounding to nearest even. *)
Definition double_of_Z (z : Z) : float := binary_normalize dprec demax z 0 false.
Definition single_of_Z (z : Z) : float := binary_normalize fprec femax z 0 false.

(** The promotion [float -> double] is exact; the result is renormalised to
    the binary64 canonical form. *)
Definition double_of_single (x : float) : float :=
  match x with
  | S754_finite s m e =>
      binary_normalize dprec demax (if s then Z.neg m else Z.pos m) e false
  | _ => x
  end.

(** [x > y] and [x < y]; both are false when an operand is NaN. *)
Definition gt (x y : float) : bool := SFltb y x.
Definition lt (x y : float) : bool := SFltb x y.

Definition is_nan (x : float) : bool :=
  match x with S754_nan => true | _ => false end.

(** Neither an infinity nor NaN. *)
Definition is_finite (x : float) : bool :=
  match x with S754_zero _ | S754_finite _ _ _ => true | _ => false end.

(** Truncation toward zero, the value of a floating-to-integer
    conversion; [None] for infinities and NaN. *)
Definition trunc (x : float) : option Z :=
  match x with
  | S754_zero _ => Some 0
  | S754_finite s m e =>
      let a := Z.shiftl (Z.pos m) e in
      Some (if s then - a else a)
  | S754_infinity _ | S754_nan => None
  end.

Section Conversions.
(** A conversion whose truncated operand does not fit the destination
    type has no value defined by the language; [undef x] stands for the
    bits the platform's instruction delivers then. *)
Variable undef : float -> Z.

Definition to_unsigned (bits : Z) (x : float) : Z :=
  match trunc x with
  | Some t =>
      if (0 <=? t) && (t <? 2 ^ bits) then t else CInt.wrap bits (undef x)
  | None => CInt.wrap bits (undef x)
  end.

Definition to_signed (bits : Z) (x : float) : Z :=
  match trunc x with
  | Some t =>
      if (- 2 ^ (bits - 1) <=? t) && (t <? 2 ^ (bits - 1)) then t
      else CInt.to_signed bits (undef x)
  | None => CInt.to_signed bits (undef x)
  end.
End Conversions.

(** AArch64 [fcvtzu]: saturate, NaN gives 0. *)
Definition undef_saturating (bits : Z) (x : float) : Z :=
  match x with
  | S754_infinity false | S754_finite false _ _ => 2 ^ bits - 1
  | _ => 0
  end.

(** [(double)w * ((double)m / (double)s)] truncated toward zero: the value
    both tools convert to an integer type for a resized dimension. *)
Definition scaled (w m s : Z) : option Z :=
  trunc (dmul (double_of_Z w) (ddiv (double_of_Z m) (double_of_Z s))).

End IEEE.

(** ** The C library calls the tools use *)

Module Libc.

Definition isspace (c : ascii) : bool :=
  match c with
  | " "%char | "009"%char | "010"%char | "011"%char | "012"%char
  | "013"%char => true
  | _ => false
  end.

Definition digit_val (c : ascii) : option Z :=
  let n := Z.of_nat (nat_of_ascii c) in
  if (48 <=? n) && (n <=? 57) then Some (n - 48) else None.

Definition hex_val (c : ascii) : option Z :=
  let n := Z.of_nat (nat_of_ascii c) in
  if (48 <=? n) && (n <=? 57) then Some (n - 48)
  else if (97 <=? n) && (n <=? 102) then Some (n - 87)
  else if (65 <=? n) && (n <=? 70) then Some (n - 55)
  else None.

Definition to_lower (c : ascii) : ascii :=
  let n := nat_of_ascii c in
  if ((65 <=? n) && (n <=? 90))%nat then ascii_of_nat (n + 32) else c.

Fixpoint skip_space (s : string) : string :=
  match s with
  | String c r => if isspace c then skip_space r else s
  | EmptyString => s
  end.

(** Reads a run of digits in base [base]: accumulated value, number of
    digits read, rest of the input. *)
Fixpoint read_digits (val : ascii -> option Z) (base : Z) (s : string)
         (acc : Z) (n : Z) : Z * Z * string :=
  match s with
  | String c r =>
      match val c with
      | Some d => read_digits val base r (acc * base + d) (n + 1)
      | None => (acc, n, s)
      end
  | EmptyString => (acc, n, s)
  end.

(** Case-insensitive match of a lower-case keyword at the head of [s]. *)
Fixpoint match_keyword (kw s : string) : option string :=
  match kw with
  | EmptyString => Some s
  | String k kw' =>
      match s with
      | String c r => if Ascii.eqb (to_lower c) k then match_keyword kw' r else None
      | EmptyString => None
      end
  end.

(** Optional exponent part: marker character, optional sign, at least one
    decimal digit.  Nothing is consumed when the digits are missing. *)
Definition read_exponent (marker : ascii) (s : string) : Z * string :=
  match s with
  | String c r =>
      if Ascii.eqb (to_lower c) marker then
        let '(neg, r1) :=
          match r with
          | String "-"%char r' => (true, r')
          | String "+"%char r' => (false, r')
          | _ => (false, r)
          end in
        let '(e, n, r2) := read_digits digit_val 10 r1 0 0 in
        if 0 <? n then (if neg then - e else e, r2) else (0, s)
      else (0, s)
  | EmptyString => (0, s)
  end.

Definition signed_zero (neg : bool) : IEEE.float := S754_zero neg.

(** The correctly rounded binary64 value of [(-1)^neg * m * 10^k]. *)
Definition decimal_value (neg : bool) (m k : Z) : IEEE.float :=
  match m with
  | Z.pos p =>
      if 0 <=? k then
        IEEE.double_of_Z (if neg then - (m * 10 ^ k) else m * 10 ^ k)
      else
        SFdiv IEEE.dprec IEEE.demax
              (S754_finite neg p 0) (S754_finite false (Z.to_pos (10 ^ (- k))) 0)
  | _ => signed_zero neg
  end.

(** The correctly rounded binary64 value of [(-1)^neg * m * 2^e]. *)
Definition binary_value (neg : bool) (m e : Z) : IEEE.float :=
  binary_normalize IEEE.dprec IEEE.demax (if neg then - m else m) e neg.

(** A decimal floating constant: digits, optional radix point and digits,
    optional exponent; at least one digit is required. *)
Definition read_decimal (neg : bool) (s : string) : option (IEEE.float * string) :=
  let '(ip, ni, r1) := read_digits digit_val 10 s 0 0 in
  let '(m, nf, r2) :=
    match r1 with
    | String "."%char r' =>
        let '(m, nf, r2) := read_digits digit_val 10 r' ip 0 in
        (m, nf, r2)
    | _ => (ip, 0, r1)
    end in
  if 0 <? ni + nf then
    let '(e, r3) := read_exponent "e"%char r2 in
    Some (decimal_value neg m (e - nf), r3)
  else None.

(** A hexadecimal floating constant after its [0x] prefix. *)
Definition read_hex (neg : bool) (s : string) : option (IEEE.float * string) :=
  let '(ip, ni, r1) := read_digits hex_val 16 s 0 0 in
  let '(m, nf, r2) :=
    match r1 with
    | String "."%char r' =>
        let '(m, nf, r2) := read_digits hex_val 16 r' ip 0 in
        (m, nf, r2)
    | _ => (ip, 0, r1)
    end in
  if 0 <? ni + nf then
    let '(e, r3) := read_exponent "p"%char r2 in
    Some (binary_value neg m (e - 4 * nf), r3)
  else None.

Definition isalnum_ (c : ascii) : bool :=
  let n := Z.of_nat (nat_of_ascii c) in
  ((48 <=? n) && (n <=? 57)) || ((97 <=? n) && (n <=? 122))
  || ((65 <=? n) && (n <=? 90)) || (n =? 95).

Fixpoint skip_nchar (s : string) : string :=
  match s with
  | String c r => if isalnum_ c then skip_nchar r else s
  | EmptyString => s
  end.

(** [nan] with its optional [(n-char-sequence)]. *)
Definition read_nan_suffix (s : string) : string :=
  match s with
  | String "("%char r =>
      match skip_nchar r with
      | String ")"%char r' => r'
      | _ => s
      end
  | _ => s
  end.

(** The subject sequence of [strtod] once white space and sign are gone. *)
Definition read_number (neg : bool) (s : string) : option (IEEE.float * string) :=
  match match_keyword "infinity"%string s with
  | Some r => Some (S754_infinity neg, r)
  | None =>
  match match_keyword "inf"%string s with
  | Some r => Some (S754_infinity neg, r)
  | None =>
  match match_keyword "nan"%string s with
  | Some r => Some (S754_nan, read_nan_suffix r)
  | None =>
  match match_keyword "0x"%string s with
  | Some r =>
      match read_hex neg r with
      | Some res => Some res
      | None => read_decimal neg s
      end
  | None => read_decimal neg s
  end end end end.

(** [strtod(p, &end)] in the C locale: [Some (value, end)] when a
    conversion is performed, [None] when [end == p]. *)
Definition strtod (s : string) : option (IEEE.float * string) :=
  match skip_space s with
  | String "-"%char r => read_number true r
  | String "+"%char r => read_number false r
  | r => read_number false r
  end.

(** [atof(s)] is [strtod(s, NULL)]. *)
Definition atof (s : string) : IEEE.float :=
  match strtod s with
  | Some (v, _) => v
  | None => S754_zero false
  end.

Definition LONG_MAX : Z := 2 ^ 63 - 1.
Definition LONG_MIN : Z := - 2 ^ 63.

(** [strtol(s, NULL, 10)]: saturates at the bounds of [long]. *)
Definition strtol10 (s : string) : Z :=
  let '(neg, r) :=
    match skip_space s with
    | String "-"%char r => (true, r)
    | String "+"%char r => (false, r)
    | r => (false, r)
    end in
  let '(v, _, _) := read_digits digit_val 10 r 0 0 in
  let v := if neg then - v else v in
  Z.max LONG_MIN (Z.min LONG_MAX v).

(** [atoi(s)] is [(int)strtol(s, NULL, 10)]. *)
Definition atoi (s : string) : Z := CInt.int32_t (strtol10 s).

Definition strcmp_eq (a b : string) : bool := String.eqb a b.

(** *** Formatted output *)

Fixpoint digits_fuel (fuel : nat) (z : Z) (acc : string) : string :=
  match fuel with
  | O => acc
  | S f =>
      let acc' := String (ascii_of_nat (48 + Z.to_nat (z mod 10))) acc in
      if z / 10 =? 0 then acc' else digits_fuel f (z / 10) acc'
  end.

(** [%u], [%zu], [%llu] of a non-negative value. *)
Definition fmt_u (z : Z) : string :=
  digits_fuel (S (Z.to_nat (Z.log2 z))) z EmptyString.

Fixpoint zeros (n : nat) : string :=
  match n with O => EmptyString | S k => String "0"%char (zeros k) end.

(** [%0Nzu]: zero padding up to a minimum width. *)
Definition fmt_0u (width : nat) (z : Z) : string :=
  let d := fmt_u z in
  (zeros (width - String.length d) ++ d)%string.

(** The integer nearest to [num / den], ties to even ([den > 0]). *)
Definition round_half_even (num den : Z) : Z :=
  let q := num / den in
  let r := num mod den in
  match 2 * r ?= den with
  | Lt => q
  | Gt => q + 1
  | Eq => if Z.even q then q else q + 1
  end.

(** [%.Nf] of a [double]. *)
Definition fmt_f (digits : nat) (x : IEEE.float) : string :=
  let sign (s : bool) := (if s then "-" else EmptyString)%string in
  let fixed (scaled : Z) :=
    let p := 10 ^ Z.of_nat digits in
    (fmt_u (scaled / p) ++
     match digits with
     | O => EmptyString
     | _ => "." ++ fmt_0u digits (scaled mod p)
     end)%string in
  match x with
  | S754_nan => "nan"%string
  | S754_infinity s => (sign s ++ "inf")%string
  | S754_zero s => (sign s ++ fixed 0)%string
  | S754_finite s m e =>
      let num := Z.pos m * 10 ^ Z.of_nat digits in
      let scaled :=
        if 0 <=? e then num * 2 ^ e else round_half_even num (2 ^ (- e)) in
      (sign s ++ fixed scaled)%string
  end.

(** [snprintf(buf, size, ...)] keeps the first [size - 1] characters. *)
Definition snprintf (size : nat) (formatted : string) : string :=
  substring 0 (size - 1) formatted.

Definition dquote : string := String "034"%char EmptyString.
Definition newline : string := String "010"%char EmptyString.

(** What [%s] prints of [s.c_str()] for a [std::string] [s]: the characters
    before its first NUL. *)
Fixpoint c_str (s : string) : string :=
  match s with
  | EmptyString => EmptyString
  | String c r => if Ascii.eqb c "000"%char then EmptyString else String c (c_str r)
  end.

(** A value between double quotes. *)
Definition quoted (v : string) : string := (dquote ++ v ++ dquote)%string.

(** A member name of the printed object with its colon. *)
Definition key (k : string) : string := (quoted k ++ ":")%string.

End Libc.

(** ** Outcomes of the platform calls (CoreGraphics, ImageIO, stdio) *)

Module Platform.

(** What the CoreGraphics and ImageIO calls of one JPEG write return:
    [true] for a non-null object, or for a successful finalize. *)
Record CoreGraphics := {
  cg_colorSpace : bool;     (* CGColorSpaceCreate...            *)
  cg_dataProvider : bool;   (* CGDataProviderCreateWithData     *)
  cg_srcImage : bool;       (* CGImageCreate                    *)
  cg_resizeCtx : bool;      (* CGBitmapContextCreate            *)
  cg_resizedImage : bool;   (* CGBitmapContextCreateImage       *)
  cg_url : bool;            (* CFURLCreateWithFileSystemPath    *)
  cg_dest : bool;           (* CGImageDestinationCreateWithURL  *)
  cg_finalize : bool        (* CGImageDestinationFinalize       *)
}.

(** The output file of extract-audio, opened with [fopen]: the 44-byte
    header fields and the payload bytes handed to [fwrite], and whether the
    stream was closed with [fclose].  What a stream that was never closed
    has put into its file is not determined. *)
Record File (H : Type) := {
  file_header : H;
  file_payload : list Z;
  file_closed : bool
}.
Arguments file_header {H} _.
Arguments file_payload {H} _.
Arguments file_closed {H} _.

(** What a run of a tool returns and does through stdio: its exit status,
    what it printed on standard output, and the audio file it opened.  The
    JPEG images are written by the imaging calls; whether an image was
    written is the value [WriteJPEG] or [writeBGRAasJPEG] returns, and is
    not part of a [Run]. *)
Record Run (H : Type) := {
  exit_code : Z;
  stdout : string;
  written : option (File H)
}.
Arguments exit_code {H} _.
Arguments stdout {H} _.
Arguments written {H} _.

(** The status a shell reports for a process ended by [abort()], as after
    an exception nothing catches: 128 + SIGABRT. *)
Definition SIGABRT_status : Z := 134.

Definition PTRDIFF_MAX : Z := 2 ^ 63 - 1.

(** [std::vector<T> v(n)] with elements of [size] bytes.  A vector of more
    than [PTRDIFF_MAX] bytes is never constructed: libstdc++ throws
    [std::length_error], and the allocation libc++ attempts throws
    [std::bad_alloc].  Below that, memory is taken to suffice. *)
Definition vector_constructed (size n : Z) : bool := size * n <=? PTRDIFF_MAX.

End Platform.

(** ** braw-tool *)

Module Braw.

Import Platform.

Definition HRESULT : Type := Z.
Definition S_OK : HRESULT := 0.
(** [hr == S_OK] *)
Definition is_ok (hr : HRESULT) : bool := hr =? S_OK.

Section Scaling.
Variable undef : IEEE.float -> Z.

(** Lines 138-151 of [WriteJPEG]: [(dstW, dstH)]. *)
Definition WriteJPEG_dst (srcW srcH maxDim : Z) : Z * Z :=
  if 0 <? maxDim then
    let shortEdge := if srcW <? srcH then srcW else srcH in
    if CInt.uint32_t maxDim <? shortEdge then
      let scale := IEEE.ddiv (IEEE.double_of_Z maxDim) (IEEE.double_of_Z shortEdge) in
      let dstW := IEEE.to_unsigned undef 32 (IEEE.dmul (IEEE.double_of_Z srcW) scale) in
      let dstH := IEEE.to_unsigned undef 32 (IEEE.dmul (IEEE.double_of_Z srcH) scale) in
      (CInt.round_even 32 dstW, CInt.round_even 32 dstH)
    else (srcW, srcH)
  else (srcW, srcH).

(** Line 153: [needsResize]. *)
Definition needsResize (srcW srcH maxDim : Z) : bool :=
  let '(dstW, dstH) := WriteJPEG_dst srcW srcH maxDim in
  negb (dstW =? srcW) || negb (dstH =? srcH).

(** [WriteJPEG]: the value returned, given what the imaging calls do. *)
Definition WriteJPEG (cg : CoreGraphics) (srcW srcH maxDim : Z) : bool :=
  let finalImage :=
    if needsResize srcW srcH maxDim && cg_resizeCtx cg
    then cg_resizedImage cg else cg_srcImage cg in
  if cg_url cg && finalImage then
    if cg_dest cg then cg_finalize cg else false
  else false.
End Scaling.

(** *** The SDK objects *)

(** A getter writes its out-parameter and returns an [HRESULT]. *)
Definition Getter (A : Type) : Type := (HRESULT * A)%type.

(** The calls made while one frame is extracted. *)
Record FrameSdk := {
  hr_SetCallback : HRESULT;
  hr_CreateJobReadFrame : Z -> HRESULT;
  hr_SubmitRead : HRESULT;
  hr_ReadComplete : HRESULT;
  hr_CreateJobDecodeAndProcessFrame : HRESULT;
  hr_SubmitDecode : HRESULT;
  hr_ProcessComplete : HRESULT;
  img_GetWidth : Getter Z;
  img_GetHeight : Getter Z;
  img_GetResourceSizeBytes : Getter Z;
  img_GetResource : Getter bool;
  frame_cg : CoreGraphics
}.

Record ClipAudio := {
  GetAudioSampleCount : Getter Z;
  GetAudioBitDepth : Getter Z;
  GetAudioChannelCount : Getter Z;
  GetAudioSampleRate : Getter Z;
  (* by sample index: status, samplesRead, and the bytesRead bytes put in
     the buffer *)
  GetAudioSamples : Z -> HRESULT * Z * list Z
}.

Record Clip := {
  GetWidth : Getter Z;
  GetHeight : Getter Z;
  GetFrameRate : Getter IEEE.float;
  GetFrameCount : Getter Z;
  (* QueryInterface(IID_IBlackmagicRawClipAudio, &audio) *)
  QueryInterface_audio : HRESULT * option ClipAudio;
  (* the calls of the n-th frame extraction of the run *)
  frame_sdk : nat -> FrameSdk
}.

Record Sdk := {
  CreateFactory : bool;
  hr_CreateCodec : HRESULT;
  OpenClip : string -> HRESULT * Clip;
  fopen_wb : string -> bool
}.

(** The value an out-parameter holds after the call: the initialiser when
    the getter failed. *)
Definition out {A : Type} (init : A) (g : Getter A) : A :=
  if is_ok (fst g) then snd g else init.

Record FrameResult := { success : bool; errorMsg : string }.

Section Frames.
Variable undef : IEEE.float -> Z.

(** [FrameCallback::ProcessComplete] *)
Definition ProcessComplete (f : FrameSdk) (outputPath : option string)
           (maxDim : Z) : FrameResult :=
  let hr := hr_ProcessComplete f in
  let '(hr, width) :=
    if is_ok hr then img_GetWidth f else (hr, 0) in
  let '(hr, height) :=
    if is_ok hr then img_GetHeight f else (hr, 0) in
  let '(hr, sizeBytes) :=
    if is_ok hr then img_GetResourceSizeBytes f else (hr, 0) in
  let '(hr, rawData) :=
    if is_ok hr then img_GetResource f else (hr, false) in
  match outputPath with
  | Some _ =>
      if is_ok hr && rawData then
        if WriteJPEG undef (frame_cg f) width height maxDim
        then {| success := true; errorMsg := EmptyString |}
        else {| success := false; errorMsg := "JPEG write failed" |}
      else {| success := false; errorMsg := "decode/process failed" |}
  | None => {| success := false; errorMsg := "decode/process failed" |}
  end.

(** [codec->FlushJobs()]: the SDK runs [ReadComplete] for the submitted
    read job and, when that one submitted a decode job, [ProcessComplete]
    for it. *)
Definition FlushJobs (f : FrameSdk) (outputPath : option string)
           (maxDim : Z) : FrameResult :=
  if is_ok (hr_ReadComplete f) then
    let hr := hr_CreateJobDecodeAndProcessFrame f in
    let hr := if is_ok hr then hr_SubmitDecode f else hr in
    if is_ok hr then ProcessComplete f outputPath maxDim
    else {| success := false; errorMsg := "decode job failed" |}
  else {| success := false; errorMsg := EmptyString |}.

(** Lines 286-292 of [ExtractOneFrame]: the index given to
    [CreateJobReadFrame]. *)
Definition frameIndex (clip : Clip) (fps timeSec : IEEE.float) : Z :=
  let frameIndex :=
    IEEE.to_unsigned undef 64 (IEEE.dmul timeSec (IEEE.double_of_single fps)) in
  let frameCount := out 0 (GetFrameCount clip) in
  if (0 <? frameCount) && (frameCount <=? frameIndex)
  then frameCount - 1 else frameIndex.

Definition ExtractOneFrame (clip : Clip) (f : FrameSdk)
           (fps timeSec : IEEE.float) (outputPath : string) (maxDim : Z) : Z :=
  let frameIndex := frameIndex clip fps timeSec in
  if negb (is_ok (hr_SetCallback f)) then 1
  else if negb (is_ok (hr_CreateJobReadFrame f frameIndex)) then 1
  else if negb (is_ok (hr_SubmitRead f)) then 1
  else
    let result := FlushJobs f (Some outputPath) maxDim in
    if negb (success result) then 1 else 0.
End Frames.

(** *** [WavHeader] *)

Record WavHeader := {
  wavContentSize : Z;
  fmtChunkSize : Z;
  audioFormat : Z;
  channelCount : Z;
  sampleRate : Z;
  bytesPerSecond : Z;
  blockAlign : Z;
  bitDepth : Z;
  dataBytes : Z
}.

Definition Result : Type := Run WavHeader.

Definition exit_with (code : Z) (out : string) : Result :=
  {| exit_code := code; stdout := out; written := None |}.

(** *** [ParseTimesJSON] *)

(** The scan for the opening bracket: p advances while it points at a
    character other than the bracket. *)
Fixpoint skip_to_bracket (p : string) : string :=
  match p with
  | String c r => if Ascii.eqb c "["%char then p else skip_to_bracket r
  | EmptyString => p
  end.

(** The opening bracket, when present, is stepped over. *)
Definition skip_bracket (p : string) : string :=
  match p with
  | String "["%char r => r
  | _ => p
  end.

(** Spaces and commas before an element are skipped. *)
Fixpoint skip_separators (p : string) : string :=
  match p with
  | String c r =>
      if Ascii.eqb c " "%char || Ascii.eqb c ","%char
      then skip_separators r else p
  | EmptyString => p
  end.

(** The main loop of [ParseTimesJSON]; every iteration moves [p] forward,
    so the length of the input bounds their number. *)
Fixpoint parse_times (fuel : nat) (p : string) : list IEEE.float :=
  match fuel with
  | O => []
  | S fuel' =>
      match p with
      | EmptyString => []
      | _ =>
          match skip_separators p with
          | EmptyString => []
          | String "]"%char _ => []
          | String _ next as p' =>
              match Libc.strtod p' with
              | Some (val, end_) => val :: parse_times fuel' end_
              | None => parse_times fuel' next
              end
          end
      end
  end.

Definition ParseTimesJSON (json : string) : list IEEE.float :=
  parse_times (S (String.length json)) (skip_bracket (skip_to_bracket json)).

Definition zero : IEEE.float := S754_zero false.

Section Commands.
Variable undef : IEEE.float -> Z.
Variable sdk : Sdk.

(** *** [CmdProbe] *)

Definition probe_duration (fps : IEEE.float) (frameCount : Z) : IEEE.float :=
  if IEEE.gt fps zero
  then IEEE.ddiv (IEEE.double_of_Z frameCount) (IEEE.double_of_single fps)
  else zero.

Definition CmdProbe (filePath : string) : Result :=
  if negb (CreateFactory sdk) then exit_with 1 EmptyString
  else if negb (is_ok (hr_CreateCodec sdk)) then exit_with 1 EmptyString
  else
    let '(hr, clip) := OpenClip sdk filePath in
    if negb (is_ok hr) then exit_with 1 EmptyString
    else
      let width := out 0 (GetWidth clip) in
      let height := out 0 (GetHeight clip) in
      let fps := out zero (GetFrameRate clip) in
      let frameCount := out 0 (GetFrameCount clip) in
      let duration := probe_duration fps frameCount in
      let '(audioChannels, audioSampleRate, audioBitDepth, hasAudio) :=
        match QueryInterface_audio clip with
        | (hr, Some audio) =>
            if is_ok hr then
              let ch := out 0 (GetAudioChannelCount audio) in
              (ch, out 0 (GetAudioSampleRate audio),
               out 0 (GetAudioBitDepth audio), 0 <? ch)
            else (0, 0, 0, false)
        | (_, None) => (0, 0, 0, false)
        end in
      exit_with 0
        ("{" ++ Libc.key "width" ++ Libc.fmt_u width
         ++ "," ++ Libc.key "height" ++ Libc.fmt_u height
         ++ "," ++ Libc.key "fps" ++ Libc.fmt_f 4 (IEEE.double_of_single fps)
         ++ "," ++ Libc.key "frameCount" ++ Libc.fmt_u frameCount
         ++ "," ++ Libc.key "duration" ++ Libc.fmt_f 4 duration
         ++ "," ++ Libc.key "codec" ++ Libc.quoted "braw"
         ++ "," ++ Libc.key "hasAudio" ++ (if hasAudio then "true" else "false")
         ++ "," ++ Libc.key "audioChannels" ++ Libc.fmt_u audioChannels
         ++ "," ++ Libc.key "audioSampleRate" ++ Libc.fmt_u audioSampleRate
         ++ "," ++ Libc.key "audioBitDepth" ++ Libc.fmt_u audioBitDepth
         ++ "}" ++ Libc.newline)%string.
(** *** [CmdExtractFrame] *)

Definition CmdExtractFrame (filePath : string) (timeSec : IEEE.float)
           (outputPath : string) (maxDim : Z) : Result :=
  if negb (CreateFactory sdk) then exit_with 1 EmptyString
  else if negb (is_ok (hr_CreateCodec sdk)) then exit_with 1 EmptyString
  else
    let '(hr, clip) := OpenClip sdk filePath in
    if negb (is_ok hr) then exit_with 1 EmptyString
    else
      let fps := out zero (GetFrameRate clip) in
      exit_with
        (ExtractOneFrame undef clip (frame_sdk clip 0) fps timeSec outputPath maxDim)
        EmptyString.

(** *** [CmdExtractFrames] *)

(** [snprintf(outPath, sizeof(outPath), "%s/frame_%04zu.jpg", outputDir, i)]
    with [char outPath[4096]]. *)
Definition frame_path (outputDir : string) (i : nat) : string :=
  Libc.snprintf 4096
    (outputDir ++ "/frame_" ++ Libc.fmt_0u 4 (Z.of_nat i) ++ ".jpg")%string.

(** The [for] loop over [times], from index [i] on: what it prints. *)
Fixpoint extract_frames_loop (clip : Clip) (fps : IEEE.float)
         (outputDir : string) (maxDim : Z) (i : nat)
         (times : list IEEE.float) : string :=
  match times with
  | [] => EmptyString
  | t :: rest =>
      let outPath := frame_path outputDir i in
      let frameRet :=
        ExtractOneFrame undef clip (frame_sdk clip i) fps t outPath maxDim in
      let comma := if (0 <? i)%nat then ","%string else EmptyString in
      let element :=
        if frameRet =? 0 then Libc.quoted outPath else "null"%string in
      (comma ++ element
       ++ extract_frames_loop clip fps outputDir maxDim (S i) rest)%string
  end.

Definition CmdExtractFrames (filePath timesJSON outputDir : string)
           (maxDim : Z) : Result :=
  let times := ParseTimesJSON timesJSON in
  match times with
  | [] => exit_with 1 EmptyString
  | _ =>
      if negb (CreateFactory sdk) then exit_with 1 EmptyString
      else if negb (is_ok (hr_CreateCodec sdk)) then exit_with 1 EmptyString
      else
        let '(hr, clip) := OpenClip sdk filePath in
        if negb (is_ok hr) then exit_with 1 EmptyString
        else
          let fps := out zero (GetFrameRate clip) in
          exit_with 0
            ("[" ++ extract_frames_loop clip fps outputDir maxDim 0 times
                 ++ "]" ++ Libc.newline)%string
  end.

(** *** [CmdExtractAudio] *)

Definition kMaxSamples : Z := 48000.

(** The read loop: the bytes handed to [fwrite].  An iteration that goes
    on has read at least one sample, so [sampleCount] bounds the number of
    iterations. *)
Fixpoint read_audio (fuel : nat) (audio : ClipAudio)
         (sampleIndex sampleCount : Z) : list Z :=
  match fuel with
  | O => []
  | S fuel' =>
      if sampleIndex <? sampleCount then
        let '(hr, samplesRead, bytes) := GetAudioSamples audio sampleIndex in
        if negb (is_ok hr) || (samplesRead =? 0) then []
        else
          bytes ++ read_audio fuel' audio
                     (CInt.uint64_t (sampleIndex + samplesRead)) sampleCount
      else []
  end.

(** The read buffer, line 534, is a [std::vector<int8_t>] of [bufSize]
    bytes, a [uint32_t] divided by 8: such a vector is always constructed
    ([Platform.vector_constructed]), and its construction is left out. *)
Definition CmdExtractAudio (filePath outputPath : string) : Result :=
  if negb (CreateFactory sdk) then exit_with 1 EmptyString
  else if negb (is_ok (hr_CreateCodec sdk)) then exit_with 1 EmptyString
  else
    let '(hr, clip) := OpenClip sdk filePath in
    if negb (is_ok hr) then exit_with 1 EmptyString
    else
      match QueryInterface_audio clip with
      | (hr, Some audio) =>
          if negb (is_ok hr) then exit_with 1 EmptyString
          else
            let sampleCount := out 0 (GetAudioSampleCount audio) in
            let bitDepth := out 0 (GetAudioBitDepth audio) in
            let channelCount := out 0 (GetAudioChannelCount audio) in
            let sampleRate := out 0 (GetAudioSampleRate audio) in
            if (sampleCount =? 0) || (channelCount =? 0)
            then exit_with 1 EmptyString
            else
              let dataBytes :=
                CInt.uint64_t (CInt.uint64_t (sampleCount * channelCount) * bitDepth) / 8 in
              let hdr :=
                {| wavContentSize := CInt.uint32_t (36 + CInt.uint32_t dataBytes);
                   fmtChunkSize := 16;
                   audioFormat := 1;
                   channelCount := CInt.uint16_t channelCount;
                   sampleRate := sampleRate;
                   bytesPerSecond :=
                     CInt.uint32_t (CInt.uint32_t (sampleRate * channelCount) * bitDepth) / 8;
                   blockAlign :=
                     CInt.uint16_t (CInt.uint32_t (channelCount * bitDepth) / 8);
                   bitDepth := CInt.uint16_t bitDepth;
                   dataBytes := CInt.uint32_t dataBytes |} in
              if negb (fopen_wb sdk outputPath) then exit_with 1 EmptyString
              else
                let payload :=
                  read_audio (Z.to_nat sampleCount) audio 0 sampleCount in
                {| exit_code := 0;
                   stdout :=
                     ("{" ++ Libc.key "sampleRate" ++ Libc.fmt_u sampleRate
                      ++ "," ++ Libc.key "channels" ++ Libc.fmt_u channelCount
                      ++ "," ++ Libc.key "bitDepth" ++ Libc.fmt_u bitDepth
                      ++ "," ++ Libc.key "samples" ++ Libc.fmt_u sampleCount
                      ++ "," ++ Libc.key "outputPath" ++ Libc.quoted outputPath
                      ++ "}" ++ Libc.newline)%string;
                   written :=
                     Some {| file_header := hdr; file_payload := payload;
                             file_closed := true |} |}
      | (_, None) => exit_with 1 EmptyString
      end.

(** *** [main] *)

(** The scan for [--max-dim] from [argv[i]] on, [rest] being [argv] from
    index [i]: the value and the index where the option stands. *)
Fixpoint find_max_dim (i : nat) (rest : list string) : option (Z * nat) :=
  match rest with
  | a :: (b :: _) as tl =>
      if Libc.strcmp_eq a "--max-dim" then Some (Libc.atoi b, i)
      else find_max_dim (S i) tl
  | _ => None
  end.

Definition main (argv : list string) : Result :=
  let argc := List.length argv in
  if (argc <? 3)%nat then exit_with 1 EmptyString
  else
    let arg (i : nat) := nth i argv EmptyString in
    let cmd := arg 1%nat in
    let '(maxDim, effectiveArgc) :=
      match find_max_dim 3 (skipn 3 argv) with
      | Some r => r
      | None => (512, argc)
      end in
    if Libc.strcmp_eq cmd "probe" && (3 <=? effectiveArgc)%nat
    then CmdProbe (arg 2%nat)
    else if Libc.strcmp_eq cmd "extract-frame" && (5 <=? effectiveArgc)%nat
    then CmdExtractFrame (arg 2%nat) (Libc.atof (arg 3%nat)) (arg 4%nat) maxDim
    else if Libc.strcmp_eq cmd "extract-frames" && (5 <=? effectiveArgc)%nat
    then CmdExtractFrames (arg 2%nat) (arg 3%nat) (arg 4%nat) maxDim
    else if Libc.strcmp_eq cmd "extract-audio" && (4 <=? effectiveArgc)%nat
    then CmdExtractAudio (arg 2%nat) (arg 3%nat)
    else exit_with 1 EmptyString.

End Commands.

End Braw.

(** ** r3d-tool *)

Module R3d.

Import Platform.

Section Scaling.
Variable undef : IEEE.float -> Z.

(** Lines 67-78 of [writeBGRAasJPEG]: [(outW, outH)]. *)
Definition writeBGRAasJPEG_out (width height maxDim : Z) : Z * Z :=
  if 0 <? maxDim then
    let shortEdge := if width <? height then width else height in
    if maxDim <? CInt.int32_t shortEdge then
      let scale := IEEE.ddiv (IEEE.double_of_Z maxDim) (IEEE.double_of_Z shortEdge) in
      let outW := IEEE.to_unsigned undef 64 (IEEE.dmul (IEEE.double_of_Z width) scale) in
      let outH := IEEE.to_unsigned undef 64 (IEEE.dmul (IEEE.double_of_Z height) scale) in
      (CInt.round_even 64 outW, CInt.round_even 64 outH)
    else (width, height)
  else (width, height).

(** [writeBGRAasJPEG]: the value returned, given what the imaging calls do. *)
Definition writeBGRAasJPEG (cg : CoreGraphics) (width height maxDim : Z) : bool :=
  if negb (cg_colorSpace cg) then false
  else if negb (cg_dataProvider cg) then false
  else if negb (cg_srcImage cg) then false
  else if negb (cg_dest cg) then false
  else cg_finalize cg.
End Scaling.

(** *** The SDK objects *)

Inductive InitializeStatus := ISInitializeOK | ISInitializeFailed (code : Z).
Inductive LoadStatus := LSClipLoaded | LSLoadFailed (code : Z).
Inductive DecodeStatus := DSDecodeOK | DSDecodeFailed (code : Z).

Definition decode_ok (ds : DecodeStatus) : bool :=
  match ds with DSDecodeOK => true | DSDecodeFailed _ => false end.

Inductive MetadataKey :=
  RMD_SAMPLERATE | RMD_REDCODE | RMD_CAMERA_MODEL | RMD_AUDIO_FORMAT.

Inductive DecodeMode := DECODE_QUARTER_RES_GOOD | DECODE_EIGHT_RES_GOOD.

Record Clip := {
  Width : Z;
  Height : Z;
  VideoAudioFramerate : IEEE.float;
  VideoFrameCount : Z;
  AudioChannelCount : Z;
  AudioSampleCount : Z;
  MetadataExists : MetadataKey -> bool;
  MetadataItemAsInt : MetadataKey -> Z;
  MetadataItemAsString : MetadataKey -> string;
  (* by position in the batch, frame number and mode *)
  DecodeVideoFrame : nat -> Z -> DecodeMode -> DecodeStatus;
  (* by start sample and samples wanted: status, samples got, buffer bytes *)
  DecodeAudio : Z -> Z -> DecodeStatus * Z * (nat -> Z);
  (* the same for float audio: the buffer holds binary32 values *)
  DecodeFloatAudio : Z -> Z -> DecodeStatus * Z * (nat -> IEEE.float)
}.

Record Sdk := {
  InitializeSdk : InitializeStatus;
  LoadFrom : string -> LoadStatus * Clip;
  (* posix_memalign, by alignment and size *)
  alloc_ok : Z -> Z -> bool;
  (* the imaging calls of the n-th JPEG write of the run *)
  jpeg_cg : nat -> CoreGraphics;
  fopen_wb : string -> bool
}.

(** *** [WAVHeader] *)

Record WAVHeader := {
  fileSize : Z;
  fmtSize : Z;
  audioFmt : Z;
  channels : Z;
  sampleRate : Z;
  byteRate : Z;
  blockAlign : Z;
  bitsPerSamp : Z;
  dataSize : Z
}.

Definition Result : Type := Run WAVHeader.

Definition exit_with (code : Z) (out : string) : Result :=
  {| exit_code := code; stdout := out; written := None |}.

(** *** [jsonEscape] *)

Fixpoint jsonEscape (s : string) : string :=
  match s with
  | EmptyString => EmptyString
  | String c r =>
      let bs := String "092"%char EmptyString in
      ((if Ascii.eqb c "034"%char then bs ++ Libc.dquote
        else if Ascii.eqb c "092"%char then bs ++ bs
        else if Ascii.eqb c "010"%char then bs ++ "n"
        else if Ascii.eqb c "013"%char then bs ++ "r"
        else if Ascii.eqb c "009"%char then bs ++ "t"
        else String c EmptyString) ++ jsonEscape r)%string
  end.

(** *** The inline timestamp parser of [cmd_extract_frames] *)

Fixpoint skip_to_bracket (p : string) : string :=
  match p with
  | String c r => if Ascii.eqb c "["%char then p else skip_to_bracket r
  | EmptyString => p
  end.

Definition skip_bracket (p : string) : string :=
  match p with
  | String "["%char r => r
  | _ => p
  end.

(** Spaces, commas and newlines before an element are skipped. *)
Fixpoint skip_separators (p : string) : string :=
  match p with
  | String c r =>
      if Ascii.eqb c " "%char || Ascii.eqb c ","%char || Ascii.eqb c "010"%char
      then skip_separators r else p
  | EmptyString => p
  end.

(** The main loop of the parser: it stops at the first element [strtod]
    does not convert. *)
Fixpoint parse_times (fuel : nat) (p : string) : list IEEE.float :=
  match fuel with
  | O => []
  | S fuel' =>
      match p with
      | EmptyString => []
      | _ =>
          match skip_separators p with
          | EmptyString => []
          | String "]"%char _ => []
          | p' =>
              match Libc.strtod p' with
              | Some (t, end_) => t :: parse_times fuel' end_
              | None => []
              end
          end
      end
  end.

Definition parse_timesJson (timesJson : string) : list IEEE.float :=
  parse_times (S (String.length timesJson))
              (skip_bracket (skip_to_bracket timesJson)).

(** Whether the loop is left through [if (end == p) break], that is at an
    element [strtod] does not convert. *)
Fixpoint parse_breaks_off (fuel : nat) (p : string) : bool :=
  match fuel with
  | O => false
  | S fuel' =>
      match p with
      | EmptyString => false
      | _ =>
          match skip_separators p with
          | EmptyString => false
          | String "]"%char _ => false
          | p' =>
              match Libc.strtod p' with
              | Some (_, end_) => parse_breaks_off fuel' end_
              | None => true
              end
          end
      end
  end.

Definition timesJson_breaks_off (timesJson : string) : bool :=
  parse_breaks_off (S (String.length timesJson))
                   (skip_bracket (skip_to_bracket timesJson)).

Definition zero : IEEE.float := S754_zero false.
Definition one_f : IEEE.float := IEEE.single_of_Z 1.
Definition minus_one_f : IEEE.float := IEEE.single_of_Z (-1).

(** *** Sample conversion in [cmd_extract_audio] *)

(** Lines 396-398: the clamp of a float sample. *)
Definition clamp_sample (f : IEEE.float) : IEEE.float :=
  let s := f in
  let s := if IEEE.gt s one_f then one_f else s in
  let s := if IEEE.lt s minus_one_f then minus_one_f else s in
  s.

Section Commands.
Variable undef : IEEE.float -> Z.
Variable sdk : Sdk.

(** Lines 396-399: a float sample to 16-bit PCM. *)
Definition pcm16_of_float (f : IEEE.float) : Z :=
  IEEE.to_signed undef 16 (IEEE.fmul (clamp_sample f) (IEEE.single_of_Z 32767)).

(** Line 407: the two leading bytes of a big-endian sample to 16-bit PCM. *)
Definition pcm16_of_raw (p0 p1 : Z) : Z :=
  CInt.int16_t (Z.lor (Z.shiftl p0 8) p1).

(** *** [cmd_probe] *)

Definition probe_duration (fps : IEEE.float) (frames : Z) : IEEE.float :=
  if IEEE.gt fps zero
  then IEEE.ddiv (IEEE.double_of_Z frames) (IEEE.double_of_single fps)
  else zero.

Definition cmd_probe (filePath : string) : Result :=
  match LoadFrom sdk filePath with
  | (LSLoadFailed _, _) => exit_with 1 EmptyString
  | (LSClipLoaded, clip) =>
      let w := Width clip in
      let h := Height clip in
      let fps := VideoAudioFramerate clip in
      let frames := VideoFrameCount clip in
      let duration := probe_duration fps frames in
      let audioChannels := AudioChannelCount clip in
      let sampleRate :=
        if 0 <? audioChannels
        then CInt.uint32_t (MetadataItemAsInt clip RMD_SAMPLERATE) else 0 in
      let sampleRate :=
        if (0 <? audioChannels) && (sampleRate =? 0) then 48000 else sampleRate in
      let codec :=
        if MetadataExists clip RMD_REDCODE
        then MetadataItemAsString clip RMD_REDCODE else "REDCODE"%string in
      let camera :=
        if MetadataExists clip RMD_CAMERA_MODEL
        then MetadataItemAsString clip RMD_CAMERA_MODEL else EmptyString in
      exit_with 0
        ("{" ++ Libc.key "width" ++ Libc.fmt_u w
         ++ "," ++ Libc.key "height" ++ Libc.fmt_u h
         ++ "," ++ Libc.key "fps" ++ Libc.fmt_f 3 (IEEE.double_of_single fps)
         ++ "," ++ Libc.key "frameCount" ++ Libc.fmt_u frames
         ++ "," ++ Libc.key "duration" ++ Libc.fmt_f 3 duration
         ++ "," ++ Libc.key "codec" ++ Libc.quoted (Libc.c_str (jsonEscape codec))
         ++ "," ++ Libc.key "audioChannels" ++ Libc.fmt_u audioChannels
         ++ "," ++ Libc.key "audioSampleRate" ++ Libc.fmt_u sampleRate
         ++ "," ++ Libc.key "camera" ++ Libc.quoted (Libc.c_str (jsonEscape camera))
         ++ "}" ++ Libc.newline)%string
  end.

(** *** [decodeFrame] *)

(** Lines 188-191: the frame number given to [DecodeVideoFrame]. *)
Definition frameNo (clip : Clip) (timeSec : IEEE.float) : Z :=
  let fps := VideoAudioFramerate clip in
  let totalFrames := VideoFrameCount clip in
  let frameNo :=
    if IEEE.gt fps zero && IEEE.gt timeSec zero
    then IEEE.to_unsigned undef 64 (IEEE.dmul timeSec (IEEE.double_of_single fps))
    else 0 in
  if (totalFrames <=? frameNo) && (0 <? totalFrames)
  then totalFrames - 1 else frameNo.

(** [n] counts the calls of [decodeFrame] in the run. *)
Definition decodeFrame (clip : Clip) (n : nat) (timeSec : IEEE.float)
           (outputPath : string) (maxDim : Z) : Z :=
  let fullW := Width clip in
  let fullH := Height clip in
  let frameNo := frameNo clip timeSec in
  let '(mode, decW, decH) :=
    if 2048 <? fullW / 4
    then (DECODE_EIGHT_RES_GOOD, fullW / 8, fullH / 8)
    else (DECODE_QUARTER_RES_GOOD, fullW / 4, fullH / 4) in
  let decW := if decW =? 0 then 1 else decW in
  let decH := if decH =? 0 then 1 else decH in
  let bufSize := CInt.uint64_t (CInt.uint64_t (decW * decH) * 4) in
  if negb (alloc_ok sdk 16 bufSize) then 1
  else if negb (decode_ok (DecodeVideoFrame clip n frameNo mode)) then 1
  else if negb (writeBGRAasJPEG (jpeg_cg sdk n) decW decH maxDim) then 1
  else 0.

(** *** [cmd_extract_frame] *)

Definition cmd_extract_frame (filePath : string) (timeSec : IEEE.float)
           (outputPath : string) (maxDim : Z) : Result :=
  match LoadFrom sdk filePath with
  | (LSLoadFailed _, _) => exit_with 1 EmptyString
  | (LSClipLoaded, clip) =>
      exit_with (decodeFrame clip 0 timeSec outputPath maxDim) EmptyString
  end.

(** *** [cmd_extract_frames] *)

(** [snprintf(path, sizeof(path), "%s/frame_%04zu.jpg", outputDir, i)] with
    [char path[2048]]. *)
Definition frame_path (outputDir : string) (i : nat) : string :=
  Libc.snprintf 2048
    (outputDir ++ "/frame_" ++ Libc.fmt_0u 4 (Z.of_nat i) ++ ".jpg")%string.

(** The [for] loop over [times], from index [i] on: what it prints. *)
Fixpoint extract_frames_loop (clip : Clip) (outputDir : string) (maxDim : Z)
         (i : nat) (times : list IEEE.float) : string :=
  match times with
  | [] => EmptyString
  | t :: rest =>
      let path := frame_path outputDir i in
      let ret := decodeFrame clip i t path maxDim in
      let comma := if (0 <? i)%nat then ","%string else EmptyString in
      let element := if ret =? 0 then Libc.quoted path else "null"%string in
      (comma ++ element
       ++ extract_frames_loop clip outputDir maxDim (S i) rest)%string
  end.

Definition cmd_extract_frames (filePath timesJson outputDir : string)
           (maxDim : Z) : Result :=
  let times := parse_timesJson timesJson in
  match times with
  | [] => exit_with 1 EmptyString
  | _ =>
      match LoadFrom sdk filePath with
      | (LSLoadFailed _, _) => exit_with 1 EmptyString
      | (LSClipLoaded, clip) =>
          exit_with 0
            ("[" ++ extract_frames_loop clip outputDir maxDim 0 times
                 ++ "]" ++ Libc.newline)%string
      end
  end.

(** *** [cmd_extract_audio] *)

Definition chunkSamples : Z := 48000.

(** The two bytes of an [int16_t] in memory (little-endian host). *)
Definition int16_bytes (v : Z) : list Z :=
  [CInt.wrap 8 v; CInt.wrap 8 (v / 256)].

(** Lines 391-409: the [totalValues] converted samples of one chunk. *)
Definition convert_chunk (isFloat : bool) (totalValues : Z)
           (fbuf : nat -> IEEE.float) (raw : nat -> Z) : list Z :=
  List.map
    (fun i =>
       if isFloat then pcm16_of_float (fbuf i)
       else pcm16_of_raw (raw (i * 4)%nat) (raw (i * 4 + 1)%nat))
    (seq 0 (Z.to_nat totalValues)).

(** The decode loop: payload bytes given to [fwrite] and the running
    [dataBytes].  An iteration that goes on has decoded at least one sample,
    so [totalSamples] bounds the number of iterations. *)
Fixpoint decode_audio (fuel : nat) (clip : Clip) (isFloat : bool)
         (channels totalSamples decoded dataBytes : Z) : list Z * Z :=
  match fuel with
  | O => ([], dataBytes)
  | S fuel' =>
      if decoded <? totalSamples then
        let want :=
          if totalSamples - decoded <? chunkSamples
          then totalSamples - decoded else chunkSamples in
        let '(ds, got, fbuf, raw) :=
          if isFloat then
            let '(ds, got, fbuf) := DecodeFloatAudio clip decoded want in
            (ds, got, fbuf, fun _ : nat => 0)
          else
            let '(ds, got, raw) := DecodeAudio clip decoded want in
            (ds, got, fun _ : nat => zero, raw) in
        if negb (decode_ok ds) || (got =? 0) then ([], dataBytes)
        else
          let totalValues := CInt.uint64_t (got * channels) in
          let out16 := convert_chunk isFloat totalValues fbuf raw in
          let wb := CInt.uint64_t (totalValues * 2) in
          let bytes := firstn (Z.to_nat wb) (List.concat (List.map int16_bytes out16)) in
          let '(rest, final) :=
            decode_audio fuel' clip isFloat channels totalSamples
                         (CInt.uint64_t (decoded + got))
                         (CInt.uint32_t (dataBytes + CInt.uint32_t wb)) in
          (bytes ++ rest, final)
      else ([], dataBytes)
  end.

Definition cmd_extract_audio (filePath outputPath : string) : Result :=
  match LoadFrom sdk filePath with
  | (LSLoadFailed _, _) => exit_with 1 EmptyString
  | (LSClipLoaded, clip) =>
      let channels := AudioChannelCount clip in
      if channels =? 0 then exit_with 1 EmptyString
      else
        let sr := CInt.uint32_t (MetadataItemAsInt clip RMD_SAMPLERATE) in
        let sr := if sr =? 0 then 48000 else sr in
        let isFloat :=
          MetadataExists clip RMD_AUDIO_FORMAT
          && (MetadataItemAsInt clip RMD_AUDIO_FORMAT =? 1) in
        let totalSamples := AudioSampleCount clip in
        if negb (fopen_wb sdk outputPath) then exit_with 1 EmptyString
        else
          let blockAlign := CInt.uint16_t (CInt.uint64_t (channels * 2)) in
          let hdr (dataBytes fileSize : Z) :=
            {| fileSize := fileSize;
               fmtSize := 16;
               audioFmt := 1;
               channels := CInt.uint16_t channels;
               sampleRate := sr;
               byteRate := CInt.uint32_t (sr * blockAlign);
               blockAlign := blockAlign;
               bitsPerSamp := 16;
               dataSize := dataBytes |} in
          let chunkBytes :=
            CInt.uint64_t (CInt.uint64_t (chunkSamples * channels) * 4) in
          if negb (alloc_ok sdk 512 chunkBytes) then
            {| exit_code := 1;
               stdout := EmptyString;
               written :=
                 Some {| file_header := hdr 0 0; file_payload := [];
                         file_closed := true |} |}
          else if negb (vector_constructed
                          2 (CInt.uint64_t (chunkSamples * channels))) then
            (* line 372: [std::vector<int16_t> out16(chunkSamples * channels)]
               throws, nothing catches it, and the process is aborted with
               the output stream still open *)
            {| exit_code := SIGABRT_status;
               stdout := EmptyString;
               written :=
                 Some {| file_header := hdr 0 0; file_payload := [];
                         file_closed := false |} |}
          else
            let '(payload, dataBytes) :=
              decode_audio (Z.to_nat totalSamples) clip isFloat channels
                           totalSamples 0 0 in
            {| exit_code := 0;
               stdout := EmptyString;
               written :=
                 Some {| file_header := hdr dataBytes (CInt.uint32_t (36 + dataBytes));
                         file_payload := payload;
                         file_closed := true |} |}
  end.

(** *** [parseMaxDim] and [main] *)

(** [rest] is [argv] from index [from] on. *)
Fixpoint parseMaxDim (rest : list string) : Z :=
  match rest with
  | a :: (b :: _) as tl =>
      if Libc.strcmp_eq a "--max-dim" then Libc.atoi b else parseMaxDim tl
  | _ => 512
  end.

Definition main (argv : list string) : Result :=
  let argc := List.length argv in
  if (argc <? 2)%nat then exit_with 1 EmptyString
  else
    match InitializeSdk sdk with
    | ISInitializeFailed _ => exit_with 1 EmptyString
    | ISInitializeOK =>
        let arg (i : nat) := nth i argv EmptyString in
        let cmd := arg 1%nat in
        if Libc.strcmp_eq cmd "probe" && (3 <=? argc)%nat
        then cmd_probe (arg 2%nat)
        else if Libc.strcmp_eq cmd "extract-frame" && (5 <=? argc)%nat
        then cmd_extract_frame (arg 2%nat) (Libc.atof (arg 3%nat)) (arg 4%nat)
                               (parseMaxDim (skipn 5 argv))
        else if Libc.strcmp_eq cmd "extract-frames" && (5 <=? argc)%nat
        then cmd_extract_frames (arg 2%nat) (arg 3%nat) (arg 4%nat)
                                (parseMaxDim (skipn 5 argv))
        else if Libc.strcmp_eq cmd "extract-audio" && (4 <=? argc)%nat
        then cmd_extract_audio (arg 2%nat) (arg 3%nat)
        else exit_with 1 EmptyString
    end.

End Commands.

(** Lines 194-201 of [decodeFrame]: the decode mode and the size of the
    decoded image, [(mode, decW, decH)]. *)
Definition decode_size (fullW fullH : Z) : DecodeMode * Z * Z :=
  let '(mode, decW, decH) :=
    if 2048 <? fullW / 4
    then (DECODE_EIGHT_RES_GOOD, fullW / 8, fullH / 8)
    else (DECODE_QUARTER_RES_GOOD, fullW / 4, fullH / 4) in
  let decW := if decW =? 0 then 1 else decW in
  let decH := if decH =? 0 then 1 else decH in
  (mode, decW, decH).

(** Line 204: [bufSize]. *)
Definition decode_bufSize (decW decH : Z) : Z :=
  CInt.uint64_t (CInt.uint64_t (decW * decH) * 4).

End R3d.



(** ** Vocabulary of the specification *)

Module Spec.

(** The way the tools print an object: a brace, the members joined by
    commas, each a name between quotation marks, a colon and the text of its
    value, and a brace.  Whether the result is JSON depends on the names and
    the texts; [Json.read_object] decides it. *)
Definition json_object (members : list (string * string)) : string :=
  ("{" ++ String.concat ","
            (List.map (fun kv => Libc.key (fst kv) ++ snd kv) members)
       ++ "}")%string.

(** The way the tools print an array: a bracket, the texts of the elements
    joined by commas, and a bracket.  Whether the result is JSON, and of how
    many elements, depends on the texts; [Json.read_array] decides it. *)
Definition json_array (elements : list string) : string :=
  ("[" ++ String.concat "," elements ++ "]")%string.

(** ["<outputDir>/frame_XXXX.jpg"], [XXXX] being [i] zero-padded to four
    digits. *)
Definition frame_name (outputDir : string) (i : nat) : string :=
  (outputDir ++ "/frame_" ++ Libc.fmt_0u 4 (Z.of_nat i) ++ ".jpg")%string.

(** The array element of frame [i]: its path as a string, or [null]. *)
Definition frame_element (outputDir : string) (i : nat) (ok : bool) : string :=
  if ok then Libc.quoted (frame_name outputDir i) else "null"%string.

(** Rounding up to the next even number. *)
Definition even_up (x : Z) : Z := x + x mod 2.

(** The target size as the specification words it, in exact arithmetic. *)
Definition target_size (srcW srcH maxDim : Z) : Z * Z :=
  let short := Z.min srcW srcH in
  if (0 <? maxDim) && (maxDim <? short)
  then (even_up (srcW * maxDim / short), even_up (srcH * maxDim / short))
  else (srcW, srcH).

(** [t] is within one of the exact quotient [w * m / s], and not above it
    while [w * m] is below [2 ^ 49]. *)
Definition near_quotient (t w m s : Z) : Prop :=
  w * m / s - 1 <= t <= w * m / s + 1 /\
  (w * m < 2 ^ 49 -> t <= w * m / s).

(** The target size in binary64 arithmetic: each resized dimension is the
    truncated double product rounded up to even, and that product is near
    the exact quotient. *)
Definition computed_target_size (srcW srcH maxDim : Z) (dst : Z * Z) : Prop :=
  let short := Z.min srcW srcH in
  if (0 <? maxDim) && (maxDim <? short) then
    exists tw th,
      IEEE.scaled srcW maxDim short = Some tw /\
      IEEE.scaled srcH maxDim short = Some th /\
      dst = (even_up tw, even_up th) /\
      near_quotient tw srcW maxDim short /\
      near_quotient th srcH maxDim short
  else dst = (srcW, srcH).

End Spec.


(** ** Batch extraction *)

(** What a loop started at a later index prints: every element with its
    comma in front. *)
Fixpoint comma_separated (elements : list string) : string :=
  match elements with
  | [] => EmptyString
  | e :: rest => ("," ++ e ++ comma_separated rest)%string
  end.

(** ** One turn of the timestamp loop *)

(** One turn of r3d-tool's loop, from the position after the separators. *)
Definition r3d_turn (fuel : nat) (p' : string) : list IEEE.float :=
  match p' with
  | EmptyString => []
  | String "]"%char _ => []
  | _ =>
      match Libc.strtod p' with
      | Some (t, end_) => t :: R3d.parse_times fuel end_
      | None => []
      end
  end.

Definition r3d_turn_breaks_off (fuel : nat) (p' : string) : bool :=
  match p' with
  | EmptyString => false
  | String "]"%char _ => false
  | _ =>
      match Libc.strtod p' with
      | Some (_, end_) => R3d.parse_breaks_off fuel end_
      | None => true
      end
  end.

(** ** The elements a batch run is expected to print *)

Module Batch.

Section Braw.
Variable undef : IEEE.float -> Z.
Variables (clip : Braw.Clip) (fps : IEEE.float) (outputDir : string) (maxDim : Z).

(** Whether the extraction of frame [i] at time [t] succeeds. *)
Definition braw_frame_ok (i : nat) (t : IEEE.float) : bool :=
  Braw.ExtractOneFrame undef clip (Braw.frame_sdk clip i) fps t
                       (Spec.frame_name outputDir i) maxDim =? 0.

(** The elements for [times], numbered from [i]. *)
Definition braw_elements (i : nat) (times : list IEEE.float) : list string :=
  List.map
    (fun it => Spec.frame_element outputDir (fst it) (braw_frame_ok (fst it) (snd it)))
    (List.combine (seq i (List.length times)) times).
End Braw.

Section R3d.
Variable undef : IEEE.float -> Z.
Variables (sdk : R3d.Sdk) (clip : R3d.Clip) (outputDir : string) (maxDim : Z).

Definition r3d_frame_ok (i : nat) (t : IEEE.float) : bool :=
  R3d.decodeFrame undef sdk clip i t (Spec.frame_name outputDir i) maxDim =? 0.

Definition r3d_elements (i : nat) (times : list IEEE.float) : list string :=
  List.map
    (fun it => Spec.frame_element outputDir (fst it) (r3d_frame_ok (fst it) (snd it)))
    (List.combine (seq i (List.length times)) times).
End R3d.

End Batch.

(** ** Concrete SDK behaviours used in the examples *)

Module Samples.

Import Platform.

(** The platform's conversion instruction is taken to saturate. *)
Definition undef : IEEE.float -> Z := IEEE.undef_saturating 64.

Definition cg_ok : CoreGraphics :=
  {| cg_colorSpace := true; cg_dataProvider := true; cg_srcImage := true;
     cg_resizeCtx := true; cg_resizedImage := true; cg_url := true;
     cg_dest := true; cg_finalize := true |}.

Definition E_FAIL : Braw.HRESULT := -2147467259.

(** 24 frames per second as a binary32 value. *)
Definition fps24 : IEEE.float := IEEE.single_of_Z 24.

(** A frame whose calls all succeed, decoded at 960 by 540. *)
Definition braw_frame_good : Braw.FrameSdk :=
  {| Braw.hr_SetCallback := Braw.S_OK;
     Braw.hr_CreateJobReadFrame := fun _ => Braw.S_OK;
     Braw.hr_SubmitRead := Braw.S_OK;
     Braw.hr_ReadComplete := Braw.S_OK;
     Braw.hr_CreateJobDecodeAndProcessFrame := Braw.S_OK;
     Braw.hr_SubmitDecode := Braw.S_OK;
     Braw.hr_ProcessComplete := Braw.S_OK;
     Braw.img_GetWidth := (Braw.S_OK, 960);
     Braw.img_GetHeight := (Braw.S_OK, 540);
     Braw.img_GetResourceSizeBytes := (Braw.S_OK, 2073600);
     Braw.img_GetResource := (Braw.S_OK, true);
     Braw.frame_cg := cg_ok |}.

(** A frame whose read job cannot be created. *)
Definition braw_frame_bad : Braw.FrameSdk :=
  {| Braw.hr_SetCallback := Braw.S_OK;
     Braw.hr_CreateJobReadFrame := fun _ => E_FAIL;
     Braw.hr_SubmitRead := Braw.S_OK;
     Braw.hr_ReadComplete := Braw.S_OK;
     Braw.hr_CreateJobDecodeAndProcessFrame := Braw.S_OK;
     Braw.hr_SubmitDecode := Braw.S_OK;
     Braw.hr_ProcessComplete := Braw.S_OK;
     Braw.img_GetWidth := (Braw.S_OK, 960);
     Braw.img_GetHeight := (Braw.S_OK, 540);
     Braw.img_GetResourceSizeBytes := (Braw.S_OK, 2073600);
     Braw.img_GetResource := (Braw.S_OK, true);
     Braw.frame_cg := cg_ok |}.

(** One second of 16-bit stereo audio at 48 kHz whose reads fail. *)
Definition braw_audio_unreadable : Braw.ClipAudio :=
  {| Braw.GetAudioSampleCount := (Braw.S_OK, 48000);
     Braw.GetAudioBitDepth := (Braw.S_OK, 16);
     Braw.GetAudioChannelCount := (Braw.S_OK, 2);
     Braw.GetAudioSampleRate := (Braw.S_OK, 48000);
     Braw.GetAudioSamples := fun _ => (E_FAIL, 0, []) |}.

(** A 3840 by 2160 clip of 240 frames at 24 fps; every frame after the
    first fails to decode. *)
Definition braw_clip : Braw.Clip :=
  {| Braw.GetWidth := (Braw.S_OK, 3840);
     Braw.GetHeight := (Braw.S_OK, 2160);
     Braw.GetFrameRate := (Braw.S_OK, fps24);
     Braw.GetFrameCount := (Braw.S_OK, 240);
     Braw.QueryInterface_audio := (Braw.S_OK, Some braw_audio_unreadable);
     Braw.frame_sdk :=
       fun i => match i with O => braw_frame_good | S _ => braw_frame_bad end |}.

Definition braw_sdk : Braw.Sdk :=
  {| Braw.CreateFactory := true;
     Braw.hr_CreateCodec := Braw.S_OK;
     Braw.OpenClip := fun _ => (Braw.S_OK, braw_clip);
     Braw.fopen_wb := fun _ => true |}.

(** The same SDK when the clip cannot be opened. *)
Definition braw_sdk_no_clip : Braw.Sdk :=
  {| Braw.CreateFactory := true;
     Braw.hr_CreateCodec := Braw.S_OK;
     Braw.OpenClip := fun _ => (E_FAIL, braw_clip);
     Braw.fopen_wb := fun _ => true |}.

(** A 4096 by 2160 R3D clip of 240 frames at 24 fps without audio; every
    frame after the first fails to decode. *)
Definition r3d_clip : R3d.Clip :=
  {| R3d.Width := 4096;
     R3d.Height := 2160;
     R3d.VideoAudioFramerate := fps24;
     R3d.VideoFrameCount := 240;
     R3d.AudioChannelCount := 0;
     R3d.AudioSampleCount := 0;
     R3d.MetadataExists := fun _ => false;
     R3d.MetadataItemAsInt := fun _ => 0;
     R3d.MetadataItemAsString := fun _ => EmptyString;
     R3d.DecodeVideoFrame :=
       fun i _ _ => match i with O => R3d.DSDecodeOK | S _ => R3d.DSDecodeFailed 1 end;
     R3d.DecodeAudio := fun _ _ => (R3d.DSDecodeFailed 1, 0, fun _ => 0);
     R3d.DecodeFloatAudio :=
       fun _ _ => (R3d.DSDecodeFailed 1, 0, fun _ => S754_zero false) |}.

Definition r3d_sdk : R3d.Sdk :=
  {| R3d.InitializeSdk := R3d.ISInitializeOK;
     R3d.LoadFrom := fun _ => (R3d.LSClipLoaded, r3d_clip);
     R3d.alloc_ok := fun _ _ => true;
     R3d.jpeg_cg := fun _ => cg_ok;
     R3d.fopen_wb := fun _ => true |}.

(** The same SDK when the clip cannot be loaded. *)
Definition r3d_sdk_no_clip : R3d.Sdk :=
  {| R3d.InitializeSdk := R3d.ISInitializeOK;
     R3d.LoadFrom := fun _ => (R3d.LSLoadFailed 1, r3d_clip);
     R3d.alloc_ok := fun _ _ => true;
     R3d.jpeg_cg := fun _ => cg_ok;
     R3d.fopen_wb := fun _ => true |}.

(** A mono R3D clip with three 32-bit integer audio samples, delivered by
    the first call of [DecodeAudio]. *)
Definition r3d_clip_audio : R3d.Clip :=
  {| R3d.Width := 4096;
     R3d.Height := 2160;
     R3d.VideoAudioFramerate := fps24;
     R3d.VideoFrameCount := 240;
     R3d.AudioChannelCount := 1;
     R3d.AudioSampleCount := 3;
     R3d.MetadataExists := fun _ => false;
     R3d.MetadataItemAsInt := fun _ => 0;
     R3d.MetadataItemAsString := fun _ => EmptyString;
     R3d.DecodeVideoFrame := fun _ _ _ => R3d.DSDecodeOK;
     R3d.DecodeAudio :=
       fun _ want =>
         (R3d.DSDecodeOK, want, fun i => Z.of_nat (Nat.modulo i 256));
     R3d.DecodeFloatAudio :=
       fun _ _ => (R3d.DSDecodeFailed 1, 0, fun _ => S754_zero false) |}.

Definition r3d_sdk_audio : R3d.Sdk :=
  {| R3d.InitializeSdk := R3d.ISInitializeOK;
     R3d.LoadFrom := fun _ => (R3d.LSClipLoaded, r3d_clip_audio);
     R3d.alloc_ok := fun _ _ => true;
     R3d.jpeg_cg := fun _ => cg_ok;
     R3d.fopen_wb := fun _ => true |}.

(** The same clip announcing 96076792050571 channels: 48000 samples of one
    chunk times that many channels is 2^62 + 10688 values. *)
Definition r3d_clip_many_channels : R3d.Clip :=
  {| R3d.Width := 4096;
     R3d.Height := 2160;
     R3d.VideoAudioFramerate := fps24;
     R3d.VideoFrameCount := 240;
     R3d.AudioChannelCount := 96076792050571;
     R3d.AudioSampleCount := 3;
     R3d.MetadataExists := fun _ => false;
     R3d.MetadataItemAsInt := fun _ => 0;
     R3d.MetadataItemAsString := fun _ => EmptyString;
     R3d.DecodeVideoFrame := fun _ _ _ => R3d.DSDecodeOK;
     R3d.DecodeAudio :=
       fun _ want =>
         (R3d.DSDecodeOK, want, fun i => Z.of_nat (Nat.modulo i 256));
     R3d.DecodeFloatAudio :=
       fun _ _ => (R3d.DSDecodeFailed 1, 0, fun _ => S754_zero false) |}.

Definition r3d_sdk_many_channels : R3d.Sdk :=
  {| R3d.InitializeSdk := R3d.ISInitializeOK;
     R3d.LoadFrom := fun _ => (R3d.LSClipLoaded, r3d_clip_many_channels);
     R3d.alloc_ok := fun _ _ => true;
     R3d.jpeg_cg := fun _ => cg_ok;
     R3d.fopen_wb := fun _ => true |}.

(** The sample clips with an infinite frame rate. *)
Definition braw_clip_fps_inf : Braw.Clip :=
  {| Braw.GetWidth := (Braw.S_OK, 3840);
     Braw.GetHeight := (Braw.S_OK, 2160);
     Braw.GetFrameRate := (Braw.S_OK, S754_infinity false);
     Braw.GetFrameCount := (Braw.S_OK, 240);
     Braw.QueryInterface_audio := (Braw.S_OK, Some braw_audio_unreadable);
     Braw.frame_sdk := fun _ => braw_frame_good |}.

Definition braw_sdk_fps_inf : Braw.Sdk :=
  {| Braw.CreateFactory := true;
     Braw.hr_CreateCodec := Braw.S_OK;
     Braw.OpenClip := fun _ => (Braw.S_OK, braw_clip_fps_inf);
     Braw.fopen_wb := fun _ => true |}.

Definition r3d_clip_fps_inf : R3d.Clip :=
  {| R3d.Width := 4096;
     R3d.Height := 2160;
     R3d.VideoAudioFramerate := S754_infinity false;
     R3d.VideoFrameCount := 240;
     R3d.AudioChannelCount := 0;
     R3d.AudioSampleCount := 0;
     R3d.MetadataExists := fun _ => false;
     R3d.MetadataItemAsInt := fun _ => 0;
     R3d.MetadataItemAsString := fun _ => EmptyString;
     R3d.DecodeVideoFrame := fun _ _ _ => R3d.DSDecodeOK;
     R3d.DecodeAudio := fun _ _ => (R3d.DSDecodeFailed 1, 0, fun _ => 0);
     R3d.DecodeFloatAudio :=
       fun _ _ => (R3d.DSDecodeFailed 1, 0, fun _ => S754_zero false) |}.

Definition r3d_sdk_fps_inf : R3d.Sdk :=
  {| R3d.InitializeSdk := R3d.ISInitializeOK;
     R3d.LoadFrom := fun _ => (R3d.LSClipLoaded, r3d_clip_fps_inf);
     R3d.alloc_ok := fun _ _ => true;
     R3d.jpeg_cg := fun _ => cg_ok;
     R3d.fopen_wb := fun _ => true |}.

(** The sample R3D clip with a camera model that ends in the control
    character U+0001. *)
Definition r3d_clip_control_character : R3d.Clip :=
  {| R3d.Width := 4096;
     R3d.Height := 2160;
     R3d.VideoAudioFramerate := fps24;
     R3d.VideoFrameCount := 240;
     R3d.AudioChannelCount := 0;
     R3d.AudioSampleCount := 0;
     R3d.MetadataExists := fun _ => true;
     R3d.MetadataItemAsInt := fun _ => 0;
     R3d.MetadataItemAsString := fun _ => String "R" (String "001" EmptyString);
     R3d.DecodeVideoFrame := fun _ _ _ => R3d.DSDecodeOK;
     R3d.DecodeAudio := fun _ _ => (R3d.DSDecodeFailed 1, 0, fun _ => 0);
     R3d.DecodeFloatAudio :=
       fun _ _ => (R3d.DSDecodeFailed 1, 0, fun _ => S754_zero false) |}.

Definition r3d_sdk_control_character : R3d.Sdk :=
  {| R3d.InitializeSdk := R3d.ISInitializeOK;
     R3d.LoadFrom := fun _ => (R3d.LSClipLoaded, r3d_clip_control_character);
     R3d.alloc_ok := fun _ _ => true;
     R3d.jpeg_cg := fun _ => cg_ok;
     R3d.fopen_wb := fun _ => true |}.

(** Three samples of 16-bit mono audio at 48 kHz, read two samples at a
    time. *)
Definition braw_audio_three : Braw.ClipAudio :=
  {| Braw.GetAudioSampleCount := (Braw.S_OK, 3);
     Braw.GetAudioBitDepth := (Braw.S_OK, 16);
     Braw.GetAudioChannelCount := (Braw.S_OK, 1);
     Braw.GetAudioSampleRate := (Braw.S_OK, 48000);
     Braw.GetAudioSamples :=
       fun idx =>
         let got := Z.min 2 (3 - idx) in
         (Braw.S_OK, got, List.repeat 0 (Z.to_nat (2 * got))) |}.

Definition braw_clip_audio : Braw.Clip :=
  {| Braw.GetWidth := (Braw.S_OK, 3840);
     Braw.GetHeight := (Braw.S_OK, 2160);
     Braw.GetFrameRate := (Braw.S_OK, fps24);
     Braw.GetFrameCount := (Braw.S_OK, 240);
     Braw.QueryInterface_audio := (Braw.S_OK, Some braw_audio_three);
     Braw.frame_sdk := fun _ => braw_frame_good |}.

Definition braw_sdk_audio : Braw.Sdk :=
  {| Braw.CreateFactory := true;
     Braw.hr_CreateCodec := Braw.S_OK;
     Braw.OpenClip := fun _ => (Braw.S_OK, braw_clip_audio);
     Braw.fopen_wb := fun _ => true |}.

End Samples.


(** ** Set-up failures *)

Module Setup.

(** braw-tool cannot reach the clip: no factory, no codec, or [OpenClip]
    fails for the file. *)
Definition braw_fails (sdk : Braw.Sdk) (filePath : string) : Prop :=
  Braw.CreateFactory sdk = false \/
  Braw.is_ok (Braw.hr_CreateCodec sdk) = false \/
  Braw.is_ok (fst (Braw.OpenClip sdk filePath)) = false.

Definition braw_opens (sdk : Braw.Sdk) (filePath : string) : Prop :=
  Braw.CreateFactory sdk = true /\
  Braw.is_ok (Braw.hr_CreateCodec sdk) = true /\
  Braw.is_ok (fst (Braw.OpenClip sdk filePath)) = true.

(** What a run of r3d-tool that ended with status [exit] leaves of the
    audio file [file] it opened. *)
Definition r3d_file_left (cmd : string) (exit : Z)
           (file : Platform.File R3d.WAVHeader) : Prop :=
  cmd = "extract-audio"%string /\
  (exit = 1 ->
   Platform.file_payload file = [] /\
   R3d.dataSize (Platform.file_header file) = 0 /\
   R3d.fileSize (Platform.file_header file) = 0 /\
   Platform.file_closed file = true) /\
  (exit = 0 -> Platform.file_closed file = true) /\
  (exit = Platform.SIGABRT_status ->
   Platform.file_payload file = [] /\ Platform.file_closed file = false).

(** r3d-tool cannot load the clip. *)
Definition r3d_load_fails (sdk : R3d.Sdk) (filePath : string) : Prop :=
  exists code, fst (R3d.LoadFrom sdk filePath) = R3d.LSLoadFailed code.

Definition r3d_loads (sdk : R3d.Sdk) (filePath : string) : Prop :=
  fst (R3d.LoadFrom sdk filePath) = R3d.LSClipLoaded.

Definition r3d_init_fails (sdk : R3d.Sdk) : Prop :=
  exists code, R3d.InitializeSdk sdk = R3d.ISInitializeFailed code.

(** Every call braw-tool checks while it extracts one frame returned
    [S_OK]. *)
Definition braw_frame_calls_ok (f : Braw.FrameSdk) (frameIndex : Z) : Prop :=
  Braw.is_ok (Braw.hr_SetCallback f) = true /\
  Braw.is_ok (Braw.hr_CreateJobReadFrame f frameIndex) = true /\
  Braw.is_ok (Braw.hr_SubmitRead f) = true /\
  Braw.is_ok (Braw.hr_ReadComplete f) = true /\
  Braw.is_ok (Braw.hr_CreateJobDecodeAndProcessFrame f) = true /\
  Braw.is_ok (Braw.hr_SubmitDecode f) = true /\
  Braw.is_ok (Braw.hr_ProcessComplete f) = true /\
  Braw.is_ok (fst (Braw.img_GetWidth f)) = true /\
  Braw.is_ok (fst (Braw.img_GetHeight f)) = true /\
  Braw.is_ok (fst (Braw.img_GetResourceSizeBytes f)) = true /\
  Braw.is_ok (fst (Braw.img_GetResource f)) = true.

(** The calls of a frame extraction with [CreateJobReadFrame] answering by
    [answer] in place of the SDK's own answer; every other call is as in
    [f]. *)
Definition braw_frame_answering (answer : Z -> Braw.HRESULT) (f : Braw.FrameSdk)
  : Braw.FrameSdk :=
  {| Braw.hr_SetCallback := Braw.hr_SetCallback f;
     Braw.hr_CreateJobReadFrame := answer;
     Braw.hr_SubmitRead := Braw.hr_SubmitRead f;
     Braw.hr_ReadComplete := Braw.hr_ReadComplete f;
     Braw.hr_CreateJobDecodeAndProcessFrame := Braw.hr_CreateJobDecodeAndProcessFrame f;
     Braw.hr_SubmitDecode := Braw.hr_SubmitDecode f;
     Braw.hr_ProcessComplete := Braw.hr_ProcessComplete f;
     Braw.img_GetWidth := Braw.img_GetWidth f;
     Braw.img_GetHeight := Braw.img_GetHeight f;
     Braw.img_GetResourceSizeBytes := Braw.img_GetResourceSizeBytes f;
     Braw.img_GetResource := Braw.img_GetResource f;
     Braw.frame_cg := Braw.frame_cg f |}.

(** The clip with [DecodeVideoFrame] answering by [answer]; everything else
    is as in [clip]. *)
Definition r3d_clip_answering
           (answer : nat -> Z -> R3d.DecodeMode -> R3d.DecodeStatus)
           (clip : R3d.Clip) : R3d.Clip :=
  {| R3d.Width := R3d.Width clip;
     R3d.Height := R3d.Height clip;
     R3d.VideoAudioFramerate := R3d.VideoAudioFramerate clip;
     R3d.VideoFrameCount := R3d.VideoFrameCount clip;
     R3d.AudioChannelCount := R3d.AudioChannelCount clip;
     R3d.AudioSampleCount := R3d.AudioSampleCount clip;
     R3d.MetadataExists := R3d.MetadataExists clip;
     R3d.MetadataItemAsInt := R3d.MetadataItemAsInt clip;
     R3d.MetadataItemAsString := R3d.MetadataItemAsString clip;
     R3d.DecodeVideoFrame := answer;
     R3d.DecodeAudio := R3d.DecodeAudio clip;
     R3d.DecodeFloatAudio := R3d.DecodeFloatAudio clip |}.

(** Every read of the audio track inside its [sampleCount] samples returns
    [S_OK] and delivers at least one sample, no sample past the end, and
    [channelCount * bitDepth / 8] bytes for each sample. *)
Definition braw_reads_whole_frames (audio : Braw.ClipAudio) : Prop :=
  let sampleCount := Braw.out 0 (Braw.GetAudioSampleCount audio) in
  let frameBytes :=
    Braw.out 0 (Braw.GetAudioChannelCount audio)
    * Braw.out 0 (Braw.GetAudioBitDepth audio) / 8 in
  forall sampleIndex : Z,
    0 <= sampleIndex < sampleCount ->
    let '(hr, samplesRead, bytes) := Braw.GetAudioSamples audio sampleIndex in
    Braw.is_ok hr = true /\
    0 < samplesRead /\
    sampleIndex + samplesRead <= sampleCount /\
    Z.of_nat (List.length bytes) = samplesRead * frameBytes.

(** Every audio decode of the clip, by the call its format selects,
    returns [DSDecodeOK] and delivers as many samples as were asked for. *)
Definition r3d_decodes_what_is_asked (clip : R3d.Clip) (isFloat : bool) : Prop :=
  forall decoded want : Z,
    if isFloat
    then fst (R3d.DecodeFloatAudio clip decoded want) = (R3d.DSDecodeOK, want)
    else fst (R3d.DecodeAudio clip decoded want) = (R3d.DSDecodeOK, want).

End Setup.


(** ** Rounding: what is kept of a location *)

Module Round.

(** 1 when the value lies strictly above the mantissa it comes with. *)
Definition inexact (l : location) : Z :=
  match l with loc_Exact => 0 | loc_Inexact _ => 1 end.

(** [b] is [a] shifted right by [k] bits: the mantissa is the quotient, and
    when [b] has neither round nor sticky bit nothing was lost. *)
Definition Shifted (k : Z) (a b : shr_record) : Prop :=
  shr_m b = shr_m a / 2 ^ k /\
  (shr_r b = false /\ shr_s b = false <->
   shr_m a = shr_m b * 2 ^ k /\ shr_r a = false /\ shr_s a = false).

(** What [binary_round_aux] returns for the rounded mantissa and exponent. *)
Definition pack (prec emax : Z) (sx : bool) (m e : Z) : spec_float :=
  match m with
  | Z0 => S754_zero sx
  | Zpos p => if e <=? emax - prec then S754_finite sx p e else S754_infinity sx
  | Zneg _ => S754_nan
  end.

End Round.


(** ** Proof automation for printed text *)

(** Printed pieces are treated as atoms while the appends are reassociated. *)
Ltac string_atoms :=
  repeat match goal with
         | |- context [Libc.key ?k] => generalize (Libc.key k); intro
         | |- context [Libc.fmt_u ?k] => generalize (Libc.fmt_u k); intro
         | |- context [Libc.fmt_f ?d ?k] => generalize (Libc.fmt_f d k); intro
         | |- context [Libc.quoted ?k] => generalize (Libc.quoted k); intro
         end;
  generalize Libc.newline; intro.


(** ** A reader of the printed JSON strings *)

Module Reader.

(** Whether the character [c] occurs in [s]. *)
Fixpoint occurs (c : ascii) (s : string) : bool :=
  match s with
  | EmptyString => false
  | String d r => Ascii.eqb c d || occurs c r
  end.

(** The character a backslash escape stands for. *)
Definition escaped (d : ascii) : ascii :=
  if Ascii.eqb d "n"%char then "010"%char
  else if Ascii.eqb d "r"%char then "013"%char
  else if Ascii.eqb d "t"%char then "009"%char
  else d.

(** The text a JSON string body stands for: a backslash and the character
    after it are one character. *)
Fixpoint unescape (s : string) : string :=
  match s with
  | EmptyString => EmptyString
  | String c r =>
      if Ascii.eqb c "092"%char then
        match r with
        | String d r' => String (escaped d) (unescape r')
        | EmptyString => String c EmptyString
        end
      else String c (unescape r)
  end.

(** The scan for the closing quote of a JSON string, from just after the
    opening quote: the body and what follows the closing quote.  A
    character after a backslash never closes the string. *)
Fixpoint string_end (s : string) : option (string * string) :=
  match s with
  | EmptyString => None
  | String c r =>
      if Ascii.eqb c "034"%char then Some (EmptyString, r)
      else if Ascii.eqb c "092"%char then
        match r with
        | String d r' =>
            match string_end r' with
            | Some (body, rest) => Some (String c (String d body), rest)
            | None => None
            end
        | EmptyString => None
        end
      else
        match string_end r with
        | Some (body, rest) => Some (String c body, rest)
        | None => None
        end
  end.

End Reader.

(** ** A reader of the compact JSON the tools print *)

(** The reader accepts JSON texts without white space and without nesting:
    an object or an array of numbers, strings and literals, the strings with
    the two-character escapes of the quotation mark, the backslash, the
    slash, newline, carriage return and tab only.  Every text it
    accepts is JSON (RFC 8259); bytes from 128 on are taken as parts of
    UTF-8 sequences. *)
Module Json.

(** A number is kept as its text, a string as the text it stands for. *)
Inductive value : Type :=
| Number (text : string)
| Str (s : string)
| Bool (b : bool)
| Null.

Definition is_digit (c : ascii) : bool :=
  let n := nat_of_ascii c in (48 <=? n)%nat && (n <=? 57)%nat.

(** The leading digits of [s] and what follows them. *)
Fixpoint digits (s : string) : string * string :=
  match s with
  | String c r =>
      if is_digit c
      then let '(d, rest) := digits r in (String c d, rest)
      else (EmptyString, s)
  | EmptyString => (EmptyString, EmptyString)
  end.

(** [int]: a single [0], or digits that do not start with [0]. *)
Definition int_part (d : string) : bool :=
  match d with
  | EmptyString => false
  | String c r =>
      if Ascii.eqb c "0"%char
      then match r with EmptyString => true | String _ _ => false end
      else true
  end.

(** [exp], after its [e] or [E]: an optional sign and digits to the end. *)
Definition exponent (s : string) : bool :=
  let s :=
    match s with
    | String c r => if Ascii.eqb c "+"%char || Ascii.eqb c "-"%char then r else s
    | EmptyString => s
    end in
  match digits s with
  | (String _ _, EmptyString) => true
  | _ => false
  end.

(** [[frac] [exp]], what may follow the [int] of a number. *)
Definition fraction_onward (s : string) : bool :=
  match s with
  | EmptyString => true
  | String c r =>
      if Ascii.eqb c "."%char then
        match digits r with
        | (String _ _, EmptyString) => true
        | (String _ _, String e r') =>
            (Ascii.eqb e "e"%char || Ascii.eqb e "E"%char) && exponent r'
        | (EmptyString, _) => false
        end
      else (Ascii.eqb c "e"%char || Ascii.eqb c "E"%char) && exponent r
  end.

(** [number = [minus] int [frac] [exp]]. *)
Definition number (t : string) : bool :=
  let t :=
    match t with
    | String c r => if Ascii.eqb c "-"%char then r else t
    | EmptyString => t
    end in
  let '(d, rest) := digits t in
  int_part d && fraction_onward rest.

(** A character that stands for itself inside a string: no control
    character, no quotation mark, no backslash. *)
Definition plain (c : ascii) : bool :=
  (32 <=? nat_of_ascii c)%nat
  && negb (Ascii.eqb c "034"%char) && negb (Ascii.eqb c "092"%char).

Definition escape_letter (d : ascii) : bool :=
  Ascii.eqb d "034"%char || Ascii.eqb d "092"%char || Ascii.eqb d "/"%char
  || Ascii.eqb d "n"%char || Ascii.eqb d "r"%char || Ascii.eqb d "t"%char.

(** The characters between the quotation marks of a string. *)
Fixpoint string_body (s : string) : bool :=
  match s with
  | EmptyString => true
  | String c r =>
      if Ascii.eqb c "092"%char then
        match r with
        | String d r' => escape_letter d && string_body r'
        | EmptyString => false
        end
      else plain c && string_body r
  end.

(** A text of plain characters only. *)
Fixpoint plain_text (s : string) : bool :=
  match s with
  | EmptyString => true
  | String c r => plain c && plain_text r
  end.

(** A text [jsonEscape] turns into a string body: its control characters
    are tab, newline and carriage return only. *)
Fixpoint escapable (s : string) : bool :=
  match s with
  | EmptyString => true
  | String c r =>
      ((32 <=? nat_of_ascii c)%nat || Ascii.eqb c "009"%char
       || Ascii.eqb c "010"%char || Ascii.eqb c "013"%char)
      && escapable r
  end.

(** What ends a value inside an object or an array. *)
Definition closing (c : ascii) : bool :=
  Ascii.eqb c ","%char || Ascii.eqb c "}"%char || Ascii.eqb c "]"%char.

(** The characters up to the next closing character, and the rest. *)
Fixpoint token (s : string) : string * string :=
  match s with
  | String c r =>
      if closing c then (EmptyString, s)
      else let '(t, rest) := token r in (String c t, rest)
  | EmptyString => (EmptyString, EmptyString)
  end.

(** One value at the head of [s], and what follows it. *)
Definition read_value (s : string) : option (value * string) :=
  match s with
  | String c r =>
      if Ascii.eqb c "034"%char then
        match Reader.string_end r with
        | Some (body, rest) =>
            if string_body body then Some (Str (Reader.unescape body), rest)
            else None
        | None => None
        end
      else
        let '(t, rest) := token s in
        if String.eqb t "true" then Some (Bool true, rest)
        else if String.eqb t "false" then Some (Bool false, rest)
        else if String.eqb t "null" then Some (Null, rest)
        else if number t then Some (Number t, rest)
        else None
  | EmptyString => None
  end.

(** The text [t] is read as the value [v] wherever a closing character
    follows it. *)
Definition reads_as (t : string) (v : value) : Prop :=
  forall (c : ascii) (r : string),
    closing c = true -> read_value (t ++ String c r) = Some (v, String c r).

(** The members of an object from its first name on, up to the closing
    brace, which ends the text. *)
Fixpoint read_members (fuel : nat) (s : string) : option (list (string * value)) :=
  match fuel with
  | O => None
  | S fuel' =>
      match s with
      | String q r =>
          if Ascii.eqb q "034"%char then
            match Reader.string_end r with
            | Some (name, String colon r1) =>
                if Ascii.eqb colon ":"%char && string_body name then
                  match read_value r1 with
                  | Some (v, String c r2) =>
                      if Ascii.eqb c ","%char then
                        match read_members fuel' r2 with
                        | Some rest => Some ((Reader.unescape name, v) :: rest)
                        | None => None
                        end
                      else if Ascii.eqb c "}"%char then
                        match r2 with
                        | EmptyString => Some [(Reader.unescape name, v)]
                        | String _ _ => None
                        end
                      else None
                  | _ => None
                  end
                else None
            | _ => None
            end
          else None
      | EmptyString => None
      end
  end.

Definition read_object (s : string) : option (list (string * value)) :=
  match s with
  | String c r =>
      if Ascii.eqb c "{"%char then
        match r with
        | String d EmptyString => if Ascii.eqb d "}"%char then Some [] else None
        | _ => read_members (String.length r) r
        end
      else None
  | EmptyString => None
  end.

(** The elements of an array from its first element on, up to the closing
    bracket, which ends the text. *)
Fixpoint read_elements (fuel : nat) (s : string) : option (list value) :=
  match fuel with
  | O => None
  | S fuel' =>
      match read_value s with
      | Some (v, String c r) =>
          if Ascii.eqb c ","%char then
            match read_elements fuel' r with
            | Some rest => Some (v :: rest)
            | None => None
            end
          else if Ascii.eqb c "]"%char then
            match r with
            | EmptyString => Some [v]
            | String _ _ => None
            end
          else None
      | _ => None
      end
  end.

Definition read_array (s : string) : option (list value) :=
  match s with
  | String c r =>
      if Ascii.eqb c "["%char then
        match r with
        | String d EmptyString => if Ascii.eqb d "]"%char then Some [] else None
        | _ => read_elements (String.length r) r
        end
      else None
  | EmptyString => None
  end.

End Json.

(** ** Printed arrays of numbers *)

(** What may follow a printed number: the end of the text, a comma or a
    closing bracket. *)
Definition closes_number (rest : string) : Prop :=
  match rest with
  | String c _ => c = ","%char \/ c = "]"%char
  | EmptyString => True
  end.

Definition digit_or_closing (s : string) : Prop :=
  match s with
  | String c _ => Libc.digit_val c <> None \/ c = ","%char \/ c = "]"%char
  | EmptyString => True
  end.

(** What follows an element of a printed array: the other elements, each
    after its comma, and the closing bracket. *)
Definition array_rest (ns : list Z) : string :=
  (comma_separated (List.map Libc.fmt_u ns) ++ "]")%string.

(** * Properties *)

Local Open Scope string_scope.
Local Open Scope list_scope.
Local Open Scope Z_scope.

(** ** Machine integers *)

Lemma wrap_range (bits z : Z) : 0 <= bits -> 0 <= CInt.wrap bits z < 2 ^ bits.
Proof.
  intros Hb. unfold CInt.wrap. apply Z.mod_pos_bound.
  apply Z.pow_pos_nonneg; lia.
Qed.

Lemma wrap_small (bits z : Z) : 0 <= z < 2 ^ bits -> CInt.wrap bits z = z.
Proof. intros H. unfold CInt.wrap. apply Z.mod_small. exact H. Qed.

Lemma to_unsigned_range (undef : IEEE.float -> Z) (bits : Z) (x : IEEE.float) :
  0 <= bits -> 0 <= IEEE.to_unsigned undef bits x < 2 ^ bits.
Proof.
  intros Hb. unfold IEEE.to_unsigned.
  destruct (IEEE.trunc x) as [t|]; [|apply wrap_range; exact Hb].
  destruct ((0 <=? t) && (t <? 2 ^ bits)) eqn:E; [|apply wrap_range; exact Hb].
  apply andb_true_iff in E. destruct E as [E1 E2].
  apply Z.leb_le in E1. apply Z.ltb_lt in E2. lia.
Qed.

Lemma to_unsigned_exact (undef : IEEE.float -> Z) (bits : Z) (x : IEEE.float) (t : Z) :
  IEEE.trunc x = Some t -> 0 <= t < 2 ^ bits ->
  IEEE.to_unsigned undef bits x = t.
Proof.
  intros Ht Hr. unfold IEEE.to_unsigned. rewrite Ht.
  destruct (Z.leb_spec 0 t); [|lia].
  destruct (Z.ltb_spec t (2 ^ bits)); [|lia].
  reflexivity.
Qed.

(** ** Frame index *)

Lemma braw_frameIndex_cases (undef : IEEE.float -> Z) (clip : Braw.Clip)
      (fps timeSec : IEEE.float) :
  let frameCount := Braw.out 0 (Braw.GetFrameCount clip) in
  let raw := IEEE.to_unsigned undef 64
               (IEEE.dmul timeSec (IEEE.double_of_single fps)) in
  0 < frameCount ->
  (raw < frameCount /\ Braw.frameIndex undef clip fps timeSec = raw) \/
  (frameCount <= raw /\ Braw.frameIndex undef clip fps timeSec = frameCount - 1).
Proof.
  intros frameCount raw Hpos. unfold Braw.frameIndex.
  fold frameCount. fold raw.
  destruct (Z.ltb_spec 0 frameCount); [|lia].
  destruct (Z.leb_spec frameCount raw); simpl; [right|left]; split; lia.
Qed.

Lemma r3d_frameNo_cases (undef : IEEE.float -> Z) (clip : R3d.Clip)
      (timeSec : IEEE.float) :
  let totalFrames := R3d.VideoFrameCount clip in
  let fps := R3d.VideoAudioFramerate clip in
  let raw :=
    if IEEE.gt fps R3d.zero && IEEE.gt timeSec R3d.zero
    then IEEE.to_unsigned undef 64 (IEEE.dmul timeSec (IEEE.double_of_single fps))
    else 0 in
  0 < totalFrames ->
  (raw < totalFrames /\ R3d.frameNo undef clip timeSec = raw) \/
  (totalFrames <= raw /\ R3d.frameNo undef clip timeSec = totalFrames - 1).
Proof.
  intros totalFrames fps raw Hpos. unfold R3d.frameNo.
  fold totalFrames. fold fps. fold raw.
  destruct (Z.ltb_spec 0 totalFrames); [|lia].
  destruct (Z.leb_spec totalFrames raw); simpl; [right|left]; split; lia.
Qed.

(** With a positive frame count, the index computed from a time value is
    below the frame count; an index [trunc (timeSec * fps)] that is in range
    is kept, and one at or beyond the frame count becomes [frameCount - 1]. *)
Lemma frame_index_in_range :
  forall (undef : IEEE.float -> Z) (timeSec : IEEE.float),
    (forall (clip : Braw.Clip) (fps : IEEE.float),
        let frameCount := Braw.out 0 (Braw.GetFrameCount clip) in
        let idx := Braw.frameIndex undef clip fps timeSec in
        0 < frameCount ->
        0 <= idx < frameCount /\
        forall t,
          IEEE.trunc (IEEE.dmul timeSec (IEEE.double_of_single fps)) = Some t ->
          (0 <= t < frameCount -> t < 2 ^ 64 -> idx = t) /\
          (frameCount <= t < 2 ^ 64 -> idx = frameCount - 1))
    /\
    (forall (clip : R3d.Clip),
        let totalFrames := R3d.VideoFrameCount clip in
        let fps := R3d.VideoAudioFramerate clip in
        let idx := R3d.frameNo undef clip timeSec in
        0 < totalFrames ->
        0 <= idx < totalFrames /\
        forall t,
          IEEE.gt fps R3d.zero = true -> IEEE.gt timeSec R3d.zero = true ->
          IEEE.trunc (IEEE.dmul timeSec (IEEE.double_of_single fps)) = Some t ->
          (0 <= t < totalFrames -> t < 2 ^ 64 -> idx = t) /\
          (totalFrames <= t < 2 ^ 64 -> idx = totalFrames - 1)).
Proof.
  intros undef timeSec. split.
  - intros clip fps frameCount idx Hpos.
    pose proof (to_unsigned_range undef 64
                  (IEEE.dmul timeSec (IEEE.double_of_single fps)) ltac:(lia)) as Hraw.
    destruct (braw_frameIndex_cases undef clip fps timeSec Hpos) as [[Hlt He]|[Hge He]];
      fold idx in He; fold frameCount in Hlt || fold frameCount in Hge.
    + split; [lia|]. intros t Ht. split; intros Hr.
      * intros Hb. rewrite He. apply to_unsigned_exact; [exact Ht|lia].
      * rewrite (to_unsigned_exact undef 64 _ t Ht) in Hlt by lia. lia.
    + split; [lia|]. intros t Ht. split; intros Hr.
      * intros Hb. rewrite (to_unsigned_exact undef 64 _ t Ht) in Hge by lia. lia.
      * exact He.
  - intros clip totalFrames fps idx Hpos.
    destruct (r3d_frameNo_cases undef clip timeSec Hpos) as [[Hlt He]|[Hge He]];
      subst totalFrames fps idx.
    + split.
      * rewrite He. split; [|exact Hlt].
        destruct (IEEE.gt (R3d.VideoAudioFramerate clip) R3d.zero
                  && IEEE.gt timeSec R3d.zero); [|lia].
        apply to_unsigned_range. lia.
      * intros t Hf Ht Htr. rewrite Hf, Ht in Hlt. simpl in Hlt.
        rewrite He, Hf, Ht. simpl. split; intros Hr.
        -- intros Hb. apply to_unsigned_exact; [exact Htr|lia].
        -- rewrite (to_unsigned_exact undef 64 _ t Htr) in Hlt by lia. lia.
    + split; [lia|]. intros t Hf Ht Htr. rewrite Hf, Ht in Hge. simpl in Hge.
      split; intros Hr.
      * intros Hb. rewrite (to_unsigned_exact undef 64 _ t Htr) in Hge by lia. lia.
      * exact He.
Qed.

(** C8: with a positive frame count, the index handed to the decode call of
    either tool ([CreateJobReadFrame] in [ExtractOneFrame],
    [DecodeVideoFrame] in [decodeFrame]) is below the frame count for every
    time value.  The call is made at that index and at no other: what the
    SDK would answer at any other index has no bearing on the result, and a
    failure at that index makes the extraction fail.  An index
    [trunc (timeSec * fps)] that is in range is passed as it is, and one at
    or beyond the frame count becomes [frameCount - 1]. *)
Theorem C8_frame_index_below_frame_count :
  forall (undef : IEEE.float -> Z) (timeSec : IEEE.float),
    (forall (clip : Braw.Clip) (fps : IEEE.float) (f : Braw.FrameSdk)
            (outputPath : string) (maxDim : Z),
        let frameCount := Braw.out 0 (Braw.GetFrameCount clip) in
        let idx := Braw.frameIndex undef clip fps timeSec in
        0 < frameCount ->
        0 <= idx < frameCount /\
        (forall answer : Z -> Braw.HRESULT,
            answer idx = Braw.hr_CreateJobReadFrame f idx ->
            Braw.ExtractOneFrame undef clip (Setup.braw_frame_answering answer f)
                                 fps timeSec outputPath maxDim
            = Braw.ExtractOneFrame undef clip f fps timeSec outputPath maxDim) /\
        (Braw.is_ok (Braw.hr_SetCallback f) = true ->
         Braw.is_ok (Braw.hr_CreateJobReadFrame f idx) = false ->
         Braw.ExtractOneFrame undef clip f fps timeSec outputPath maxDim = 1) /\
        forall t,
          IEEE.trunc (IEEE.dmul timeSec (IEEE.double_of_single fps)) = Some t ->
          (0 <= t < frameCount -> t < 2 ^ 64 -> idx = t) /\
          (frameCount <= t < 2 ^ 64 -> idx = frameCount - 1))
    /\
    (forall (sdk : R3d.Sdk) (clip : R3d.Clip) (n : nat)
            (outputPath : string) (maxDim : Z),
        let totalFrames := R3d.VideoFrameCount clip in
        let fps := R3d.VideoAudioFramerate clip in
        let idx := R3d.frameNo undef clip timeSec in
        0 < totalFrames ->
        0 <= idx < totalFrames /\
        (forall answer : nat -> Z -> R3d.DecodeMode -> R3d.DecodeStatus,
            (forall mode, answer n idx mode = R3d.DecodeVideoFrame clip n idx mode) ->
            R3d.decodeFrame undef sdk (Setup.r3d_clip_answering answer clip)
                            n timeSec outputPath maxDim
            = R3d.decodeFrame undef sdk clip n timeSec outputPath maxDim) /\
        ((forall size, R3d.alloc_ok sdk 16 size = true) ->
         (forall mode, R3d.decode_ok (R3d.DecodeVideoFrame clip n idx mode) = false) ->
         R3d.decodeFrame undef sdk clip n timeSec outputPath maxDim = 1) /\
        forall t,
          IEEE.gt fps R3d.zero = true -> IEEE.gt timeSec R3d.zero = true ->
          IEEE.trunc (IEEE.dmul timeSec (IEEE.double_of_single fps)) = Some t ->
          (0 <= t < totalFrames -> t < 2 ^ 64 -> idx = t) /\
          (totalFrames <= t < 2 ^ 64 -> idx = totalFrames - 1)).
Proof.
  intros undef timeSec.
  destruct (frame_index_in_range undef timeSec) as [Hb Hr]. split.
  - intros clip fps f outputPath maxDim frameCount idx Hpos.
    destruct (Hb clip fps Hpos) as [Hrange Htrunc].
    split; [exact Hrange|]. split; [|split; [|exact Htrunc]].
    + intros answer Hanswer. unfold Braw.ExtractOneFrame.
      change (Braw.frameIndex undef clip fps timeSec) with idx.
      cbn [Setup.braw_frame_answering Braw.hr_SetCallback
           Braw.hr_CreateJobReadFrame Braw.hr_SubmitRead].
      rewrite Hanswer. reflexivity.
    + intros Hset Hfail. unfold Braw.ExtractOneFrame.
      change (Braw.frameIndex undef clip fps timeSec) with idx.
      rewrite Hset, Hfail. reflexivity.
  - intros sdk clip n outputPath maxDim totalFrames fps idx Hpos.
    destruct (Hr clip Hpos) as [Hrange Htrunc].
    split; [exact Hrange|]. split; [|split; [|exact Htrunc]].
    + intros answer Hanswer. unfold R3d.decodeFrame.
      change (R3d.frameNo undef (Setup.r3d_clip_answering answer clip) timeSec)
        with idx.
      change (R3d.frameNo undef clip timeSec) with idx.
      cbn [Setup.r3d_clip_answering R3d.Width R3d.Height R3d.DecodeVideoFrame].
      destruct (2048 <? R3d.Width clip / 4); rewrite Hanswer; reflexivity.
    + intros Halloc Hfail. unfold R3d.decodeFrame.
      change (R3d.frameNo undef clip timeSec) with idx.
      destruct (2048 <? R3d.Width clip / 4); rewrite Halloc, Hfail; reflexivity.
Qed.

(** ** Strings *)

Lemma string_app_assoc (a b c : string) :
  ((a ++ b) ++ c = a ++ (b ++ c))%string.
Proof. induction a as [|x a IH]; simpl; [reflexivity|]. now rewrite IH. Qed.

Lemma string_app_empty_r (a : string) : (a ++ EmptyString = a)%string.
Proof. induction a as [|x a IH]; simpl; [reflexivity|]. now rewrite IH. Qed.

Lemma substring_whole (s : string) (n : nat) :
  (String.length s <= n)%nat -> substring 0 n s = s.
Proof.
  revert n. induction s as [|c s IH]; intros n Hn.
  - destruct n; reflexivity.
  - destruct n as [|n]; simpl in *; [lia|]. rewrite IH; [reflexivity|lia].
Qed.

Lemma snprintf_fits (size : nat) (s : string) :
  (String.length s < size)%nat -> Libc.snprintf size s = s.
Proof. intros H. unfold Libc.snprintf. apply substring_whole. lia. Qed.

(** ** Probe *)

Lemma leb_zero_not_gt (fps : IEEE.float) :
  SFleb fps (S754_zero false) = true -> IEEE.gt fps (S754_zero false) = false.
Proof.
  unfold IEEE.gt, SFleb, SFltb.
  destruct fps as [s|s| |s m e]; simpl; try discriminate; try reflexivity;
    destruct s; simpl; try discriminate; reflexivity.
Qed.

Lemma braw_probe_duration_cases (fps : IEEE.float) (frameCount : Z) :
  (IEEE.gt fps Braw.zero = true ->
   Braw.probe_duration fps frameCount =
   IEEE.ddiv (IEEE.double_of_Z frameCount) (IEEE.double_of_single fps)) /\
  (SFleb fps Braw.zero = true -> Braw.probe_duration fps frameCount = Braw.zero).
Proof.
  unfold Braw.probe_duration, Braw.zero. split; intros H.
  - now rewrite H.
  - now rewrite (leb_zero_not_gt fps H).
Qed.

Lemma r3d_probe_duration_cases (fps : IEEE.float) (frames : Z) :
  (IEEE.gt fps R3d.zero = true ->
   R3d.probe_duration fps frames =
   IEEE.ddiv (IEEE.double_of_Z frames) (IEEE.double_of_single fps)) /\
  (SFleb fps R3d.zero = true -> R3d.probe_duration fps frames = R3d.zero).
Proof.
  unfold R3d.probe_duration, R3d.zero. split; intros H.
  - now rewrite H.
  - now rewrite (leb_zero_not_gt fps H).
Qed.

(** ** Batch extraction *)

Lemma concat_comma_separated (e : string) (rest : list string) :
  String.concat "," (e :: rest) = (e ++ comma_separated rest)%string.
Proof.
  revert e. induction rest as [|x rest IH]; intros e.
  - simpl. now rewrite string_app_empty_r.
  - change (String.concat "," (e :: x :: rest))
      with (e ++ "," ++ String.concat "," (x :: rest))%string.
    rewrite IH. reflexivity.
Qed.

Section BrawBatch.
Variable undef : IEEE.float -> Z.
Variables (clip : Braw.Clip) (fps : IEEE.float) (outputDir : string) (maxDim : Z).

Local Abbreviation braw_frame_ok := (Batch.braw_frame_ok undef clip fps outputDir maxDim).
Local Abbreviation braw_elements := (Batch.braw_elements undef clip fps outputDir maxDim).

Lemma braw_elements_length (i : nat) (times : list IEEE.float) :
  List.length (braw_elements i times) = List.length times.
Proof.
  unfold braw_elements. rewrite length_map, length_combine, length_seq. lia.
Qed.

Lemma braw_frame_path_fits (i : nat) :
  (String.length (Spec.frame_name outputDir i) < 4096)%nat ->
  Braw.frame_path outputDir i = Spec.frame_name outputDir i.
Proof. intros H. unfold Braw.frame_path. now apply snprintf_fits. Qed.

Lemma braw_loop_later (times : list IEEE.float) (i : nat) :
  (forall k, (k < List.length times)%nat ->
             (String.length (Spec.frame_name outputDir (S i + k)) < 4096)%nat) ->
  Braw.extract_frames_loop undef clip fps outputDir maxDim (S i) times
  = comma_separated (braw_elements (S i) times).
Proof.
  revert i. induction times as [|t rest IH]; intros i Hfit; [reflexivity|].
  cbn [Braw.extract_frames_loop braw_elements List.length seq List.combine
       List.map comma_separated fst snd].
  rewrite braw_frame_path_fits
    by (specialize (Hfit 0%nat); rewrite Nat.add_0_r in Hfit; apply Hfit; simpl; lia).
  change (0 <? S i)%nat with true. cbv iota.
  unfold braw_elements in IH. rewrite IH.
  - unfold Spec.frame_element, braw_frame_ok. reflexivity.
  - intros k Hk. replace (S (S i) + k)%nat with (S i + S k)%nat by lia.
    apply Hfit. simpl. lia.
Qed.

Lemma braw_loop_first (times : list IEEE.float) :
  times <> [] ->
  (forall k, (k < List.length times)%nat ->
             (String.length (Spec.frame_name outputDir k) < 4096)%nat) ->
  Braw.extract_frames_loop undef clip fps outputDir maxDim 0 times
  = String.concat "," (braw_elements 0 times).
Proof.
  destruct times as [|t rest]; [congruence|]. intros _ Hfit.
  unfold braw_elements.
  cbn [List.length seq List.combine List.map fst snd].
  rewrite concat_comma_separated.
  cbn [Braw.extract_frames_loop].
  rewrite braw_frame_path_fits by (apply (Hfit 0%nat); simpl; lia).
  change (0 <? 0)%nat with false. cbv iota.
  rewrite braw_loop_later.
  - unfold Spec.frame_element, braw_frame_ok, braw_elements. reflexivity.
  - intros k Hk. apply (Hfit (S k)). simpl. lia.
Qed.
End BrawBatch.

Section R3dBatch.
Variable undef : IEEE.float -> Z.
Variables (sdk : R3d.Sdk) (clip : R3d.Clip) (outputDir : string) (maxDim : Z).

Local Abbreviation r3d_frame_ok := (Batch.r3d_frame_ok undef sdk clip outputDir maxDim).
Local Abbreviation r3d_elements := (Batch.r3d_elements undef sdk clip outputDir maxDim).

Lemma r3d_elements_length (i : nat) (times : list IEEE.float) :
  List.length (r3d_elements i times) = List.length times.
Proof.
  unfold r3d_elements. rewrite length_map, length_combine, length_seq. lia.
Qed.

Lemma r3d_frame_path_fits (i : nat) :
  (String.length (Spec.frame_name outputDir i) < 2048)%nat ->
  R3d.frame_path outputDir i = Spec.frame_name outputDir i.
Proof. intros H. unfold R3d.frame_path. now apply snprintf_fits. Qed.

Lemma r3d_loop_later (times : list IEEE.float) (i : nat) :
  (forall k, (k < List.length times)%nat ->
             (String.length (Spec.frame_name outputDir (S i + k)) < 2048)%nat) ->
  R3d.extract_frames_loop undef sdk clip outputDir maxDim (S i) times
  = comma_separated (r3d_elements (S i) times).
Proof.
  revert i. induction times as [|t rest IH]; intros i Hfit; [reflexivity|].
  cbn [R3d.extract_frames_loop r3d_elements List.length seq List.combine
       List.map comma_separated fst snd].
  rewrite r3d_frame_path_fits
    by (specialize (Hfit 0%nat); rewrite Nat.add_0_r in Hfit; apply Hfit; simpl; lia).
  change (0 <? S i)%nat with true. cbv iota.
  unfold r3d_elements in IH. rewrite IH.
  - unfold Spec.frame_element, r3d_frame_ok. reflexivity.
  - intros k Hk. replace (S (S i) + k)%nat with (S i + S k)%nat by lia.
    apply Hfit. simpl. lia.
Qed.

Lemma r3d_loop_first (times : list IEEE.float) :
  times <> [] ->
  (forall k, (k < List.length times)%nat ->
             (String.length (Spec.frame_name outputDir k) < 2048)%nat) ->
  R3d.extract_frames_loop undef sdk clip outputDir maxDim 0 times
  = String.concat "," (r3d_elements 0 times).
Proof.
  destruct times as [|t rest]; [congruence|]. intros _ Hfit.
  unfold r3d_elements.
  cbn [List.length seq List.combine List.map fst snd].
  rewrite concat_comma_separated.
  cbn [R3d.extract_frames_loop].
  rewrite r3d_frame_path_fits by (apply (Hfit 0%nat); simpl; lia).
  change (0 <? 0)%nat with false. cbv iota.
  rewrite r3d_loop_later.
  - unfold Spec.frame_element, r3d_frame_ok, r3d_elements. reflexivity.
  - intros k Hk. apply (Hfit (S k)). simpl. lia.
Qed.
End R3dBatch.

(** What extract-frames prints: when the timestamps parse to a non-empty
    list, the clip opens and every path fits the tool's path buffer, an
    opening bracket, for every time in input order the path
    [<outputDir>/frame_XXXX.jpg] between quotation marks when that frame was
    extracted and [null] when it was not, with commas between, and a closing
    bracket; the exit code is 0.  When the parsed list is empty it prints
    nothing and exits with code 1. *)
Lemma extract_frames_prints_elements :
  forall (undef : IEEE.float -> Z) (filePath timesJSON outputDir : string)
         (maxDim : Z),
    (forall (sdk : Braw.Sdk),
        let times := Braw.ParseTimesJSON timesJSON in
        (times = [] ->
         Braw.CmdExtractFrames undef sdk filePath timesJSON outputDir maxDim
         = Braw.exit_with 1 EmptyString) /\
        (forall (hr : Braw.HRESULT) (clip : Braw.Clip),
            times <> [] ->
            Braw.CreateFactory sdk = true ->
            Braw.is_ok (Braw.hr_CreateCodec sdk) = true ->
            Braw.OpenClip sdk filePath = (hr, clip) ->
            Braw.is_ok hr = true ->
            (forall i, (i < List.length times)%nat ->
                       (String.length (Spec.frame_name outputDir i) < 4096)%nat) ->
            let fps := Braw.out Braw.zero (Braw.GetFrameRate clip) in
            let elements := Batch.braw_elements undef clip fps outputDir maxDim 0 times in
            List.length elements = List.length times /\
            Braw.CmdExtractFrames undef sdk filePath timesJSON outputDir maxDim
            = Braw.exit_with 0 (Spec.json_array elements ++ Libc.newline)%string))
    /\
    (forall (sdk : R3d.Sdk),
        let times := R3d.parse_timesJson timesJSON in
        (times = [] ->
         R3d.cmd_extract_frames undef sdk filePath timesJSON outputDir maxDim
         = R3d.exit_with 1 EmptyString) /\
        (forall (clip : R3d.Clip),
            times <> [] ->
            R3d.LoadFrom sdk filePath = (R3d.LSClipLoaded, clip) ->
            (forall i, (i < List.length times)%nat ->
                       (String.length (Spec.frame_name outputDir i) < 2048)%nat) ->
            let elements := Batch.r3d_elements undef sdk clip outputDir maxDim 0 times in
            List.length elements = List.length times /\
            R3d.cmd_extract_frames undef sdk filePath timesJSON outputDir maxDim
            = R3d.exit_with 0 (Spec.json_array elements ++ Libc.newline)%string)).
Proof.
  intros undef filePath timesJSON outputDir maxDim. split.
  - intros sdk times. split.
    + intros He. unfold Braw.CmdExtractFrames. fold times. now rewrite He.
    + intros hr clip Hne Hf Hc Ho Hhr Hfit fps elements. split.
      * apply braw_elements_length.
      * unfold Braw.CmdExtractFrames. fold times.
        destruct times as [|t rest] eqn:Et; [congruence|].
        rewrite Hf, Hc, Ho, Hhr. cbn [negb]. fold fps.
        rewrite braw_loop_first by assumption.
        unfold Spec.json_array. fold elements.
        now rewrite !string_app_assoc.
  - intros sdk times. split.
    + intros He. unfold R3d.cmd_extract_frames. fold times. now rewrite He.
    + intros clip Hne Hl Hfit elements. split.
      * apply r3d_elements_length.
      * unfold R3d.cmd_extract_frames. fold times.
        destruct times as [|t rest] eqn:Et; [congruence|].
        rewrite Hl.
        rewrite r3d_loop_first by assumption.
        unfold Spec.json_array. fold elements.
        now rewrite !string_app_assoc.
Qed.

(** The claim as stated fails when the clip does not open: the timestamps
    parse to one time, yet nothing is printed and the exit code is 1. *)
Lemma C6_counterexample_clip_does_not_open :
  List.length (R3d.parse_timesJson "[1.5]") = 1%nat /\
  R3d.cmd_extract_frames Samples.undef Samples.r3d_sdk_no_clip
                         "clip.R3D" "[1.5]" "out" 512
  = R3d.exit_with 1 EmptyString /\
  List.length (Braw.ParseTimesJSON "[1.5]") = 1%nat /\
  Braw.CmdExtractFrames Samples.undef Samples.braw_sdk_no_clip
                        "clip.braw" "[1.5]" "out" 512
  = Braw.exit_with 1 EmptyString.
Proof. repeat split; vm_compute; reflexivity. Qed.

(** C8 at the sample clips: 100 seconds into a 240-frame clip is clamped to
    frame 239. *)
Lemma C8_witness_past_the_end :
  Braw.frameIndex Samples.undef Samples.braw_clip Samples.fps24 (Libc.atof "100") = 239
  /\ R3d.frameNo Samples.undef Samples.r3d_clip (Libc.atof "100") = 239.
Proof.
  destruct (C8_frame_index_below_frame_count Samples.undef (Libc.atof "100"))
    as [Hb Hr].
  split.
  - destruct (Hb Samples.braw_clip Samples.fps24 Samples.braw_frame_good
                 "out.jpg" 512) as [_ [_ [_ H]]]; [reflexivity|].
    apply (proj2 (H 2400 eq_refl)). vm_compute. split; [discriminate|reflexivity].
  - destruct (Hr Samples.r3d_sdk Samples.r3d_clip 0%nat "out.jpg" 512)
      as [_ [_ [_ H]]]; [reflexivity|].
    apply (proj2 (H 2400 eq_refl eq_refl eq_refl)).
    vm_compute. split; [discriminate|reflexivity].
Defined.

(** ** Exit codes *)

Lemma braw_ExtractOneFrame_exit (undef : IEEE.float -> Z) (clip : Braw.Clip)
      (f : Braw.FrameSdk) (fps timeSec : IEEE.float) (outputPath : string)
      (maxDim : Z) :
  let r := Braw.ExtractOneFrame undef clip f fps timeSec outputPath maxDim in
  (r = 0 \/ r = 1) /\
  (r = 0 ->
   Braw.is_ok (Braw.hr_SetCallback f) = true /\
   Braw.is_ok (Braw.hr_CreateJobReadFrame f (Braw.frameIndex undef clip fps timeSec)) = true /\
   Braw.is_ok (Braw.hr_SubmitRead f) = true /\
   Braw.is_ok (Braw.hr_ReadComplete f) = true /\
   Braw.is_ok (Braw.hr_CreateJobDecodeAndProcessFrame f) = true /\
   Braw.is_ok (Braw.hr_SubmitDecode f) = true /\
   Braw.is_ok (Braw.hr_ProcessComplete f) = true /\
   Braw.is_ok (fst (Braw.img_GetWidth f)) = true /\
   Braw.is_ok (fst (Braw.img_GetHeight f)) = true /\
   Braw.is_ok (fst (Braw.img_GetResourceSizeBytes f)) = true /\
   Braw.is_ok (fst (Braw.img_GetResource f)) = true).
Proof.
  unfold Braw.ExtractOneFrame, Braw.FlushJobs, Braw.ProcessComplete.
  destruct (Braw.img_GetWidth f) as [h1 w].
  destruct (Braw.img_GetHeight f) as [h2 h].
  destruct (Braw.img_GetResourceSizeBytes f) as [h3 sz].
  destruct (Braw.img_GetResource f) as [h4 raw].
  cbn [fst].
  assert (Hfail : forall P : Prop, (1 = 0 \/ 1 = 1) /\ (1 = 0 -> P))
    by (intros P; split; [right; reflexivity|discriminate]).
  destruct (Braw.is_ok (Braw.hr_SetCallback f)) eqn:E1; cbn [negb]; [|apply Hfail].
  destruct (Braw.is_ok (Braw.hr_CreateJobReadFrame f _)) eqn:E2; cbn [negb];
    [|apply Hfail].
  destruct (Braw.is_ok (Braw.hr_SubmitRead f)) eqn:E3; cbn [negb]; [|apply Hfail].
  destruct (Braw.is_ok (Braw.hr_ReadComplete f)) eqn:E4; cbn [negb Braw.success];
    [|apply Hfail].
  destruct (Braw.is_ok (Braw.hr_CreateJobDecodeAndProcessFrame f)) eqn:E5;
    [|rewrite E5; cbn [negb Braw.success]; apply Hfail].
  destruct (Braw.is_ok (Braw.hr_SubmitDecode f)) eqn:E6;
    [|cbn [negb Braw.success]; apply Hfail].
  destruct (Braw.is_ok (Braw.hr_ProcessComplete f)) eqn:E7;
    [|repeat (rewrite E7; cbn [negb andb Braw.success]); apply Hfail].
  destruct (Braw.is_ok h1) eqn:E8;
    [|repeat (rewrite E8; cbn [negb andb Braw.success]); apply Hfail].
  destruct (Braw.is_ok h2) eqn:E9;
    [|repeat (rewrite E9; cbn [negb andb Braw.success]); apply Hfail].
  destruct (Braw.is_ok h3) eqn:E10;
    [|repeat (rewrite E10; cbn [negb andb Braw.success]); apply Hfail].
  destruct (Braw.is_ok h4) eqn:E11; cbn [negb andb Braw.success]; [|apply Hfail].
  destruct raw; cbn [negb andb Braw.success]; [|apply Hfail].
  destruct (Braw.WriteJPEG undef (Braw.frame_cg f) w h maxDim);
    cbn [negb Braw.success]; [|apply Hfail].
  split; [left; reflexivity|]. intros _. repeat split; reflexivity.
Qed.

Lemma r3d_decodeFrame_exit (undef : IEEE.float -> Z) (sdk : R3d.Sdk)
      (clip : R3d.Clip) (n : nat) (timeSec : IEEE.float) (outputPath : string)
      (maxDim : Z) :
  let r := R3d.decodeFrame undef sdk clip n timeSec outputPath maxDim in
  (r = 0 \/ r = 1) /\
  (r = 0 ->
   exists mode,
     R3d.DecodeVideoFrame clip n (R3d.frameNo undef clip timeSec) mode
     = R3d.DSDecodeOK).
Proof.
  assert (Hfail : forall P : Prop, (1 = 0 \/ 1 = 1) /\ (1 = 0 -> P))
    by (intros P; split; [right; reflexivity|discriminate]).
  unfold R3d.decodeFrame.
  destruct (2048 <? R3d.Width clip / 4).
  - destruct (R3d.alloc_ok sdk _ _); cbn [negb]; [|apply Hfail].
    destruct (R3d.DecodeVideoFrame clip n _ _) eqn:E; cbn [negb R3d.decode_ok];
      [|apply Hfail].
    destruct (R3d.writeBGRAasJPEG _ _ _ _); cbn [negb]; [|apply Hfail].
    split; [left; reflexivity|]. intros _. eexists. exact E.
  - destruct (R3d.alloc_ok sdk _ _); cbn [negb]; [|apply Hfail].
    destruct (R3d.DecodeVideoFrame clip n _ _) eqn:E; cbn [negb R3d.decode_ok];
      [|apply Hfail].
    destruct (R3d.writeBGRAasJPEG _ _ _ _); cbn [negb]; [|apply Hfail].
    split; [left; reflexivity|]. intros _. eexists. exact E.
Qed.

Section BrawSetup.
Variable undef : IEEE.float -> Z.
Variable sdk : Braw.Sdk.
Variable filePath : string.
Hypothesis Hfails : Setup.braw_fails sdk filePath.

Lemma braw_probe_setup_fails :
  Platform.exit_code (Braw.CmdProbe sdk filePath) = 1.
Proof.
  unfold Braw.CmdProbe. destruct Hfails as [H|[H|H]].
  - now rewrite H.
  - destruct (Braw.CreateFactory sdk); [|reflexivity]. now rewrite H.
  - destruct (Braw.CreateFactory sdk); [|reflexivity].
    destruct (Braw.is_ok (Braw.hr_CreateCodec sdk)); [|reflexivity].
    destruct (Braw.OpenClip sdk filePath) as [hr clip]. cbn [fst] in H.
    now rewrite H.
Qed.

Lemma braw_extract_frame_setup_fails (timeSec : IEEE.float) (outputPath : string)
      (maxDim : Z) :
  Platform.exit_code (Braw.CmdExtractFrame undef sdk filePath timeSec outputPath maxDim) = 1.
Proof.
  unfold Braw.CmdExtractFrame. destruct Hfails as [H|[H|H]].
  - now rewrite H.
  - destruct (Braw.CreateFactory sdk); [|reflexivity]. now rewrite H.
  - destruct (Braw.CreateFactory sdk); [|reflexivity].
    destruct (Braw.is_ok (Braw.hr_CreateCodec sdk)); [|reflexivity].
    destruct (Braw.OpenClip sdk filePath) as [hr clip]. cbn [fst] in H.
    now rewrite H.
Qed.

Lemma braw_extract_frames_setup_fails (timesJSON outputDir : string) (maxDim : Z) :
  Platform.exit_code (Braw.CmdExtractFrames undef sdk filePath timesJSON outputDir maxDim) = 1.
Proof.
  unfold Braw.CmdExtractFrames.
  destruct (Braw.ParseTimesJSON timesJSON); [reflexivity|].
  destruct Hfails as [H|[H|H]].
  - now rewrite H.
  - destruct (Braw.CreateFactory sdk); [|reflexivity]. now rewrite H.
  - destruct (Braw.CreateFactory sdk); [|reflexivity].
    destruct (Braw.is_ok (Braw.hr_CreateCodec sdk)); [|reflexivity].
    destruct (Braw.OpenClip sdk filePath) as [hr clip]. cbn [fst] in H.
    now rewrite H.
Qed.

Lemma braw_extract_audio_setup_fails (outputPath : string) :
  Platform.exit_code (Braw.CmdExtractAudio sdk filePath outputPath) = 1.
Proof.
  unfold Braw.CmdExtractAudio. destruct Hfails as [H|[H|H]].
  - now rewrite H.
  - destruct (Braw.CreateFactory sdk); [|reflexivity]. now rewrite H.
  - destruct (Braw.CreateFactory sdk); [|reflexivity].
    destruct (Braw.is_ok (Braw.hr_CreateCodec sdk)); [|reflexivity].
    destruct (Braw.OpenClip sdk filePath) as [hr clip]. cbn [fst] in H.
    now rewrite H.
Qed.
End BrawSetup.

Lemma braw_main_setup_fails (undef : IEEE.float -> Z) (sdk : Braw.Sdk)
      (argv : list string) :
  Setup.braw_fails sdk (nth 2 argv EmptyString) ->
  Platform.exit_code (Braw.main undef sdk argv) = 1.
Proof.
  intros H. unfold Braw.main.
  destruct (List.length argv <? 3)%nat; [reflexivity|].
  destruct (match Braw.find_max_dim 3 (skipn 3 argv) with
            | Some r => r
            | None => (512, List.length argv)
            end) as [maxDim effectiveArgc].
  repeat match goal with
         | |- context [if ?c then _ else _] => destruct c
         end.
  - now apply braw_probe_setup_fails.
  - now apply braw_extract_frame_setup_fails.
  - now apply braw_extract_frames_setup_fails.
  - now apply braw_extract_audio_setup_fails.
  - reflexivity.
Qed.

Lemma r3d_main_setup_fails (undef : IEEE.float -> Z) (sdk : R3d.Sdk)
      (argv : list string) :
  Setup.r3d_init_fails sdk \/ Setup.r3d_load_fails sdk (nth 2 argv EmptyString) ->
  Platform.exit_code (R3d.main undef sdk argv) = 1.
Proof.
  intros H. unfold R3d.main.
  destruct (List.length argv <? 2)%nat; [reflexivity|].
  destruct H as [[code H]|[code H]].
  - now rewrite H.
  - destruct (R3d.InitializeSdk sdk); [|reflexivity].
    unfold R3d.cmd_probe, R3d.cmd_extract_frame, R3d.cmd_extract_frames,
      R3d.cmd_extract_audio.
    destruct (R3d.LoadFrom sdk (nth 2 argv EmptyString)) as [ls clip].
    cbn [fst] in H. subst ls.
    repeat match goal with
           | |- context [if ?c then _ else _] => destruct c
           end; reflexivity.
Qed.

Lemma braw_extract_frames_exit (undef : IEEE.float -> Z) (sdk : Braw.Sdk)
      (filePath timesJSON outputDir : string) (maxDim : Z) :
  Platform.exit_code (Braw.CmdExtractFrames undef sdk filePath timesJSON outputDir maxDim) = 0
  <-> (Braw.ParseTimesJSON timesJSON <> [] /\ Setup.braw_opens sdk filePath).
Proof.
  unfold Braw.CmdExtractFrames, Setup.braw_opens.
  destruct (Braw.ParseTimesJSON timesJSON) as [|t rest].
  - cbn. split; [discriminate|]. intros [H _]. congruence.
  - destruct (Braw.CreateFactory sdk); cbn [negb].
    2:{ cbn. split; [discriminate|]. intros [_ [H _]]. discriminate. }
    destruct (Braw.is_ok (Braw.hr_CreateCodec sdk)); cbn [negb].
    2:{ cbn. split; [discriminate|]. intros [_ [_ [H _]]]. discriminate. }
    destruct (Braw.OpenClip sdk filePath) as [hr clip]. cbn [fst].
    destruct (Braw.is_ok hr); cbn [negb].
    + cbn. split; [|reflexivity]. intros _. repeat split. discriminate.
    + cbn. split; [discriminate|]. intros [_ [_ [_ H]]]. discriminate.
Qed.

Lemma r3d_extract_frames_exit (undef : IEEE.float -> Z) (sdk : R3d.Sdk)
      (filePath timesJson outputDir : string) (maxDim : Z) :
  Platform.exit_code (R3d.cmd_extract_frames undef sdk filePath timesJson outputDir maxDim) = 0
  <-> (R3d.parse_timesJson timesJson <> [] /\ Setup.r3d_loads sdk filePath).
Proof.
  unfold R3d.cmd_extract_frames, Setup.r3d_loads.
  destruct (R3d.parse_timesJson timesJson) as [|t rest].
  - cbn. split; [discriminate|]. intros [H _]. congruence.
  - destruct (R3d.LoadFrom sdk filePath) as [[|code] clip]; cbn.
    + split; [|reflexivity]. intros _. split; [discriminate|reflexivity].
    + split; [discriminate|]. intros [_ H]. discriminate.
Qed.




(** ** [strtod] consumes what it converts *)

Lemma skip_space_length (s : string) :
  (String.length (Libc.skip_space s) <= String.length s)%nat.
Proof.
  induction s as [|c s IH]; simpl; [lia|].
  destruct (Libc.isspace c); simpl; lia.
Qed.

Lemma skip_space_idem (s : string) :
  Libc.skip_space (Libc.skip_space s) = Libc.skip_space s.
Proof.
  induction s as [|c s IH]; simpl; [reflexivity|].
  destruct (Libc.isspace c) eqn:E; [exact IH|]. simpl. now rewrite E.
Qed.

Lemma read_digits_length (val : ascii -> option Z) (base : Z) (s : string) :
  forall acc n,
    let '(_, n', r) := Libc.read_digits val base s acc n in
    Z.of_nat (String.length r) + (n' - n) = Z.of_nat (String.length s) /\ n <= n'.
Proof.
  induction s as [|c s IH]; intros acc n; cbn [Libc.read_digits].
  - lia.
  - destruct (val c) as [d|].
    + specialize (IH (acc * base + d) (n + 1)).
      destruct (Libc.read_digits val base s (acc * base + d) (n + 1)) as [[a n'] r].
      cbn [String.length]. lia.
    + lia.
Qed.

Lemma match_keyword_length (kw s r : string) :
  Libc.match_keyword kw s = Some r ->
  (String.length s = String.length kw + String.length r)%nat.
Proof.
  revert s. induction kw as [|k kw IH]; intros s H; simpl in *.
  - congruence.
  - destruct s as [|c s]; [discriminate|].
    destruct (Ascii.eqb (Libc.to_lower c) k); [|discriminate].
    apply IH in H. simpl. lia.
Qed.

Lemma read_exponent_length (marker : ascii) (s : string) :
  (String.length (snd (Libc.read_exponent marker s)) <= String.length s)%nat.
Proof.
  unfold Libc.read_exponent. destruct s as [|c r]; simpl; [lia|].
  destruct (Ascii.eqb (Libc.to_lower c) marker); simpl; [|lia].
  set (sg := match r with
             | String "-"%char r' => (true, r')
             | String "+"%char r' => (false, r')
             | _ => (false, r)
             end).
  assert (Hsg : (String.length (snd sg) <= String.length r)%nat).
  { subst sg. destruct r as [|x r']; simpl; [lia|].
    destruct x as [[] [] [] [] [] [] [] []]; simpl; lia. }
  destruct sg as [neg r1]. simpl in Hsg.
  pose proof (read_digits_length Libc.digit_val 10 r1 0 0) as Hd.
  destruct (Libc.read_digits Libc.digit_val 10 r1 0 0) as [[e n] r2].
  destruct (0 <? n); simpl; lia.
Qed.

Lemma read_decimal_length (neg : bool) (s : string) (v : IEEE.float) (r : string) :
  Libc.read_decimal neg s = Some (v, r) ->
  (String.length r < String.length s)%nat.
Proof.
  unfold Libc.read_decimal.
  pose proof (read_digits_length Libc.digit_val 10 s 0 0) as H1.
  destruct (Libc.read_digits Libc.digit_val 10 s 0 0) as [[ip ni] r1].
  set (fr := match r1 with
             | String "."%char r' =>
                 let '(m, nf, r2) := Libc.read_digits Libc.digit_val 10 r' ip 0 in
                 (m, nf, r2)
             | _ => (ip, 0, r1)
             end).
  assert (Hfr : let '(_, nf, r2) := fr in
                Z.of_nat (String.length r2) + nf <= Z.of_nat (String.length r1)
                /\ 0 <= nf).
  { subst fr. destruct r1 as [|x r']; [simpl; lia|].
    destruct (Ascii.eqb_spec x "."%char) as [->|Hx].
    - pose proof (read_digits_length Libc.digit_val 10 r' ip 0) as H2.
      destruct (Libc.read_digits Libc.digit_val 10 r' ip 0) as [[m nf] r2].
      cbn [String.length]. lia.
    - assert (E : match String x r' with
                  | String "."%char r'0 =>
                      let '(m, nf, r2) := Libc.read_digits Libc.digit_val 10 r'0 ip 0 in
                      (m, nf, r2)
                  | _ => (ip, 0, String x r')
                  end = (ip, 0, String x r')).
      { destruct x as [[] [] [] [] [] [] [] []]; try reflexivity.
        now contradiction Hx. }
      rewrite E. lia. }
  destruct fr as [[m nf] r2].
  destruct (0 <? ni + nf) eqn:Hn; [|discriminate].
  apply Z.ltb_lt in Hn.
  pose proof (read_exponent_length "e" r2) as He.
  destruct (Libc.read_exponent "e" r2) as [e r3]. simpl in He.
  intros H. inversion H; subst. lia.
Qed.

Lemma read_hex_length (neg : bool) (s : string) (v : IEEE.float) (r : string) :
  Libc.read_hex neg s = Some (v, r) ->
  (String.length r < String.length s)%nat.
Proof.
  unfold Libc.read_hex.
  pose proof (read_digits_length Libc.hex_val 16 s 0 0) as H1.
  destruct (Libc.read_digits Libc.hex_val 16 s 0 0) as [[ip ni] r1].
  set (fr := match r1 with
             | String "."%char r' =>
                 let '(m, nf, r2) := Libc.read_digits Libc.hex_val 16 r' ip 0 in
                 (m, nf, r2)
             | _ => (ip, 0, r1)
             end).
  assert (Hfr : let '(_, nf, r2) := fr in
                Z.of_nat (String.length r2) + nf <= Z.of_nat (String.length r1)
                /\ 0 <= nf).
  { subst fr. destruct r1 as [|x r']; [simpl; lia|].
    destruct (Ascii.eqb_spec x "."%char) as [->|Hx].
    - pose proof (read_digits_length Libc.hex_val 16 r' ip 0) as H2.
      destruct (Libc.read_digits Libc.hex_val 16 r' ip 0) as [[m nf] r2].
      cbn [String.length]. lia.
    - assert (E : match String x r' with
                  | String "."%char r'0 =>
                      let '(m, nf, r2) := Libc.read_digits Libc.hex_val 16 r'0 ip 0 in
                      (m, nf, r2)
                  | _ => (ip, 0, String x r')
                  end = (ip, 0, String x r')).
      { destruct x as [[] [] [] [] [] [] [] []]; try reflexivity.
        now contradiction Hx. }
      rewrite E. lia. }
  destruct fr as [[m nf] r2].
  destruct (0 <? ni + nf) eqn:Hn; [|discriminate].
  apply Z.ltb_lt in Hn.
  pose proof (read_exponent_length "p" r2) as He.
  destruct (Libc.read_exponent "p" r2) as [e r3]. simpl in He.
  intros H. inversion H; subst. lia.
Qed.

Lemma skip_nchar_length (s : string) :
  (String.length (Libc.skip_nchar s) <= String.length s)%nat.
Proof.
  induction s as [|c s IH]; simpl; [lia|].
  destruct (Libc.isalnum_ c); simpl; lia.
Qed.

Lemma read_nan_suffix_length (s : string) :
  (String.length (Libc.read_nan_suffix s) <= String.length s)%nat.
Proof.
  unfold Libc.read_nan_suffix. destruct s as [|x r]; [simpl; lia|].
  destruct (Ascii.eqb_spec x "("%char) as [->|Hx].
  - pose proof (skip_nchar_length r) as H.
    destruct (Libc.skip_nchar r) as [|y r']; [simpl; lia|].
    destruct y as [[] [] [] [] [] [] [] []]; simpl in *; lia.
  - destruct x as [[] [] [] [] [] [] [] []]; try (simpl; lia).
    now contradiction Hx.
Qed.

Lemma read_number_length (neg : bool) (s : string) (v : IEEE.float) (r : string) :
  Libc.read_number neg s = Some (v, r) ->
  (String.length r < String.length s)%nat.
Proof.
  unfold Libc.read_number.
  destruct (Libc.match_keyword "infinity" s) as [r1|] eqn:K1.
  { intros H. inversion H; subst. apply match_keyword_length in K1. simpl in K1. lia. }
  destruct (Libc.match_keyword "inf" s) as [r2|] eqn:K2.
  { intros H. inversion H; subst. apply match_keyword_length in K2. simpl in K2. lia. }
  destruct (Libc.match_keyword "nan" s) as [r3|] eqn:K3.
  { intros H. inversion H; subst. apply match_keyword_length in K3. simpl in K3.
    pose proof (read_nan_suffix_length r3). lia. }
  destruct (Libc.match_keyword "0x" s) as [r4|] eqn:K4.
  - destruct (Libc.read_hex neg r4) as [[v' r']|] eqn:Hh.
    + intros H. inversion H; subst. apply read_hex_length in Hh.
      apply match_keyword_length in K4. simpl in K4. lia.
    + apply read_decimal_length.
  - apply read_decimal_length.
Qed.

Lemma strtod_length (s : string) (v : IEEE.float) (r : string) :
  Libc.strtod s = Some (v, r) -> (String.length r < String.length s)%nat.
Proof.
  unfold Libc.strtod. pose proof (skip_space_length s) as Hs.
  destruct (Libc.skip_space s) as [|x r0] eqn:E.
  - intros H. apply read_number_length in H. simpl in H. lia.
  - destruct (Ascii.eqb_spec x "-"%char) as [->|Hm].
    { intros H. apply read_number_length in H. simpl in Hs. lia. }
    destruct (Ascii.eqb_spec x "+"%char) as [->|Hp].
    { intros H. apply read_number_length in H. simpl in Hs. lia. }
    assert (E' : match String x r0 with
                 | String "-"%char r => Libc.read_number true r
                 | String "+"%char r => Libc.read_number false r
                 | r => Libc.read_number false r
                 end = Libc.read_number false (String x r0)).
    { destruct x as [[] [] [] [] [] [] [] []]; try reflexivity;
        [now contradiction Hp | now contradiction Hm]. }
    rewrite E'. intros H. apply read_number_length in H. lia.
Qed.

Lemma strtod_skip_space (s : string) :
  Libc.strtod (Libc.skip_space s) = Libc.strtod s.
Proof. unfold Libc.strtod. now rewrite skip_space_idem. Qed.

(** ** The two timestamp parsers *)

Lemma strtod_empty : Libc.strtod EmptyString = None.
Proof. reflexivity. Qed.

Lemma strtod_bracket (s : string) : Libc.strtod (String "]" s) = None.
Proof. reflexivity. Qed.

Lemma strtod_comma (s : string) : Libc.strtod (String "," s) = None.
Proof. reflexivity. Qed.

Lemma strtod_space (c : ascii) (s : string) :
  Libc.isspace c = true -> Libc.strtod (String c s) = Libc.strtod s.
Proof. intros H. unfold Libc.strtod. simpl. now rewrite H. Qed.

(** [strtod] fails, or gives what it gives after r3d-tool's separators. *)
Lemma strtod_after_separators (s : string) :
  Libc.strtod s = None \/ Libc.strtod s = Libc.strtod (R3d.skip_separators s).
Proof.
  induction s as [|c s IH]; [right; reflexivity|].
  cbn [R3d.skip_separators].
  destruct (Ascii.eqb_spec c " ") as [->|H1].
  { cbn [orb]. rewrite strtod_space by reflexivity. exact IH. }
  destruct (Ascii.eqb_spec c ",") as [->|H2].
  { left. apply strtod_comma. }
  destruct (Ascii.eqb_spec c "010") as [->|H3].
  { cbn [orb]. rewrite strtod_space by reflexivity. exact IH. }
  right. reflexivity.
Qed.

Lemma r3d_skip_after_braw_skip (p : string) :
  R3d.skip_separators (Braw.skip_separators p) = R3d.skip_separators p.
Proof.
  induction p as [|c p IH]; [reflexivity|].
  cbn [Braw.skip_separators R3d.skip_separators].
  destruct (Ascii.eqb c " ") eqn:E1; [exact IH|].
  destruct (Ascii.eqb c ",") eqn:E2; [exact IH|].
  cbn [orb R3d.skip_separators]. rewrite E1, E2. reflexivity.
Qed.

Lemma braw_skip_length (p : string) :
  (String.length (Braw.skip_separators p) <= String.length p)%nat.
Proof.
  induction p as [|c p IH]; simpl; [lia|].
  destruct (Ascii.eqb c " " || Ascii.eqb c ","); simpl; lia.
Qed.

Lemma r3d_skip_length (p : string) :
  (String.length (R3d.skip_separators p) <= String.length p)%nat.
Proof.
  induction p as [|c p IH]; simpl; [lia|].
  destruct (Ascii.eqb c " " || Ascii.eqb c "," || Ascii.eqb c "010"); simpl; lia.
Qed.

Lemma braw_skip_head (p : string) (c : ascii) (next : string) :
  Braw.skip_separators p = String c next ->
  Ascii.eqb c " " = false /\ Ascii.eqb c "," = false.
Proof.
  induction p as [|x p IH]; [discriminate|].
  cbn [Braw.skip_separators].
  destruct (Ascii.eqb x " ") eqn:E1; [exact IH|].
  destruct (Ascii.eqb x ",") eqn:E2; [exact IH|].
  cbn [orb]. intros H. inversion H; subst. split; assumption.
Qed.

Lemma r3d_parse_times_turn (fuel : nat) (p : string) :
  R3d.parse_times (S fuel) p = r3d_turn fuel (R3d.skip_separators p).
Proof.
  destruct p as [|x p]; [reflexivity|].
  cbn [R3d.parse_times]. unfold r3d_turn.
  destruct (R3d.skip_separators (String x p)) as [|[[] [] [] [] [] [] [] []] r];
    reflexivity.
Qed.

Lemma r3d_breaks_off_turn (fuel : nat) (p : string) :
  R3d.parse_breaks_off (S fuel) p = r3d_turn_breaks_off fuel (R3d.skip_separators p).
Proof.
  destruct p as [|x p]; [reflexivity|].
  cbn [R3d.parse_breaks_off]. unfold r3d_turn_breaks_off.
  destruct (R3d.skip_separators (String x p)) as [|[[] [] [] [] [] [] [] []] r];
    reflexivity.
Qed.

Lemma r3d_turn_some (fuel : nat) (p' : string) (t : IEEE.float) (end_ : string) :
  Libc.strtod p' = Some (t, end_) ->
  r3d_turn fuel p' = t :: R3d.parse_times fuel end_ /\
  r3d_turn_breaks_off fuel p' = R3d.parse_breaks_off fuel end_.
Proof.
  intros H. destruct p' as [|c r]; [discriminate|].
  destruct (Ascii.eqb_spec c "]") as [->|Hc].
  { rewrite strtod_bracket in H. discriminate. }
  unfold r3d_turn, r3d_turn_breaks_off. rewrite H.
  destruct c as [[] [] [] [] [] [] [] []]; try (split; reflexivity).
  now contradiction Hc.
Qed.

Lemma r3d_turn_none (fuel : nat) (p' : string) :
  Libc.strtod p' = None -> r3d_turn fuel p' = [].
Proof.
  intros H. destruct p' as [|c r]; [reflexivity|].
  unfold r3d_turn. rewrite H.
  destruct c as [[] [] [] [] [] [] [] []]; reflexivity.
Qed.

Lemma braw_parse_times_step (fuel : nat) (p : string) (c : ascii) (next : string) :
  Braw.skip_separators p = String c next ->
  Ascii.eqb c "]" = false ->
  Braw.parse_times (S fuel) p =
  match Libc.strtod (String c next) with
  | Some (val, end_) => val :: Braw.parse_times fuel end_
  | None => Braw.parse_times fuel next
  end.
Proof.
  intros Hs Hc. destruct p as [|x p]; [discriminate|].
  cbn [Braw.parse_times]. rewrite Hs.
  destruct c as [[] [] [] [] [] [] [] []]; try reflexivity. discriminate.
Qed.

Lemma parsers_agree_up_to_break (n : nat) :
  forall (p : string) (fb fr : nat),
    (String.length p <= n)%nat ->
    (String.length p < fb)%nat -> (String.length p < fr)%nat ->
    exists rest,
      Braw.parse_times fb p = R3d.parse_times fr p ++ rest /\
      (R3d.parse_breaks_off fr p = false -> rest = []).
Proof.
  induction n as [|n IH]; intros p fb fr Hn Hb Hr.
  - destruct p; [|simpl in Hn; lia].
    destruct fb; [lia|]. destruct fr; [lia|].
    exists []. split; reflexivity.
  - destruct fb as [|fb]; [lia|]. destruct fr as [|fr]; [lia|].
    destruct p as [|x p0] eqn:Ep; [exists []; split; reflexivity|].
    rewrite <- Ep in *. assert (Hlen : (0 < String.length p)%nat) by (subst p; simpl; lia).
    clear Ep x p0.
    rewrite r3d_parse_times_turn, r3d_breaks_off_turn.
    pose proof (r3d_skip_after_braw_skip p) as Hskip.
    pose proof (braw_skip_length p) as Hbl.
    destruct (Braw.skip_separators p) as [|c next] eqn:Eb.
    { (* only separators are left *)
      simpl in Hskip. rewrite <- Hskip.
      exists []. split; [|reflexivity].
      destruct p; [reflexivity|]. cbn [Braw.parse_times]. now rewrite Eb. }
    destruct (Ascii.eqb_spec c "]") as [->|Hc].
    { (* the closing bracket *)
      rewrite <- Hskip. simpl R3d.skip_separators.
      exists []. split; [|reflexivity].
      destruct p; [discriminate|]. cbn [Braw.parse_times]. now rewrite Eb. }
    assert (Hc' : Ascii.eqb c "]" = false) by (now apply Ascii.eqb_neq).
    rewrite (braw_parse_times_step fb p c next Eb Hc').
    destruct (braw_skip_head p c next Eb) as [Hsp Hcm].
    simpl String.length in Hbl.
    destruct (Libc.strtod (String c next)) as [[v e]|] eqn:Es.
    + (* braw-tool converts an element: so does r3d-tool *)
      destruct (strtod_after_separators (String c next)) as [Hnone|Hsame];
        [congruence|].
      rewrite Hskip, Es in Hsame. symmetry in Hsame.
      destruct (r3d_turn_some fr _ v e Hsame) as [Ht Hbo].
      rewrite Ht, Hbo.
      pose proof (strtod_length _ _ _ Es) as Hel. simpl String.length in Hel.
      destruct (IH e fb fr ltac:(lia) ltac:(lia) ltac:(lia)) as [rest [H1 H2]].
      exists rest. split; [|exact H2]. rewrite H1. reflexivity.
    + (* braw-tool steps over one character *)
      destruct (Ascii.eqb_spec c "010") as [->|Hnl].
      * (* a newline: r3d-tool skips it as a separator *)
        assert (Hsk : R3d.skip_separators p = R3d.skip_separators next).
        { rewrite <- Hskip. reflexivity. }
        rewrite Hsk, <- r3d_parse_times_turn, <- r3d_breaks_off_turn.
        apply IH; lia.
      * (* any other character: r3d-tool stops here *)
        assert (Hsk : R3d.skip_separators p = String c next).
        { rewrite <- Hskip. cbn [R3d.skip_separators]. rewrite Hsp, Hcm.
          apply Ascii.eqb_neq in Hnl. rewrite Hnl. reflexivity. }
        rewrite Hsk, (r3d_turn_none fr _ Es).
        exists (Braw.parse_times fb next). split; [reflexivity|].
        unfold r3d_turn_breaks_off. rewrite Es.
        destruct c as [[] [] [] [] [] [] [] []]; discriminate.
Qed.

(** The fuel both parsers start with is never used up: more fuel changes
    nothing. *)
Lemma parse_times_fuel_enough (p : string) (fuel : nat) :
  (String.length p < fuel)%nat ->
  Braw.parse_times fuel p = Braw.parse_times (S (String.length p)) p /\
  R3d.parse_times fuel p = R3d.parse_times (S (String.length p)) p.
Proof.
  remember (String.length p) as n eqn:En.
  assert (Hn : (String.length p <= n)%nat) by lia. clear En.
  revert p fuel Hn.
  induction n as [|n IH]; intros p fuel Hn Hf.
  - destruct p; [|simpl in Hn; lia]. destruct fuel; [lia|]. split; reflexivity.
  - destruct fuel as [|fuel]; [lia|].
    destruct p as [|x p0] eqn:Ep; [split; reflexivity|].
    rewrite <- Ep in *. clear Ep x p0. split.
    + pose proof (braw_skip_length p) as Hbl.
      destruct (Braw.skip_separators p) as [|c next] eqn:Eb.
      { destruct p; [reflexivity|]. cbn [Braw.parse_times]. now rewrite Eb. }
      simpl String.length in Hbl.
      destruct (Ascii.eqb c "]") eqn:Hc.
      { apply Ascii.eqb_eq in Hc. subst c.
        destruct p; [reflexivity|]. cbn [Braw.parse_times]. now rewrite Eb. }
      rewrite !(braw_parse_times_step _ p c next Eb Hc).
      destruct (Libc.strtod (String c next)) as [[v e]|] eqn:Es.
      * apply strtod_length in Es. simpl String.length in Es.
        now rewrite (proj1 (IH e fuel ltac:(lia) ltac:(lia))).
      * apply (proj1 (IH next fuel ltac:(lia) ltac:(lia))).
    + rewrite !r3d_parse_times_turn.
      pose proof (r3d_skip_length p) as Hrl.
      destruct (R3d.skip_separators p) as [|c next] eqn:Er; [reflexivity|].
      simpl String.length in Hrl.
      destruct (Libc.strtod (String c next)) as [[v e]|] eqn:Es.
      * pose proof (strtod_length _ _ _ Es) as Hel. simpl String.length in Hel.
        rewrite (proj1 (r3d_turn_some fuel _ v e Es)).
        rewrite (proj1 (r3d_turn_some (S n) _ v e Es)).
        rewrite (proj2 (IH e fuel ltac:(lia) ltac:(lia))). reflexivity.
      * now rewrite !r3d_turn_none.
Qed.


Lemma skip_to_bracket_same (json : string) :
  Braw.skip_bracket (Braw.skip_to_bracket json)
  = R3d.skip_bracket (R3d.skip_to_bracket json).
Proof.
  assert (H1 : Braw.skip_to_bracket json = R3d.skip_to_bracket json)
    by (induction json as [|c s IH]; simpl; [|rewrite IH]; reflexivity).
  rewrite H1. reflexivity.
Qed.

Lemma skip_bracket_length (json : string) :
  (String.length (R3d.skip_bracket (R3d.skip_to_bracket json))
   <= String.length json)%nat.
Proof.
  assert (H1 : (String.length (R3d.skip_to_bracket json) <= String.length json)%nat).
  { induction json as [|c s IH]; cbn [R3d.skip_to_bracket String.length]; [lia|].
    destruct (Ascii.eqb c "["); cbn [String.length]; lia. }
  destruct (R3d.skip_to_bracket json) as [|[[] [] [] [] [] [] [] []] r];
    cbn [R3d.skip_bracket String.length] in *; lia.
Qed.

(** C9, as the code has it: for every input string the list of r3d-tool's
    inline parser is a prefix of the list of braw-tool's [ParseTimesJSON],
    and the two lists are equal whenever r3d-tool's loop is not left at an
    element [strtod] cannot convert. *)
Theorem C9_r3d_times_prefix_of_braw_times :
  forall (json : string),
  exists rest : list IEEE.float,
    Braw.ParseTimesJSON json = R3d.parse_timesJson json ++ rest /\
    (R3d.timesJson_breaks_off json = false -> rest = []).
Proof.
  intros json.
  unfold Braw.ParseTimesJSON, R3d.parse_timesJson, R3d.timesJson_breaks_off.
  rewrite skip_to_bracket_same.
  pose proof (skip_bracket_length json) as Hlen.
  apply (parsers_agree_up_to_break (String.length json)); lia.
Qed.

(** The claim as stated fails on an element that is not a number: braw-tool
    steps over it and returns two times, r3d-tool stops and returns one. *)
Lemma C9_counterexample_unconvertible_element :
  List.length (Braw.ParseTimesJSON "[1,a,2]") = 2%nat /\
  List.length (R3d.parse_timesJson "[1,a,2]") = 1%nat.
Proof. split; vm_compute; reflexivity. Qed.

(** C9 at a well-formed array: both parsers return the same two times. *)
Lemma C9_witness_well_formed_array :
  Braw.ParseTimesJSON "[1, 2.5]" = R3d.parse_timesJson "[1, 2.5]".
Proof.
  destruct (C9_r3d_times_prefix_of_braw_times "[1, 2.5]") as [rest [H1 H2]].
  rewrite H1, (H2 eq_refl). apply app_nil_r.
Defined.

(** ** WAV output *)

Lemma wrap_add_wrapped (a b c : Z) :
  CInt.uint32_t (CInt.uint32_t (a + CInt.uint32_t b) + c) = CInt.uint32_t (a + (b + c)).
Proof.
  unfold CInt.uint32_t, CInt.wrap.
  rewrite Zplus_mod_idemp_l.
  replace (a + b mod 2 ^ 32 + c) with (b mod 2 ^ 32 + (a + c)) by lia.
  rewrite Zplus_mod_idemp_l. f_equal. lia.
Qed.

(** r3d-tool counts what it writes: the running [dataBytes] is the number
    of payload bytes modulo 2^32. *)
Lemma r3d_decode_audio_counts (undef : IEEE.float -> Z) (clip : R3d.Clip)
      (isFloat : bool) (channels totalSamples : Z) (fuel : nat) :
  forall decoded dataBytes,
    0 <= dataBytes < 2 ^ 32 ->
    let '(payload, final) :=
      R3d.decode_audio undef fuel clip isFloat channels totalSamples decoded dataBytes in
    final = CInt.uint32_t (dataBytes + Z.of_nat (List.length payload)).
Proof.
  induction fuel as [|fuel IH]; intros decoded dataBytes Hd;
    cbn [R3d.decode_audio].
  - cbn [List.length]. unfold CInt.uint32_t. rewrite wrap_small; lia.
  - assert (Hstop : dataBytes = CInt.uint32_t (dataBytes + Z.of_nat (@List.length Z [])))
      by (cbn [List.length]; unfold CInt.uint32_t; rewrite wrap_small; lia).
    destruct (decoded <? totalSamples); [|exact Hstop].
    set (want := if totalSamples - decoded <? R3d.chunkSamples
                 then totalSamples - decoded else R3d.chunkSamples).
    set (call := if isFloat then
                   let '(ds, got, fbuf) := R3d.DecodeFloatAudio clip decoded want in
                   (ds, got, fbuf, fun _ : nat => 0)
                 else
                   let '(ds, got, raw) := R3d.DecodeAudio clip decoded want in
                   (ds, got, fun _ : nat => R3d.zero, raw)).
    destruct call as [[[ds got] fbuf] raw].
    destruct (negb (R3d.decode_ok ds) || (got =? 0)); [exact Hstop|].
    set (totalValues := CInt.uint64_t (got * channels)).
    set (out16 := R3d.convert_chunk undef isFloat totalValues fbuf raw).
    set (wb := CInt.uint64_t (totalValues * 2)).
    set (bytes := firstn (Z.to_nat wb) (List.concat (List.map R3d.int16_bytes out16))).
    assert (Hbytes : Z.of_nat (List.length bytes) = wb).
    { subst bytes. rewrite length_firstn.
      assert (Hc : List.length (List.concat (List.map R3d.int16_bytes out16))
                   = (2 * List.length out16)%nat).
      { clear. induction out16 as [|v l IHl]; [reflexivity|].
        cbn [List.map List.concat]. rewrite length_app, IHl.
        cbn [R3d.int16_bytes List.length]. lia. }
      rewrite Hc. subst out16. unfold R3d.convert_chunk.
      rewrite length_map, length_seq.
      assert (0 <= totalValues < 2 ^ 64) by (apply wrap_range; lia).
      assert (0 <= wb < 2 ^ 64) by (apply wrap_range; lia).
      assert (wb <= totalValues * 2).
      { subst wb. unfold CInt.uint64_t, CInt.wrap.
        apply Z.mod_le; lia. }
      lia. }
    specialize (IH (CInt.uint64_t (decoded + got))
                   (CInt.uint32_t (dataBytes + CInt.uint32_t wb))
                   ltac:(apply wrap_range; lia)).
    destruct (R3d.decode_audio undef fuel clip isFloat channels totalSamples
                (CInt.uint64_t (decoded + got))
                (CInt.uint32_t (dataBytes + CInt.uint32_t wb))) as [rest final].
    rewrite IH, length_app, Nat2Z.inj_add, Hbytes.
    apply wrap_add_wrapped.
Qed.

(** The sibling path: whenever r3d-tool's extract-audio exits with code 0,
    the header it leaves describes the payload it wrote. *)
Lemma r3d_wav_header_matches_payload (undef : IEEE.float -> Z) (sdk : R3d.Sdk)
      (filePath outputPath : string) :
  let run := R3d.cmd_extract_audio undef sdk filePath outputPath in
  Platform.exit_code run = 0 ->
  exists file,
    Platform.written run = Some file /\
    let hdr := Platform.file_header file in
    R3d.fmtSize hdr = 16 /\
    R3d.audioFmt hdr = 1 /\
    R3d.bitsPerSamp hdr = 16 /\
    R3d.byteRate hdr = CInt.uint32_t (R3d.sampleRate hdr * R3d.blockAlign hdr) /\
    R3d.dataSize hdr = CInt.uint32_t (Z.of_nat (List.length (Platform.file_payload file))) /\
    R3d.fileSize hdr = CInt.uint32_t (36 + R3d.dataSize hdr).
Proof.
  unfold R3d.cmd_extract_audio.
  destruct (R3d.LoadFrom sdk filePath) as [[|code] clip]; [|discriminate].
  destruct (R3d.AudioChannelCount clip =? 0); [discriminate|].
  destruct (R3d.fopen_wb sdk outputPath); cbn [negb]; [|discriminate].
  destruct (R3d.alloc_ok sdk 512 _); cbn [negb]; [|discriminate].
  destruct (Platform.vector_constructed 2 _); cbn [negb];
    [|cbn; unfold Platform.SIGABRT_status; discriminate].
  match goal with
  | |- context [R3d.decode_audio ?u ?f ?c ?i ?ch ?t ?d ?b] =>
      pose proof (r3d_decode_audio_counts u c i ch t f d b ltac:(lia)) as Hcount;
      destruct (R3d.decode_audio u f c i ch t d b) as [payload dataBytes]
  end.
  cbn. intros _. eexists. split; [reflexivity|].
  cbn. rewrite Hcount. cbn. repeat split; reflexivity.
Qed.

(** C3, where the code departs from it: braw-tool derives the header's
    [dataBytes] from the clip's sample count before reading anything.  For a
    one-second stereo 16-bit clip whose first read fails the run still exits
    with code 0, the header announces 192000 payload bytes, and none was
    written. *)
Theorem C3_braw_header_written_before_payload :
  let run := Braw.CmdExtractAudio Samples.braw_sdk "clip.braw" "out.wav" in
  Platform.exit_code run = 0 /\
  exists file,
    Platform.written run = Some file /\
    Braw.dataBytes (Platform.file_header file) = 192000 /\
    Braw.wavContentSize (Platform.file_header file) = 36 + 192000 /\
    List.length (Platform.file_payload file) = 0%nat.
Proof.
  cbv zeta. split; [vm_compute; reflexivity|].
  eexists. split; [vm_compute; reflexivity|].
  repeat split; vm_compute; reflexivity.
Qed.

(** ** IEEE rounding: enclosing a rounded value *)

Lemma digits2_pos_bounds (p : positive) :
  2 ^ (Z.pos (digits2_pos p) - 1) <= Z.pos p < 2 ^ Z.pos (digits2_pos p).
Proof.
  induction p as [p IH|p IH|]; cbn [digits2_pos].
  - rewrite Pos2Z.inj_succ.
    replace (Z.succ (Z.pos (digits2_pos p)) - 1) with (Z.succ (Z.pos (digits2_pos p) - 1)) by lia.
    rewrite !Z.pow_succ_r by lia. lia.
  - rewrite Pos2Z.inj_succ.
    replace (Z.succ (Z.pos (digits2_pos p)) - 1) with (Z.succ (Z.pos (digits2_pos p) - 1)) by lia.
    rewrite !Z.pow_succ_r by lia. lia.
  - cbn. lia.
Qed.

Lemma Zdigits2_bounds (m : Z) :
  0 < m -> 2 ^ (Zdigits2 m - 1) <= m < 2 ^ Zdigits2 m.
Proof.
  destruct m as [|p|p]; try lia. intros _. apply digits2_pos_bounds.
Qed.

Lemma Zdigits2_nonneg (m : Z) : 0 <= Zdigits2 m.
Proof. destruct m; cbn; lia. Qed.

Lemma Zdigits2_le_of_lt_pow (m k : Z) : 0 <= k -> 0 <= m < 2 ^ k -> Zdigits2 m <= k.
Proof.
  intros Hk [H0 Hm].
  destruct (Z.eq_dec m 0) as [->|Hne]; [cbn; lia|].
  pose proof (Zdigits2_bounds m ltac:(lia)) as [Hlo _].
  destruct (Z_le_gt_dec (Zdigits2 m) k) as [|Hgt]; [assumption|].
  assert (2 ^ k <= 2 ^ (Zdigits2 m - 1)) by (apply Z.pow_le_mono_r; lia).
  lia.
Qed.

Lemma Zdigits2_ge_of_pow_le (m k : Z) : 0 <= k -> 2 ^ k <= m -> k + 1 <= Zdigits2 m.
Proof.
  intros Hk Hm.
  assert (0 < 2 ^ k) by (apply Z.pow_pos_nonneg; lia).
  pose proof (Zdigits2_bounds m ltac:(lia)) as [_ Hhi].
  destruct (Z_le_gt_dec (k + 1) (Zdigits2 m)) as [|Hgt]; [assumption|].
  assert (2 ^ Zdigits2 m <= 2 ^ k)
    by (apply Z.pow_le_mono_r; [lia|pose proof (Zdigits2_nonneg m); lia]).
  lia.
Qed.

Lemma pow2_pos (k : Z) : 0 <= k -> 0 < 2 ^ k.
Proof. intros. apply Z.pow_pos_nonneg; lia. Qed.

Lemma Shifted_refl (a : shr_record) : Round.Shifted 0 a a.
Proof.
  unfold Round.Shifted. rewrite Z.pow_0_r, Z.div_1_r, Z.mul_1_r.
  split; [reflexivity|]. tauto.
Qed.

Lemma Shifted_shr_1 (a : shr_record) :
  0 <= shr_m a -> Round.Shifted 1 a (shr_1 a).
Proof.
  destruct a as [m r s]. cbn [shr_m]. intros Hm.
  unfold Round.Shifted. rewrite Z.pow_1_r.
  destruct m as [|[p|p|]|p]; try lia; cbn [shr_1 shr_m shr_r shr_s].
  - split; [reflexivity|]. rewrite orb_false_iff. tauto.
  - split.
    + rewrite Pos2Z.inj_xI.
      apply (Z.div_unique (2 * Z.pos p + 1) 2 (Z.pos p) 1); lia.
    + split; [intros [Hr _]; discriminate|]. intros [E _]. lia.
  - split.
    + rewrite Pos2Z.inj_xO.
      apply (Z.div_unique (2 * Z.pos p) 2 (Z.pos p) 0); lia.
    + rewrite orb_false_iff. split; [intros [_ [Hr Hs]]|intros [_ [Hr Hs]]].
      * split; [lia|auto].
      * auto.
  - split; [reflexivity|].
    split; [intros [Hr _]; discriminate|]. intros [E _]. lia.
Qed.

Lemma Shifted_trans (j k : Z) (a b c : shr_record) :
  0 <= j -> 0 <= k -> 0 <= shr_m a ->
  Round.Shifted j a b -> Round.Shifted k b c -> Round.Shifted (j + k) a c.
Proof.
  intros Hj Hk Ha [Hab1 Hab2] [Hbc1 Hbc2]. unfold Round.Shifted.
  pose proof (pow2_pos j Hj). pose proof (pow2_pos k Hk).
  rewrite Z.pow_add_r by assumption. split.
  - rewrite Hbc1, Hab1. apply Z.div_div; lia.
  - split.
    + intros Hc. apply Hbc2 in Hc. destruct Hc as [E1 Hb].
      apply Hab2 in Hb. destruct Hb as [E2 Ha'].
      split; [|exact Ha']. rewrite E2, E1. ring.
    + intros [E Ha'].
      assert (Eb : shr_m a = shr_m b * 2 ^ j).
      { rewrite Hab1. rewrite E.
        replace (shr_m c * (2 ^ j * 2 ^ k)) with (shr_m c * 2 ^ k * 2 ^ j) by ring.
        rewrite Z.div_mul by lia. reflexivity. }
      assert (Hb : shr_r b = false /\ shr_s b = false) by (apply Hab2; auto).
      apply Hbc2. split; [|exact Hb].
      rewrite Eb in E.
      replace (shr_m c * (2 ^ j * 2 ^ k)) with (shr_m c * 2 ^ k * 2 ^ j) in E by ring.
      apply Z.mul_cancel_r in E; lia.
Qed.

Lemma Shifted_nonneg (k : Z) (a b : shr_record) :
  0 <= k -> 0 <= shr_m a -> Round.Shifted k a b -> 0 <= shr_m b.
Proof.
  intros Hk Ha [H _]. rewrite H. apply Z.div_pos; [assumption|apply pow2_pos; lia].
Qed.

Lemma Shifted_iter_pos (p : positive) :
  forall a, 0 <= shr_m a -> Round.Shifted (Z.pos p) a (iter_pos shr_1 p a).
Proof.
  induction p as [p IH|p IH|]; intros a Ha; cbn [iter_pos].
  - pose proof (Shifted_shr_1 a Ha) as H1.
    pose proof (Shifted_nonneg 1 _ _ ltac:(lia) Ha H1) as Hb.
    pose proof (IH _ Hb) as H2.
    pose proof (Shifted_nonneg (Z.pos p) _ _ ltac:(lia) Hb H2) as Hc.
    pose proof (IH _ Hc) as H3.
    replace (Z.pos p~1) with (1 + Z.pos p + Z.pos p) by lia.
    eapply Shifted_trans; [lia|lia|exact Ha| |exact H3].
    eapply Shifted_trans; [lia|lia|exact Ha|exact H1|exact H2].
  - pose proof (IH _ Ha) as H2.
    pose proof (Shifted_nonneg (Z.pos p) _ _ ltac:(lia) Ha H2) as Hc.
    pose proof (IH _ Hc) as H3.
    replace (Z.pos p~0) with (Z.pos p + Z.pos p) by lia.
    eapply Shifted_trans; [lia|lia|exact Ha|exact H2|exact H3].
  - apply Shifted_shr_1. exact Ha.
Qed.

Lemma shr_spec (a : shr_record) (e n : Z) :
  0 <= shr_m a ->
  Round.Shifted (Z.max 0 n) a (fst (shr a e n)) /\
  snd (shr a e n) = e + Z.max 0 n.
Proof.
  intros Ha. destruct n as [|p|p]; cbn [shr fst snd].
  - split; [apply Shifted_refl|lia].
  - replace (Z.max 0 (Z.pos p)) with (Z.pos p) by lia.
    split; [apply Shifted_iter_pos; exact Ha|reflexivity].
  - replace (Z.max 0 (Z.neg p)) with 0 by lia.
    split; [apply Shifted_refl|lia].
Qed.

Lemma round_nearest_even_bounds (m : Z) (l : location) :
  m <= round_nearest_even m l <= m + Round.inexact l.
Proof.
  destruct l as [|[| |]]; cbn [round_nearest_even Round.inexact]; try lia.
  destruct (Z.even m); lia.
Qed.

Lemma loc_of_shr_record_exact (b : shr_record) :
  Round.inexact (loc_of_shr_record b) = 0 <-> shr_r b = false /\ shr_s b = false.
Proof.
  destruct b as [m [|] [|]]; cbn; split; intros H; try discriminate; auto;
    destruct H; discriminate.
Qed.

Lemma inexact_cases (l : location) : Round.inexact l = 0 \/ Round.inexact l = 1.
Proof. destruct l; cbn; auto. Qed.

Lemma shr_record_of_loc_m (m : Z) (l : location) :
  shr_m (shr_record_of_loc m l) = m.
Proof. destruct l as [|[| |]]; reflexivity. Qed.

Lemma shr_record_of_loc_exact (m : Z) (l : location) :
  shr_r (shr_record_of_loc m l) = false /\
  shr_s (shr_record_of_loc m l) = false <-> Round.inexact l = 0.
Proof.
  destruct l as [|[| |]]; cbn; split; intros H; try discriminate; auto;
    destruct H; discriminate.
Qed.

Section RoundBounds.
Variables prec emax : Z.
Hypothesis Hprec : 0 < prec.

(** The result of [binary_round_aux] lies between any two multiples of the
    rounding unit that enclose the value rounded, and its mantissa has at
    most [prec] digits. *)
Lemma binary_round_aux_enclosed (sx : bool) (mx ex : Z) (lx : location) (A B : Z) :
  0 <= mx ->
  let n := Z.max 0 (fexp prec emax (Zdigits2 mx + ex) - ex) in
  A * 2 ^ n <= mx ->
  mx + Round.inexact lx <= B * 2 ^ n ->
  exists m2 e2,
    binary_round_aux prec emax sx mx ex lx = Round.pack prec emax sx m2 e2 /\
    ex + n <= e2 <= ex + n + 1 /\
    A <= m2 * 2 ^ (e2 - (ex + n)) <= B /\
    Z.min A (2 ^ (prec - 1)) <= m2 < 2 ^ prec.
Proof.
  intros Hmx n HA HB.
  assert (Hn : 0 <= n) by (subst n; lia).
  pose proof (pow2_pos n Hn) as Hpn.
  unfold binary_round_aux, shr_fexp.
  set (a := shr_record_of_loc mx lx).
  assert (Ha : 0 <= shr_m a) by (subst a; rewrite shr_record_of_loc_m; exact Hmx).
  destruct (shr_spec a ex (fexp prec emax (Zdigits2 mx + ex) - ex) Ha) as [S1 E1].
  fold n in S1, E1.
  destruct (shr a ex (fexp prec emax (Zdigits2 mx + ex) - ex)) as [b e'].
  cbn [fst snd] in S1, E1. subst e'.
  destruct S1 as [Hm1 Hex1].
  subst a. rewrite shr_record_of_loc_m in Hm1, Hex1.
  rewrite shr_record_of_loc_exact in Hex1.
  set (m1 := shr_m b) in *.
  set (m1' := round_nearest_even m1 (loc_of_shr_record b)).
  pose proof (round_nearest_even_bounds m1 (loc_of_shr_record b)) as Hr.
  fold m1' in Hr.
  assert (Hm1lo : m1 * 2 ^ n <= mx).
  { rewrite Hm1. rewrite Z.mul_comm. apply Z.mul_div_le. lia. }
  assert (Hm1hi : mx < (m1 + 1) * 2 ^ n).
  { rewrite Hm1. pose proof (Z.mod_pos_bound mx (2 ^ n) Hpn).
    pose proof (Z.div_mod mx (2 ^ n) ltac:(lia)). nia. }
  assert (Hm1nn : 0 <= m1) by (rewrite Hm1; apply Z.div_pos; lia).
  (* the rounded mantissa stays within the enclosing multiples *)
  assert (HloA : A <= m1').
  { assert (A <= m1); [|lia].
    rewrite Hm1. apply Z.div_le_lower_bound; lia. }
  assert (HhiB : m1' <= B).
  { destruct (inexact_cases (loc_of_shr_record b)) as [E|E].
    - pose proof E as E0.
      apply loc_of_shr_record_exact in E. apply Hex1 in E. destruct E as [E1 E2].
      rewrite E2 in HB. rewrite E0 in Hr.
      apply (Z.mul_le_mono_pos_r _ _ (2 ^ n)); [lia|]. nia.
    - assert (Hne : ~ (mx = m1 * 2 ^ n /\ Round.inexact lx = 0)).
      { intros Hc. apply Hex1 in Hc. apply loc_of_shr_record_exact in Hc. lia. }
      assert (Hlt : m1 * 2 ^ n < B * 2 ^ n).
      { destruct (inexact_cases lx) as [El|El]; rewrite El in *; [|lia].
        assert (mx <> m1 * 2 ^ n) by tauto. lia. }
      apply Z.mul_lt_mono_pos_r in Hlt; lia. }
  (* it has at most prec + 1 digits *)
  assert (Hd : Zdigits2 mx <= n + prec).
  { subst n. unfold fexp. lia. }
  assert (Hm1p : m1' <= 2 ^ prec).
  { assert (m1 < 2 ^ prec); [|destruct (inexact_cases (loc_of_shr_record b)); lia].
    destruct (Z.eq_dec mx 0) as [->|Hnz].
    - rewrite Z.div_0_l in Hm1 by lia. rewrite Hm1. apply pow2_pos. lia.
    - pose proof (Zdigits2_bounds mx ltac:(lia)) as [_ Hhi].
      assert (2 ^ Zdigits2 mx <= 2 ^ (n + prec))
        by (apply Z.pow_le_mono_r; lia).
      rewrite Z.pow_add_r in H by lia.
      rewrite Hm1. apply Z.div_lt_upper_bound; lia. }
  (* second normalisation *)
  set (a2 := shr_record_of_loc m1' loc_Exact).
  assert (Ha2 : 0 <= shr_m a2) by (cbn; lia).
  set (n2 := Z.max 0 (fexp prec emax (Zdigits2 m1' + (ex + n)) - (ex + n))).
  destruct (shr_spec a2 (ex + n) (fexp prec emax (Zdigits2 m1' + (ex + n)) - (ex + n)) Ha2)
    as [S2 E2].
  fold n2 in S2, E2.
  destruct (shr a2 (ex + n) (fexp prec emax (Zdigits2 m1' + (ex + n)) - (ex + n)))
    as [c e''].
  cbn [fst snd] in S2, E2. subst e''.
  destruct S2 as [Hm2 _]. cbn [a2 shr_record_of_loc shr_m] in Hm2.
  assert (Hemin : emin prec emax <= ex + n).
  { subst n. unfold fexp. lia. }
  assert (Hn2 : 0 <= n2 <= 1).
  { subst n2. split; [lia|].
    assert (Zdigits2 m1' <= prec + 1).
    { apply Zdigits2_le_of_lt_pow; [lia|]. split; [lia|].
      rewrite Z.pow_add_r, Z.pow_1_r by lia. pose proof (pow2_pos prec ltac:(lia)). lia. }
    unfold fexp. lia. }
  assert (Hex2 : shr_m c * 2 ^ n2 = m1').
  { destruct (Z.eq_dec n2 0) as [E|E].
    - rewrite E in *. rewrite Z.pow_0_r, Z.div_1_r in Hm2. rewrite Z.pow_0_r. lia.
    - assert (E1 : n2 = 1) by lia. rewrite E1 in *.
      rewrite Z.pow_1_r in *.
      assert (Hfull : 2 ^ prec <= m1').
      { assert (Hdig : prec + 1 <= Zdigits2 m1').
        { subst n2. unfold fexp in E1. lia. }
        destruct (Z.eq_dec m1' 0) as [Ez|Enz]; [rewrite Ez in Hdig; cbn in Hdig; lia|].
        pose proof (Zdigits2_bounds m1' ltac:(lia)) as [_ Hhi].
        destruct (Z_lt_ge_dec m1' (2 ^ prec)) as [Hlt|]; [|lia].
        pose proof (Zdigits2_le_of_lt_pow m1' prec ltac:(lia) ltac:(lia)). lia. }
      assert (Em : m1' = 2 ^ prec) by lia.
      rewrite Hm2, Em.
      replace prec with (Z.succ (prec - 1)) by lia.
      rewrite Z.pow_succ_r by lia.
      rewrite (Z.mul_comm 2), Z.div_mul by lia. ring. }
  exists (shr_m c), (ex + n + n2).
  split; [|split; [lia|split]].
  - unfold Round.pack. reflexivity.
  - replace (ex + n + n2 - (ex + n)) with n2 by lia. rewrite Hex2. lia.
  - pose proof (pow2_pos prec ltac:(lia)) as Hpp.
    destruct (Z.eq_dec n2 0) as [E|E].
    + rewrite E, Z.pow_0_r, Z.mul_1_r in Hex2. rewrite Hex2.
      split; [lia|].
      destruct (Z.eq_dec m1' 0) as [Ez|Enz]; [lia|].
      assert (Hdig : Zdigits2 m1' <= prec) by (subst n2; unfold fexp in E; lia).
      pose proof (Zdigits2_bounds m1' ltac:(lia)) as [_ Hhi].
      assert (2 ^ Zdigits2 m1' <= 2 ^ prec)
        by (apply Z.pow_le_mono_r; lia).
      lia.
    + assert (E1 : n2 = 1) by lia. rewrite E1, Z.pow_1_r in Hex2.
      assert (Hdig : prec + 1 <= Zdigits2 m1') by (subst n2; unfold fexp in E1; lia).
      assert (Hfull : 2 ^ prec <= m1').
      { destruct (Z_lt_ge_dec m1' (2 ^ prec)) as [Hlt|]; [|lia].
        pose proof (Zdigits2_le_of_lt_pow m1' prec ltac:(lia) ltac:(lia)). lia. }
      assert (Ep : 2 ^ prec = 2 * 2 ^ (prec - 1)).
      { rewrite <- Z.pow_succ_r by lia. f_equal. lia. }
      lia.
Qed.

Lemma binary_round_aux_bounds (sx : bool) (mx ex : Z) (lx : location) (A B : Z) :
  0 <= mx ->
  let n := Z.max 0 (fexp prec emax (Zdigits2 mx + ex) - ex) in
  A * 2 ^ n <= mx ->
  mx + Round.inexact lx <= B * 2 ^ n ->
  exists m2 e2,
    binary_round_aux prec emax sx mx ex lx = Round.pack prec emax sx m2 e2 /\
    ex + n <= e2 <= ex + n + 1 /\
    A <= m2 * 2 ^ (e2 - (ex + n)) <= B.
Proof.
  intros Hmx n HA HB.
  destruct (binary_round_aux_enclosed sx mx ex lx A B Hmx HA HB)
    as [m2 [e2 [H1 [H2 [H3 _]]]]].
  exists m2, e2. auto.
Qed.

End RoundBounds.

(** ** Exact conversions *)

Lemma pos_iter_xO (p k : positive) :
  Z.pos (Pos.iter xO p k) = Z.pos p * 2 ^ Z.pos k.
Proof.
  rewrite <- (Z2Pos.id (2 ^ Z.pos k)) by (apply pow2_pos; lia).
  rewrite <- Pos2Z.inj_mul. f_equal.
  rewrite Pos2Z.inj_pow_pos || idtac.
  revert p. induction k as [|k IH] using Pos.peano_ind; intros p.
  - cbn. lia.
  - rewrite Pos.iter_succ, IH.
    rewrite Pos2Z.inj_succ, Z.pow_succ_r by lia.
    assert (H : 0 < 2 ^ Z.pos k) by (apply pow2_pos; lia).
    rewrite (Z2Pos.inj_mul 2 (2 ^ Z.pos k)) by lia.
    lia.
Qed.

Lemma Zdigits2_unique (m d : Z) :
  0 < d -> 2 ^ (d - 1) <= m < 2 ^ d -> Zdigits2 m = d.
Proof.
  intros Hd [Hlo Hhi].
  pose proof (Zdigits2_le_of_lt_pow m d ltac:(lia)
                ltac:(pose proof (pow2_pos (d - 1) ltac:(lia)); lia)).
  pose proof (Zdigits2_ge_of_pow_le m (d - 1) ltac:(lia) Hlo). lia.
Qed.

Lemma Zdigits2_mul_pow2 (m k : Z) :
  0 < m -> 0 <= k -> Zdigits2 (m * 2 ^ k) = Zdigits2 m + k.
Proof.
  intros Hm Hk. pose proof (Zdigits2_bounds m Hm) as [Hlo Hhi].
  assert (Hd : 0 < Zdigits2 m) by (destruct m; cbn; lia).
  pose proof (pow2_pos k Hk).
  apply Zdigits2_unique; [lia|].
  replace (Zdigits2 m + k - 1) with (Zdigits2 m - 1 + k) by lia.
  rewrite !Z.pow_add_r by lia. nia.
Qed.

Section NoShift.
Variables prec emax : Z.

(** A mantissa that already fits is returned as it is. *)
Lemma binary_round_aux_fits (sx : bool) (mx ex : Z) :
  0 <= mx ->
  fexp prec emax (Zdigits2 mx + ex) <= ex ->
  binary_round_aux prec emax sx mx ex loc_Exact = Round.pack prec emax sx mx ex.
Proof.
  intros Hmx Hfit. unfold binary_round_aux, shr_fexp.
  assert (Hshr : forall a, shr a ex (fexp prec emax (Zdigits2 mx + ex) - ex) = (a, ex)).
  { intros a. destruct (fexp prec emax (Zdigits2 mx + ex) - ex) eqn:E;
      try reflexivity. lia. }
  rewrite Hshr. cbn [shr_record_of_loc shr_m loc_of_shr_record round_nearest_even].
  rewrite Hshr. reflexivity.
Qed.
End NoShift.

Lemma double_of_Z_exact (z : Z) :
  0 < z < 2 ^ 53 ->
  exists M : positive,
    IEEE.double_of_Z z = S754_finite false M (Zdigits2 z - 53) /\
    Z.pos M = z * 2 ^ (53 - Zdigits2 z) /\
    2 ^ 52 <= Z.pos M < 2 ^ 53.
Proof.
  intros [Hz Hlt]. destruct z as [|p|p]; try lia.
  pose proof (Zdigits2_bounds (Z.pos p) Hz) as [Hlo Hhi].
  assert (Hd1 : 1 <= Zdigits2 (Z.pos p)) by (cbn; lia).
  assert (Hd : Zdigits2 (Z.pos p) <= 53)
    by (apply Zdigits2_le_of_lt_pow; lia).
  unfold IEEE.double_of_Z, binary_normalize, binary_round.
  change (Z.pos (digits2_pos p)) with (Zdigits2 (Z.pos p)).
  remember (Zdigits2 (Z.pos p)) as d eqn:Ed.
  assert (Hf : fexp IEEE.dprec IEEE.demax (d + 0) = d - 53).
  { unfold fexp, emin, IEEE.dprec, IEEE.demax. lia. }
  rewrite Hf. unfold shl_align.
  assert (Hpack : forall M : positive,
             Zdigits2 (Z.pos M) = 53 ->
             binary_round_aux IEEE.dprec IEEE.demax false (Z.pos M) (d - 53) loc_Exact
             = S754_finite false M (d - 53)).
  { intros M HM. rewrite binary_round_aux_fits.
    - unfold Round.pack.
      destruct (d - 53 <=? IEEE.demax - IEEE.dprec) eqn:El; [reflexivity|].
      apply Z.leb_gt in El. unfold IEEE.demax, IEEE.dprec in El. lia.
    - lia.
    - rewrite HM. unfold fexp, emin, IEEE.dprec, IEEE.demax. lia. }
  assert (Hrange : forall M : positive,
             Zdigits2 (Z.pos M) = 53 -> 2 ^ 52 <= Z.pos M < 2 ^ 53).
  { intros M HM. pose proof (Zdigits2_bounds (Z.pos M) ltac:(lia)) as [H1 H2].
    rewrite HM in H1, H2. exact (conj H1 H2). }
  destruct (Z.eq_dec d 53) as [E|E].
  - replace (d - 53 - 0) with 0 by lia. cbv iota beta.
    exists p. replace (53 - d) with 0 by lia.
    rewrite Z.pow_0_r, Z.mul_1_r.
    assert (HM : Zdigits2 (Z.pos p) = 53) by lia.
    split; [|split; [reflexivity|apply Hrange; exact HM]].
    replace 0 with (d - 53) at 1 by lia. apply Hpack. exact HM.
  - assert (Hneg : d - 53 - 0 = Z.neg (Z.to_pos (53 - d))).
    { rewrite <- Pos2Z.opp_pos, Z2Pos.id by lia. lia. }
    rewrite Hneg. cbv iota beta.
    exists (Pos.iter xO p (Z.to_pos (53 - d))).
    assert (HM : Z.pos (Pos.iter xO p (Z.to_pos (53 - d))) = Z.pos p * 2 ^ (53 - d)).
    { rewrite pos_iter_xO, Z2Pos.id by lia. reflexivity. }
    assert (Hdig : Zdigits2 (Z.pos (Pos.iter xO p (Z.to_pos (53 - d)))) = 53).
    { rewrite HM, Zdigits2_mul_pow2 by lia. lia. }
    split; [apply Hpack; exact Hdig|].
    split; [exact HM|apply Hrange; exact Hdig].
Qed.

(** ** Division and multiplication of finite values *)

Lemma SFdiv_finite (prec emax : Z) (sx sy : bool) (mx my : positive) (ex ey : Z) :
  SFdiv prec emax (S754_finite sx mx ex) (S754_finite sy my ey) =
  let e' := Z.min (fexp prec emax (Zdigits2 (Z.pos mx) + ex - (Zdigits2 (Z.pos my) + ey)))
                  (ex - ey) in
  let m' := Z.pos mx * 2 ^ (ex - ey - e') in
  binary_round_aux prec emax (xorb sx sy) (m' / Z.pos my) e'
                   (new_location (Z.pos my) (m' mod Z.pos my)).
Proof.
  cbv zeta. unfold SFdiv, SFdiv_core_binary.
  set (e' := Z.min (fexp prec emax (Zdigits2 (Z.pos mx) + ex - (Zdigits2 (Z.pos my) + ey)))
                   (ex - ey)).
  assert (Hs : 0 <= ex - ey - e') by (subst e'; lia).
  assert (Hm : match ex - ey - e' with
               | 0 => Z.pos mx
               | Z.pos _ => Z.shiftl (Z.pos mx) (ex - ey - e')
               | Z.neg _ => 0
               end = Z.pos mx * 2 ^ (ex - ey - e')).
  { destruct (ex - ey - e') as [|p|p] eqn:E.
    - rewrite Z.pow_0_r. lia.
    - apply Z.shiftl_mul_pow2. lia.
    - lia. }
  rewrite Hm.
  unfold Z.div, Z.modulo.
  destruct (Z.div_eucl (Z.pos mx * 2 ^ (ex - ey - e')) (Z.pos my)) as [q r].
  reflexivity.
Qed.

Lemma SFmul_finite (prec emax : Z) (sx sy : bool) (mx my : positive) (ex ey : Z) :
  SFmul prec emax (S754_finite sx mx ex) (S754_finite sy my ey) =
  binary_round_aux prec emax (xorb sx sy) (Z.pos mx * Z.pos my) (ex + ey) loc_Exact.
Proof. reflexivity. Qed.

(** ** Rounding a value that needs no subnormal: relative error *)

Section RoundNormal.
Variables prec emax : Z.
Hypothesis Hprec : 0 < prec.

(** A mantissa of at least [prec] digits, away from the subnormal and the
    overflow range, is rounded to a normal number within [2 ^ (1 - prec)]
    of it, relatively, on either side. *)
Lemma round_normal (sx : bool) (mx ex : Z) (lx : location) :
  let d := Zdigits2 mx in
  let c := 2 ^ (prec - 1) in
  0 <= mx ->
  prec <= d ->
  emin prec emax <= ex + d - prec ->
  ex + d - prec + 1 <= emax - prec ->
  exists (M : positive) (k : Z),
    binary_round_aux prec emax sx mx ex lx = S754_finite sx M (ex + k) /\
    d - prec <= k <= d - prec + 1 /\
    c <= Z.pos M < 2 ^ prec /\
    Z.pos M * 2 ^ k * c <= mx * (c + 1) /\
    (mx + 1) * c <= Z.pos M * 2 ^ k * (c + 1).
Proof.
  intros d c Hmx0 Hd Hlo Hhi.
  assert (Hmx : 0 < mx).
  { destruct mx as [|p|p]; try lia; subst d; cbn in Hd; lia. }
  set (n := d - prec).
  assert (Hn : 0 <= n) by (subst n; lia).
  assert (En : Z.max 0 (fexp prec emax (Zdigits2 mx + ex) - ex) = n).
  { fold d. unfold fexp. subst n. lia. }
  pose proof (pow2_pos n Hn) as Hpn.
  pose proof (pow2_pos (prec - 1) ltac:(lia)) as Hc. fold c in Hc.
  pose proof (Zdigits2_bounds mx Hmx) as [Hdlo _]. fold d in Hdlo.
  assert (Hcn : c * 2 ^ n <= mx).
  { subst c n. rewrite <- Z.pow_add_r by lia.
    replace (prec - 1 + (d - prec)) with (d - 1) by lia. exact Hdlo. }
  set (A := mx / 2 ^ n).
  assert (HA : A * 2 ^ n <= mx).
  { subst A. rewrite Z.mul_comm. apply Z.mul_div_le. lia. }
  assert (HB1 : mx + 1 <= (A + 1) * 2 ^ n).
  { subst A. pose proof (Z.mod_pos_bound mx (2 ^ n) Hpn).
    pose proof (Z.div_mod mx (2 ^ n) ltac:(lia)). nia. }
  assert (HB : mx + Round.inexact lx <= (A + 1) * 2 ^ n).
  { destruct (inexact_cases lx) as [E|E]; rewrite E; lia. }
  assert (HcA : c <= A).
  { subst A. apply Z.div_le_lower_bound; lia. }
  pose proof (binary_round_aux_enclosed prec emax Hprec sx mx ex lx A (A + 1) ltac:(lia))
    as Hr.
  cbv zeta in Hr. rewrite En in Hr.
  destruct (Hr HA HB) as [m2 [e2 [Hres [He2 [[HloV HhiV] [Hm2lo Hm2hi]]]]]].
  fold c in Hm2lo.
  assert (Hm2 : c <= m2) by lia.
  destruct m2 as [|M|M]; try lia.
  exists M, (e2 - ex).
  replace (ex + (e2 - ex)) with e2 by lia.
  split.
  { rewrite Hres. unfold Round.pack.
    assert (Hfin : (e2 <=? emax - prec) = true) by (apply Z.leb_le; subst n; lia).
    rewrite Hfin. reflexivity. }
  split; [subst n; lia|].
  split; [lia|].
  set (dl := e2 - (ex + n)) in *.
  assert (Hdl : 0 <= dl <= 1) by (subst dl; lia).
  assert (Ek : 2 ^ (e2 - ex) = 2 ^ dl * 2 ^ n).
  { rewrite <- Z.pow_add_r by lia. f_equal. subst dl. lia. }
  rewrite Ek.
  set (V := Z.pos M * 2 ^ dl) in *.
  replace (Z.pos M * (2 ^ dl * 2 ^ n)) with (V * 2 ^ n) by (subst V; ring).
  assert (HV : Z.pos M <= V).
  { subst V. pose proof (pow2_pos dl ltac:(lia)). nia. }
  assert (H1 : V * 2 ^ n <= mx + 2 ^ n) by nia.
  assert (H2 : mx + 1 <= V * 2 ^ n + 2 ^ n) by nia.
  assert (H3 : c * 2 ^ n <= V * 2 ^ n) by nia.
  split; nia.
Qed.
End RoundNormal.

(** ** Conversion of a 64-bit unsigned integer *)

Lemma double_of_Z_finite (z : Z) :
  0 < z < 2 ^ 64 ->
  exists (M : positive) (e : Z),
    IEEE.double_of_Z z = S754_finite false M e /\
    2 ^ 52 <= Z.pos M < 2 ^ 53 /\
    - 52 <= e <= 12 /\
    Z.pos M * 2 ^ (e + 52) * 2 ^ 52 <= z * 2 ^ 52 * (2 ^ 52 + 1) /\
    z * 2 ^ 52 * 2 ^ 52 <= Z.pos M * 2 ^ (e + 52) * (2 ^ 52 + 1) /\
    (z < 2 ^ 53 -> Z.pos M * 2 ^ (e + 52) = z * 2 ^ 52).
Proof.
  intros [Hz Hlt].
  destruct (Z_lt_ge_dec z (2 ^ 53)) as [Hsmall|Hbig].
  - destruct (double_of_Z_exact z ltac:(lia)) as [M [E [HM RM]]].
    assert (Hd : 1 <= Zdigits2 z <= 53).
    { split; [destruct z; cbn; lia|apply Zdigits2_le_of_lt_pow; lia]. }
    exists M, (Zdigits2 z - 53).
    assert (Ev : Z.pos M * 2 ^ (Zdigits2 z - 53 + 52) = z * 2 ^ 52).
    { rewrite HM, <- Z.mul_assoc, <- Z.pow_add_r by lia. f_equal. f_equal. lia. }
    rewrite Ev.
    split; [exact E|]. split; [exact RM|]. split; [lia|].
    split; [lia|]. split; [lia|]. intros _. reflexivity.
  - destruct z as [|p|p]; try lia.
    assert (Hd : 54 <= Zdigits2 (Z.pos p) <= 64).
    { split; [apply (Zdigits2_ge_of_pow_le (Z.pos p) 53); lia
             |apply Zdigits2_le_of_lt_pow; lia]. }
    unfold IEEE.double_of_Z, binary_normalize, binary_round.
    change (Z.pos (digits2_pos p)) with (Zdigits2 (Z.pos p)).
    assert (Hal : shl_align p 0 (fexp IEEE.dprec IEEE.demax (Zdigits2 (Z.pos p) + 0)) = (p, 0)).
    { unfold shl_align.
      destruct (fexp IEEE.dprec IEEE.demax (Zdigits2 (Z.pos p) + 0) - 0) eqn:E;
        try reflexivity.
      unfold fexp, emin, IEEE.dprec, IEEE.demax in E. lia. }
    rewrite Hal.
    destruct (round_normal IEEE.dprec IEEE.demax ltac:(unfold IEEE.dprec; lia)
                false (Z.pos p) 0 loc_Exact ltac:(lia)
                ltac:(unfold IEEE.dprec; lia)
                ltac:(unfold emin, IEEE.dprec, IEEE.demax; lia)
                ltac:(unfold IEEE.dprec, IEEE.demax; lia))
      as [M [k [Hres [Hk [HM [Hup Hdn]]]]]].
    unfold IEEE.dprec in Hk, HM, Hup, Hdn.
    change (2 ^ (53 - 1)) with (2 ^ 52) in *.
    exists M, k. rewrite Hres.
    split; [reflexivity|]. split; [exact HM|]. split; [lia|].
    assert (Ek : 2 ^ (k + 52) = 2 ^ k * 2 ^ 52) by (apply Z.pow_add_r; lia).
    rewrite Ek.
    split; [nia|]. split; [nia|]. intros Hc. lia.
Qed.

(** ** Quotient and product of normal numbers *)

Lemma ddiv_finite (Mm Ms : positive) (em es : Z) :
  2 ^ 52 <= Z.pos Mm < 2 ^ 53 -> 2 ^ 52 <= Z.pos Ms < 2 ^ 53 ->
  - 500 <= em - es <= 500 ->
  exists (Msc : positive) (k : Z),
    IEEE.ddiv (S754_finite false Mm em) (S754_finite false Ms es)
    = S754_finite false Msc (em - es - 53 + k) /\
    0 <= k <= 2 /\
    2 ^ 52 <= Z.pos Msc < 2 ^ 53 /\
    Z.pos Msc * 2 ^ k * Z.pos Ms * 2 ^ 52 <= Z.pos Mm * 2 ^ 53 * (2 ^ 52 + 1) /\
    Z.pos Mm * 2 ^ 53 * 2 ^ 52 <= Z.pos Msc * 2 ^ k * Z.pos Ms * (2 ^ 52 + 1).
Proof.
  intros RMm RMs He.
  unfold IEEE.ddiv. rewrite SFdiv_finite. cbv zeta.
  rewrite (Zdigits2_unique (Z.pos Mm) 53 ltac:(lia) RMm).
  rewrite (Zdigits2_unique (Z.pos Ms) 53 ltac:(lia) RMs).
  assert (He' : Z.min (fexp IEEE.dprec IEEE.demax (53 + em - (53 + es))) (em - es)
                = em - es - 53).
  { unfold fexp, emin, IEEE.dprec, IEEE.demax. lia. }
  rewrite He'.
  replace (em - es - (em - es - 53)) with 53 by lia.
  set (m' := Z.pos Mm * 2 ^ 53).
  set (q := m' / Z.pos Ms).
  assert (Hqlo : 2 ^ 52 <= q).
  { subst q m'. apply Z.div_le_lower_bound; [lia|]. nia. }
  assert (Hqhi : q < 2 ^ 54).
  { subst q m'. apply Z.div_lt_upper_bound; [lia|].
    change (2 ^ 54) with (2 * 2 ^ 53). nia. }
  assert (Hd : 53 <= Zdigits2 q <= 54).
  { split; [apply (Zdigits2_ge_of_pow_le q 52); lia
           |apply Zdigits2_le_of_lt_pow; lia]. }
  destruct (round_normal IEEE.dprec IEEE.demax ltac:(unfold IEEE.dprec; lia)
              (xorb false false) q (em - es - 53)
              (new_location (Z.pos Ms) (m' mod Z.pos Ms)) ltac:(lia)
              ltac:(unfold IEEE.dprec; lia)
              ltac:(unfold emin, IEEE.dprec, IEEE.demax; lia)
              ltac:(unfold IEEE.dprec, IEEE.demax; lia))
    as [M [k [Hres [Hk [HM [Hup Hdn]]]]]].
  unfold IEEE.dprec in Hk, HM, Hup, Hdn.
  change (2 ^ (53 - 1)) with (2 ^ 52) in *.
  exists M, k. rewrite Hres. cbn [xorb].
  split; [reflexivity|]. split; [lia|]. split; [exact HM|].
  pose proof (Z.div_mod m' (Z.pos Ms) ltac:(lia)) as Edm.
  pose proof (Z.mod_pos_bound m' (Z.pos Ms) ltac:(lia)) as Hr.
  fold q in Edm.
  set (U := Z.pos M * 2 ^ k) in *.
  assert (HU : 0 <= U) by (subst U; pose proof (pow2_pos k ltac:(lia)); nia).
  assert (H1 : q * Z.pos Ms <= m') by lia.
  assert (H2 : m' + 1 <= (q + 1) * Z.pos Ms) by lia.
  split.
  - replace (U * Z.pos Ms * 2 ^ 52) with (U * 2 ^ 52 * Z.pos Ms) by ring.
    apply Z.le_trans with (q * (2 ^ 52 + 1) * Z.pos Ms).
    + apply Z.mul_le_mono_nonneg_r; lia.
    + replace (q * (2 ^ 52 + 1) * Z.pos Ms) with (q * Z.pos Ms * (2 ^ 52 + 1)) by ring.
      apply Z.mul_le_mono_nonneg_r; lia.
  - replace (U * Z.pos Ms * (2 ^ 52 + 1)) with (U * (2 ^ 52 + 1) * Z.pos Ms) by ring.
    apply Z.le_trans with ((q + 1) * 2 ^ 52 * Z.pos Ms).
    + replace ((q + 1) * 2 ^ 52 * Z.pos Ms) with ((q + 1) * Z.pos Ms * 2 ^ 52) by ring.
      apply Z.mul_le_mono_nonneg_r; lia.
    + apply Z.mul_le_mono_nonneg_r; lia.
Qed.

Lemma dmul_finite (Mw Msc : positive) (ew esc : Z) :
  2 ^ 52 <= Z.pos Mw < 2 ^ 53 -> 2 ^ 52 <= Z.pos Msc < 2 ^ 53 ->
  - 900 <= ew + esc <= 800 ->
  exists (Mp : positive) (k : Z),
    IEEE.dmul (S754_finite false Mw ew) (S754_finite false Msc esc)
    = S754_finite false Mp (ew + esc + k) /\
    52 <= k <= 54 /\
    2 ^ 52 <= Z.pos Mp < 2 ^ 53 /\
    Z.pos Mp * 2 ^ k * 2 ^ 52 <= Z.pos Mw * Z.pos Msc * (2 ^ 52 + 1) /\
    Z.pos Mw * Z.pos Msc * 2 ^ 52 <= Z.pos Mp * 2 ^ k * (2 ^ 52 + 1).
Proof.
  intros RMw RMsc He.
  unfold IEEE.dmul. rewrite SFmul_finite.
  set (mx := Z.pos Mw * Z.pos Msc).
  assert (Hlo : 2 ^ 104 <= mx).
  { subst mx. change (2 ^ 104) with (2 ^ 52 * 2 ^ 52).
    apply Z.mul_le_mono_nonneg; lia. }
  assert (Hhi : mx < 2 ^ 106).
  { subst mx. change (2 ^ 106) with (2 ^ 53 * 2 ^ 53).
    apply Z.mul_lt_mono_nonneg; lia. }
  assert (Hd : 105 <= Zdigits2 mx <= 106).
  { split; [apply (Zdigits2_ge_of_pow_le mx 104); lia
           |apply Zdigits2_le_of_lt_pow; lia]. }
  destruct (round_normal IEEE.dprec IEEE.demax ltac:(unfold IEEE.dprec; lia)
              (xorb false false) mx (ew + esc) loc_Exact ltac:(lia)
              ltac:(unfold IEEE.dprec; lia)
              ltac:(unfold emin, IEEE.dprec, IEEE.demax; lia)
              ltac:(unfold IEEE.dprec, IEEE.demax; lia))
    as [M [k [Hres [Hk [HM [Hup Hdn]]]]]].
  unfold IEEE.dprec in Hk, HM, Hup, Hdn.
  change (2 ^ (53 - 1)) with (2 ^ 52) in *.
  exists M, k. rewrite Hres. cbn [xorb].
  split; [reflexivity|]. split; [lia|]. split; [exact HM|].
  split; [exact Hup|].
  apply Z.le_trans with ((mx + 1) * 2 ^ 52); [lia|exact Hdn].
Qed.

(** ** Truncation of a finite value *)

Lemma shiftl_enclosed (M e K : Z) :
  0 <= M -> 0 <= K -> 0 <= e + K ->
  let t := Z.shiftl M e in
  0 <= t /\ t * 2 ^ K <= M * 2 ^ (e + K) < (t + 1) * 2 ^ K.
Proof.
  intros HM HK HeK t. subst t.
  split; [apply Z.shiftl_nonneg; exact HM|].
  pose proof (pow2_pos K HK) as HpK.
  destruct (Z_le_gt_dec 0 e) as [He|He].
  - rewrite Z.shiftl_mul_pow2 by lia.
    rewrite Z.pow_add_r by lia. nia.
  - rewrite Z.shiftl_div_pow2 by lia.
    pose proof (pow2_pos (- e) ltac:(lia)) as Hpe.
    pose proof (pow2_pos (e + K) HeK) as HpeK.
    assert (EK : 2 ^ K = 2 ^ (- e) * 2 ^ (e + K)).
    { rewrite <- Z.pow_add_r by lia. f_equal. lia. }
    rewrite EK.
    pose proof (Z.div_mod M (2 ^ (- e)) ltac:(lia)) as Edm.
    pose proof (Z.mod_pos_bound M (2 ^ (- e)) Hpe) as Hr.
    set (t := M / 2 ^ (- e)) in *.
    assert (H1 : t * 2 ^ (- e) <= M) by lia.
    assert (H2 : M + 1 <= (t + 1) * 2 ^ (- e)) by lia.
    split.
    + rewrite Z.mul_assoc. apply Z.mul_le_mono_nonneg_r; lia.
    + rewrite Z.mul_assoc. apply Z.mul_lt_mono_pos_r; lia.
Qed.

(** ** The scaled dimension, in terms of the three operands *)

Lemma scale_product_enclosed (Mm Ms Mw : positive) (em es ew : Z) :
  2 ^ 52 <= Z.pos Mm < 2 ^ 53 -> 2 ^ 52 <= Z.pos Ms < 2 ^ 53 ->
  2 ^ 52 <= Z.pos Mw < 2 ^ 53 ->
  - 52 <= em <= 12 -> - 52 <= es <= 12 -> - 52 <= ew <= 12 ->
  let vm := Z.pos Mm * 2 ^ (em + 52) in
  let vs := Z.pos Ms * 2 ^ (es + 52) in
  let vw := Z.pos Mw * 2 ^ (ew + 52) in
  let c := 2 ^ 52 in
  exists t,
    IEEE.trunc (IEEE.dmul (S754_finite false Mw ew)
                          (IEEE.ddiv (S754_finite false Mm em) (S754_finite false Ms es)))
    = Some t /\
    0 <= t /\
    t * vs * (c * c * c) <= vw * vm * ((c + 1) * (c + 1)) /\
    vw * vm * c < (t + 1) * vs * ((c + 1) * (c + 1)).
Proof.
  intros RMm RMs RMw Hem Hes Hew vm vs vw c.
  destruct (ddiv_finite Mm Ms em es RMm RMs ltac:(lia))
    as [Msc [k1 [Ediv [Hk1 [RMsc [Hd1 Hd2]]]]]].
  rewrite Ediv.
  destruct (dmul_finite Mw Msc ew (em - es - 53 + k1) RMw RMsc ltac:(lia))
    as [Mp [k2 [Emul [Hk2 [RMp [Hm1 Hm2]]]]]].
  rewrite Emul. cbn [IEEE.trunc].
  set (ep := ew + (em - es - 53 + k1) + k2).
  exists (Z.shiftl (Z.pos Mp) ep). split; [reflexivity|].
  destruct (shiftl_enclosed (Z.pos Mp) ep 117 ltac:(lia) ltac:(lia) ltac:(subst ep; lia))
    as [Ht0 [Ht1 Ht2]].
  set (t := Z.shiftl (Z.pos Mp) ep) in *.
  split; [exact Ht0|].
  set (P := Z.pos Mp * 2 ^ (ep + 117)) in *.
  fold c in Hd1, Hd2, Hm1, Hm2.
  change (2 ^ 117) with (2 ^ 65 * c) in Ht1, Ht2.
  (* powers of two, named *)
  set (pm := 2 ^ (em + 52)) in *. set (ps := 2 ^ (es + 52)) in *.
  set (pw := 2 ^ (ew + 52)) in *.
  set (p1 := 2 ^ k1) in *. set (p2 := 2 ^ k2) in *.
  assert (Hpm : 0 < pm) by (apply pow2_pos; lia).
  assert (Hps : 0 < ps) by (apply pow2_pos; lia).
  assert (Hpw : 0 < pw) by (apply pow2_pos; lia).
  assert (Hp1 : 0 < p1) by (apply pow2_pos; lia).
  assert (Hp2 : 0 < p2) by (apply pow2_pos; lia).
  assert (Hc : 0 < c) by (apply pow2_pos; lia).
  assert (EP : P * ps = Z.pos Mp * p2 * p1 * pw * pm * 2 ^ 12).
  { subst P ps p2 p1 pw pm.
    rewrite <- !Z.mul_assoc. f_equal.
    change (2 ^ 12) with (2 ^ 12)%Z.
    rewrite <- !Z.pow_add_r by (subst ep; lia). f_equal. subst ep. lia. }
  (* the two operations together, on mantissas *)
  assert (Hup : Z.pos Mp * p2 * p1 * Z.pos Ms * (c * c)
                <= Z.pos Mw * Z.pos Mm * 2 ^ 53 * ((c + 1) * (c + 1))).
  { apply Z.le_trans with (Z.pos Mw * (Z.pos Msc * p1 * Z.pos Ms * c) * (c + 1)).
    - replace (Z.pos Mp * p2 * p1 * Z.pos Ms * (c * c))
        with (Z.pos Mp * p2 * c * (p1 * Z.pos Ms * c)) by ring.
      replace (Z.pos Mw * (Z.pos Msc * p1 * Z.pos Ms * c) * (c + 1))
        with (Z.pos Mw * Z.pos Msc * (c + 1) * (p1 * Z.pos Ms * c)) by ring.
      apply Z.mul_le_mono_nonneg_r; [|exact Hm1].
      apply Z.mul_nonneg_nonneg; [|lia]. apply Z.mul_nonneg_nonneg; lia.
    - replace (Z.pos Mw * Z.pos Mm * 2 ^ 53 * ((c + 1) * (c + 1)))
        with (Z.pos Mw * (Z.pos Mm * 2 ^ 53 * (c + 1)) * (c + 1)) by ring.
      apply Z.mul_le_mono_nonneg_r; [lia|].
      apply Z.mul_le_mono_nonneg_l; [lia|exact Hd1]. }
  assert (Hdn : Z.pos Mw * Z.pos Mm * 2 ^ 53 * (c * c)
                <= Z.pos Mp * p2 * p1 * Z.pos Ms * ((c + 1) * (c + 1))).
  { apply Z.le_trans with (Z.pos Mw * (Z.pos Msc * p1 * Z.pos Ms * (c + 1)) * c).
    - replace (Z.pos Mw * Z.pos Mm * 2 ^ 53 * (c * c))
        with (Z.pos Mw * (Z.pos Mm * 2 ^ 53 * c) * c) by ring.
      apply Z.mul_le_mono_nonneg_r; [lia|].
      apply Z.mul_le_mono_nonneg_l; [lia|exact Hd2].
    - replace (Z.pos Mw * (Z.pos Msc * p1 * Z.pos Ms * (c + 1)) * c)
        with (Z.pos Mw * Z.pos Msc * c * (p1 * Z.pos Ms * (c + 1))) by ring.
      replace (Z.pos Mp * p2 * p1 * Z.pos Ms * ((c + 1) * (c + 1)))
        with (Z.pos Mp * p2 * (c + 1) * (p1 * Z.pos Ms * (c + 1))) by ring.
      apply Z.mul_le_mono_nonneg_r; [|exact Hm2].
      apply Z.mul_nonneg_nonneg; [|lia]. apply Z.mul_nonneg_nonneg; lia. }
  (* the same, on values scaled by 2^52 *)
  assert (HupP : P * vs * (c * c) <= vw * vm * 2 ^ 65 * ((c + 1) * (c + 1))).
  { apply (Z.mul_le_mono_pos_r _ _ ps Hps).
    replace (P * vs * (c * c) * ps) with (P * ps * (vs * (c * c))) by ring.
    rewrite EP. subst vs vw vm. fold ps pw pm.
    replace (Z.pos Mp * p2 * p1 * pw * pm * 2 ^ 12 * (Z.pos Ms * ps * (c * c)))
      with (Z.pos Mp * p2 * p1 * Z.pos Ms * (c * c) * (pw * pm * 2 ^ 12 * ps)) by ring.
    replace (Z.pos Mw * pw * (Z.pos Mm * pm) * 2 ^ 65 * ((c + 1) * (c + 1)) * ps)
      with (Z.pos Mw * Z.pos Mm * 2 ^ 53 * ((c + 1) * (c + 1)) * (pw * pm * 2 ^ 12 * ps))
      by (change (2 ^ 65) with (2 ^ 53 * 2 ^ 12); ring).
    apply Z.mul_le_mono_nonneg_r; [|exact Hup].
    apply Z.mul_nonneg_nonneg; [|lia]. apply Z.mul_nonneg_nonneg; [|lia].
    apply Z.mul_nonneg_nonneg; lia. }
  assert (HdnP : vw * vm * 2 ^ 65 * (c * c) <= P * vs * ((c + 1) * (c + 1))).
  { apply (Z.mul_le_mono_pos_r _ _ ps Hps).
    replace (P * vs * ((c + 1) * (c + 1)) * ps) with (P * ps * (vs * ((c + 1) * (c + 1)))) by ring.
    rewrite EP. subst vs vw vm. fold ps pw pm.
    replace (Z.pos Mp * p2 * p1 * pw * pm * 2 ^ 12 * (Z.pos Ms * ps * ((c + 1) * (c + 1))))
      with (Z.pos Mp * p2 * p1 * Z.pos Ms * ((c + 1) * (c + 1)) * (pw * pm * 2 ^ 12 * ps)) by ring.
    replace (Z.pos Mw * pw * (Z.pos Mm * pm) * 2 ^ 65 * (c * c) * ps)
      with (Z.pos Mw * Z.pos Mm * 2 ^ 53 * (c * c) * (pw * pm * 2 ^ 12 * ps))
      by (change (2 ^ 65) with (2 ^ 53 * 2 ^ 12); ring).
    apply Z.mul_le_mono_nonneg_r; [|exact Hdn].
    apply Z.mul_nonneg_nonneg; [|lia]. apply Z.mul_nonneg_nonneg; [|lia].
    apply Z.mul_nonneg_nonneg; lia. }
  assert (Hvs : 0 < vs) by (subst vs; fold ps; nia).
  assert (Hvw : 0 < vw) by (subst vw; fold pw; nia).
  assert (Hvm : 0 < vm) by (subst vm; fold pm; nia).
  clearbody vs vw vm P t c.
  clear - Ht0 Ht1 Ht2 HupP HdnP Hvs Hvw Hvm Hc.
  assert (H65 : 0 < 2 ^ 65) by (apply pow2_pos; lia).
  set (T := 2 ^ 65) in *. clearbody T.
  split.
  - apply (Z.mul_le_mono_pos_r _ _ T H65).
    apply Z.le_trans with (P * vs * (c * c)); [|
      replace (vw * vm * ((c + 1) * (c + 1)) * T)
        with (vw * vm * T * ((c + 1) * (c + 1))) by ring; exact HupP].
    replace (t * vs * (c * c * c) * T) with (t * (T * c) * (vs * (c * c))) by ring.
    replace (P * vs * (c * c)) with (P * (vs * (c * c))) by ring.
    apply Z.mul_le_mono_nonneg_r; [|lia].
    apply Z.mul_nonneg_nonneg; [lia|]. apply Z.mul_nonneg_nonneg; lia.
  - apply (Z.mul_lt_mono_pos_r (T * c)); [nia|].
    apply Z.le_lt_trans with (P * vs * ((c + 1) * (c + 1))).
    + replace (vw * vm * c * (T * c)) with (vw * vm * T * (c * c)) by ring.
      exact HdnP.
    + replace (P * vs * ((c + 1) * (c + 1))) with (P * (vs * ((c + 1) * (c + 1)))) by ring.
      replace ((t + 1) * vs * ((c + 1) * (c + 1)) * (T * c))
        with ((t + 1) * (T * c) * (vs * ((c + 1) * (c + 1)))) by ring.
      apply Z.mul_lt_mono_pos_r; [|exact Ht2].
      apply Z.mul_pos_pos; [lia|]. apply Z.mul_pos_pos; lia.
Qed.

(** The truncated product [w * (m / s)], as the tools compute it, against
    the exact ratio: each of the two operations and each of the three
    conversions is off by at most one part in [2 ^ 52]. *)
Lemma scaled_dimension_enclosed (m s w : Z) :
  0 < m < 2 ^ 64 -> 0 < s < 2 ^ 64 -> 0 < w < 2 ^ 64 ->
  let c := 2 ^ 52 in
  exists t,
    IEEE.trunc (IEEE.dmul (IEEE.double_of_Z w)
                          (IEEE.ddiv (IEEE.double_of_Z m) (IEEE.double_of_Z s)))
    = Some t /\
    0 <= t /\
    t * s * (c * c * c * c * c)
      <= w * m * ((c + 1) * (c + 1) * (c + 1) * (c + 1) * (c + 1)) /\
    w * m * (c * c * c * c * c)
      < (t + 1) * s * ((c + 1) * (c + 1) * (c + 1) * (c + 1) * (c + 1)).
Proof.
  intros Hm Hs Hw c.
  destruct (double_of_Z_finite m Hm) as [Mm [em [Em [RMm [Hem [Hm1 [Hm2 _]]]]]]].
  destruct (double_of_Z_finite s Hs) as [Ms [es [Es [RMs [Hes [Hs1 [Hs2 _]]]]]]].
  destruct (double_of_Z_finite w Hw) as [Mw [ew [Ew [RMw [Hew [Hw1 [Hw2 _]]]]]]].
  rewrite Em, Es, Ew.
  destruct (scale_product_enclosed Mm Ms Mw em es ew RMm RMs RMw Hem Hes Hew)
    as [t [Et [Ht0 [Hup Hdn]]]].
  exists t. split; [exact Et|]. split; [exact Ht0|].
  fold c in Hm1, Hm2, Hs1, Hs2, Hw1, Hw2, Hup, Hdn.
  set (vm := Z.pos Mm * 2 ^ (em + 52)) in *.
  set (vs := Z.pos Ms * 2 ^ (es + 52)) in *.
  set (vw := Z.pos Mw * 2 ^ (ew + 52)) in *.
  assert (Hc : 0 < c) by (apply pow2_pos; lia).
  assert (Hvm : 0 < vm) by (subst vm; pose proof (pow2_pos (em + 52) ltac:(lia)); nia).
  assert (Hvs : 0 < vs) by (subst vs; pose proof (pow2_pos (es + 52) ltac:(lia)); nia).
  assert (Hvw : 0 < vw) by (subst vw; pose proof (pow2_pos (ew + 52) ltac:(lia)); nia).
  clearbody vm vs vw c. clear - Hm Hs Hw Ht0 Hup Hdn Hm1 Hm2 Hs1 Hs2 Hw1 Hw2 Hc Hvm Hvs Hvw.
  assert (Hm1' : vm <= m * (c + 1)).
  { apply (Z.mul_le_mono_pos_r _ _ c Hc).
    replace (m * (c + 1) * c) with (m * c * (c + 1)) by ring. exact Hm1. }
  assert (Hw1' : vw <= w * (c + 1)).
  { apply (Z.mul_le_mono_pos_r _ _ c Hc).
    replace (w * (c + 1) * c) with (w * c * (c + 1)) by ring. exact Hw1. }
  assert (Hs1' : vs <= s * (c + 1)).
  { apply (Z.mul_le_mono_pos_r _ _ c Hc).
    replace (s * (c + 1) * c) with (s * c * (c + 1)) by ring. exact Hs1. }
  set (c1 := c + 1) in *.
  assert (Hc1 : 0 < c1) by (subst c1; lia).
  split.
  - (* t s c^5 <= t vs c1 c^3 <= vw vm c1^3 <= w m c1^5 *)
    apply Z.le_trans with (t * vs * (c * c * c) * c1).
    + replace (t * s * (c * c * c * c * c)) with (t * (c * c * c) * (s * c * c)) by ring.
      replace (t * vs * (c * c * c) * c1) with (t * (c * c * c) * (vs * c1)) by ring.
      apply Z.mul_le_mono_nonneg_l; [|exact Hs2].
      apply Z.mul_nonneg_nonneg; [lia|]. apply Z.mul_nonneg_nonneg; [|lia].
      apply Z.mul_nonneg_nonneg; lia.
    + apply Z.le_trans with (vw * vm * (c1 * c1) * c1).
      * apply Z.mul_le_mono_nonneg_r; [lia|exact Hup].
      * replace (vw * vm * (c1 * c1) * c1) with (vw * vm * (c1 * c1 * c1)) by ring.
        replace (w * m * (c1 * c1 * c1 * c1 * c1))
          with (w * c1 * (m * c1) * (c1 * c1 * c1)) by ring.
        apply Z.mul_le_mono_nonneg_r.
        { apply Z.mul_nonneg_nonneg; [|lia]. apply Z.mul_nonneg_nonneg; lia. }
        apply Z.mul_le_mono_nonneg; lia.
  - (* w m c^5 <= vw vm c c1^2 < (t+1) vs c1^4 <= (t+1) s c1^5 *)
    apply Z.le_lt_trans with (vw * vm * c * (c1 * c1)).
    + replace (w * m * (c * c * c * c * c)) with (w * c * c * (m * c * c) * c) by ring.
      replace (vw * vm * c * (c1 * c1)) with (vw * c1 * (vm * c1) * c) by ring.
      apply Z.mul_le_mono_nonneg_r; [lia|].
      apply Z.mul_le_mono_nonneg; try assumption.
      * apply Z.mul_nonneg_nonneg; [|lia]. apply Z.mul_nonneg_nonneg; lia.
      * apply Z.mul_nonneg_nonneg; [|lia]. apply Z.mul_nonneg_nonneg; lia.
    + apply Z.lt_le_trans with ((t + 1) * vs * (c1 * c1) * (c1 * c1)).
      * apply Z.mul_lt_mono_pos_r; [|exact Hdn]. apply Z.mul_pos_pos; lia.
      * replace ((t + 1) * vs * (c1 * c1) * (c1 * c1))
          with ((t + 1) * (c1 * c1 * c1 * c1) * vs) by ring.
        replace ((t + 1) * s * (c1 * c1 * c1 * c1 * c1))
          with ((t + 1) * (c1 * c1 * c1 * c1) * (s * c1)) by ring.
        apply Z.mul_le_mono_nonneg_l; [|exact Hs1'].
        apply Z.mul_nonneg_nonneg; [lia|].
        apply Z.mul_nonneg_nonneg; [|lia]. apply Z.mul_nonneg_nonneg; [|lia].
        apply Z.mul_nonneg_nonneg; lia.
Qed.

(** ** The scaled dimension against the source dimension and the exact
    quotient *)

(** For a target [m] below the short edge [s], the dimension [w] is scaled
    to an integer below [w]; it is within one of the exact quotient, and
    not above it while [w * m] stays below [2 ^ 49]. *)
Lemma scaled_dimension (m s w : Z) :
  0 < m < 2 ^ 64 -> 0 < s < 2 ^ 64 -> 0 < w < 2 ^ 64 ->
  m * 2 ^ 32 <= (2 ^ 32 - 1) * s ->
  exists t,
    IEEE.trunc (IEEE.dmul (IEEE.double_of_Z w)
                          (IEEE.ddiv (IEEE.double_of_Z m) (IEEE.double_of_Z s)))
    = Some t /\
    0 <= t < w /\
    (w < 2 ^ 49 -> w * m / s - 1 <= t <= w * m / s + 1) /\
    (w * m < 2 ^ 49 -> t <= w * m / s).
Proof.
  intros Hm Hs Hw Hms.
  destruct (scaled_dimension_enclosed m s w Hm Hs Hw) as [t [Et [Ht0 [Hup Hdn]]]].
  exists t. split; [exact Et|].
  set (C := 2 ^ 52 * 2 ^ 52 * 2 ^ 52 * 2 ^ 52 * 2 ^ 52) in *.
  set (C1 := (2 ^ 52 + 1) * (2 ^ 52 + 1) * (2 ^ 52 + 1) * (2 ^ 52 + 1) * (2 ^ 52 + 1)) in *.
  assert (HC : C = 2 ^ 260) by reflexivity.
  assert (HC1 : C1 = 2 ^ 260 + 5 * 2 ^ 208 + 10 * 2 ^ 156 + 10 * 2 ^ 104 + 5 * 2 ^ 52 + 1)
    by reflexivity.
  assert (Hmlt : m < s) by lia.
  assert (Hlt : t < w).
  { assert (H1 : t * s * C * 2 ^ 32 <= w * C1 * ((2 ^ 32 - 1) * s)).
    { apply Z.le_trans with (w * C1 * (m * 2 ^ 32)).
      - replace (w * C1 * (m * 2 ^ 32)) with (w * m * C1 * 2 ^ 32) by ring.
        apply Z.mul_le_mono_nonneg_r; [lia|exact Hup].
      - apply Z.mul_le_mono_nonneg_l; [|exact Hms].
        apply Z.mul_nonneg_nonneg; lia. }
    assert (H2 : t * (C * 2 ^ 32) <= w * (C1 * (2 ^ 32 - 1))).
    { apply (Z.mul_le_mono_pos_r _ _ s); [lia|].
      replace (t * (C * 2 ^ 32) * s) with (t * s * C * 2 ^ 32) by ring.
      replace (w * (C1 * (2 ^ 32 - 1)) * s) with (w * C1 * ((2 ^ 32 - 1) * s)) by ring.
      exact H1. }
    rewrite HC, HC1 in H2. lia. }
  split; [lia|].
  pose proof (Z.div_mod (w * m) s ltac:(lia)) as Edm.
  pose proof (Z.mod_pos_bound (w * m) s ltac:(lia)) as Hr.
  set (X := w * m) in *. set (q := X / s) in *. set (r := X mod s) in *.
  set (Y := t * s) in *.
  assert (HY : (t + 1) * s = Y + s) by (subst Y; ring).
  rewrite HY in Hdn.
  split.
  - intros Hw49.
    assert (HX : X <= 2 ^ 49 * s - 1).
    { assert (X < 2 ^ 49 * s); [|lia]. subst X.
      apply Z.mul_lt_mono_nonneg; lia. }
    assert (HYs : Y + s <= 2 ^ 49 * s).
    { rewrite <- HY. apply Z.mul_le_mono_nonneg_r; lia. }
    assert (H1 : Y < X + s) by (rewrite HC, HC1 in Hup; lia).
    assert (H2 : X < Y + 2 * s) by (rewrite HC, HC1 in Hdn; lia).
    split.
    + assert (q * s < (t + 2) * s); [|nia].
      replace ((t + 2) * s) with (Y + 2 * s) by (subst Y; ring). lia.
    + assert (t * s < (q + 2) * s); [|nia].
      fold Y. lia.
  - intros HX49.
    assert (H1 : Y <= X) by (rewrite HC, HC1 in Hup; lia).
    apply Z.div_le_lower_bound; [lia|]. subst Y. lia.
Qed.

(** ** Rounding up to even *)

Lemma land_clear_low (bits y : Z) :
  1 <= bits -> 0 <= y < 2 ^ bits -> Z.land y (2 ^ bits - 2) = 2 * (y / 2).
Proof.
  intros Hb Hy.
  assert (E : 2 ^ bits - 2 = 2 * Z.ones (bits - 1)).
  { rewrite Z.ones_equiv.
    replace bits with (Z.succ (bits - 1)) at 1 by lia.
    rewrite Z.pow_succ_r by lia. lia. }
  rewrite E. apply Z.bits_inj'. intros n Hn.
  rewrite Z.land_spec.
  destruct (Z.eq_dec n 0) as [->|Hn0].
  - rewrite !Z.testbit_even_0. apply andb_false_r.
  - replace n with (Z.succ (n - 1)) by lia.
    rewrite !Z.testbit_even_succ by lia.
    rewrite Z.testbit_ones_nonneg by lia.
    assert (Ey : Z.testbit (y / 2) (n - 1) = Z.testbit y (Z.succ (n - 1))).
    { change 2 with (2 ^ 1) at 1. rewrite <- Z.shiftr_div_pow2 by lia.
      rewrite Z.shiftr_spec by lia. reflexivity. }
    rewrite Ey.
    destruct (Z.ltb_spec (n - 1) (bits - 1)) as [Hlt|Hge].
    + apply andb_true_r.
    + rewrite andb_false_r. symmetry.
      apply Z.testbit_false; [lia|].
      rewrite Z.div_small; [reflexivity|].
      split; [lia|].
      apply Z.lt_le_trans with (2 ^ bits); [lia|].
      apply Z.pow_le_mono_r; lia.
Qed.

Lemma even_up_half (x : Z) : Spec.even_up x = 2 * ((x + 1) / 2).
Proof. unfold Spec.even_up. Z.div_mod_to_equations. lia. Qed.

Lemma even_up_bounds (x : Z) :
  x <= Spec.even_up x <= x + 1 /\ Z.even (Spec.even_up x) = true.
Proof.
  split.
  - unfold Spec.even_up. Z.div_mod_to_equations. lia.
  - rewrite even_up_half, Z.even_mul. reflexivity.
Qed.

Lemma round_even_even_up (bits x : Z) :
  1 <= bits -> 0 <= x -> x + 1 < 2 ^ bits ->
  CInt.round_even bits x = Spec.even_up x.
Proof.
  intros Hb Hx Hlt. unfold CInt.round_even.
  rewrite wrap_small by lia.
  rewrite land_clear_low by lia.
  symmetry. apply even_up_half.
Qed.

Lemma min_as_test (a b : Z) : (if a <? b then a else b) = Z.min a b.
Proof. destruct (Z.ltb_spec a b); lia. Qed.

(** ** One resized dimension *)

Lemma resized_dimension (undef : IEEE.float -> Z) (bits m s w : Z) :
  1 <= bits <= 64 ->
  0 < m < 2 ^ 64 -> 0 < s < 2 ^ 64 -> 0 < w < 2 ^ bits ->
  m * 2 ^ 32 <= (2 ^ 32 - 1) * s ->
  let product :=
    IEEE.dmul (IEEE.double_of_Z w)
              (IEEE.ddiv (IEEE.double_of_Z m) (IEEE.double_of_Z s)) in
  exists t,
    IEEE.trunc product = Some t /\
    CInt.round_even bits (IEEE.to_unsigned undef bits product) = Spec.even_up t /\
    0 <= t < w /\
    (w < 2 ^ 49 -> w * m / s - 1 <= t <= w * m / s + 1) /\
    (w * m < 2 ^ 49 -> t <= w * m / s).
Proof.
  intros Hb Hm Hs Hw Hms product.
  assert (Hw64 : 2 ^ bits <= 2 ^ 64) by (apply Z.pow_le_mono_r; lia).
  destruct (scaled_dimension m s w Hm Hs ltac:(lia) Hms) as [t [Et [Ht [Hq1 Hq2]]]].
  fold product in Et.
  exists t. split; [exact Et|].
  split; [|auto].
  rewrite (to_unsigned_exact undef bits product t Et) by lia.
  apply round_even_even_up; lia.
Qed.

(** ** Target size of both tools *)

Lemma int32_small (z : Z) : 0 <= z <= CInt.INT_MAX -> CInt.int32_t z = z.
Proof.
  unfold CInt.INT_MAX, CInt.int32_t, CInt.to_signed. intros H.
  rewrite wrap_small by lia.
  destruct (Z.ltb_spec z (2 ^ (32 - 1))) as [|Hge]; [reflexivity|].
  change (2 ^ (32 - 1)) with (2 ^ 31) in Hge. lia.
Qed.

(** A positive [(int)z] is at most [z]. *)
Lemma int32_positive_le (z : Z) : 0 <= z -> 0 < CInt.int32_t z -> CInt.int32_t z <= z.
Proof.
  unfold CInt.int32_t, CInt.to_signed, CInt.wrap. intros Hz.
  pose proof (Z.mod_pos_bound z (2 ^ 32) ltac:(lia)) as Hr.
  destruct (Z.ltb_spec (z mod 2 ^ 32) (2 ^ (32 - 1))) as [Hlt|Hge].
  - intros _. apply Z.mod_le; lia.
  - lia.
Qed.

(** Below the short edge the target is at most [1 - 2 ^ -32] of it. *)
Lemma target_below_short_edge (m s : Z) :
  0 < m < 2 ^ 31 -> m < s -> m * 2 ^ 32 <= (2 ^ 32 - 1) * s.
Proof. intros Hm Hs. lia. Qed.

(** Both dimensions of a resized image. *)
Lemma resized_pair (undef : IEEE.float -> Z) (bits srcW srcH maxDim : Z) :
  32 <= bits <= 64 ->
  0 < maxDim < 2 ^ 31 ->
  0 < srcW < 2 ^ bits -> 0 < srcH < 2 ^ bits ->
  maxDim < Z.min srcW srcH ->
  let short := Z.min srcW srcH in
  let scale := IEEE.ddiv (IEEE.double_of_Z maxDim) (IEEE.double_of_Z short) in
  exists tw th,
    IEEE.scaled srcW maxDim short = Some tw /\
    IEEE.scaled srcH maxDim short = Some th /\
    (CInt.round_even bits
       (IEEE.to_unsigned undef bits (IEEE.dmul (IEEE.double_of_Z srcW) scale)),
     CInt.round_even bits
       (IEEE.to_unsigned undef bits (IEEE.dmul (IEEE.double_of_Z srcH) scale)))
    = (Spec.even_up tw, Spec.even_up th) /\
    0 <= tw < srcW /\ 0 <= th < srcH /\
    (srcW < 2 ^ 49 -> Spec.near_quotient tw srcW maxDim short) /\
    (srcH < 2 ^ 49 -> Spec.near_quotient th srcH maxDim short).
Proof.
  intros Hb Hm Hw Hh Hlt short scale.
  assert (Hb64 : 2 ^ bits <= 2 ^ 64) by (apply Z.pow_le_mono_r; lia).
  assert (Hs : 0 < short < 2 ^ 64) by (subst short; lia).
  pose proof (target_below_short_edge maxDim short Hm Hlt) as Hms.
  destruct (resized_dimension undef bits maxDim short srcW ltac:(lia) ltac:(lia) Hs Hw Hms)
    as [tw [Etw [Erw [Htw [Hq1w Hq2w]]]]].
  destruct (resized_dimension undef bits maxDim short srcH ltac:(lia) ltac:(lia) Hs Hh Hms)
    as [th [Eth [Erh [Hth [Hq1h Hq2h]]]]].
  exists tw, th. unfold IEEE.scaled. fold scale.
  split; [exact Etw|]. split; [exact Eth|].
  split; [subst scale; rewrite Erw, Erh; reflexivity|].
  split; [exact Htw|]. split; [exact Hth|].
  unfold Spec.near_quotient. split; intros H; split; auto.
Qed.

Lemma braw_dst_cases (undef : IEEE.float -> Z) (srcW srcH maxDim : Z) :
  0 <= srcW <= CInt.UINT32_MAX -> 0 <= srcH <= CInt.UINT32_MAX ->
  CInt.INT_MIN <= maxDim <= CInt.INT_MAX ->
  let short := Z.min srcW srcH in
  let dst := Braw.WriteJPEG_dst undef srcW srcH maxDim in
  if (0 <? maxDim) && (maxDim <? short) then
    exists tw th,
      IEEE.scaled srcW maxDim short = Some tw /\
      IEEE.scaled srcH maxDim short = Some th /\
      dst = (Spec.even_up tw, Spec.even_up th) /\
      0 <= tw < srcW /\ 0 <= th < srcH /\
      Spec.near_quotient tw srcW maxDim short /\
      Spec.near_quotient th srcH maxDim short
  else dst = (srcW, srcH).
Proof.
  intros Hw Hh Hm short dst.
  unfold CInt.UINT32_MAX, CInt.INT_MIN, CInt.INT_MAX in Hw, Hh, Hm. subst dst. unfold Braw.WriteJPEG_dst.
  rewrite min_as_test. fold short.
  destruct (Z.ltb_spec 0 maxDim) as [Hpos|Hneg]; cbn [andb]; [|reflexivity].
  unfold CInt.uint32_t. rewrite wrap_small by lia.
  destruct (Z.ltb_spec maxDim short) as [Hlt|Hge]; [|reflexivity].
  destruct (resized_pair undef 32 srcW srcH maxDim ltac:(lia) ltac:(lia)
              ltac:(subst short; lia) ltac:(subst short; lia) Hlt)
    as [tw [th [Etw [Eth [Ed [Htw [Hth [Hqw Hqh]]]]]]]].
  fold short in Etw, Eth, Ed, Hqw, Hqh.
  exists tw, th. cbv zeta.
  split; [exact Etw|]. split; [exact Eth|]. split; [exact Ed|].
  split; [exact Htw|]. split; [exact Hth|].
  split; [apply Hqw|apply Hqh]; lia.
Qed.

Lemma r3d_out_cases (undef : IEEE.float -> Z) (width height maxDim : Z) :
  0 <= width <= CInt.SIZE_MAX -> 0 <= height <= CInt.SIZE_MAX ->
  CInt.INT_MIN <= maxDim <= CInt.INT_MAX ->
  let short := Z.min width height in
  let out := R3d.writeBGRAasJPEG_out undef width height maxDim in
  if (0 <? maxDim) && (maxDim <? CInt.int32_t short) then
    exists tw th,
      IEEE.scaled width maxDim short = Some tw /\
      IEEE.scaled height maxDim short = Some th /\
      out = (Spec.even_up tw, Spec.even_up th) /\
      0 <= tw < width /\ 0 <= th < height /\
      (width < 2 ^ 49 -> Spec.near_quotient tw width maxDim short) /\
      (height < 2 ^ 49 -> Spec.near_quotient th height maxDim short)
  else out = (width, height).
Proof.
  intros Hw Hh Hm short out.
  unfold CInt.SIZE_MAX, CInt.INT_MIN, CInt.INT_MAX in Hw, Hh, Hm. subst out. unfold R3d.writeBGRAasJPEG_out.
  rewrite min_as_test. fold short.
  destruct (Z.ltb_spec 0 maxDim) as [Hpos|Hneg]; cbn [andb]; [|reflexivity].
  destruct (Z.ltb_spec maxDim (CInt.int32_t short)) as [Hlt|Hge]; [|reflexivity].
  assert (Hshort : maxDim < short).
  { pose proof (int32_positive_le short ltac:(subst short; lia) ltac:(lia)). lia. }
  destruct (resized_pair undef 64 width height maxDim ltac:(lia) ltac:(lia)
              ltac:(subst short; lia) ltac:(subst short; lia) Hshort)
    as [tw [th [Etw [Eth [Ed [Htw [Hth [Hqw Hqh]]]]]]]].
  fold short in Etw, Eth, Ed, Hqw, Hqh.
  exists tw, th. cbv zeta.
  split; [exact Etw|]. split; [exact Eth|]. split; [exact Ed|].
  split; [exact Htw|]. split; [exact Hth|].
  split; assumption.
Qed.

(** C10: for source dimensions of at least 1 and every [maxDim] of at least
    1, the target dimensions of braw-tool ([uint32_t] dimensions) and of
    r3d-tool ([size_t] dimensions) are at most the source dimensions, and
    when the target differs from the source both target dimensions are
    even. *)
Theorem C10_scaling_never_enlarges (undef : IEEE.float -> Z) (srcW srcH maxDim : Z) :
  1 <= srcW -> 1 <= srcH -> 1 <= maxDim <= CInt.INT_MAX ->
  (srcW <= CInt.UINT32_MAX -> srcH <= CInt.UINT32_MAX ->
   let dst := Braw.WriteJPEG_dst undef srcW srcH maxDim in
   fst dst <= srcW /\ snd dst <= srcH /\
   (dst <> (srcW, srcH) -> Z.even (fst dst) = true /\ Z.even (snd dst) = true))
  /\
  (srcW <= CInt.SIZE_MAX -> srcH <= CInt.SIZE_MAX ->
   let out := R3d.writeBGRAasJPEG_out undef srcW srcH maxDim in
   fst out <= srcW /\ snd out <= srcH /\
   (out <> (srcW, srcH) -> Z.even (fst out) = true /\ Z.even (snd out) = true)).
Proof.
  intros Hw Hh Hm.
  assert (Hmi : CInt.INT_MIN <= maxDim <= CInt.INT_MAX) by (unfold CInt.INT_MIN; lia).
  split.
  - intros Hw32 Hh32 dst.
    pose proof (braw_dst_cases undef srcW srcH maxDim ltac:(lia) ltac:(lia) Hmi) as H.
    cbv zeta in H. fold dst in H.
    destruct ((0 <? maxDim) && (maxDim <? Z.min srcW srcH)).
    + destruct H as [tw [th [_ [_ [Ed [Htw [Hth _]]]]]]].
      rewrite Ed. cbn [fst snd].
      pose proof (even_up_bounds tw) as [Bw Ew].
      pose proof (even_up_bounds th) as [Bh Eh].
      split; [lia|]. split; [lia|]. intros _. split; assumption.
    + rewrite H. cbn [fst snd]. split; [lia|]. split; [lia|].
      intros Hne. exfalso. apply Hne. reflexivity.
  - intros Hw64 Hh64 out.
    pose proof (r3d_out_cases undef srcW srcH maxDim ltac:(lia) ltac:(lia) Hmi) as H.
    cbv zeta in H. fold out in H.
    destruct ((0 <? maxDim) && (maxDim <? CInt.int32_t (Z.min srcW srcH))).
    + destruct H as [tw [th [_ [_ [Ed [Htw [Hth _]]]]]]].
      rewrite Ed. cbn [fst snd].
      pose proof (even_up_bounds tw) as [Bw Ew].
      pose proof (even_up_bounds th) as [Bh Eh].
      split; [lia|]. split; [lia|]. intros _. split; assumption.
    + rewrite H. cbn [fst snd]. split; [lia|]. split; [lia|].
      intros Hne. exfalso. apply Hne. reflexivity.
Qed.

(** C10 at a 1920x1080 frame with [maxDim] 512. *)
Lemma C10_witness_hd_frame :
  (let dst := Braw.WriteJPEG_dst Samples.undef 1920 1080 512 in
   fst dst <= 1920 /\ snd dst <= 1080 /\
   (dst <> (1920, 1080) -> Z.even (fst dst) = true /\ Z.even (snd dst) = true))
  /\
  (let out := R3d.writeBGRAasJPEG_out Samples.undef 1920 1080 512 in
   fst out <= 1920 /\ snd out <= 1080 /\
   (out <> (1920, 1080) -> Z.even (fst out) = true /\ Z.even (snd out) = true)).
Proof.
  destruct (C10_scaling_never_enlarges Samples.undef 1920 1080 512
              ltac:(lia) ltac:(lia) ltac:(unfold CInt.INT_MAX; lia)) as [Hb Hr].
  split.
  - apply Hb; unfold CInt.UINT32_MAX; lia.
  - apply Hr; unfold CInt.SIZE_MAX; lia.
Defined.

(** For source dimensions that fit [uint32_t] and whose short edge fits
    [int], and every [maxDim], braw-tool's [WriteJPEG] and r3d-tool's
    [writeBGRAasJPEG] compute the same target dimensions, whatever the
    platform does in conversions that are out of range. *)
Lemma same_target_size_short_edge_int
      (undef_braw undef_r3d : IEEE.float -> Z) (srcW srcH maxDim : Z) :
  0 <= srcW <= CInt.UINT32_MAX -> 0 <= srcH <= CInt.UINT32_MAX ->
  CInt.INT_MIN <= maxDim <= CInt.INT_MAX ->
  Z.min srcW srcH <= CInt.INT_MAX ->
  Braw.WriteJPEG_dst undef_braw srcW srcH maxDim
  = R3d.writeBGRAasJPEG_out undef_r3d srcW srcH maxDim.
Proof.
  intros Hw Hh Hm Hshort.
  pose proof (braw_dst_cases undef_braw srcW srcH maxDim Hw Hh Hm) as Hb.
  pose proof (r3d_out_cases undef_r3d srcW srcH maxDim
                ltac:(unfold CInt.UINT32_MAX, CInt.SIZE_MAX in *; lia)
                ltac:(unfold CInt.UINT32_MAX, CInt.SIZE_MAX in *; lia) Hm) as Hr.
  cbv zeta in Hb, Hr.
  rewrite (int32_small (Z.min srcW srcH)) in Hr by lia.
  destruct ((0 <? maxDim) && (maxDim <? Z.min srcW srcH)).
  - destruct Hb as [tw [th [Ew [Eh [Eb _]]]]].
    destruct Hr as [tw' [th' [Ew' [Eh' [Er _]]]]].
    rewrite Eb, Er. congruence.
  - rewrite Hb, Hr. reflexivity.
Qed.

(** C5: the two tools compute the same target dimensions for every image
    a run can hold.  Both writers are handed a buffer of
    [srcW * srcH * 4] bytes, 4 for each pixel; for source dimensions that
    fit [uint32_t], a buffer size that fits [size_t] and every [maxDim],
    braw-tool's [WriteJPEG] and r3d-tool's [writeBGRAasJPEG] compute the
    same target dimensions, whatever the platform does in conversions that
    are out of range. *)
Theorem C5_same_target_size
        (undef_braw undef_r3d : IEEE.float -> Z) (srcW srcH maxDim : Z) :
  0 <= srcW <= CInt.UINT32_MAX -> 0 <= srcH <= CInt.UINT32_MAX ->
  CInt.INT_MIN <= maxDim <= CInt.INT_MAX ->
  srcW * srcH * 4 <= CInt.SIZE_MAX ->
  Braw.WriteJPEG_dst undef_braw srcW srcH maxDim
  = R3d.writeBGRAasJPEG_out undef_r3d srcW srcH maxDim.
Proof.
  intros Hw Hh Hm Hbuf.
  apply same_target_size_short_edge_int; try assumption.
  unfold CInt.INT_MAX, CInt.SIZE_MAX, CInt.UINT32_MAX in *.
  destruct (Z_le_gt_dec (Z.min srcW srcH) (2 ^ 31 - 1)) as [Hle|Hgt]; [exact Hle|].
  exfalso.
  assert (H1 : 2 ^ 31 <= srcW) by lia.
  assert (H2 : 2 ^ 31 <= srcH) by lia.
  assert (H3 : 2 ^ 31 * 2 ^ 31 <= srcW * srcH)
    by (apply Z.mul_le_mono_nonneg; lia).
  change (2 ^ 31 * 2 ^ 31) with (2 ^ 62) in H3.
  change (2 ^ 64 - 1) with (2 ^ 62 * 4 - 1) in Hbuf. lia.
Qed.

(** C5 at a 960x540 frame with [maxDim] 385. *)
Lemma C5_witness_quarter_hd :
  Braw.WriteJPEG_dst Samples.undef 960 540 385
  = R3d.writeBGRAasJPEG_out Samples.undef 960 540 385.
Proof.
  apply (C5_same_target_size Samples.undef Samples.undef 960 540 385);
    unfold CInt.UINT32_MAX, CInt.INT_MIN, CInt.INT_MAX, CInt.SIZE_MAX; lia.
Defined.

(** The hypothesis on the buffer is needed: for dimensions no buffer can
    have, 2^31 x 2^31 with [maxDim] 1, braw-tool's arithmetic gives 2 x 2
    and r3d-tool's, whose test casts the short edge to [int], leaves the
    size as it is. *)
Remark writers_differ_without_a_buffer :
  Braw.WriteJPEG_dst Samples.undef (2 ^ 31) (2 ^ 31) 1 = (2, 2) /\
  R3d.writeBGRAasJPEG_out Samples.undef (2 ^ 31) (2 ^ 31) 1 = (2 ^ 31, 2 ^ 31).
Proof. split; vm_compute; reflexivity. Qed.

(** C1, as the code has it: for source dimensions from 1 that fit [uint32_t] and every
    [maxDim], braw-tool's target size is as follows.  If [maxDim > 0] and
    [min srcW srcH > maxDim], each target dimension is the binary64
    product [src * (maxDim / min)] truncated and rounded up to the next
    even number; the truncated product is within one of
    [floor (src * maxDim / min)], and not above it while [src * maxDim] is
    below [2 ^ 49].  In every other case the target size is the source size
    and no resize is needed.  r3d-tool's target size is the same when the
    short edge fits [int]. *)
Theorem C1_target_size_in_double_arithmetic (undef : IEEE.float -> Z)
        (srcW srcH maxDim : Z) :
  1 <= srcW <= CInt.UINT32_MAX -> 1 <= srcH <= CInt.UINT32_MAX ->
  CInt.INT_MIN <= maxDim <= CInt.INT_MAX ->
  Spec.computed_target_size srcW srcH maxDim (Braw.WriteJPEG_dst undef srcW srcH maxDim)
  /\
  ((0 <? maxDim) && (maxDim <? Z.min srcW srcH) = false ->
   Braw.needsResize undef srcW srcH maxDim = false)
  /\
  (Z.min srcW srcH <= CInt.INT_MAX ->
   Spec.computed_target_size srcW srcH maxDim
                             (R3d.writeBGRAasJPEG_out undef srcW srcH maxDim)).
Proof.
  intros Hw Hh Hm.
  pose proof (braw_dst_cases undef srcW srcH maxDim ltac:(lia) ltac:(lia) Hm) as Hb.
  cbv zeta in Hb.
  split; [|split].
  - unfold Spec.computed_target_size.
    destruct ((0 <? maxDim) && (maxDim <? Z.min srcW srcH)); [|exact Hb].
    destruct Hb as [tw [th [Ew [Eh [Eb [_ [_ [Qw Qh]]]]]]]].
    exists tw, th. auto.
  - intros Hc. rewrite Hc in Hb. unfold Braw.needsResize. rewrite Hb.
    rewrite !Z.eqb_refl. reflexivity.
  - intros Hshort.
    pose proof (r3d_out_cases undef srcW srcH maxDim
                  ltac:(unfold CInt.UINT32_MAX, CInt.SIZE_MAX in *; lia)
                  ltac:(unfold CInt.UINT32_MAX, CInt.SIZE_MAX in *; lia) Hm) as Hr.
    cbv zeta in Hr.
    rewrite (int32_small (Z.min srcW srcH)) in Hr by lia.
    unfold Spec.computed_target_size.
    destruct ((0 <? maxDim) && (maxDim <? Z.min srcW srcH)); [|exact Hr].
    destruct Hr as [tw [th [Ew [Eh [Er [_ [_ [Qw Qh]]]]]]]].
    exists tw, th.
    assert (H49 : 2 ^ 32 <= 2 ^ 49) by lia.
    unfold CInt.UINT32_MAX in Hw, Hh.
    split; [exact Ew|]. split; [exact Eh|]. split; [exact Er|].
    split; [apply Qw|apply Qh]; lia.
Qed.

(** C1 at a 1920x1080 frame with [maxDim] 512. *)
Lemma C1_witness_hd_frame :
  Spec.computed_target_size 1920 1080 512 (Braw.WriteJPEG_dst Samples.undef 1920 1080 512)
  /\ Spec.computed_target_size 1920 1080 512
       (R3d.writeBGRAasJPEG_out Samples.undef 1920 1080 512).
Proof.
  destruct (C1_target_size_in_double_arithmetic Samples.undef 1920 1080 512)
    as [Hb [_ Hr]]; try (unfold CInt.UINT32_MAX, CInt.INT_MIN, CInt.INT_MAX; lia).
  split; [exact Hb|apply Hr]. unfold CInt.INT_MAX. lia.
Defined.

(** C1 as worded fails where the double product falls just below an
    integer: for a 960x540 source and [maxDim] 385 the short edge is scaled
    to [540 * (385 / 540)], which is below 385 in binary64, so both tools
    give height 384 where the exact quotient rounded up to even is 386. *)
Lemma C1_counterexample_960x540_to_385 :
  Braw.WriteJPEG_dst Samples.undef 960 540 385 = (684, 384) /\
  R3d.writeBGRAasJPEG_out Samples.undef 960 540 385 = (684, 384) /\
  Spec.target_size 960 540 385 = (684, 386).
Proof. repeat split; vm_compute; reflexivity. Qed.

(** ** Audio samples to 16-bit PCM *)

Lemma one_f_value : R3d.one_f = S754_finite false 8388608 (- 23).
Proof. reflexivity. Qed.

Lemma minus_one_f_value : R3d.minus_one_f = S754_finite true 8388608 (- 23).
Proof. reflexivity. Qed.

Lemma full_scale_value : IEEE.single_of_Z 32767 = S754_finite false 16776704 (- 9).
Proof. reflexivity. Qed.

(** A valid binary32 mantissa has at most 24 digits. *)
Lemma valid_single_mantissa (sg : bool) (m : positive) (e : Z) :
  valid_binary IEEE.fprec IEEE.femax (S754_finite sg m e) = true ->
  Z.pos m < 2 ^ 24.
Proof.
  cbn [valid_binary]. unfold bounded, canonical_mantissa.
  intros H. apply andb_prop in H. destruct H as [H _].
  apply Z.eqb_eq in H.
  change (Z.pos (digits2_pos m)) with (Zdigits2 (Z.pos m)) in H.
  pose proof (Zdigits2_bounds (Z.pos m) ltac:(lia)) as [_ Hhi].
  assert (Hd : Zdigits2 (Z.pos m) <= 24).
  { unfold fexp, emin, IEEE.fprec, IEEE.femax in H. lia. }
  assert (2 ^ Zdigits2 (Z.pos m) <= 2 ^ 24)
    by (apply Z.pow_le_mono_r; [lia|exact Hd]).
  lia.
Qed.

(** Comparison of finite values of one sign, read on exponents and
    mantissas. *)
Lemma SFltb_positive_false (m1 m2 : positive) (e1 e2 : Z) :
  SFltb (S754_finite false m1 e1) (S754_finite false m2 e2) = false ->
  e2 <= e1 /\ (e1 = e2 -> Z.pos m2 <= Z.pos m1).
Proof.
  unfold SFltb, SFcompare.
  destruct (Z.compare_spec e1 e2) as [E|E|E]; try discriminate; [|lia].
  rewrite Pos.compare_cont_spec. cbn [Pos.switch_Eq].
  intros H. split; [lia|]. intros _.
  destruct (Pos.compare_spec m1 m2) as [E'|E'|E']; try discriminate; lia.
Qed.

Lemma SFltb_negative_false (m1 m2 : positive) (e1 e2 : Z) :
  SFltb (S754_finite true m1 e1) (S754_finite true m2 e2) = false ->
  e1 <= e2 /\ (e1 = e2 -> Z.pos m1 <= Z.pos m2).
Proof.
  unfold SFltb, SFcompare.
  destruct (Z.compare_spec e1 e2) as [E|E|E]; try discriminate; [|lia].
  rewrite Pos.compare_cont_spec. cbn [Pos.switch_Eq].
  intros H. split; [lia|]. intros _.
  destruct (Pos.compare_spec m1 m2) as [E'|E'|E']; cbn [CompOpp] in H;
    try discriminate; lia.
Qed.

(** A valid finite sample that passes both tests of the clamp has a
    magnitude of at most one. *)
Lemma within_unit (sg : bool) (m : positive) (e : Z) :
  valid_binary IEEE.fprec IEEE.femax (S754_finite sg m e) = true ->
  IEEE.gt (S754_finite sg m e) R3d.one_f = false ->
  IEEE.lt (S754_finite sg m e) R3d.minus_one_f = false ->
  e <= - 23 /\ Z.pos m <= 2 ^ (- e).
Proof.
  intros Hv Hgt Hlt.
  pose proof (valid_single_mantissa sg m e Hv) as Hm.
  rewrite one_f_value in Hgt. rewrite minus_one_f_value in Hlt.
  unfold IEEE.gt in Hgt. unfold IEEE.lt in Hlt.
  assert (He : e <= - 23 /\ (e = - 23 -> Z.pos m <= Z.pos 8388608)).
  { destruct sg.
    - apply SFltb_negative_false in Hlt. exact Hlt.
    - apply SFltb_positive_false in Hgt. destruct Hgt as [H1 H2].
      split; [exact H1|]. intros E. apply H2. symmetry. exact E. }
  destruct He as [He1 He2]. split; [exact He1|].
  destruct (Z.eq_dec e (- 23)) as [E|E].
  - rewrite E. change (2 ^ (- (- 23))) with (Z.pos 8388608). auto.
  - assert (2 ^ 24 <= 2 ^ (- e)) by (apply Z.pow_le_mono_r; lia). lia.
Qed.

(** Full scale times a sample of magnitude at most one stays within full
    scale. *)
Lemma fmul_full_scale (sg : bool) (m : positive) (e : Z) :
  e <= - 23 -> Z.pos m <= 2 ^ (- e) ->
  exists t,
    IEEE.trunc (IEEE.fmul (S754_finite sg m e) (IEEE.single_of_Z 32767)) = Some t /\
    - 32767 <= t <= 32767.
Proof.
  intros He Hm. rewrite full_scale_value.
  unfold IEEE.fmul. rewrite SFmul_finite. rewrite xorb_false_r.
  set (P := Z.pos m * Z.pos 16776704).
  set (ex := e + - 9).
  set (n := Z.max 0 (fexp IEEE.fprec IEEE.femax (Zdigits2 P + ex) - ex)).
  pose proof (pow2_pos (- e) ltac:(lia)) as Hpe.
  assert (HP0 : 0 <= P) by (subst P; lia).
  assert (HPhi : P <= 32767 * 2 ^ (- ex)).
  { subst P ex. replace (- (e + - 9)) with (9 + - e) by lia.
    rewrite (Z.pow_add_r 2 9 (- e)) by lia. change (2 ^ 9) with 512. lia. }
  assert (Hd : Zdigits2 P <= 24 - e).
  { apply Zdigits2_le_of_lt_pow; [lia|]. split; [lia|].
    subst P. replace (24 - e) with (24 + - e) by lia.
    rewrite (Z.pow_add_r 2 24 (- e)) by lia.
    change (2 ^ 24) with 16777216. lia. }
  assert (Hn : 0 <= n /\ ex + n <= 0).
  { subst n ex. unfold fexp, emin, IEEE.fprec, IEEE.femax. lia. }
  set (K := - (ex + n)).
  assert (Hpre : P + Round.inexact loc_Exact <= 32767 * 2 ^ K * 2 ^ n).
  { cbn [Round.inexact]. rewrite Z.add_0_r.
    rewrite <- Z.mul_assoc, <- Z.pow_add_r by (subst K; lia).
    replace (K + n) with (- ex) by (subst K; lia). exact HPhi. }
  destruct (binary_round_aux_bounds IEEE.fprec IEEE.femax ltac:(unfold IEEE.fprec; lia)
              sg P ex loc_Exact 0 (32767 * 2 ^ K) HP0 ltac:(lia) Hpre)
    as [m2 [e2 [Hres [He2 [Hlo Hhi]]]]].
  fold n in He2, Hlo, Hhi.
  subst P. rewrite Hres. unfold Round.pack.
  destruct m2 as [|M2|M2].
  - exists 0. split; [reflexivity|lia].
  - assert (Hfin : (e2 <=? IEEE.femax - IEEE.fprec) = true).
    { apply Z.leb_le. unfold IEEE.femax, IEEE.fprec. lia. }
    rewrite Hfin. cbn [IEEE.trunc].
    destruct (shiftl_enclosed (Z.pos M2) e2 K ltac:(lia) ltac:(subst K; lia)
                ltac:(subst K; lia)) as [Ht0 [Ht1 _]].
    replace (e2 - (ex + n)) with (e2 + K) in Hhi by (subst K; lia).
    pose proof (pow2_pos K ltac:(subst K; lia)) as HpK.
    assert (Ht : Z.shiftl (Z.pos M2) e2 <= 32767).
    { apply (Z.mul_le_mono_pos_r _ _ (2 ^ K) HpK). lia. }
    eexists. split; [reflexivity|]. destruct sg; lia.
  - exfalso. pose proof (pow2_pos (e2 - (ex + n)) ltac:(lia)). nia.
Qed.

Lemma to_signed_exact (undef : IEEE.float -> Z) (bits : Z) (x : IEEE.float) (t : Z) :
  IEEE.trunc x = Some t -> - 2 ^ (bits - 1) <= t < 2 ^ (bits - 1) ->
  IEEE.to_signed undef bits x = t.
Proof.
  intros Ht Hr. unfold IEEE.to_signed. rewrite Ht.
  destruct (Z.leb_spec (- 2 ^ (bits - 1)) t); [|lia].
  destruct (Z.ltb_spec t (2 ^ (bits - 1))); [|lia].
  reflexivity.
Qed.

(** No value is above one and below minus one. *)
Lemma not_above_and_below (s : IEEE.float) :
  IEEE.gt s R3d.one_f = true -> IEEE.lt s R3d.minus_one_f = true -> False.
Proof.
  rewrite one_f_value, minus_one_f_value.
  unfold IEEE.gt, IEEE.lt, SFltb, SFcompare.
  destruct s as [sg|sg| |sg m e]; try destruct sg; cbv beta iota;
    try discriminate; intros _ H; discriminate.
Qed.

Lemma clamp_constants :
  IEEE.lt R3d.one_f R3d.minus_one_f = false /\
  IEEE.gt R3d.one_f R3d.one_f = false /\
  IEEE.gt R3d.minus_one_f R3d.one_f = false /\
  IEEE.lt R3d.minus_one_f R3d.minus_one_f = false.
Proof. repeat split; vm_compute; reflexivity. Qed.

Lemma full_scale_products :
  IEEE.trunc (IEEE.fmul R3d.one_f (IEEE.single_of_Z 32767)) = Some 32767 /\
  IEEE.trunc (IEEE.fmul R3d.minus_one_f (IEEE.single_of_Z 32767)) = Some (- 32767).
Proof. split; vm_compute; reflexivity. Qed.

(** The clamp leaves a value that is neither above one nor below minus
    one, and changes nothing that is already there. *)
Lemma clamp_sample_cases (s : IEEE.float) :
  let c := R3d.clamp_sample s in
  IEEE.gt c R3d.one_f = false /\
  IEEE.lt c R3d.minus_one_f = false /\
  (IEEE.gt s R3d.one_f = true -> c = R3d.one_f) /\
  (IEEE.lt s R3d.minus_one_f = true -> c = R3d.minus_one_f) /\
  (IEEE.gt s R3d.one_f = false -> IEEE.lt s R3d.minus_one_f = false -> c = s).
Proof.
  cbv zeta. unfold R3d.clamp_sample.
  destruct clamp_constants as [C1 [C2 [C3 C4]]].
  destruct (IEEE.gt s R3d.one_f) eqn:Eg.
  - rewrite C1.
    split; [exact C2|]. split; [exact C1|]. split; [reflexivity|].
    split; [|discriminate].
    intros Hl. exfalso. exact (not_above_and_below s Eg Hl).
  - destruct (IEEE.lt s R3d.minus_one_f) eqn:El.
    + split; [exact C3|]. split; [exact C4|]. split; [discriminate|].
      split; [reflexivity|discriminate].
    + split; [exact Eg|]. split; [exact El|]. split; [discriminate|].
      split; [discriminate|reflexivity].
Qed.

Lemma pcm16_of_float_in_range (undef : IEEE.float -> Z) (s : IEEE.float) :
  valid_binary IEEE.fprec IEEE.femax s = true ->
  IEEE.is_nan s = false ->
  exists t,
    IEEE.trunc (IEEE.fmul (R3d.clamp_sample s) (IEEE.single_of_Z 32767)) = Some t /\
    R3d.pcm16_of_float undef s = t /\
    - 32767 <= t <= 32767.
Proof.
  intros Hv Hn.
  assert (H : exists t,
             IEEE.trunc (IEEE.fmul (R3d.clamp_sample s) (IEEE.single_of_Z 32767)) = Some t /\
             - 32767 <= t <= 32767).
  { destruct (clamp_sample_cases s) as [_ [_ [H1 [H2 H3]]]].
    destruct full_scale_products as [P1 P2].
    destruct (IEEE.gt s R3d.one_f) eqn:Eg.
    - rewrite (H1 eq_refl). exists 32767. split; [exact P1|lia].
    - destruct (IEEE.lt s R3d.minus_one_f) eqn:El.
      + rewrite (H2 eq_refl). exists (- 32767). split; [exact P2|lia].
      + rewrite (H3 eq_refl eq_refl).
        destruct s as [sg|sg| |sg m e].
        * exists 0. split; [reflexivity|lia].
        * exfalso. rewrite one_f_value in Eg. rewrite minus_one_f_value in El.
          destruct sg; [discriminate El|discriminate Eg].
        * discriminate.
        * destruct (within_unit sg m e Hv Eg El) as [He Hm].
          apply fmul_full_scale; assumption. }
  destruct H as [t [Et Hr]]. exists t.
  split; [exact Et|]. split; [|exact Hr].
  unfold R3d.pcm16_of_float. apply to_signed_exact; [exact Et|].
  change (2 ^ (16 - 1)) with 32768. lia.
Qed.

Lemma testbit_above (y n k : Z) :
  0 <= y < 2 ^ k -> 0 <= k <= n -> Z.testbit y n = false.
Proof.
  intros Hy Hk. apply Z.testbit_false; [lia|].
  rewrite Z.div_small; [reflexivity|].
  split; [lia|].
  apply Z.lt_le_trans with (2 ^ k); [lia|].
  apply Z.pow_le_mono_r; lia.
Qed.

(** The two leading bytes, joined, are the big-endian 16-bit number they
    spell. *)
Lemma lor_bytes (p0 p1 : Z) :
  0 <= p1 < 256 -> Z.lor (Z.shiftl p0 8) p1 = p0 * 256 + p1.
Proof.
  intros H1.
  assert (Hd : Z.land (Z.shiftl p0 8) p1 = 0).
  { apply Z.bits_inj'. intros n Hn.
    rewrite Z.land_spec, Z.bits_0.
    destruct (Z_lt_ge_dec n 8) as [Hlt|Hge].
    - rewrite Z.shiftl_spec_low by lia. reflexivity.
    - rewrite (testbit_above p1 n 8) by (change (2 ^ 8) with 256; lia).
      apply andb_false_r. }
  rewrite <- Z.lxor_lor by exact Hd.
  rewrite <- Z.add_nocarry_lxor by exact Hd.
  rewrite Z.shiftl_mul_pow2 by lia. reflexivity.
Qed.

Lemma convert_chunk_nth (undef : IEEE.float -> Z) (isFloat : bool) (totalValues : Z)
      (fbuf : nat -> IEEE.float) (raw : nat -> Z) (i : nat) :
  (i < Z.to_nat totalValues)%nat ->
  nth_error (R3d.convert_chunk undef isFloat totalValues fbuf raw) i
  = Some (if isFloat then R3d.pcm16_of_float undef (fbuf i)
          else R3d.pcm16_of_raw (raw (i * 4)%nat) (raw (i * 4 + 1)%nat)).
Proof.
  intros Hi. unfold R3d.convert_chunk.
  rewrite nth_error_map.
  assert (E : nth_error (seq 0 (Z.to_nat totalValues)) i = Some i).
  { rewrite nth_error_nth' with (d := 0%nat) by (rewrite length_seq; exact Hi).
    rewrite seq_nth by exact Hi. reflexivity. }
  rewrite E. reflexivity.
Qed.

(** C2, where the code departs from it: the clamp of a float sample is two
    comparisons, [s > 1.0f] and [s < -1.0f], and both are false for a NaN.
    A NaN sample is therefore not brought into [-1, 1]; its product with
    32767 is NaN, which has no truncated value, so the conversion to
    [int16_t] is not defined by the language and the output is whatever the
    platform's conversion delivers: 0 with the saturating conversion of the
    sample platform. *)
Theorem C2_nan_sample_passes_the_clamp :
  R3d.clamp_sample S754_nan = S754_nan /\
  IEEE.gt S754_nan R3d.one_f = false /\
  IEEE.lt S754_nan R3d.minus_one_f = false /\
  IEEE.trunc (IEEE.fmul (R3d.clamp_sample S754_nan) (IEEE.single_of_Z 32767)) = None /\
  (forall (undef : IEEE.float -> Z) (raw : nat -> Z),
      nth_error (R3d.convert_chunk undef true 1 (fun _ => S754_nan) raw) 0
      = Some (CInt.to_signed 16 (undef S754_nan))) /\
  R3d.pcm16_of_float Samples.undef S754_nan = 0.
Proof.
  repeat split; try (vm_compute; reflexivity).
Qed.

(** * Further properties of the code *)

(** ** [jsonEscape] *)

Lemma jsonEscape_cases (c : ascii) (r : string) :
  (exists d : ascii,
      R3d.jsonEscape (String c r) = String "092" (String d (R3d.jsonEscape r)) /\
      Reader.escaped d = c /\
      (d = "034" \/ d = "092" \/ d = "n" \/ d = "r" \/ d = "t")%char)
  \/
  (R3d.jsonEscape (String c r) = String c (R3d.jsonEscape r) /\
   Ascii.eqb c "034" = false /\ Ascii.eqb c "092" = false /\
   Ascii.eqb c "010" = false /\ Ascii.eqb c "013" = false /\
   Ascii.eqb c "009" = false).
Proof.
  cbn [R3d.jsonEscape].
  destruct (Ascii.eqb_spec c "034") as [->|H1].
  { left. exists "034"%char. repeat split; auto. }
  destruct (Ascii.eqb_spec c "092") as [->|H2].
  { left. exists "092"%char. repeat split; auto. }
  destruct (Ascii.eqb_spec c "010") as [->|H3].
  { left. exists "n"%char. repeat split; auto. }
  destruct (Ascii.eqb_spec c "013") as [->|H4].
  { left. exists "r"%char. repeat split; auto. }
  destruct (Ascii.eqb_spec c "009") as [->|H5].
  { left. exists "t"%char. repeat split; auto 6. }
  right. repeat split; reflexivity.
Qed.

(** X1: [jsonEscape] works character by character: the escape of a
    concatenation is the concatenation of the escapes. *)
Theorem X1_jsonEscape_distributes_over_append (a b : string) :
  R3d.jsonEscape (a ++ b) = (R3d.jsonEscape a ++ R3d.jsonEscape b)%string.
Proof.
  induction a as [|c r IH]; [reflexivity|].
  change (String c r ++ b)%string with (String c (r ++ b)).
  destruct (jsonEscape_cases c r) as [[d [E _]]|[E _]];
    destruct (jsonEscape_cases c (r ++ b)) as [[d' [E' _]]|[E' _]];
    cbn [R3d.jsonEscape] in *; rewrite IH; rewrite string_app_assoc; reflexivity.
Qed.

(** X2: nothing is lost in escaping: a reader that takes each backslash
    escape for the character it stands for gets the original string back,
    so different strings have different escapes. *)
Theorem X2_jsonEscape_reads_back :
  (forall s : string, Reader.unescape (R3d.jsonEscape s) = s) /\
  (forall a b : string, R3d.jsonEscape a = R3d.jsonEscape b -> a = b).
Proof.
  assert (H : forall s : string, Reader.unescape (R3d.jsonEscape s) = s).
  { induction s as [|c r IH]; [reflexivity|].
    destruct (jsonEscape_cases c r) as [[d [E [Hd _]]]|[E [_ [H2 _]]]]; rewrite E.
    - cbn [Reader.unescape]. change (Ascii.eqb "092" "092") with true. cbv iota.
      rewrite Hd, IH. reflexivity.
    - cbn [Reader.unescape]. rewrite H2, IH. reflexivity. }
  split; [exact H|].
  intros a b E. rewrite <- (H a), <- (H b), E. reflexivity.
Qed.

(** X3: an escaped string is safe between double quotes on one line: the
    scan for the closing quote passes over the whole escaped text and stops
    at the quote put after it, and the escaped text holds no newline,
    carriage return or tab. *)
Theorem X3_jsonEscape_stays_inside_its_quotes (s rest : string) :
  Reader.string_end (R3d.jsonEscape s ++ Libc.dquote ++ rest)
  = Some (R3d.jsonEscape s, rest) /\
  Reader.occurs "010" (R3d.jsonEscape s) = false /\
  Reader.occurs "013" (R3d.jsonEscape s) = false /\
  Reader.occurs "009" (R3d.jsonEscape s) = false.
Proof.
  induction s as [|c r [IH1 [IH2 [IH3 IH4]]]].
  - repeat split; reflexivity.
  - destruct (jsonEscape_cases c r) as [[d [E [Hd Hc]]]|[E [H1 [H2 [H3 [H4 H5]]]]]];
      rewrite E.
    + assert (Hn : Ascii.eqb "010" d = false /\ Ascii.eqb "013" d = false
                   /\ Ascii.eqb "009" d = false).
      { destruct Hc as [Hc|[Hc|[Hc|[Hc|Hc]]]]; rewrite Hc; repeat split; reflexivity. }
      destruct Hn as [N1 [N2 N3]].
      split.
      * change (String "092" (String d (R3d.jsonEscape r)) ++ Libc.dquote ++ rest)%string
          with (String "092" (String d (R3d.jsonEscape r ++ Libc.dquote ++ rest))).
        cbn [Reader.string_end].
        change (Ascii.eqb "092" "034") with false.
        change (Ascii.eqb "092" "092") with true. cbv iota.
        rewrite IH1. reflexivity.
      * cbn [Reader.occurs]. rewrite N1, N2, N3, IH2, IH3, IH4.
        repeat split; reflexivity.
    + split.
      * change (String c (R3d.jsonEscape r) ++ Libc.dquote ++ rest)%string
          with (String c (R3d.jsonEscape r ++ Libc.dquote ++ rest)).
        cbn [Reader.string_end]. rewrite H1, H2, IH1. reflexivity.
      * cbn [Reader.occurs].
        rewrite (Ascii.eqb_sym "010" c), (Ascii.eqb_sym "013" c), (Ascii.eqb_sym "009" c).
        rewrite H3, H4, H5, IH2, IH3, IH4. repeat split; reflexivity.
Qed.

(** ** What probe prints *)

Lemma occurs_app (c : ascii) (a b : string) :
  Reader.occurs c (a ++ b) = Reader.occurs c a || Reader.occurs c b.
Proof.
  induction a as [|d r IH]; [reflexivity|].
  cbn [append Reader.occurs]. rewrite IH. apply orb_assoc.
Qed.

Lemma digit_char_not_newline (k : nat) :
  (k < 10)%nat -> Ascii.eqb "010" (ascii_of_nat (48 + k)) = false.
Proof.
  intros H. do 10 (destruct k as [|k]; [reflexivity|]). lia.
Qed.

Lemma digits_fuel_no_newline (fuel : nat) (z : Z) (acc : string) :
  Reader.occurs "010" acc = false ->
  Reader.occurs "010" (Libc.digits_fuel fuel z acc) = false.
Proof.
  revert z acc. induction fuel as [|f IH]; intros z acc Hacc; [exact Hacc|].
  cbn [Libc.digits_fuel].
  assert (Hd : Reader.occurs "010"
                 (String (ascii_of_nat (48 + Z.to_nat (z mod 10))) acc) = false).
  { cbn [Reader.occurs]. rewrite Hacc, orb_false_r.
    apply digit_char_not_newline.
    pose proof (Z.mod_pos_bound z 10 ltac:(lia)). lia. }
  destruct (z / 10 =? 0); [exact Hd|apply IH; exact Hd].
Qed.

Lemma fmt_u_no_newline (z : Z) : Reader.occurs "010" (Libc.fmt_u z) = false.
Proof. apply digits_fuel_no_newline. reflexivity. Qed.

Lemma zeros_no_newline (n : nat) : Reader.occurs "010" (Libc.zeros n) = false.
Proof. induction n as [|n IH]; [reflexivity|exact IH]. Qed.

Lemma fmt_0u_no_newline (w : nat) (z : Z) :
  Reader.occurs "010" (Libc.fmt_0u w z) = false.
Proof.
  unfold Libc.fmt_0u. rewrite occurs_app, zeros_no_newline, fmt_u_no_newline.
  reflexivity.
Qed.

Lemma fmt_f_no_newline (digits : nat) (x : IEEE.float) :
  Reader.occurs "010" (Libc.fmt_f digits x) = false.
Proof.
  assert (Hfixed : forall scaled,
             Reader.occurs "010"
               (Libc.fmt_u (scaled / 10 ^ Z.of_nat digits) ++
                match digits with
                | O => EmptyString
                | _ => "." ++ Libc.fmt_0u digits (scaled mod 10 ^ Z.of_nat digits)
                end) = false).
  { intros scaled. rewrite occurs_app, fmt_u_no_newline.
    destruct digits; [reflexivity|].
    rewrite occurs_app, fmt_0u_no_newline. reflexivity. }
  assert (Hsign : forall s : bool,
             Reader.occurs "010" (if s then "-" else EmptyString) = false)
    by (intros [|]; reflexivity).
  unfold Libc.fmt_f. destruct x as [s|s| |s m e].
  - rewrite occurs_app, Hsign, Hfixed. reflexivity.
  - rewrite occurs_app, Hsign. reflexivity.
  - reflexivity.
  - rewrite occurs_app, Hsign, Hfixed. reflexivity.
Qed.

Lemma quoted_no_newline (v : string) :
  Reader.occurs "010" (Libc.quoted v) = Reader.occurs "010" v.
Proof.
  unfold Libc.quoted. rewrite !occurs_app.
  change (Reader.occurs "010" Libc.dquote) with false.
  rewrite orb_false_r. reflexivity.
Qed.

Lemma key_no_newline (k : string) :
  Reader.occurs "010" (Libc.key k) = Reader.occurs "010" k.
Proof.
  unfold Libc.key. rewrite occurs_app, quoted_no_newline.
  apply orb_false_r.
Qed.

Lemma jsonEscape_no_newline (s : string) :
  Reader.occurs "010" (R3d.jsonEscape s) = false.
Proof.
  induction s as [|c r IH]; [reflexivity|].
  destruct (jsonEscape_cases c r) as [[d [E [_ Hd]]]|[E [_ [_ [H3 _]]]]]; rewrite E.
  - cbn [Reader.occurs]. rewrite IH.
    destruct Hd as [Hd|[Hd|[Hd|[Hd|Hd]]]]; rewrite Hd; reflexivity.
  - cbn [Reader.occurs]. rewrite (Ascii.eqb_sym "010" c), H3, IH. reflexivity.
Qed.

(** Cutting a text at its first NUL adds no character to it. *)
Lemma c_str_keeps_absent (c : ascii) (s : string) :
  Reader.occurs c s = false -> Reader.occurs c (Libc.c_str s) = false.
Proof.
  induction s as [|a r IH]; [reflexivity|].
  cbn [Reader.occurs Libc.c_str]. intros H.
  apply orb_false_iff in H. destruct H as [Ha Hr].
  destruct (Ascii.eqb a "000"); [reflexivity|].
  cbn [Reader.occurs]. rewrite Ha, (IH Hr). reflexivity.
Qed.

(** [jsonEscape] neither makes nor removes a NUL: the escaped text is cut
    where the text is. *)
Lemma c_str_jsonEscape (s : string) :
  Libc.c_str (R3d.jsonEscape s) = R3d.jsonEscape (Libc.c_str s).
Proof.
  induction s as [|c r IH]; [reflexivity|].
  destruct (jsonEscape_cases c r) as [[d [E [Hc Hd]]]|[E [H1 [H2 [H3 [H4 H5]]]]]].
  - rewrite E.
    assert (Hnul : Ascii.eqb d "000" = false /\ Ascii.eqb c "000" = false).
    { subst c. destruct Hd as [->|[->|[->|[->| ->]]]]; split; reflexivity. }
    destruct Hnul as [Hd0 Hc0].
    cbn [Libc.c_str]. rewrite Hd0, Hc0.
    change (Ascii.eqb "092" "000") with false. cbv iota.
    rewrite IH.
    destruct (jsonEscape_cases c (Libc.c_str r))
      as [[d' [E' [Hc' Hd']]]|[E' [H1 [H2 [H3 [H4 H5]]]]]].
    + rewrite E'. f_equal. f_equal.
      subst c.
      destruct Hd as [->|[->|[->|[->| ->]]]];
        destruct Hd' as [->|[->|[->|[->| ->]]]];
        try reflexivity; discriminate Hc'.
    + exfalso. subst c.
      destruct Hd as [->|[->|[->|[->| ->]]]]; discriminate.
  - rewrite E. cbn [Libc.c_str].
    destruct (Ascii.eqb c "000"); [reflexivity|].
    rewrite IH.
    destruct (jsonEscape_cases c (Libc.c_str r))
      as [[d' [E' [Hc' Hd']]]|[E' _]]; [|rewrite E'; reflexivity].
    exfalso. subst c.
    destruct Hd' as [->|[->|[->|[->| ->]]]]; discriminate.
Qed.

Lemma c_str_jsonEscape_no_newline (s : string) :
  Reader.occurs "010" (Libc.c_str (R3d.jsonEscape s)) = false.
Proof. apply c_str_keeps_absent, jsonEscape_no_newline. Qed.

Lemma one_line_cons (a rest : string) :
  Reader.occurs "010" a = false ->
  (exists line, rest = (line ++ Libc.newline)%string /\
                Reader.occurs "010" line = false) ->
  exists line, (a ++ rest)%string = (line ++ Libc.newline)%string /\
               Reader.occurs "010" line = false.
Proof.
  intros Ha [line [-> Hl]]. exists (a ++ line)%string. split.
  - symmetry. apply string_app_assoc.
  - rewrite occurs_app, Ha, Hl. reflexivity.
Qed.

Lemma one_line_end :
  exists line, Libc.newline = (line ++ Libc.newline)%string /\
               Reader.occurs "010" line = false.
Proof. exists EmptyString. split; reflexivity. Qed.

(** Rewriting for strings without a newline. *)
Ltac no_newline :=
  repeat first
    [ rewrite occurs_app
    | rewrite key_no_newline
    | rewrite quoted_no_newline
    | rewrite fmt_u_no_newline
    | rewrite fmt_f_no_newline
    | rewrite c_str_jsonEscape_no_newline
    | rewrite jsonEscape_no_newline ];
  try reflexivity.

Ltac one_line :=
  repeat match goal with
         | |- exists line, (?a ++ ?r)%string = _ /\ _ =>
             apply (one_line_cons a r); [no_newline|]
         end;
  apply one_line_end.

(** X4: probe prints exactly one line, in both tools: a run either fails
    with code 1 and prints nothing, or succeeds with code 0 and prints text
    whose only newline is its last character, whatever strings the SDK
    reports for codec and camera. *)
Theorem X4_probe_prints_one_line :
  (forall (sdk : Braw.Sdk) (filePath : string),
      let run := Braw.CmdProbe sdk filePath in
      (Platform.exit_code run = 1 /\ Platform.stdout run = EmptyString) \/
      (Platform.exit_code run = 0 /\
       exists line, Platform.stdout run = (line ++ Libc.newline)%string /\
                    Reader.occurs "010" line = false))
  /\
  (forall (sdk : R3d.Sdk) (filePath : string),
      let run := R3d.cmd_probe sdk filePath in
      (Platform.exit_code run = 1 /\ Platform.stdout run = EmptyString) \/
      (Platform.exit_code run = 0 /\
       exists line, Platform.stdout run = (line ++ Libc.newline)%string /\
                    Reader.occurs "010" line = false)).
Proof.
  split.
  - intros sdk filePath run. subst run. unfold Braw.CmdProbe.
    destruct (Braw.CreateFactory sdk); cbn [negb]; [|left; split; reflexivity].
    destruct (Braw.is_ok (Braw.hr_CreateCodec sdk)); cbn [negb];
      [|left; split; reflexivity].
    destruct (Braw.OpenClip sdk filePath) as [hr clip].
    destruct (Braw.is_ok hr); cbn [negb]; [|left; split; reflexivity].
    right.
    destruct (Braw.QueryInterface_audio clip) as [hr2 [audio|]];
      [destruct (Braw.is_ok hr2)|]; cbv beta iota zeta;
      cbn [Platform.stdout Platform.exit_code Braw.exit_with];
      (split; [reflexivity|]).
    + destruct (0 <? Braw.out 0 (Braw.GetAudioChannelCount audio)); one_line.
    + one_line.
    + one_line.
  - intros sdk filePath run. subst run. unfold R3d.cmd_probe.
    destruct (R3d.LoadFrom sdk filePath) as [[|code] clip];
      [|left; split; reflexivity].
    right. split; [reflexivity|].
    cbn [Platform.stdout R3d.exit_with].
    one_line.
Qed.

(** X5: braw-tool's probe reports audio consistently: [hasAudio] is [true]
    exactly when the channel count it prints is positive, and a clip whose
    audio interface is not available is reported with [hasAudio] false and
    zero channels, sample rate and bit depth. *)
Theorem X5_braw_probe_audio_members :
  forall (sdk : Braw.Sdk) (filePath : string) (hr : Braw.HRESULT) (clip : Braw.Clip),
    Braw.CreateFactory sdk = true ->
    Braw.is_ok (Braw.hr_CreateCodec sdk) = true ->
    Braw.OpenClip sdk filePath = (hr, clip) ->
    Braw.is_ok hr = true ->
    exists (head : list (string * string)) (hasAudio : bool) (ch sr bd : Z),
      Braw.CmdProbe sdk filePath =
      Braw.exit_with 0
        (Spec.json_object
           (head ++
            [("codec", Libc.quoted "braw");
             ("hasAudio", if hasAudio then "true" else "false");
             ("audioChannels", Libc.fmt_u ch);
             ("audioSampleRate", Libc.fmt_u sr);
             ("audioBitDepth", Libc.fmt_u bd)]%string)
         ++ Libc.newline)%string /\
      List.map fst head = ["width"; "height"; "fps"; "frameCount"; "duration"]%string /\
      (hasAudio = true <-> 0 < ch) /\
      ((Braw.is_ok (fst (Braw.QueryInterface_audio clip)) = false \/
        snd (Braw.QueryInterface_audio clip) = None) ->
       hasAudio = false /\ ch = 0 /\ sr = 0 /\ bd = 0) /\
      (forall audio,
          Braw.is_ok (fst (Braw.QueryInterface_audio clip)) = true ->
          snd (Braw.QueryInterface_audio clip) = Some audio ->
          ch = Braw.out 0 (Braw.GetAudioChannelCount audio) /\
          sr = Braw.out 0 (Braw.GetAudioSampleRate audio) /\
          bd = Braw.out 0 (Braw.GetAudioBitDepth audio)).
Proof.
  intros sdk filePath hr clip Hf Hc Ho Hhr.
  set (au :=
         match Braw.QueryInterface_audio clip with
         | (hr, Some audio) =>
             if Braw.is_ok hr then
               let ch := Braw.out 0 (Braw.GetAudioChannelCount audio) in
               (ch, Braw.out 0 (Braw.GetAudioSampleRate audio),
                Braw.out 0 (Braw.GetAudioBitDepth audio), 0 <? ch)
             else (0, 0, 0, false)
         | (_, None) => (0, 0, 0, false)
         end).
  exists [("width", Libc.fmt_u (Braw.out 0 (Braw.GetWidth clip)));
          ("height", Libc.fmt_u (Braw.out 0 (Braw.GetHeight clip)));
          ("fps", Libc.fmt_f 4 (IEEE.double_of_single
                                  (Braw.out Braw.zero (Braw.GetFrameRate clip))));
          ("frameCount", Libc.fmt_u (Braw.out 0 (Braw.GetFrameCount clip)));
          ("duration",
           Libc.fmt_f 4 (Braw.probe_duration
                           (Braw.out Braw.zero (Braw.GetFrameRate clip))
                           (Braw.out 0 (Braw.GetFrameCount clip))))]%string.
  exists (snd au), (fst (fst (fst au))), (snd (fst (fst au))), (snd (fst au)).
  split.
  { unfold Braw.CmdProbe. rewrite Hf, Hc, Ho, Hhr. cbn [negb]. fold au.
    destruct au as [[[ch sr] bd] ha].
    unfold Spec.json_object.
    cbn [List.map List.app String.concat fst snd].
    string_atoms. rewrite !string_app_assoc. reflexivity. }
  split; [reflexivity|].
  subst au.
  destruct (Braw.QueryInterface_audio clip) as [hr2 [audio|]]; cbn [fst snd].
  - destruct (Braw.is_ok hr2) eqn:E2; cbn [fst snd].
    + split; [apply Z.ltb_lt|].
      split; [intros [H|H]; discriminate|].
      intros a _ Ha. injection Ha as <-. repeat split; reflexivity.
    + split; [split; [discriminate|lia]|].
      split; [intros _; repeat split; reflexivity|].
      intros a H. discriminate.
  - split; [split; [discriminate|lia]|].
    split; [intros _; repeat split; reflexivity|].
    intros a _ H. discriminate.
Qed.

(** X5 at the sample clip, whose audio interface reports two channels. *)
Lemma X5_witness_sample_clip :
  exists (head : list (string * string)) (hasAudio : bool) (ch sr bd : Z),
    Braw.CmdProbe Samples.braw_sdk "clip.braw" =
    Braw.exit_with 0
      (Spec.json_object
         (head ++
          [("codec", Libc.quoted "braw");
           ("hasAudio", if hasAudio then "true" else "false");
           ("audioChannels", Libc.fmt_u ch);
           ("audioSampleRate", Libc.fmt_u sr);
           ("audioBitDepth", Libc.fmt_u bd)]%string)
       ++ Libc.newline)%string /\
    hasAudio = true /\ ch = 2.
Proof.
  destruct (X5_braw_probe_audio_members Samples.braw_sdk "clip.braw"
              Braw.S_OK Samples.braw_clip eq_refl eq_refl eq_refl eq_refl)
    as [head [ha [ch [sr [bd [E [_ [Hha [_ Hv]]]]]]]]].
  exists head, ha, ch, sr, bd. split; [exact E|].
  destruct (Hv Samples.braw_audio_unreadable eq_refl eq_refl) as [Hch _].
  assert (E2 : ch = 2) by (rewrite Hch; reflexivity).
  split; [|exact E2]. apply Hha. lia.
Defined.

(** X6: r3d-tool's probe fills in what the clip's metadata lacks: the codec
    is ["REDCODE"] and the camera is empty when their items do not exist,
    the sample rate printed is 0 for a clip without audio channels and is
    never 0 for a clip with audio, 48000 standing in for a zero item.  Of
    the codec and of the camera the text before the first NUL is printed,
    escaped. *)
Theorem X6_r3d_probe_metadata_defaults :
  forall (sdk : R3d.Sdk) (filePath : string) (clip : R3d.Clip),
    R3d.LoadFrom sdk filePath = (R3d.LSClipLoaded, clip) ->
    exists (head : list (string * string)) (codec camera : string) (sampleRate : Z),
      R3d.cmd_probe sdk filePath =
      R3d.exit_with 0
        (Spec.json_object
           (head ++
            [("codec", Libc.quoted (R3d.jsonEscape (Libc.c_str codec)));
             ("audioChannels", Libc.fmt_u (R3d.AudioChannelCount clip));
             ("audioSampleRate", Libc.fmt_u sampleRate);
             ("camera", Libc.quoted (R3d.jsonEscape (Libc.c_str camera)))]%string)
         ++ Libc.newline)%string /\
      List.map fst head = ["width"; "height"; "fps"; "frameCount"; "duration"]%string /\
      codec = (if R3d.MetadataExists clip R3d.RMD_REDCODE
               then R3d.MetadataItemAsString clip R3d.RMD_REDCODE
               else "REDCODE"%string) /\
      camera = (if R3d.MetadataExists clip R3d.RMD_CAMERA_MODEL
                then R3d.MetadataItemAsString clip R3d.RMD_CAMERA_MODEL
                else EmptyString) /\
      (R3d.AudioChannelCount clip <= 0 -> sampleRate = 0) /\
      (0 < R3d.AudioChannelCount clip ->
       0 < sampleRate < 2 ^ 32 /\
       sampleRate =
       (if CInt.uint32_t (R3d.MetadataItemAsInt clip R3d.RMD_SAMPLERATE) =? 0
        then 48000
        else CInt.uint32_t (R3d.MetadataItemAsInt clip R3d.RMD_SAMPLERATE))).
Proof.
  intros sdk filePath clip Hl.
  exists [("width", Libc.fmt_u (R3d.Width clip));
          ("height", Libc.fmt_u (R3d.Height clip));
          ("fps", Libc.fmt_f 3 (IEEE.double_of_single (R3d.VideoAudioFramerate clip)));
          ("frameCount", Libc.fmt_u (R3d.VideoFrameCount clip));
          ("duration",
           Libc.fmt_f 3 (R3d.probe_duration (R3d.VideoAudioFramerate clip)
                                            (R3d.VideoFrameCount clip)))]%string.
  exists (if R3d.MetadataExists clip R3d.RMD_REDCODE
          then R3d.MetadataItemAsString clip R3d.RMD_REDCODE
          else "REDCODE"%string).
  exists (if R3d.MetadataExists clip R3d.RMD_CAMERA_MODEL
          then R3d.MetadataItemAsString clip R3d.RMD_CAMERA_MODEL
          else EmptyString).
  set (sr0 := if 0 <? R3d.AudioChannelCount clip
              then CInt.uint32_t (R3d.MetadataItemAsInt clip R3d.RMD_SAMPLERATE)
              else 0).
  exists (if (0 <? R3d.AudioChannelCount clip) && (sr0 =? 0) then 48000 else sr0).
  split.
  { unfold R3d.cmd_probe. rewrite Hl. fold sr0.
    rewrite !c_str_jsonEscape.
    unfold Spec.json_object.
    cbn [List.map List.app String.concat fst snd].
    string_atoms. rewrite !string_app_assoc. reflexivity. }
  split; [reflexivity|]. split; [reflexivity|]. split; [reflexivity|].
  subst sr0.
  pose proof (wrap_range 32 (R3d.MetadataItemAsInt clip R3d.RMD_SAMPLERATE) ltac:(lia))
    as Hr.
  fold (CInt.uint32_t (R3d.MetadataItemAsInt clip R3d.RMD_SAMPLERATE)) in Hr.
  destruct (Z.ltb_spec 0 (R3d.AudioChannelCount clip)) as [Hp|Hn]; cbn [andb].
  - split; [lia|]. intros _.
    destruct (Z.eqb_spec (CInt.uint32_t (R3d.MetadataItemAsInt clip R3d.RMD_SAMPLERATE)) 0);
      split; try reflexivity; lia.
  - split; [reflexivity|]. lia.
Qed.

(** X6 at the sample clip, which has neither audio nor metadata items. *)
Lemma X6_witness_sample_clip :
  exists head : list (string * string),
    R3d.cmd_probe Samples.r3d_sdk "clip.r3d" =
    R3d.exit_with 0
      (Spec.json_object
         (head ++
          [("codec", Libc.quoted "REDCODE");
           ("audioChannels", Libc.fmt_u 0);
           ("audioSampleRate", Libc.fmt_u 0);
           ("camera", Libc.quoted EmptyString)]%string)
       ++ Libc.newline)%string.
Proof.
  destruct (X6_r3d_probe_metadata_defaults Samples.r3d_sdk "clip.r3d"
              Samples.r3d_clip eq_refl)
    as [head [codec [camera [sr [E [_ [Hc [Hm [Hs _]]]]]]]]].
  exists head. rewrite E.
  rewrite Hc, Hm, (Hs ltac:(cbn; lia)). reflexivity.
Defined.

(** ** What a run leaves behind *)

(** A command of braw-tool other than extract-audio either fails without
    output or succeeds; it writes no file. *)
Lemma braw_CmdProbe_outcome (sdk : Braw.Sdk) (filePath : string) :
  let run := Braw.CmdProbe sdk filePath in
  Platform.written run = None /\
  ((Platform.exit_code run = 1 /\ Platform.stdout run = EmptyString) \/
   Platform.exit_code run = 0).
Proof.
  cbv zeta. unfold Braw.CmdProbe.
  destruct (Braw.CreateFactory sdk); cbn [negb];
    [|split; [reflexivity|left; split; reflexivity]].
  destruct (Braw.is_ok (Braw.hr_CreateCodec sdk)); cbn [negb];
    [|split; [reflexivity|left; split; reflexivity]].
  destruct (Braw.OpenClip sdk filePath) as [hr clip].
  destruct (Braw.is_ok hr); cbn [negb];
    [|split; [reflexivity|left; split; reflexivity]].
  destruct (Braw.QueryInterface_audio clip) as [hr2 [audio|]];
    [destruct (Braw.is_ok hr2)|]; split; try reflexivity; right; reflexivity.
Qed.

Lemma braw_CmdExtractFrame_outcome (undef : IEEE.float -> Z) (sdk : Braw.Sdk)
      (filePath : string) (timeSec : IEEE.float) (outputPath : string) (maxDim : Z) :
  let run := Braw.CmdExtractFrame undef sdk filePath timeSec outputPath maxDim in
  Platform.written run = None /\
  ((Platform.exit_code run = 1 /\ Platform.stdout run = EmptyString) \/
   Platform.exit_code run = 0).
Proof.
  cbv zeta. unfold Braw.CmdExtractFrame.
  destruct (Braw.CreateFactory sdk); cbn [negb];
    [|split; [reflexivity|left; split; reflexivity]].
  destruct (Braw.is_ok (Braw.hr_CreateCodec sdk)); cbn [negb];
    [|split; [reflexivity|left; split; reflexivity]].
  destruct (Braw.OpenClip sdk filePath) as [hr clip].
  destruct (Braw.is_ok hr); cbn [negb];
    [|split; [reflexivity|left; split; reflexivity]].
  split; [reflexivity|].
  cbn [Platform.exit_code Platform.stdout Braw.exit_with].
  match goal with
  | |- context [Braw.ExtractOneFrame ?u ?c ?f ?fps ?t ?o ?m] =>
      destruct (braw_ExtractOneFrame_exit u c f fps t o m) as [[E|E] _]; rewrite E
  end; [right; reflexivity|left; split; reflexivity].
Qed.

Lemma braw_CmdExtractFrames_outcome (undef : IEEE.float -> Z) (sdk : Braw.Sdk)
      (filePath timesJSON outputDir : string) (maxDim : Z) :
  let run := Braw.CmdExtractFrames undef sdk filePath timesJSON outputDir maxDim in
  Platform.written run = None /\
  ((Platform.exit_code run = 1 /\ Platform.stdout run = EmptyString) \/
   Platform.exit_code run = 0).
Proof.
  cbv zeta. unfold Braw.CmdExtractFrames.
  destruct (Braw.ParseTimesJSON timesJSON) as [|t ts];
    [split; [reflexivity|left; split; reflexivity]|].
  destruct (Braw.CreateFactory sdk); cbn [negb];
    [|split; [reflexivity|left; split; reflexivity]].
  destruct (Braw.is_ok (Braw.hr_CreateCodec sdk)); cbn [negb];
    [|split; [reflexivity|left; split; reflexivity]].
  destruct (Braw.OpenClip sdk filePath) as [hr clip].
  destruct (Braw.is_ok hr); cbn [negb];
    [|split; [reflexivity|left; split; reflexivity]].
  split; [reflexivity|right; reflexivity].
Qed.

(** extract-audio of braw-tool either fails without output and without a
    file, or succeeds and leaves a closed file. *)
Lemma braw_CmdExtractAudio_outcome (sdk : Braw.Sdk) (filePath outputPath : string) :
  let run := Braw.CmdExtractAudio sdk filePath outputPath in
  (Platform.exit_code run = 1 /\ Platform.stdout run = EmptyString /\
   Platform.written run = None) \/
  (Platform.exit_code run = 0 /\
   exists file, Platform.written run = Some file /\
                Platform.file_closed file = true).
Proof.
  cbv zeta. unfold Braw.CmdExtractAudio.
  destruct (Braw.CreateFactory sdk); cbn [negb];
    [|left; repeat split; reflexivity].
  destruct (Braw.is_ok (Braw.hr_CreateCodec sdk)); cbn [negb];
    [|left; repeat split; reflexivity].
  destruct (Braw.OpenClip sdk filePath) as [hr clip].
  destruct (Braw.is_ok hr); cbn [negb]; [|left; repeat split; reflexivity].
  destruct (Braw.QueryInterface_audio clip) as [hr2 [audio|]];
    [|left; repeat split; reflexivity].
  destruct (Braw.is_ok hr2); cbn [negb]; [|left; repeat split; reflexivity].
  destruct ((Braw.out 0 (Braw.GetAudioSampleCount audio) =? 0)
            || (Braw.out 0 (Braw.GetAudioChannelCount audio) =? 0));
    [left; repeat split; reflexivity|].
  destruct (Braw.fopen_wb sdk outputPath); cbn [negb];
    [|left; repeat split; reflexivity].
  right. split; [reflexivity|]. eexists. split; reflexivity.
Qed.

(** The same for r3d-tool. *)
Lemma r3d_cmd_probe_outcome (sdk : R3d.Sdk) (filePath : string) :
  let run := R3d.cmd_probe sdk filePath in
  Platform.written run = None /\
  ((Platform.exit_code run = 1 /\ Platform.stdout run = EmptyString) \/
   Platform.exit_code run = 0).
Proof.
  cbv zeta. unfold R3d.cmd_probe.
  destruct (R3d.LoadFrom sdk filePath) as [[|code] clip];
    [split; [reflexivity|right; reflexivity]
    |split; [reflexivity|left; split; reflexivity]].
Qed.

Lemma r3d_cmd_extract_frame_outcome (undef : IEEE.float -> Z) (sdk : R3d.Sdk)
      (filePath : string) (timeSec : IEEE.float) (outputPath : string) (maxDim : Z) :
  let run := R3d.cmd_extract_frame undef sdk filePath timeSec outputPath maxDim in
  Platform.written run = None /\
  ((Platform.exit_code run = 1 /\ Platform.stdout run = EmptyString) \/
   Platform.exit_code run = 0).
Proof.
  cbv zeta. unfold R3d.cmd_extract_frame.
  destruct (R3d.LoadFrom sdk filePath) as [[|code] clip];
    [|split; [reflexivity|left; split; reflexivity]].
  split; [reflexivity|].
  cbn [Platform.exit_code Platform.stdout R3d.exit_with].
  destruct (r3d_decodeFrame_exit undef sdk clip 0 timeSec outputPath maxDim)
    as [[E|E] _]; rewrite E; [right; reflexivity|left; split; reflexivity].
Qed.

Lemma r3d_cmd_extract_frames_outcome (undef : IEEE.float -> Z) (sdk : R3d.Sdk)
      (filePath timesJson outputDir : string) (maxDim : Z) :
  let run := R3d.cmd_extract_frames undef sdk filePath timesJson outputDir maxDim in
  Platform.written run = None /\
  ((Platform.exit_code run = 1 /\ Platform.stdout run = EmptyString) \/
   Platform.exit_code run = 0).
Proof.
  cbv zeta. unfold R3d.cmd_extract_frames.
  destruct (R3d.parse_timesJson timesJson) as [|t ts];
    [split; [reflexivity|left; split; reflexivity]|].
  destruct (R3d.LoadFrom sdk filePath) as [[|code] clip];
    [split; [reflexivity|right; reflexivity]
    |split; [reflexivity|left; split; reflexivity]].
Qed.

(** extract-audio of r3d-tool prints nothing.  It fails before it opens the
    output file; or fails after, and the closed file is a header with zero
    sizes; or succeeds and closes the file; or is aborted when the vector of
    16-bit samples cannot be constructed, with the file still open. *)
Lemma r3d_cmd_extract_audio_outcome (undef : IEEE.float -> Z) (sdk : R3d.Sdk)
      (filePath outputPath : string) :
  let run := R3d.cmd_extract_audio undef sdk filePath outputPath in
  Platform.stdout run = EmptyString /\
  ((Platform.exit_code run = 1 /\ Platform.written run = None) \/
   (Platform.exit_code run = 1 /\
    exists file, Platform.written run = Some file /\
                 Platform.file_payload file = [] /\
                 R3d.dataSize (Platform.file_header file) = 0 /\
                 R3d.fileSize (Platform.file_header file) = 0 /\
                 Platform.file_closed file = true) \/
   (Platform.exit_code run = 0 /\
    exists file, Platform.written run = Some file /\
                 Platform.file_closed file = true) \/
   (Platform.exit_code run = Platform.SIGABRT_status /\
    Platform.vector_constructed
      2 (CInt.uint64_t
           (R3d.chunkSamples
            * R3d.AudioChannelCount (snd (R3d.LoadFrom sdk filePath)))) = false /\
    exists file, Platform.written run = Some file /\
                 Platform.file_payload file = [] /\
                 Platform.file_closed file = false)).
Proof.
  cbv zeta. unfold R3d.cmd_extract_audio.
  destruct (R3d.LoadFrom sdk filePath) as [[|code] clip];
    [|split; [reflexivity|left; split; reflexivity]].
  cbn [snd].
  destruct (R3d.AudioChannelCount clip =? 0);
    [split; [reflexivity|left; split; reflexivity]|].
  destruct (R3d.fopen_wb sdk outputPath); cbn [negb];
    [|split; [reflexivity|left; split; reflexivity]].
  destruct (R3d.alloc_ok sdk 512 _); cbn [negb].
  - destruct (Platform.vector_constructed 2 _) eqn:Hvec; cbn [negb].
    + match goal with
      | |- context [R3d.decode_audio ?u ?f ?c ?i ?ch ?t ?d ?b] =>
          destruct (R3d.decode_audio u f c i ch t d b) as [payload dataBytes]
      end.
      split; [reflexivity|]. right. right. left. split; [reflexivity|].
      eexists. split; reflexivity.
    + split; [reflexivity|]. right. right. right. split; [reflexivity|].
      split; [reflexivity|]. eexists. repeat split; reflexivity.
  - split; [reflexivity|]. right. left. split; [reflexivity|].
    eexists. repeat split; reflexivity.
Qed.

(** [--max-dim] is looked for from index [i] on, and found before the last
    argument at an index from [i]. *)
Lemma find_max_dim_index (rest : list string) :
  forall (i : nat) (v : Z) (k : nat),
    Braw.find_max_dim i rest = Some (v, k) ->
    (i <= k /\ k + 1 < i + List.length rest)%nat /\
    nth (k - i) rest EmptyString = "--max-dim"%string /\
    v = Libc.atoi (nth (k - i + 1) rest EmptyString) /\
    forall j, (j < k - i)%nat -> nth j rest EmptyString <> "--max-dim"%string.
Proof.
  induction rest as [|a tl IH]; intros i v k H; [discriminate|].
  destruct tl as [|b tl']; [discriminate|].
  cbn [Braw.find_max_dim] in H.
  unfold Libc.strcmp_eq in H.
  destruct (String.eqb_spec a "--max-dim") as [Ea|Ea].
  - injection H as <- <-. rewrite Nat.sub_diag. cbn [nth Nat.add List.length].
    split; [lia|]. split; [exact Ea|]. split; [reflexivity|].
    intros j Hj. lia.
  - destruct (IH (S i) v k H) as [[H1 H2] [H3 [H4 H5]]].
    cbn [List.length] in *.
    split; [lia|].
    replace (k - i)%nat with (S (k - S i)) by lia.
    cbn [nth Nat.add]. split; [exact H3|]. split; [exact H4|].
    intros [|j] Hj; [exact Ea|]. cbn [nth]. apply H5. lia.
Qed.

(** The dispatch of braw-tool's [main]: a usage error, or one command. *)
Lemma braw_main_dispatch (undef : IEEE.float -> Z) (sdk : Braw.Sdk)
      (argv : list string) :
  let run := Braw.main undef sdk argv in
  let cmd := nth 1 argv EmptyString in
  run = Braw.exit_with 1 EmptyString \/
  (cmd = "probe"%string /\ (3 <= List.length argv)%nat /\
   run = Braw.CmdProbe sdk (nth 2 argv EmptyString)) \/
  (cmd = "extract-frame"%string /\ (5 <= List.length argv)%nat /\
   exists maxDim,
     run = Braw.CmdExtractFrame undef sdk (nth 2 argv EmptyString)
                                (Libc.atof (nth 3 argv EmptyString))
                                (nth 4 argv EmptyString) maxDim) \/
  (cmd = "extract-frames"%string /\ (5 <= List.length argv)%nat /\
   exists maxDim,
     run = Braw.CmdExtractFrames undef sdk (nth 2 argv EmptyString)
                                 (nth 3 argv EmptyString)
                                 (nth 4 argv EmptyString) maxDim) \/
  (cmd = "extract-audio"%string /\ (4 <= List.length argv)%nat /\
   run = Braw.CmdExtractAudio sdk (nth 2 argv EmptyString) (nth 3 argv EmptyString)).
Proof.
  cbv zeta. unfold Braw.main.
  destruct (Nat.ltb_spec (List.length argv) 3) as [Hlt|Hge]; [left; reflexivity|].
  assert (Heff : exists maxDim effectiveArgc,
             match Braw.find_max_dim 3 (skipn 3 argv) with
             | Some r => r
             | None => (512, List.length argv)
             end = (maxDim, effectiveArgc) /\
             (effectiveArgc <= List.length argv)%nat).
  { destruct (Braw.find_max_dim 3 (skipn 3 argv)) as [[v k]|] eqn:E.
    - exists v, k. split; [reflexivity|].
      destruct (find_max_dim_index _ _ _ _ E) as [[H1 H2] _].
      rewrite length_skipn in H2. lia.
    - exists 512, (List.length argv). split; [reflexivity|lia]. }
  destruct Heff as [maxDim [eff [-> Heff]]].
  unfold Libc.strcmp_eq.
  destruct (String.eqb_spec (nth 1 argv EmptyString) "probe") as [E1|E1].
  { destruct (Nat.leb_spec 3 eff); cbn [andb].
    - right; left. split; [exact E1|]. split; [lia|reflexivity].
    - rewrite E1. cbn. left. reflexivity. }
  cbn [andb].
  destruct (String.eqb_spec (nth 1 argv EmptyString) "extract-frame") as [E2|E2].
  { destruct (Nat.leb_spec 5 eff); cbn [andb].
    - right; right; left. split; [exact E2|]. split; [lia|].
      exists maxDim. reflexivity.
    - rewrite E2. cbn. left. reflexivity. }
  cbn [andb].
  destruct (String.eqb_spec (nth 1 argv EmptyString) "extract-frames") as [E3|E3].
  { destruct (Nat.leb_spec 5 eff); cbn [andb].
    - right; right; right; left. split; [exact E3|]. split; [lia|].
      exists maxDim. reflexivity.
    - rewrite E3. cbn. left. reflexivity. }
  cbn [andb].
  destruct (String.eqb_spec (nth 1 argv EmptyString) "extract-audio") as [E4|E4].
  { destruct (Nat.leb_spec 4 eff); cbn [andb].
    - right; right; right; right. split; [exact E4|]. split; [lia|reflexivity].
    - left. reflexivity. }
  left. reflexivity.
Qed.

(** The dispatch of r3d-tool's [main]. *)
Lemma r3d_main_dispatch (undef : IEEE.float -> Z) (sdk : R3d.Sdk)
      (argv : list string) :
  let run := R3d.main undef sdk argv in
  let cmd := nth 1 argv EmptyString in
  run = R3d.exit_with 1 EmptyString \/
  (cmd = "probe"%string /\ (3 <= List.length argv)%nat /\
   run = R3d.cmd_probe sdk (nth 2 argv EmptyString)) \/
  (cmd = "extract-frame"%string /\ (5 <= List.length argv)%nat /\
   run = R3d.cmd_extract_frame undef sdk (nth 2 argv EmptyString)
                               (Libc.atof (nth 3 argv EmptyString))
                               (nth 4 argv EmptyString)
                               (R3d.parseMaxDim (skipn 5 argv))) \/
  (cmd = "extract-frames"%string /\ (5 <= List.length argv)%nat /\
   run = R3d.cmd_extract_frames undef sdk (nth 2 argv EmptyString)
                                (nth 3 argv EmptyString)
                                (nth 4 argv EmptyString)
                                (R3d.parseMaxDim (skipn 5 argv))) \/
  (cmd = "extract-audio"%string /\ (4 <= List.length argv)%nat /\
   run = R3d.cmd_extract_audio undef sdk (nth 2 argv EmptyString)
                               (nth 3 argv EmptyString)).
Proof.
  cbv zeta. unfold R3d.main.
  destruct (Nat.ltb_spec (List.length argv) 2) as [Hlt|Hge]; [left; reflexivity|].
  destruct (R3d.InitializeSdk sdk) as [|code]; [|left; reflexivity].
  unfold Libc.strcmp_eq.
  destruct (String.eqb_spec (nth 1 argv EmptyString) "probe") as [E1|E1].
  { destruct (Nat.leb_spec 3 (List.length argv)); cbn [andb].
    - right; left. split; [exact E1|]. split; [lia|reflexivity].
    - rewrite E1. cbn. left. reflexivity. }
  cbn [andb].
  destruct (String.eqb_spec (nth 1 argv EmptyString) "extract-frame") as [E2|E2].
  { destruct (Nat.leb_spec 5 (List.length argv)); cbn [andb].
    - right; right; left. split; [exact E2|]. split; [lia|reflexivity].
    - rewrite E2. cbn. left. reflexivity. }
  cbn [andb].
  destruct (String.eqb_spec (nth 1 argv EmptyString) "extract-frames") as [E3|E3].
  { destruct (Nat.leb_spec 5 (List.length argv)); cbn [andb].
    - right; right; right; left. split; [exact E3|]. split; [lia|reflexivity].
    - rewrite E3. cbn. left. reflexivity. }
  cbn [andb].
  destruct (String.eqb_spec (nth 1 argv EmptyString) "extract-audio") as [E4|E4].
  { destruct (Nat.leb_spec 4 (List.length argv)); cbn [andb].
    - right; right; right; right. split; [exact E4|]. split; [lia|reflexivity].
    - left. reflexivity. }
  left. reflexivity.
Qed.

(** What every run of braw-tool comes to. *)
Lemma braw_main_outcome (undef : IEEE.float -> Z) (sdk : Braw.Sdk)
      (argv : list string) :
  let run := Braw.main undef sdk argv in
  (Platform.exit_code run = 1 /\ Platform.stdout run = EmptyString /\
   Platform.written run = None) \/
  (Platform.exit_code run = 0 /\
   (Platform.written run = None \/
    (nth 1 argv EmptyString = "extract-audio"%string /\
     exists file, Platform.written run = Some file /\
                  Platform.file_closed file = true))).
Proof.
  cbv zeta.
  destruct (braw_main_dispatch undef sdk argv)
    as [E|[[_ [_ E]]|[[_ [_ [m E]]]|[[_ [_ [m E]]]|[Ec [_ E]]]]]]; rewrite E.
  - left. repeat split; reflexivity.
  - destruct (braw_CmdProbe_outcome sdk (nth 2 argv EmptyString)) as [W [[X S]|X]];
      [left|right]; auto.
  - destruct (braw_CmdExtractFrame_outcome undef sdk (nth 2 argv EmptyString)
                (Libc.atof (nth 3 argv EmptyString)) (nth 4 argv EmptyString) m)
      as [W [[X S]|X]]; [left|right]; auto.
  - destruct (braw_CmdExtractFrames_outcome undef sdk (nth 2 argv EmptyString)
                (nth 3 argv EmptyString) (nth 4 argv EmptyString) m)
      as [W [[X S]|X]]; [left|right]; auto.
  - destruct (braw_CmdExtractAudio_outcome sdk (nth 2 argv EmptyString)
                (nth 3 argv EmptyString)) as [[X [S W]]|[X F]]; [left|right]; auto.
Qed.

(** What every run of r3d-tool comes to. *)
Lemma r3d_main_outcome (undef : IEEE.float -> Z) (sdk : R3d.Sdk)
      (argv : list string) :
  let run := R3d.main undef sdk argv in
  ((Platform.exit_code run = 1 /\ Platform.stdout run = EmptyString) \/
   Platform.exit_code run = 0 \/
   (Platform.exit_code run = Platform.SIGABRT_status /\
    Platform.stdout run = EmptyString /\
    nth 1 argv EmptyString = "extract-audio"%string /\
    Platform.vector_constructed
      2 (CInt.uint64_t
           (R3d.chunkSamples
            * R3d.AudioChannelCount
                (snd (R3d.LoadFrom sdk (nth 2 argv EmptyString))))) = false)) /\
  (forall file,
      Platform.written run = Some file ->
      Setup.r3d_file_left (nth 1 argv EmptyString) (Platform.exit_code run) file).
Proof.
  cbv zeta.
  assert (Hnone : forall (run : R3d.Result),
             Platform.written run = None ->
             forall file,
               Platform.written run = Some file ->
               Setup.r3d_file_left (nth 1 argv EmptyString) (Platform.exit_code run) file).
  { intros run W file H. rewrite W in H. discriminate. }
  destruct (r3d_main_dispatch undef sdk argv)
    as [E|[[_ [_ E]]|[[_ [_ E]]|[[_ [_ E]]|[Ec [_ E]]]]]]; rewrite E.
  - split; [left; split; reflexivity|]. apply Hnone. reflexivity.
  - destruct (r3d_cmd_probe_outcome sdk (nth 2 argv EmptyString)) as [W X].
    split; [tauto|apply Hnone; exact W].
  - match goal with
    | |- context [R3d.cmd_extract_frame ?u ?s ?f ?t ?o ?m] =>
        destruct (r3d_cmd_extract_frame_outcome u s f t o m) as [W X]
    end.
    split; [tauto|apply Hnone; exact W].
  - match goal with
    | |- context [R3d.cmd_extract_frames ?u ?s ?f ?t ?o ?m] =>
        destruct (r3d_cmd_extract_frames_outcome u s f t o m) as [W X]
    end.
    split; [tauto|apply Hnone; exact W].
  - destruct (r3d_cmd_extract_audio_outcome undef sdk (nth 2 argv EmptyString)
                (nth 3 argv EmptyString))
      as [S [[X W]|[[X [f [W [P [D [F C]]]]]]|[[X [f [W C]]]|[X [V [f [W [P C]]]]]]]]].
    + split; [left; split; assumption|]. apply Hnone. exact W.
    + split; [left; split; assumption|].
      intros file H. rewrite W in H. injection H as <-.
      split; [exact Ec|]. rewrite X. unfold Platform.SIGABRT_status.
      split; [intros _; repeat split; assumption|].
      split; intros X1; discriminate X1.
    + split; [right; left; exact X|].
      intros file H. rewrite W in H. injection H as <-.
      split; [exact Ec|]. rewrite X. unfold Platform.SIGABRT_status.
      split; [intros X1; discriminate X1|].
      split; [intros _; assumption|intros X1; discriminate X1].
    + split; [right; right; repeat split; assumption|].
      intros file H. rewrite W in H. injection H as <-.
      split; [exact Ec|]. rewrite X. unfold Platform.SIGABRT_status.
      split; [intros X1; discriminate X1|].
      split; [intros X1; discriminate X1|].
      intros _. split; assumption.
Qed.

(** braw-tool's read buffer is always constructed. *)
Lemma braw_buffer_constructed (channelCount bitDepth : Z) :
  Platform.vector_constructed
    1 (CInt.uint32_t (CInt.uint32_t (Braw.kMaxSamples * channelCount) * bitDepth) / 8)
  = true.
Proof.
  unfold Platform.vector_constructed, Platform.PTRDIFF_MAX, CInt.uint32_t, CInt.wrap.
  apply Z.leb_le.
  pose proof (Z.mod_pos_bound ((Braw.kMaxSamples * channelCount) mod 2 ^ 32 * bitDepth)
                              (2 ^ 32) ltac:(lia)) as H.
  assert (H8 : ((Braw.kMaxSamples * channelCount) mod 2 ^ 32 * bitDepth) mod 2 ^ 32 / 8
               <= 2 ^ 32).
  { apply Z.div_le_upper_bound; lia. }
  lia.
Qed.

(** The vector of 16-bit samples of one chunk is constructed for every
    channel count below 96076792050571. *)
Lemma r3d_out16_constructed (channels : Z) :
  0 <= channels < 96076792050571 ->
  Platform.vector_constructed
    2 (CInt.uint64_t (R3d.chunkSamples * channels)) = true.
Proof.
  intros H. unfold Platform.vector_constructed, Platform.PTRDIFF_MAX,
              R3d.chunkSamples, CInt.uint64_t, CInt.wrap.
  apply Z.leb_le. rewrite Z.mod_small; lia.
Qed.


(** X8: a run of either tool that exits with code 1 has printed nothing on
    standard output; what a caller reads there comes from a run that exited
    with code 0. *)
Theorem X8_failed_run_prints_nothing (undef : IEEE.float -> Z) (argv : list string) :
  (forall sdk : Braw.Sdk,
      Platform.exit_code (Braw.main undef sdk argv) = 1 ->
      Platform.stdout (Braw.main undef sdk argv) = EmptyString)
  /\
  (forall sdk : R3d.Sdk,
      Platform.exit_code (R3d.main undef sdk argv) = 1 ->
      Platform.stdout (R3d.main undef sdk argv) = EmptyString).
Proof.
  split; intros sdk H.
  - destruct (braw_main_outcome undef sdk argv) as [[_ [S _]]|[X _]];
      [exact S|rewrite X in H; discriminate].
  - destruct (r3d_main_outcome undef sdk argv) as [[[_ S]|[X|[_ [S _]]]] _];
      [exact S|rewrite X in H; discriminate|exact S].
Qed.

(** X8 at a clip that cannot be opened. *)
Lemma X8_witness_clip_does_not_open :
  Platform.stdout
    (Braw.main Samples.undef Samples.braw_sdk_no_clip
               ["braw-tool"; "probe"; "clip.braw"]%string) = EmptyString
  /\
  Platform.stdout
    (R3d.main Samples.undef Samples.r3d_sdk_no_clip
              ["r3d-tool"; "probe"; "clip.r3d"]%string) = EmptyString.
Proof.
  split.
  - apply (proj1 (X8_failed_run_prints_nothing Samples.undef
                    ["braw-tool"; "probe"; "clip.braw"]%string)).
    reflexivity.
  - apply (proj2 (X8_failed_run_prints_nothing Samples.undef
                    ["r3d-tool"; "probe"; "clip.r3d"]%string)).
    reflexivity.
Defined.



(** ** Command lines *)

(** X10: a command line that names no command of the tool, or gives a
    command fewer arguments than it takes, is refused by either tool with
    exit code 1, nothing on standard output and no file, whatever the SDK
    would do. *)
Theorem X10_incomplete_command_line_is_refused (undef : IEEE.float -> Z)
        (argv : list string) :
  let cmd := nth 1 argv EmptyString in
  let argc := List.length argv in
  ((cmd <> "probe" /\ cmd <> "extract-frame" /\ cmd <> "extract-frames"
    /\ cmd <> "extract-audio")%string \/
   (cmd = "probe"%string /\ argc < 3)%nat \/
   (cmd = "extract-frame"%string /\ argc < 5)%nat \/
   (cmd = "extract-frames"%string /\ argc < 5)%nat \/
   (cmd = "extract-audio"%string /\ argc < 4)%nat) ->
  (forall sdk : Braw.Sdk, Braw.main undef sdk argv = Braw.exit_with 1 EmptyString) /\
  (forall sdk : R3d.Sdk, R3d.main undef sdk argv = R3d.exit_with 1 EmptyString).
Proof.
  intros cmd argc H.
  split; intros sdk.
  - destruct (braw_main_dispatch undef sdk argv)
      as [E|[[Ec [Hn E]]|[[Ec [Hn _]]|[[Ec [Hn _]]|[Ec [Hn _]]]]]];
      [exact E| | | |]; fold cmd in Ec; fold argc in Hn; exfalso;
      destruct H as [[H1 [H2 [H3 H4]]]|[[H1 H2]|[[H1 H2]|[[H1 H2]|[H1 H2]]]]];
      try congruence; try lia;
      rewrite Ec in H1; discriminate.
  - destruct (r3d_main_dispatch undef sdk argv)
      as [E|[[Ec [Hn E]]|[[Ec [Hn _]]|[[Ec [Hn _]]|[Ec [Hn _]]]]]];
      [exact E| | | |]; fold cmd in Ec; fold argc in Hn; exfalso;
      destruct H as [[H1 [H2 [H3 H4]]]|[[H1 H2]|[[H1 H2]|[[H1 H2]|[H1 H2]]]]];
      try congruence; try lia;
      rewrite Ec in H1; discriminate.
Qed.

(** X10 at a command that does not exist and at a probe without a file. *)
Lemma X10_witness_unknown_command :
  Braw.main Samples.undef Samples.braw_sdk ["braw-tool"; "transcode"; "clip.braw"]%string
  = Braw.exit_with 1 EmptyString
  /\
  R3d.main Samples.undef Samples.r3d_sdk ["r3d-tool"; "probe"]%string
  = R3d.exit_with 1 EmptyString.
Proof.
  split.
  - apply (X10_incomplete_command_line_is_refused Samples.undef
             ["braw-tool"; "transcode"; "clip.braw"]%string).
    left. repeat split; discriminate.
  - apply (X10_incomplete_command_line_is_refused Samples.undef
             ["r3d-tool"; "probe"]%string).
    right. left. split; [reflexivity|cbn; lia].
Defined.

(** The two scans for [--max-dim] read the same value off the same
    arguments. *)
Lemma find_max_dim_parseMaxDim (rest : list string) (i : nat) :
  match Braw.find_max_dim i rest with
  | Some (v, _) => v = R3d.parseMaxDim rest
  | None => R3d.parseMaxDim rest = 512
  end.
Proof.
  revert i. induction rest as [|a tl IH]; intros i; [reflexivity|].
  destruct tl as [|b tl']; [reflexivity|].
  cbn [Braw.find_max_dim R3d.parseMaxDim].
  destruct (Libc.strcmp_eq a "--max-dim"); [reflexivity|].
  exact (IH (S i)).
Qed.

(** What [parseMaxDim] returns: the number after the first [--max-dim] that
    is not the last argument, or 512. *)
Lemma parseMaxDim_cases (rest : list string) :
  (exists k : nat,
      (k + 1 < List.length rest)%nat /\
      nth k rest EmptyString = "--max-dim"%string /\
      (forall j, (j < k)%nat -> nth j rest EmptyString <> "--max-dim"%string) /\
      R3d.parseMaxDim rest = Libc.atoi (nth (k + 1) rest EmptyString))
  \/
  ((forall j, (j + 1 < List.length rest)%nat ->
              nth j rest EmptyString <> "--max-dim"%string) /\
   R3d.parseMaxDim rest = 512).
Proof.
  induction rest as [|a tl IH].
  - right. split; [intros j Hj; cbn in Hj; lia|reflexivity].
  - destruct tl as [|b tl'].
    + right. split; [intros j Hj; cbn in Hj; lia|reflexivity].
    + cbn [R3d.parseMaxDim]. unfold Libc.strcmp_eq.
      destruct (String.eqb_spec a "--max-dim") as [Ea|Ea].
      * left. exists 0%nat. cbn [nth Nat.add List.length].
        split; [lia|]. split; [exact Ea|]. split; [intros j Hj; lia|reflexivity].
      * destruct IH as [[k [H1 [H2 [H3 H4]]]]|[H1 H2]].
        -- left. exists (S k). cbn [nth Nat.add List.length] in *.
           split; [lia|]. split; [exact H2|].
           split; [|exact H4].
           intros [|j] Hj; [exact Ea|]. cbn [nth]. apply H3. lia.
        -- right. split; [|exact H2].
           intros [|j] Hj; [exact Ea|]. cbn [nth]. apply H1.
           cbn [List.length] in *. lia.
Qed.

Lemma find_max_dim_skip (a : string) (tl : list string) (i : nat) :
  Libc.strcmp_eq a "--max-dim" = false ->
  Braw.find_max_dim i (a :: tl) = Braw.find_max_dim (S i) tl.
Proof.
  intros H. destruct tl as [|b tl']; [reflexivity|].
  cbn [Braw.find_max_dim]. rewrite H. reflexivity.
Qed.

Lemma skipn_cons_nth (n : nat) (l : list string) :
  (n < List.length l)%nat ->
  skipn n l = nth n l EmptyString :: skipn (S n) l.
Proof.
  revert l. induction n as [|n IH]; intros [|x l] H; cbn in H; try lia.
  - reflexivity.
  - cbn [skipn nth]. apply IH. lia.
Qed.

(** X11: the value of [--max-dim].  r3d-tool takes the number after the
    first [--max-dim] found from the sixth argument on that is not the last
    argument, and 512 when there is none; for a frame command whose fourth
    and fifth arguments are not [--max-dim], braw-tool runs the command with
    the same value. *)
Theorem X11_max_dim_option (undef : IEEE.float -> Z) (argv : list string) :
  let rest := skipn 5 argv in
  let maxDim := R3d.parseMaxDim rest in
  ((exists k : nat,
       (k + 1 < List.length rest)%nat /\
       nth k rest EmptyString = "--max-dim"%string /\
       (forall j, (j < k)%nat -> nth j rest EmptyString <> "--max-dim"%string) /\
       maxDim = Libc.atoi (nth (k + 1) rest EmptyString))
   \/
   ((forall j, (j + 1 < List.length rest)%nat ->
               nth j rest EmptyString <> "--max-dim"%string) /\
    maxDim = 512))
  /\
  ((5 <= List.length argv)%nat ->
   nth 3 argv EmptyString <> "--max-dim"%string ->
   nth 4 argv EmptyString <> "--max-dim"%string ->
   forall sdk : Braw.Sdk,
     (nth 1 argv EmptyString = "extract-frame"%string ->
      Braw.main undef sdk argv
      = Braw.CmdExtractFrame undef sdk (nth 2 argv EmptyString)
                             (Libc.atof (nth 3 argv EmptyString))
                             (nth 4 argv EmptyString) maxDim) /\
     (nth 1 argv EmptyString = "extract-frames"%string ->
      Braw.main undef sdk argv
      = Braw.CmdExtractFrames undef sdk (nth 2 argv EmptyString)
                              (nth 3 argv EmptyString)
                              (nth 4 argv EmptyString) maxDim)).
Proof.
  intros rest maxDim. split; [apply parseMaxDim_cases|].
  intros Hlen H3 H4 sdk.
  assert (Hscan : exists eff,
             match Braw.find_max_dim 3 (skipn 3 argv) with
             | Some r => r
             | None => (512, List.length argv)
             end = (maxDim, eff) /\ (5 <= eff)%nat).
  { rewrite (skipn_cons_nth 3 argv) by lia.
    rewrite (skipn_cons_nth 4 argv) by lia.
    fold rest.
    assert (E3 : Libc.strcmp_eq (nth 3 argv EmptyString) "--max-dim" = false)
      by (apply String.eqb_neq; exact H3).
    assert (E4 : Libc.strcmp_eq (nth 4 argv EmptyString) "--max-dim" = false)
      by (apply String.eqb_neq; exact H4).
    rewrite (find_max_dim_skip _ _ 3 E3), (find_max_dim_skip _ _ 4 E4).
    pose proof (find_max_dim_parseMaxDim rest 5) as Hv.
    fold maxDim in Hv.
    destruct (Braw.find_max_dim 5 rest) as [[v k]|] eqn:Ef.
    + exists k. subst v. split; [reflexivity|].
      destruct (find_max_dim_index _ _ _ _ Ef) as [[Hk _] _]. exact Hk.
    + exists (List.length argv). rewrite Hv. split; [reflexivity|lia]. }
  destruct Hscan as [eff [Escan Heff]].
  assert (H5 : (5 <=? eff)%nat = true) by (apply Nat.leb_le; exact Heff).
  assert (Hargc : (List.length argv <? 3)%nat = false) by (apply Nat.ltb_ge; lia).
  split; intros Ec; unfold Braw.main; rewrite Hargc, Escan, Ec, H5; reflexivity.
Qed.

(** X11 at a command line with the option in sixth place. *)
Lemma X11_witness_option_in_sixth_place :
  Braw.main Samples.undef Samples.braw_sdk
            ["braw-tool"; "extract-frame"; "clip.braw"; "1.5"; "out.jpg";
             "--max-dim"; "256"]%string
  = Braw.CmdExtractFrame Samples.undef Samples.braw_sdk "clip.braw"
                         (Libc.atof "1.5") "out.jpg" 256.
Proof.
  exact (proj1 (proj2 (X11_max_dim_option Samples.undef
                         ["braw-tool"; "extract-frame"; "clip.braw"; "1.5"; "out.jpg";
                          "--max-dim"; "256"]%string)
                      ltac:(cbn; lia) ltac:(discriminate) ltac:(discriminate)
                      Samples.braw_sdk) eq_refl).
Defined.

(** X12: braw-tool counts only the arguments before [--max-dim].  With the
    option as fourth argument every command but probe is refused, and with
    it as fifth argument the two frame commands are refused, although the
    command line is long enough. *)
Theorem X12_braw_option_before_the_operands (undef : IEEE.float -> Z)
        (sdk : Braw.Sdk) (argv : list string) :
  let cmd := nth 1 argv EmptyString in
  (nth 3 argv EmptyString = "--max-dim"%string -> (5 <= List.length argv)%nat ->
   cmd <> "probe"%string ->
   Braw.main undef sdk argv = Braw.exit_with 1 EmptyString)
  /\
  (nth 4 argv EmptyString = "--max-dim"%string -> (6 <= List.length argv)%nat ->
   cmd = "extract-frame"%string \/ cmd = "extract-frames"%string ->
   Braw.main undef sdk argv = Braw.exit_with 1 EmptyString).
Proof.
  intros cmd.
  assert (Hrefuse : forall maxDim eff,
             match Braw.find_max_dim 3 (skipn 3 argv) with
             | Some r => r
             | None => (512, List.length argv)
             end = (maxDim, eff) ->
             (3 <= List.length argv)%nat ->
             (cmd = "probe"%string -> (eff < 3)%nat) ->
             (cmd = "extract-frame"%string -> (eff < 5)%nat) ->
             (cmd = "extract-frames"%string -> (eff < 5)%nat) ->
             (cmd = "extract-audio"%string -> (eff < 4)%nat) ->
             Braw.main undef sdk argv = Braw.exit_with 1 EmptyString).
  { intros maxDim eff E Hlen P1 P2 P3 P4. unfold Braw.main.
    assert (Hargc : (List.length argv <? 3)%nat = false) by (apply Nat.ltb_ge; lia).
    rewrite Hargc, E. fold cmd. unfold Libc.strcmp_eq.
    destruct (String.eqb_spec cmd "probe") as [E1|E1].
    { destruct (Nat.leb_spec 3 eff); [specialize (P1 E1); lia|].
      rewrite E1. reflexivity. }
    cbn [andb].
    destruct (String.eqb_spec cmd "extract-frame") as [E2|E2].
    { destruct (Nat.leb_spec 5 eff); [specialize (P2 E2); lia|].
      rewrite E2. reflexivity. }
    cbn [andb].
    destruct (String.eqb_spec cmd "extract-frames") as [E3|E3].
    { destruct (Nat.leb_spec 5 eff); [specialize (P3 E3); lia|].
      rewrite E3. reflexivity. }
    cbn [andb].
    destruct (String.eqb_spec cmd "extract-audio") as [E4|E4].
    { destruct (Nat.leb_spec 4 eff); [specialize (P4 E4); lia|]. reflexivity. }
    reflexivity. }
  split.
  - intros H3 Hlen Hp.
    apply (Hrefuse (Libc.atoi (nth 4 argv EmptyString)) 3%nat); try lia.
    + rewrite (skipn_cons_nth 3 argv) by lia.
      rewrite (skipn_cons_nth 4 argv) by lia.
      cbn [Braw.find_max_dim]. rewrite H3. reflexivity.
    + intros E. contradiction.
  - intros H4 Hlen Hc.
    assert (Hscan : exists maxDim eff,
               match Braw.find_max_dim 3 (skipn 3 argv) with
               | Some r => r
               | None => (512, List.length argv)
               end = (maxDim, eff) /\ (eff <= 4)%nat).
    { rewrite (skipn_cons_nth 3 argv) by lia.
      rewrite (skipn_cons_nth 4 argv) by lia.
      rewrite (skipn_cons_nth 5 argv) by lia.
      cbn [Braw.find_max_dim]. rewrite H4.
      destruct (Libc.strcmp_eq (nth 3 argv EmptyString) "--max-dim");
        [exists (Libc.atoi "--max-dim"), 3%nat|exists (Libc.atoi (nth 5 argv EmptyString)), 4%nat];
        (split; [reflexivity|lia]). }
    destruct Hscan as [maxDim [eff [E Heff]]].
    apply (Hrefuse maxDim eff E); try lia;
      intros Ec; destruct Hc as [Hc|Hc]; rewrite Hc in Ec; discriminate.
Qed.

(** X12 at an extract-frame command line with the option first. *)
Lemma X12_witness_option_first :
  Braw.main Samples.undef Samples.braw_sdk
            ["braw-tool"; "extract-frame"; "clip.braw"; "--max-dim"; "256";
             "1.5"; "out.jpg"]%string
  = Braw.exit_with 1 EmptyString.
Proof.
  apply (proj1 (X12_braw_option_before_the_operands Samples.undef Samples.braw_sdk
                  ["braw-tool"; "extract-frame"; "clip.braw"; "--max-dim"; "256";
                   "1.5"; "out.jpg"]%string)).
  - reflexivity.
  - cbn. lia.
  - discriminate.
Defined.

(** ** Timestamps *)

Lemma skip_to_bracket_none (json : string) :
  Reader.occurs "[" json = false ->
  Braw.skip_to_bracket json = EmptyString /\ R3d.skip_to_bracket json = EmptyString.
Proof.
  induction json as [|c r IH]; intros H; [split; reflexivity|].
  cbn [Reader.occurs] in H. apply orb_false_elim in H. destruct H as [Hc Hr].
  cbn [Braw.skip_to_bracket R3d.skip_to_bracket].
  rewrite Ascii.eqb_sym, Hc. exact (IH Hr).
Qed.

(** X13: a timestamps argument without an opening bracket holds no times
    for either parser, so extract-frames exits with code 1 and prints
    nothing, without regard to the clip. *)
Theorem X13_times_without_bracket (undef : IEEE.float -> Z) (timesJSON : string) :
  Reader.occurs "[" timesJSON = false ->
  Braw.ParseTimesJSON timesJSON = [] /\
  R3d.parse_timesJson timesJSON = [] /\
  (forall (sdk : Braw.Sdk) (filePath outputDir : string) (maxDim : Z),
      Braw.CmdExtractFrames undef sdk filePath timesJSON outputDir maxDim
      = Braw.exit_with 1 EmptyString) /\
  (forall (sdk : R3d.Sdk) (filePath outputDir : string) (maxDim : Z),
      R3d.cmd_extract_frames undef sdk filePath timesJSON outputDir maxDim
      = R3d.exit_with 1 EmptyString).
Proof.
  intros H. destruct (skip_to_bracket_none timesJSON H) as [Hb Hr].
  assert (Eb : Braw.ParseTimesJSON timesJSON = [])
    by (unfold Braw.ParseTimesJSON; rewrite Hb; reflexivity).
  assert (Er : R3d.parse_timesJson timesJSON = [])
    by (unfold R3d.parse_timesJson; rewrite Hr; reflexivity).
  split; [exact Eb|]. split; [exact Er|].
  split; intros sdk filePath outputDir maxDim.
  - unfold Braw.CmdExtractFrames. rewrite Eb. reflexivity.
  - unfold R3d.cmd_extract_frames. rewrite Er. reflexivity.
Qed.

(** X13 at a bare list of numbers. *)
Lemma X13_witness_bare_numbers :
  Braw.ParseTimesJSON "1.5, 3.0" = [] /\ R3d.parse_timesJson "1.5, 3.0" = [].
Proof.
  destruct (X13_times_without_bracket Samples.undef "1.5, 3.0" eq_refl)
    as [Hb [Hr _]].
  split; assumption.
Defined.

(** *** Decimal digits written and read *)

Lemma digit_val_digit (k : nat) :
  (k < 10)%nat -> Libc.digit_val (ascii_of_nat (48 + k)) = Some (Z.of_nat k).
Proof.
  intros H. do 10 (destruct k as [|k]; [reflexivity|]). lia.
Qed.

Lemma digits_fuel_step (f : nat) (z : Z) (acc : string) :
  Libc.digits_fuel (S f) z acc
  = if z / 10 =? 0 then String (ascii_of_nat (48 + Z.to_nat (z mod 10))) acc
    else Libc.digits_fuel f (z / 10)
           (String (ascii_of_nat (48 + Z.to_nat (z mod 10))) acc).
Proof. reflexivity. Qed.

Lemma digits_fuel_app (fuel : nat) :
  forall (z : Z) (acc : string),
    Libc.digits_fuel fuel z acc = (Libc.digits_fuel fuel z EmptyString ++ acc)%string.
Proof.
  induction fuel as [|f IH]; intros z acc; [reflexivity|].
  cbn [Libc.digits_fuel].
  destruct (z / 10 =? 0); [reflexivity|].
  rewrite IH. rewrite (IH (z / 10) (String _ EmptyString)).
  rewrite string_app_assoc. reflexivity.
Qed.

(** Reading back what [digits_fuel] wrote continues from the accumulator
    with the number appended. *)
Lemma read_digits_fuel (f : nat) :
  forall z : Z,
    0 <= z < 10 ^ Z.of_nat (S f) ->
    exists D : Z,
      0 < D /\
      forall (acc : string) (a k : Z),
        Libc.read_digits Libc.digit_val 10 (Libc.digits_fuel (S f) z acc) a k
        = Libc.read_digits Libc.digit_val 10 acc (a * 10 ^ D + z) (k + D).
Proof.
  induction f as [|f IH]; intros z Hz.
  - exists 1. split; [lia|]. intros acc a k.
    assert (Hq : z / 10 = 0) by (apply Z.div_small; cbn in Hz; lia).
    cbn [Libc.digits_fuel]. rewrite Hq. cbn [Z.eqb].
    cbn [Libc.read_digits].
    rewrite digit_val_digit by (pose proof (Z.mod_pos_bound z 10 ltac:(lia)); lia).
    rewrite Z2Nat.id by (pose proof (Z.mod_pos_bound z 10 ltac:(lia)); lia).
    rewrite Z.mod_small by (cbn in Hz; lia).
    rewrite Z.pow_1_r. reflexivity.
  - pose proof (Z.mod_pos_bound z 10 ltac:(lia)) as Hm.
    pose proof (Z.div_mod z 10 ltac:(lia)) as Edm.
    destruct (Z.eqb_spec (z / 10) 0) as [Hq|Hq].
    + exists 1. split; [lia|]. intros acc a k.
      rewrite digits_fuel_step.
      destruct (Z.eqb_spec (z / 10) 0) as [_|Hn]; [|contradiction].
      cbn [Libc.read_digits].
      rewrite digit_val_digit by lia. rewrite Z2Nat.id by lia.
      rewrite Z.pow_1_r. f_equal. lia.
    + assert (Hz' : 0 <= z / 10 < 10 ^ Z.of_nat (S f)).
      { split; [apply Z.div_pos; lia|].
        apply Z.div_lt_upper_bound; [lia|].
        replace (Z.of_nat (S (S f))) with (Z.succ (Z.of_nat (S f))) in Hz by lia.
        rewrite Z.pow_succ_r in Hz by lia. lia. }
      destruct (IH (z / 10) Hz') as [D [HD Hread]].
      exists (D + 1). split; [lia|]. intros acc a k.
      rewrite (digits_fuel_step (S f)).
      destruct (Z.eqb_spec (z / 10) 0) as [He|_]; [contradiction|].
      rewrite Hread. cbn [Libc.read_digits].
      rewrite digit_val_digit by lia. rewrite Z2Nat.id by lia.
      rewrite Z.pow_add_r, Z.pow_1_r by lia.
      replace (k + D + 1) with (k + (D + 1)) by lia.
      apply (f_equal (fun v => Libc.read_digits Libc.digit_val 10 acc v (k + (D + 1)))).
      transitivity (a * (10 ^ D * 10) + (10 * (z / 10) + z mod 10)); [ring|].
      rewrite <- Edm. reflexivity.
Qed.

Lemma fmt_u_fuel (z : Z) :
  0 <= z -> z < 10 ^ Z.of_nat (S (Z.to_nat (Z.log2 z))).
Proof.
  intros Hz.
  destruct (Z.eq_dec z 0) as [->|Hnz]; [cbn; lia|].
  pose proof (Z.log2_spec z ltac:(lia)) as [_ Hhi].
  pose proof (Z.log2_nonneg z) as Hl.
  rewrite Nat2Z.inj_succ, Z2Nat.id by lia.
  apply Z.lt_le_trans with (2 ^ Z.succ (Z.log2 z)); [exact Hhi|].
  apply Z.pow_le_mono_l. lia.
Qed.

(** [%u] followed by a character that is no digit is read back as the
    number, up to that character. *)
Lemma read_fmt_u (z : Z) (r : string) :
  0 <= z ->
  match r with
  | EmptyString => True
  | String c _ => Libc.digit_val c = None
  end ->
  exists D, 0 < D /\
    Libc.read_digits Libc.digit_val 10 (Libc.fmt_u z ++ r) 0 0 = (z, D, r).
Proof.
  intros Hz Hr.
  destruct (read_digits_fuel (Z.to_nat (Z.log2 z)) z
              (conj Hz (fmt_u_fuel z Hz))) as [D [HD Hread]].
  exists D. split; [exact HD|].
  unfold Libc.fmt_u. rewrite <- digits_fuel_app. rewrite Hread.
  cbn [Z.mul Z.add].
  destruct r as [|c r']; [reflexivity|].
  cbn [Libc.read_digits]. rewrite Hr. reflexivity.
Qed.

Lemma digits_fuel_shape (f : nat) :
  forall (z : Z) (acc : string),
    0 <= z -> digit_or_closing acc ->
    exists d s', Libc.digits_fuel (S f) z acc = String d s' /\
                 Libc.digit_val d <> None /\ digit_or_closing s'.
Proof.
  assert (Hd : forall z, 0 <= z ->
             Libc.digit_val (ascii_of_nat (48 + Z.to_nat (z mod 10))) <> None).
  { intros z Hz. pose proof (Z.mod_pos_bound z 10 ltac:(lia)) as Hm.
    rewrite digit_val_digit by lia. discriminate. }
  induction f as [|f IH]; intros z acc Hz Hacc; rewrite digits_fuel_step.
  - destruct (z / 10 =? 0);
      (eexists; eexists; split; [reflexivity|]; split; [apply Hd; exact Hz|exact Hacc]).
  - destruct (z / 10 =? 0).
    + eexists; eexists; split; [reflexivity|]; split; [apply Hd; exact Hz|exact Hacc].
    + apply IH; [apply Z.div_pos; lia|]. left. apply Hd. exact Hz.
Qed.

Lemma strtod_digit_head (d : ascii) (s' : string) :
  Libc.digit_val d <> None -> digit_or_closing s' ->
  Libc.strtod (String d s') = Libc.read_decimal false (String d s').
Proof.
  intros Hd Hs.
  destruct s' as [|c r].
  { destruct d as [[] [] [] [] [] [] [] []];
      solve [reflexivity | exfalso; apply Hd; reflexivity]. }
  assert (Hx : Ascii.eqb (Libc.to_lower c) "x" = false).
  { destruct Hs as [Hc|[->| ->]]; [|reflexivity|reflexivity].
    destruct c as [[] [] [] [] [] [] [] []];
      solve [reflexivity | exfalso; apply Hc; reflexivity]. }
  transitivity (Libc.read_number false (String d (String c r))).
  { destruct d as [[] [] [] [] [] [] [] []];
      solve [reflexivity | exfalso; apply Hd; reflexivity]. }
  destruct d as [[] [] [] [] [] [] [] []];
    try (exfalso; apply Hd; reflexivity); try reflexivity.
  assert (K : Libc.match_keyword "0x" (String "0" (String c r)) = None).
  { change (Libc.match_keyword "0x" (String "0" (String c r)))
      with (if Ascii.eqb (Libc.to_lower c) "x" then Some r else None).
    rewrite Hx. reflexivity. }
  unfold Libc.read_number. rewrite K. reflexivity.
Qed.

Lemma double_of_Z_0 : IEEE.double_of_Z 0 = S754_zero false.
Proof. reflexivity. Qed.

(** [strtod] reads a printed unsigned number back, up to the comma or the
    bracket after it. *)
Lemma strtod_fmt_u (n : Z) (rest : string) :
  0 <= n -> closes_number rest ->
  Libc.strtod (Libc.fmt_u n ++ rest) = Some (IEEE.double_of_Z n, rest) /\
  exists d s', (Libc.fmt_u n ++ rest)%string = String d s' /\
               Libc.digit_val d <> None.
Proof.
  intros Hn Hr.
  assert (Hc : digit_or_closing rest)
    by (destruct rest as [|c r]; [exact I|destruct Hr as [-> | ->]; cbn; auto]).
  assert (Hnd : match rest with
                | EmptyString => True
                | String c _ => Libc.digit_val c = None
                end)
    by (destruct rest as [|c r]; [exact I|destruct Hr as [-> | ->]; reflexivity]).
  destruct (digits_fuel_shape (Z.to_nat (Z.log2 n)) n rest Hn Hc)
    as [d [s' [Es [Hd Hs']]]].
  assert (Eapp : (Libc.fmt_u n ++ rest)%string = String d s').
  { unfold Libc.fmt_u. rewrite <- digits_fuel_app. exact Es. }
  split; [|exists d, s'; split; assumption].
  rewrite Eapp, (strtod_digit_head d s' Hd Hs'), <- Eapp.
  destruct (read_fmt_u n rest Hn Hnd) as [D [HD Hread]].
  unfold Libc.read_decimal. rewrite Hread.
  assert (Hpos : (0 <? D + 0) = true) by (apply Z.ltb_lt; lia).
  assert (Hval : Libc.decimal_value false n (0 - 0) = IEEE.double_of_Z n).
  { unfold Libc.decimal_value. destruct n as [|p|p]; [reflexivity| |lia].
    cbn [Z.sub Z.opp Z.add Z.leb Z.compare]. rewrite Z.pow_0_r, Z.mul_1_r.
    reflexivity. }
  destruct rest as [|c r].
  { rewrite Hpos. cbn [Libc.read_exponent]. rewrite Hval. reflexivity. }
  destruct Hr as [-> | ->]; rewrite Hpos; cbn [Libc.read_exponent];
    (replace (Ascii.eqb (Libc.to_lower _) "e") with false by reflexivity);
    rewrite Hval; reflexivity.
Qed.

Lemma array_rest_closes (ns : list Z) (post : string) :
  closes_number (array_rest ns ++ post).
Proof.
  destruct ns as [|n ns]; [right; reflexivity|].
  left. reflexivity.
Qed.

Lemma array_rest_cons (n : Z) (ns : list Z) (post : string) :
  (array_rest (n :: ns) ++ post)%string
  = String "," (Libc.fmt_u n ++ array_rest ns ++ post).
Proof.
  unfold array_rest. cbn [List.map comma_separated].
  rewrite !string_app_assoc. reflexivity.
Qed.

Lemma digit_not_separator (d : ascii) :
  Libc.digit_val d <> None ->
  Ascii.eqb d " " = false /\ Ascii.eqb d "," = false /\
  Ascii.eqb d "010" = false /\ Ascii.eqb d "]" = false.
Proof.
  intros Hd. destruct d as [[] [] [] [] [] [] [] []];
    solve [repeat split; reflexivity | exfalso; apply Hd; reflexivity].
Qed.

(** One element at the head of the input, or after a comma, is read by
    both loops in one turn. *)
Lemma parse_times_element (fuel : nat) (n : Z) (ns : list Z) (post p : string) :
  0 <= n ->
  p = (Libc.fmt_u n ++ array_rest ns ++ post)%string \/
  p = String "," (Libc.fmt_u n ++ array_rest ns ++ post) ->
  Braw.parse_times (S fuel) p
  = IEEE.double_of_Z n :: Braw.parse_times fuel (array_rest ns ++ post) /\
  R3d.parse_times (S fuel) p
  = IEEE.double_of_Z n :: R3d.parse_times fuel (array_rest ns ++ post).
Proof.
  intros Hn Hp.
  destruct (strtod_fmt_u n (array_rest ns ++ post) Hn (array_rest_closes ns post))
    as [Hs [d [s' [Ep Hd]]]].
  destruct (digit_not_separator d Hd) as [H1 [H2 [H3 H4]]].
  assert (Eb : Braw.skip_separators p = String d s').
  { destruct Hp as [-> | ->]; rewrite Ep; cbn [Braw.skip_separators];
      cbn [Ascii.eqb Bool.eqb orb]; rewrite H1, H2; reflexivity. }
  assert (Er : R3d.skip_separators p = String d s').
  { destruct Hp as [-> | ->]; rewrite Ep; cbn [R3d.skip_separators];
      cbn [Ascii.eqb Bool.eqb orb]; rewrite H1, H2, H3; reflexivity. }
  rewrite Ep in Hs. split.
  - rewrite (braw_parse_times_step fuel p d s' Eb H4), Hs. reflexivity.
  - rewrite r3d_parse_times_turn, Er.
    exact (proj1 (r3d_turn_some fuel _ _ _ Hs)).
Qed.

(** Both loops stop at the closing bracket, whatever follows it. *)
Lemma parse_times_array_rest (ns : list Z) (post : string) :
  Forall (fun n => 0 <= n) ns ->
  forall fuel : nat,
    (List.length ns < fuel)%nat ->
    Braw.parse_times fuel (array_rest ns ++ post) = List.map IEEE.double_of_Z ns /\
    R3d.parse_times fuel (array_rest ns ++ post) = List.map IEEE.double_of_Z ns.
Proof.
  induction 1 as [|n ns Hn Hns IH]; intros fuel Hf.
  - destruct fuel as [|fuel]; [inversion Hf|]. split; reflexivity.
  - destruct fuel as [|fuel]; [inversion Hf|].
    cbn [List.length] in Hf. apply PeanoNat.lt_S_n in Hf.
    destruct (IH fuel Hf) as [IHb IHr].
    destruct (parse_times_element fuel n ns post (array_rest (n :: ns) ++ post) Hn
                (or_intror (array_rest_cons n ns post))) as [Hb Hr].
    rewrite Hb, Hr, IHb, IHr. split; reflexivity.
Qed.

Lemma string_length_app (a b : string) :
  String.length (a ++ b) = (String.length a + String.length b)%nat.
Proof. induction a as [|c a IH]; [reflexivity|]. cbn. rewrite IH. reflexivity. Qed.

Lemma array_rest_length (ns : list Z) :
  (List.length ns < String.length (array_rest ns))%nat.
Proof.
  induction ns as [|n ns IH]; [cbn; lia|].
  change (array_rest (n :: ns)) with (array_rest (n :: ns) ++ EmptyString)%string
    || idtac.
  rewrite <- (string_app_empty_r (array_rest (n :: ns))), array_rest_cons,
          string_app_empty_r.
  cbn [String.length List.length]. rewrite string_length_app. lia.
Qed.

(** Text without an opening bracket before the array is passed over. *)
Lemma skip_to_bracket_prefix (pre rest : string) :
  Reader.occurs "[" pre = false ->
  Braw.skip_bracket (Braw.skip_to_bracket (pre ++ String "[" rest)) = rest /\
  R3d.skip_bracket (R3d.skip_to_bracket (pre ++ String "[" rest)) = rest.
Proof.
  induction pre as [|c pre IH]; intros H; [split; reflexivity|].
  cbn [Reader.occurs] in H. apply orb_false_elim in H. destruct H as [Hc Hpre].
  cbn [append Braw.skip_to_bracket R3d.skip_to_bracket].
  rewrite Ascii.eqb_sym, Hc. exact (IH Hpre).
Qed.

(** X14: an array of unsigned numbers printed with [%u] and commas is read
    back by both parsers as those numbers, each converted to double; text
    without an opening bracket before the array and any text after its
    closing bracket are ignored. *)
Theorem X14_printed_times_are_read_back (ns : list Z) (pre post : string) :
  Forall (fun n => 0 <= n) ns ->
  Reader.occurs "[" pre = false ->
  let json := (pre ++ Spec.json_array (List.map Libc.fmt_u ns) ++ post)%string in
  Braw.ParseTimesJSON json = List.map IEEE.double_of_Z ns /\
  R3d.parse_timesJson json = List.map IEEE.double_of_Z ns.
Proof.
  intros Hns Hpre json.
  set (body := match ns with
               | [] => array_rest [] ++ post
               | n :: ns' => Libc.fmt_u n ++ array_rest ns' ++ post
               end%string).
  assert (Ej : json = (pre ++ String "[" body)%string).
  { unfold json, Spec.json_array, body. f_equal. destruct ns as [|n ns'].
    - reflexivity.
    - cbn [List.map]. rewrite concat_comma_separated. unfold array_rest.
      rewrite !string_app_assoc. reflexivity. }
  destruct (skip_to_bracket_prefix pre body Hpre) as [Sb Sr].
  unfold Braw.ParseTimesJSON, R3d.parse_timesJson. rewrite Ej, Sb, Sr.
  assert (Hfuel : (List.length ns < String.length (pre ++ String "[" body))%nat).
  { rewrite string_length_app. cbn [String.length]. unfold body.
    destruct ns as [|n ns']; [cbn [List.length]; lia|].
    pose proof (array_rest_length ns').
    cbn [List.length]. rewrite !string_length_app. lia. }
  destruct ns as [|n ns'].
  - apply (parse_times_array_rest [] post Hns). cbn [List.length]. lia.
  - inversion Hns as [|n' ns'' Hn Hns' E]; subst n' ns''.
    destruct (parse_times_element (String.length (pre ++ String "[" body))
                n ns' post body Hn (or_introl eq_refl)) as [Hb Hr].
    rewrite Hb, Hr. cbn [List.map].
    destruct (parse_times_array_rest ns' post Hns'
                (String.length (pre ++ String "[" body))) as [Tb Tr].
    { cbn [List.length] in Hfuel. lia. }
    rewrite Tb, Tr. split; reflexivity.
Qed.

(** X14 at three times, the first of them zero, between other text. *)
Lemma X14_witness_three_times :
  Braw.ParseTimesJSON "times: [0,5,120] seconds" = List.map IEEE.double_of_Z [0; 5; 120]
  /\
  R3d.parse_timesJson "times: [0,5,120] seconds" = List.map IEEE.double_of_Z [0; 5; 120].
Proof.
  apply (X14_printed_times_are_read_back [0; 5; 120] "times: " " seconds").
  - repeat constructor; lia.
  - reflexivity.
Defined.

(** ** Audio files *)

(** Every chunk r3d-tool writes is a whole number of 16-bit samples. *)
Lemma r3d_decode_audio_even (undef : IEEE.float -> Z) (clip : R3d.Clip)
      (isFloat : bool) (channels totalSamples : Z) (fuel : nat) :
  forall decoded dataBytes,
    Nat.even (List.length
                (fst (R3d.decode_audio undef fuel clip isFloat channels
                                       totalSamples decoded dataBytes))) = true.
Proof.
  induction fuel as [|fuel IH]; intros decoded dataBytes;
    cbn [R3d.decode_audio]; [reflexivity|].
  destruct (decoded <? totalSamples); [|reflexivity].
  set (want := if totalSamples - decoded <? R3d.chunkSamples
               then totalSamples - decoded else R3d.chunkSamples).
  set (call := if isFloat then
                 let '(ds, got, fbuf) := R3d.DecodeFloatAudio clip decoded want in
                 (ds, got, fbuf, fun _ : nat => 0)
               else
                 let '(ds, got, raw) := R3d.DecodeAudio clip decoded want in
                 (ds, got, fun _ : nat => R3d.zero, raw)).
  destruct call as [[[ds got] fbuf] raw].
  destruct (negb (R3d.decode_ok ds) || (got =? 0)); [reflexivity|].
  set (totalValues := CInt.uint64_t (got * channels)).
  set (out16 := R3d.convert_chunk undef isFloat totalValues fbuf raw).
  set (wb := CInt.uint64_t (totalValues * 2)).
  set (bytes := firstn (Z.to_nat wb) (List.concat (List.map R3d.int16_bytes out16))).
  specialize (IH (CInt.uint64_t (decoded + got))
                 (CInt.uint32_t (dataBytes + CInt.uint32_t wb))).
  destruct (R3d.decode_audio undef fuel clip isFloat channels totalSamples
              (CInt.uint64_t (decoded + got))
              (CInt.uint32_t (dataBytes + CInt.uint32_t wb))) as [rest final].
  cbn [fst] in IH |- *.
  rewrite length_app, Nat.even_add, IH.
  assert (Hc : List.length (List.concat (List.map R3d.int16_bytes out16))
               = (2 * List.length out16)%nat).
  { clear. induction out16 as [|v l IHl]; [reflexivity|].
    cbn [List.map List.concat]. rewrite length_app, IHl.
    cbn [R3d.int16_bytes List.length]. lia. }
  assert (Hwb : exists k, wb = 2 * k /\ 0 <= k).
  { subst wb. unfold CInt.uint64_t at 1. unfold CInt.wrap.
    exists (totalValues mod 2 ^ 63). split.
    - change (2 ^ 64) with (2 ^ 63 * 2).
      rewrite Z.mul_mod_distr_r by lia. lia.
    - apply Z.mod_pos_bound. lia. }
  destruct Hwb as [k [Ek Hk]].
  subst bytes. rewrite length_firstn, Hc, Ek.
  assert (E : (Nat.min (Z.to_nat (2 * k)) (2 * List.length out16)
               = 2 * Nat.min (Z.to_nat k) (List.length out16))%nat) by lia.
  rewrite E, Nat.even_mul. reflexivity.
Qed.



(** X16: a clip without audio is refused before the output file is opened:
    in braw-tool when the audio interface is missing or reports no samples
    or no channels, in r3d-tool when the clip has no audio channel; the run
    exits with code 1, prints nothing and leaves no file. *)
Theorem X16_clip_without_audio (undef : IEEE.float -> Z) :
  (forall (sdk : Braw.Sdk) (filePath outputPath : string),
      match Braw.QueryInterface_audio (snd (Braw.OpenClip sdk filePath)) with
      | (hr, Some audio) =>
          Braw.is_ok hr = false \/
          Braw.out 0 (Braw.GetAudioSampleCount audio) = 0 \/
          Braw.out 0 (Braw.GetAudioChannelCount audio) = 0
      | (_, None) => True
      end ->
      Braw.CmdExtractAudio sdk filePath outputPath
      = Braw.exit_with 1 EmptyString) /\
  (forall (sdk : R3d.Sdk) (filePath outputPath : string),
      R3d.AudioChannelCount (snd (R3d.LoadFrom sdk filePath)) = 0 ->
      R3d.cmd_extract_audio undef sdk filePath outputPath
      = R3d.exit_with 1 EmptyString).
Proof.
  split; intros sdk filePath outputPath.
  - unfold Braw.CmdExtractAudio.
    destruct (Braw.CreateFactory sdk); cbn [negb]; [|reflexivity].
    destruct (Braw.is_ok (Braw.hr_CreateCodec sdk)); cbn [negb]; [|reflexivity].
    destruct (Braw.OpenClip sdk filePath) as [hr clip]. cbn [snd].
    destruct (Braw.is_ok hr); cbn [negb]; [|reflexivity].
    destruct (Braw.QueryInterface_audio clip) as [hr' [audio|]]; [|reflexivity].
    intros [H|[H|H]]; rewrite H; cbn [negb]; [reflexivity| |].
    + destruct (Braw.is_ok hr'); reflexivity.
    + destruct (Braw.is_ok hr'); cbn [negb]; [|reflexivity].
      rewrite orb_true_r. reflexivity.
  - unfold R3d.cmd_extract_audio.
    destruct (R3d.LoadFrom sdk filePath) as [[|code] clip]; [|reflexivity].
    cbn [snd]. intros H. rewrite H. reflexivity.
Qed.

(** X16 at the sample R3D clip, which has no audio channel. *)
Lemma X16_witness_silent_clip :
  R3d.cmd_extract_audio Samples.undef Samples.r3d_sdk "clip.r3d" "out.wav"
  = R3d.exit_with 1 EmptyString.
Proof.
  apply (proj2 (X16_clip_without_audio Samples.undef)
               Samples.r3d_sdk "clip.r3d" "out.wav").
  reflexivity.
Defined.

(** The read loop of braw-tool collects the whole track when every read
    delivers whole frames. *)
Lemma braw_read_audio_length (audio : Braw.ClipAudio) (fuel : nat) :
  Setup.braw_reads_whole_frames audio ->
  let sampleCount := Braw.out 0 (Braw.GetAudioSampleCount audio) in
  let frameBytes :=
    Braw.out 0 (Braw.GetAudioChannelCount audio)
    * Braw.out 0 (Braw.GetAudioBitDepth audio) / 8 in
  sampleCount < 2 ^ 64 ->
  forall sampleIndex : Z,
    0 <= sampleIndex <= sampleCount ->
    sampleCount - sampleIndex <= Z.of_nat fuel ->
    Z.of_nat (List.length (Braw.read_audio fuel audio sampleIndex sampleCount))
    = (sampleCount - sampleIndex) * frameBytes.
Proof.
  intros Hreads sampleCount frameBytes Hrange.
  induction fuel as [|fuel IH]; intros idx Hidx Hfuel.
  - assert (idx = sampleCount) by lia. subst idx.
    cbn [Braw.read_audio List.length]. lia.
  - cbn [Braw.read_audio].
    destruct (Z.ltb_spec idx sampleCount) as [Hlt|Hge].
    + specialize (Hreads idx (conj (proj1 Hidx) Hlt)).
      destruct (Braw.GetAudioSamples audio idx) as [[hr got] bytes].
      destruct Hreads as [Hok [Hgot [Hend Hlen]]].
      rewrite Hok. cbn [negb orb].
      destruct (Z.eqb_spec got 0) as [E|_]; [lia|].
      assert (Ew : CInt.uint64_t (idx + got) = idx + got)
        by (apply wrap_small; lia).
      rewrite Ew, length_app, Nat2Z.inj_add, Hlen, IH by lia.
      fold sampleCount frameBytes. ring.
    + assert (idx = sampleCount) by lia. subst idx.
      cbn [List.length]. lia.
Qed.



(** ** Decode size of r3d-tool *)

(** [decodeFrame] in terms of [decode_size] and [decode_bufSize]. *)
Lemma r3d_decodeFrame_decode_size (undef : IEEE.float -> Z) (sdk : R3d.Sdk)
      (clip : R3d.Clip) (n : nat) (timeSec : IEEE.float)
      (outputPath : string) (maxDim : Z) :
  R3d.decodeFrame undef sdk clip n timeSec outputPath maxDim
  = let '(mode, decW, decH) := R3d.decode_size (R3d.Width clip) (R3d.Height clip) in
    if negb (R3d.alloc_ok sdk 16 (R3d.decode_bufSize decW decH)) then 1
    else if negb (R3d.decode_ok
                    (R3d.DecodeVideoFrame clip n (R3d.frameNo undef clip timeSec) mode))
         then 1
    else if negb (R3d.writeBGRAasJPEG (R3d.jpeg_cg sdk n) decW decH maxDim) then 1
    else 0.
Proof.
  unfold R3d.decodeFrame, R3d.decode_size, R3d.decode_bufSize.
  destruct (2048 <? R3d.Width clip / 4); reflexivity.
Qed.

(** X18: the size r3d-tool decodes a frame at.  For a clip whose width and
    height fit 32 bits the frame is decoded at a quarter of the clip's
    size, or at an eighth when the clip is 8196 or more pixels wide; each
    decoded dimension is the rounded-down quotient but at least 1, the
    buffer holds 4 bytes per decoded pixel, and the decoded width is at
    most 2048 for every clip less than 16392 pixels wide. *)
Theorem X18_r3d_decode_size (fullW fullH : Z) :
  0 <= fullW < 2 ^ 32 -> 0 <= fullH < 2 ^ 32 ->
  let eighth := 8196 <=? fullW in
  let decW := Z.max 1 (fullW / (if eighth then 8 else 4)) in
  let decH := Z.max 1 (fullH / (if eighth then 8 else 4)) in
  R3d.decode_size fullW fullH
  = (if eighth then R3d.DECODE_EIGHT_RES_GOOD else R3d.DECODE_QUARTER_RES_GOOD,
     decW, decH) /\
  R3d.decode_bufSize decW decH = 4 * decW * decH /\
  (fullW < 16392 -> decW <= 2048).
Proof.
  intros HW HH eighth decW decH.
  assert (Hthr : (2048 <? fullW / 4) = eighth).
  { subst eighth. destruct (Z.ltb_spec 2048 (fullW / 4)) as [H|H];
      destruct (Z.leb_spec 8196 fullW) as [H'|H']; try reflexivity; exfalso.
    - assert (fullW / 4 <= 2048); [|lia].
      apply Z.lt_succ_r. apply Z.div_lt_upper_bound; lia.
    - assert (2049 <= fullW / 4); [|lia].
      apply Z.div_le_lower_bound; lia. }
  assert (Hmax : forall x, 0 <= x -> (if x =? 0 then 1 else x) = Z.max 1 x).
  { intros x Hx. destruct (Z.eqb_spec x 0); lia. }
  assert (Hq : forall x d, 0 <= x < 2 ^ 32 -> 0 < d -> 0 <= x / d < 2 ^ 32).
  { intros x d Hx Hd. split; [apply Z.div_pos; lia|].
    apply Z.le_lt_trans with x; [|lia]. apply Z.div_le_upper_bound; nia. }
  assert (HdW : 1 <= decW < 2 ^ 32).
  { subst decW. destruct eighth;
      [pose proof (Hq fullW 8 HW ltac:(lia))|pose proof (Hq fullW 4 HW ltac:(lia))]; lia. }
  assert (HdH : 1 <= decH < 2 ^ 32).
  { subst decH. destruct eighth;
      [pose proof (Hq fullH 8 HH ltac:(lia))|pose proof (Hq fullH 4 HH ltac:(lia))]; lia. }
  split; [|split].
  - unfold R3d.decode_size. rewrite Hthr. subst decW decH.
    destruct eighth; cbv beta iota zeta; rewrite !Hmax by (apply Hq; lia);
      reflexivity.
  - assert (Hprod : 0 <= decW * decH < 2 ^ 62).
    { split; [nia|]. change (2 ^ 62) with (2 ^ 31 * 2 ^ 31).
      assert (HqW : decW < 2 ^ 31).
      { subst decW. destruct eighth.
        - assert (fullW / 8 < 2 ^ 31) by (apply Z.div_lt_upper_bound; lia). lia.
        - assert (fullW / 4 < 2 ^ 31) by (apply Z.div_lt_upper_bound; lia). lia. }
      assert (HqH : decH < 2 ^ 31).
      { subst decH. destruct eighth.
        - assert (fullH / 8 < 2 ^ 31) by (apply Z.div_lt_upper_bound; lia). lia.
        - assert (fullH / 4 < 2 ^ 31) by (apply Z.div_lt_upper_bound; lia). lia. }
      apply Z.mul_lt_mono_nonneg; lia. }
    unfold R3d.decode_bufSize, CInt.uint64_t.
    rewrite (wrap_small 64 (decW * decH)) by lia.
    rewrite wrap_small by lia. ring.
  - intros Hlt. subst decW. destruct eighth.
    + assert (fullW / 8 <= 2048); [|lia].
      apply Z.lt_succ_r. apply Z.div_lt_upper_bound; lia.
    + destruct (Z.ltb_spec 2048 (fullW / 4)); [discriminate|]. lia.
Qed.

(** X18 at a 4096 by 2160 clip: decoded at 1024 by 540. *)
Lemma X18_witness_4k_clip :
  R3d.decode_size 4096 2160 = (R3d.DECODE_QUARTER_RES_GOOD, 1024, 540).
Proof.
  apply (X18_r3d_decode_size 4096 2160); cbn; lia.
Defined.

(** ** Frame paths *)

Lemma read_zeros (k : nat) (s : string) :
  forall n : Z,
    Libc.read_digits Libc.digit_val 10 (Libc.zeros k ++ s) 0 n
    = Libc.read_digits Libc.digit_val 10 s 0 (n + Z.of_nat k).
Proof.
  induction k as [|k IH]; intros n.
  - cbn [Libc.zeros append]. f_equal. cbn. lia.
  - cbn [Libc.zeros append Libc.read_digits].
    change (Libc.digit_val "0") with (Some 0).
    cbn [Z.mul Z.add]. rewrite IH. f_equal. lia.
Qed.

(** A zero-padded number is read back as the number. *)
Lemma read_fmt_0u (width : nat) (z : Z) (r : string) :
  0 <= z ->
  match r with
  | EmptyString => True
  | String c _ => Libc.digit_val c = None
  end ->
  exists D, Libc.read_digits Libc.digit_val 10 (Libc.fmt_0u width z ++ r) 0 0
            = (z, D, r).
Proof.
  intros Hz Hr. destruct (read_fmt_u z r Hz Hr) as [D [_ Hread]].
  unfold Libc.fmt_0u. rewrite string_app_assoc, read_zeros.
  set (k := Z.of_nat (width - String.length (Libc.fmt_u z))).
  assert (Hshift : forall s a n n',
             Libc.read_digits Libc.digit_val 10 s a n'
             = let '(v, d, rest) := Libc.read_digits Libc.digit_val 10 s a n in
               (v, d + (n' - n), rest)).
  { clear. induction s as [|c s IH]; intros a n n'; cbn [Libc.read_digits].
    - f_equal. f_equal. lia.
    - destruct (Libc.digit_val c) as [d|].
      + rewrite (IH _ (n + 1) (n' + 1)).
        destruct (Libc.read_digits Libc.digit_val 10 s (a * 10 + d) (n + 1))
          as [[v d'] rest].
        f_equal. f_equal. lia.
      + f_equal. f_equal. lia. }
  rewrite (Hshift _ 0 0 (0 + k)), Hread. eexists. reflexivity.
Qed.

Lemma string_app_inv_head (a b c : string) :
  (a ++ b)%string = (a ++ c)%string -> b = c.
Proof.
  induction a as [|x a IH]; intros H; [exact H|].
  cbn [append] in H. inversion H. apply IH. assumption.
Qed.

(** Different frames have different names. *)
Lemma frame_name_injective (outputDir : string) (i j : nat) :
  Spec.frame_name outputDir i = Spec.frame_name outputDir j -> i = j.
Proof.
  unfold Spec.frame_name. intros H.
  apply string_app_inv_head in H. apply string_app_inv_head in H.
  destruct (read_fmt_0u 4 (Z.of_nat i) ".jpg" ltac:(lia) eq_refl) as [Di Hi].
  destruct (read_fmt_0u 4 (Z.of_nat j) ".jpg" ltac:(lia) eq_refl) as [Dj Hj].
  rewrite H, Hj in Hi. inversion Hi. lia.
Qed.

Lemma substring_prefix (n : nat) :
  forall a b : string,
    (n <= String.length a)%nat ->
    substring 0 n (a ++ b) = substring 0 n a.
Proof.
  induction n as [|n IH]; intros a b H.
  - destruct a; destruct b; reflexivity.
  - destruct a as [|x a]; [cbn in H; lia|].
    cbn [append substring]. rewrite IH by (cbn in H; lia). reflexivity.
Qed.

(** X19: the frames of one extract-frames run go to different files as long
    as their paths fit the path buffer (4096 bytes in braw-tool, 2048 in
    r3d-tool); with an output directory that fills the buffer every frame
    gets the same path, the directory name cut to the buffer. *)
Theorem X19_frame_paths (outputDir : string) (i j : nat) :
  ((String.length (Spec.frame_name outputDir i) < 4096)%nat ->
   (String.length (Spec.frame_name outputDir j) < 4096)%nat ->
   i <> j ->
   Braw.frame_path outputDir i <> Braw.frame_path outputDir j) /\
  ((String.length (Spec.frame_name outputDir i) < 2048)%nat ->
   (String.length (Spec.frame_name outputDir j) < 2048)%nat ->
   i <> j ->
   R3d.frame_path outputDir i <> R3d.frame_path outputDir j) /\
  ((4095 <= String.length outputDir)%nat ->
   Braw.frame_path outputDir i = substring 0 4095 outputDir /\
   Braw.frame_path outputDir j = substring 0 4095 outputDir) /\
  ((2047 <= String.length outputDir)%nat ->
   R3d.frame_path outputDir i = substring 0 2047 outputDir /\
   R3d.frame_path outputDir j = substring 0 2047 outputDir).
Proof.
  repeat split.
  - intros Hi Hj Hne H. apply Hne.
    rewrite (braw_frame_path_fits outputDir i Hi),
            (braw_frame_path_fits outputDir j Hj) in H.
    exact (frame_name_injective outputDir i j H).
  - intros Hi Hj Hne H. apply Hne.
    rewrite (r3d_frame_path_fits outputDir i Hi),
            (r3d_frame_path_fits outputDir j Hj) in H.
    exact (frame_name_injective outputDir i j H).
  - unfold Braw.frame_path, Libc.snprintf. apply substring_prefix. exact H.
  - unfold Braw.frame_path, Libc.snprintf. apply substring_prefix. exact H.
  - unfold R3d.frame_path, Libc.snprintf. apply substring_prefix. exact H.
  - unfold R3d.frame_path, Libc.snprintf. apply substring_prefix. exact H.
Qed.

(** X19 at the first two frames of a short directory. *)
Lemma X19_witness_first_two_frames :
  Braw.frame_path "out" 0 <> Braw.frame_path "out" 1.
Proof.
  apply (proj1 (X19_frame_paths "out" 0 1)).
  - apply Nat.ltb_lt. vm_compute. reflexivity.
  - apply Nat.ltb_lt. vm_compute. reflexivity.
  - discriminate.
Defined.

(** ** Whole seconds at a whole frame rate *)

(** A positive value of at most [prec] digits in the normal range is
    represented exactly: the mantissa is the value shifted to [prec]
    digits. *)
Lemma binary_normalize_exact (prec emax m e : Z) :
  0 < m ->
  let d := Zdigits2 m in
  d <= prec ->
  emin prec emax <= d + e - prec ->
  d + e <= emax ->
  exists M : positive,
    binary_normalize prec emax m e false = S754_finite false M (d + e - prec) /\
    Z.pos M = m * 2 ^ (prec - d).
Proof.
  intros Hm d Hd Hlo Hhi. destruct m as [|p|p]; try lia.
  pose proof (Zdigits2_bounds (Z.pos p) Hm) as [Hdlo Hdhi]. fold d in Hdlo, Hdhi.
  assert (Hd1 : 1 <= d) by (subst d; cbn; lia).
  unfold binary_normalize, binary_round.
  change (Z.pos (digits2_pos p)) with (Zdigits2 (Z.pos p)). fold d.
  assert (Hf : fexp prec emax (d + e) = d + e - prec) by (unfold fexp; lia).
  rewrite Hf. unfold shl_align.
  assert (Hpack : forall M : positive,
             Zdigits2 (Z.pos M) = prec ->
             binary_round_aux prec emax false (Z.pos M) (d + e - prec) loc_Exact
             = S754_finite false M (d + e - prec)).
  { intros M HM. rewrite binary_round_aux_fits.
    - unfold Round.pack.
      destruct (Z.leb_spec (d + e - prec) (emax - prec)); [reflexivity|lia].
    - lia.
    - rewrite HM. unfold fexp. lia. }
  destruct (Z.eq_dec d prec) as [E|E].
  - replace (d + e - prec - e) with 0 by lia. cbv iota beta.
    exists p. replace (prec - d) with 0 by lia.
    rewrite Z.pow_0_r, Z.mul_1_r. split; [|reflexivity].
    replace e with (d + e - prec) at 1 by lia. apply Hpack. fold d. exact E.
  - assert (Hneg : d + e - prec - e = Z.neg (Z.to_pos (prec - d))).
    { rewrite <- Pos2Z.opp_pos, Z2Pos.id by lia. lia. }
    rewrite Hneg. cbv iota beta.
    exists (Pos.iter xO p (Z.to_pos (prec - d))).
    assert (HM : Z.pos (Pos.iter xO p (Z.to_pos (prec - d))) = Z.pos p * 2 ^ (prec - d)).
    { rewrite pos_iter_xO, Z2Pos.id by lia. reflexivity. }
    split; [|exact HM].
    apply Hpack. rewrite HM, Zdigits2_mul_pow2 by lia. fold d. lia.
Qed.

Section ProductExact.
Variables prec emax : Z.
Hypothesis Hprec : 0 < prec.

(** The product of two positive values given with [prec]-digit mantissas
    is exact when it has at most [prec] digits: it truncates to the product
    of the values. *)
Lemma SFmul_exact (M1 M2 : positive) (v1 v2 : Z) :
  2 <= emax -> prec < emax ->
  0 < v1 -> 0 < v2 ->
  Z.pos M1 = v1 * 2 ^ (prec - Zdigits2 v1) ->
  Z.pos M2 = v2 * 2 ^ (prec - Zdigits2 v2) ->
  Zdigits2 v1 <= prec -> Zdigits2 v2 <= prec ->
  v1 * v2 < 2 ^ prec ->
  IEEE.trunc (SFmul prec emax (S754_finite false M1 (Zdigits2 v1 - prec))
                               (S754_finite false M2 (Zdigits2 v2 - prec)))
  = Some (v1 * v2).
Proof.
  intros Hemax Hpe Hv1 Hv2 E1 E2 Hd1 Hd2 Hprod.
  set (d1 := Zdigits2 v1) in *. set (d2 := Zdigits2 v2) in *.
  assert (Hd1' : 1 <= d1) by (subst d1; destruct v1; cbn; lia).
  assert (Hd2' : 1 <= d2) by (subst d2; destruct v2; cbn; lia).
  assert (Hv : 0 < v1 * v2) by nia.
  set (D := Zdigits2 (v1 * v2)).
  assert (HD1 : 1 <= D) by (subst D; destruct (v1 * v2); cbn; lia).
  assert (HD : D <= prec) by (apply Zdigits2_le_of_lt_pow; lia).
  pose proof (Zdigits2_bounds v1 Hv1) as [B1 B1']. fold d1 in B1, B1'.
  pose proof (Zdigits2_bounds v2 Hv2) as [B2 B2']. fold d2 in B2, B2'.
  pose proof (Zdigits2_bounds (v1 * v2) Hv) as [BD BD']. fold D in BD, BD'.
  assert (HDlo : d1 + d2 - 1 <= D).
  { assert (H : 2 ^ (d1 - 1 + (d2 - 1)) <= v1 * v2).
    { rewrite Z.pow_add_r by lia.
      pose proof (pow2_pos (d1 - 1) ltac:(lia)).
      pose proof (pow2_pos (d2 - 1) ltac:(lia)). nia. }
    pose proof (Zdigits2_ge_of_pow_le (v1 * v2) (d1 - 1 + (d2 - 1)) ltac:(lia) H).
    fold D in H0. lia. }
  rewrite SFmul_finite. cbn [xorb].
  set (mx := Z.pos M1 * Z.pos M2).
  set (ex := d1 - prec + (d2 - prec)).
  assert (Emx : mx = v1 * v2 * 2 ^ (2 * prec - d1 - d2)).
  { subst mx. rewrite E1, E2.
    replace (2 * prec - d1 - d2) with ((prec - d1) + (prec - d2)) by lia.
    rewrite Z.pow_add_r by lia. ring. }
  assert (Hdig : Zdigits2 mx = D + (2 * prec - d1 - d2)).
  { rewrite Emx. apply Zdigits2_mul_pow2; lia. }
  set (n := D + prec - d1 - d2).
  assert (Hn : 0 <= n) by (subst n; lia).
  assert (En : Z.max 0 (fexp prec emax (Zdigits2 mx + ex) - ex) = n).
  { rewrite Hdig. unfold fexp, emin. subst ex n. lia. }
  set (A := v1 * v2 * 2 ^ (prec - D)).
  assert (EA : A * 2 ^ n = mx).
  { rewrite Emx. subst A n. rewrite <- Z.mul_assoc, <- Z.pow_add_r by lia.
    f_equal. f_equal. lia. }
  pose proof (binary_round_aux_enclosed prec emax Hprec false mx ex loc_Exact A A
                ltac:(subst mx; lia)) as Hr.
  cbv zeta in Hr. rewrite En in Hr.
  destruct (Hr ltac:(lia) ltac:(cbn [Round.inexact]; lia))
    as [m2 [e2 [Hres [He2 [[HloV HhiV] [Hm2lo Hm2hi]]]]]].
  assert (HA : 2 ^ (prec - 1) <= A).
  { subst A.
    replace (prec - 1) with (D - 1 + (prec - D)) by lia.
    rewrite Z.pow_add_r by lia.
    pose proof (pow2_pos (prec - D) ltac:(lia)). nia. }
  pose proof (pow2_pos (prec - 1) ltac:(lia)) as Hc.
  assert (Hm2 : 0 < m2) by lia.
  destruct m2 as [|M|M]; try lia.
  rewrite Hres. unfold Round.pack.
  assert (Hexn : ex + n = D - prec) by (subst ex n; lia).
  rewrite Hexn in He2, HloV, HhiV.
  assert (Hfin : (e2 <=? emax - prec) = true) by (apply Z.leb_le; lia).
  rewrite Hfin. cbn [IEEE.trunc]. f_equal.
  set (dl := e2 - (D - prec)) in *.
  assert (Hdl : 0 <= dl <= 1) by (subst dl; lia).
  assert (EV : Z.pos M * 2 ^ dl = A) by lia.
  destruct (Z_le_gt_dec 0 e2) as [He|He].
  - rewrite Z.shiftl_mul_pow2 by lia.
    assert (Ee : e2 = dl + (D - prec)) by (subst dl; lia).
    assert (D = prec \/ (D = prec - 1 /\ dl = 1)) as [HDp|[HDp Hdl1]] by lia.
    + assert (Edl : dl = e2) by lia. rewrite <- Edl, EV. subst A.
      replace (prec - D) with 0 by lia. rewrite Z.pow_0_r. ring.
    + assert (He0 : e2 = 0) by lia. rewrite He0, Z.pow_0_r, Z.mul_1_r.
      assert (HA2 : A = v1 * v2 * 2).
      { subst A. replace (prec - D) with 1 by lia. reflexivity. }
      assert (HM2 : Z.pos M * 2 = A).
      { rewrite <- EV. replace dl with 1 by lia. reflexivity. }
      lia.
  - rewrite Z.shiftl_div_pow2 by lia.
    assert (Epow : 2 ^ (prec - D) = 2 ^ dl * 2 ^ (- e2)).
    { rewrite <- Z.pow_add_r by lia. f_equal. subst dl. lia. }
    pose proof (pow2_pos dl ltac:(lia)) as Hpdl.
    pose proof (pow2_pos (- e2) ltac:(lia)) as Hpne.
    assert (EM : Z.pos M = v1 * v2 * 2 ^ (- e2)).
    { subst A. rewrite Epow in EV.
      apply (Z.mul_cancel_r _ _ (2 ^ dl)); [lia|]. rewrite EV. ring. }
    rewrite EM. apply Z.div_mul. lia.
Qed.
End ProductExact.

(** [atof] of a printed unsigned number is the number as a double. *)
Lemma atof_fmt_u (k : Z) : 0 <= k -> Libc.atof (Libc.fmt_u k) = IEEE.double_of_Z k.
Proof.
  intros Hk. unfold Libc.atof.
  destruct (strtod_fmt_u k EmptyString Hk I) as [Hs _].
  rewrite string_app_empty_r in Hs. rewrite Hs. reflexivity.
Qed.

(** A whole frame rate below 2^24 is a positive binary32 value, and its
    promotion to double has the same value. *)
Lemma whole_rate_as_double (f : Z) :
  0 < f < 2 ^ 24 ->
  IEEE.gt (IEEE.single_of_Z f) (S754_zero false) = true /\
  exists M : positive,
    IEEE.double_of_single (IEEE.single_of_Z f)
    = S754_finite false M (Zdigits2 f - 53) /\
    Z.pos M = f * 2 ^ (53 - Zdigits2 f).
Proof.
  intros [Hf Hlt].
  assert (Hd1 : 1 <= Zdigits2 f) by (destruct f; cbn; lia).
  assert (Hd : Zdigits2 f <= 24) by (apply Zdigits2_le_of_lt_pow; lia).
  destruct (binary_normalize_exact IEEE.fprec IEEE.femax
              f 0 Hf ltac:(unfold IEEE.fprec; lia)
              ltac:(unfold emin, IEEE.fprec, IEEE.femax; lia)
              ltac:(unfold IEEE.femax; lia)) as [Ms [Es EMs]].
  unfold IEEE.single_of_Z. rewrite Es. unfold IEEE.fprec in EMs |- *.
  split; [reflexivity|].
  unfold IEEE.double_of_single.
  assert (Hdig : Zdigits2 (Z.pos Ms) = 24).
  { rewrite EMs, Zdigits2_mul_pow2 by lia. lia. }
  destruct (binary_normalize_exact IEEE.dprec IEEE.demax
              (Z.pos Ms) (Zdigits2 f + 0 - 24) ltac:(lia)
              ltac:(rewrite Hdig; unfold IEEE.dprec; lia)
              ltac:(rewrite Hdig; unfold emin, IEEE.dprec, IEEE.demax; lia)
              ltac:(rewrite Hdig; unfold IEEE.demax; lia)) as [M [Ed EM]].
  rewrite Hdig in Ed, EM.
  exists M. split.
  - rewrite Ed. unfold IEEE.dprec. f_equal. lia.
  - unfold IEEE.dprec in EM.
    rewrite EM, EMs, <- Z.mul_assoc, <- Z.pow_add_r by lia. f_equal. f_equal. lia.
Qed.

(** The product of a whole number of seconds and a whole frame rate is
    exact in double arithmetic. *)
Lemma whole_seconds_times_rate (undef : IEEE.float -> Z) (k f : Z) :
  0 <= k -> 0 < f < 2 ^ 24 -> k * f < 2 ^ 53 ->
  IEEE.to_unsigned undef 64
    (IEEE.dmul (IEEE.double_of_Z k) (IEEE.double_of_single (IEEE.single_of_Z f)))
  = k * f /\
  IEEE.gt (IEEE.double_of_Z k) (S754_zero false) = (0 <? k).
Proof.
  intros Hk Hf Hkf.
  destruct (whole_rate_as_double f Hf) as [_ [Mf [Ef EMf]]].
  rewrite Ef.
  destruct (Z.eq_dec k 0) as [->|Hk0].
  { split; [|reflexivity]. apply to_unsigned_exact; [reflexivity|lia]. }
  assert (Hk53 : 0 < k < 2 ^ 53) by nia.
  destruct (double_of_Z_exact k Hk53) as [Mk [Ek [EMk _]]].
  rewrite Ek. split.
  - apply to_unsigned_exact; [|nia].
    assert (Hdk : Zdigits2 k <= 53) by (apply Zdigits2_le_of_lt_pow; lia).
    assert (Hdf : Zdigits2 f <= 53)
      by (apply Zdigits2_le_of_lt_pow; [lia|split; [lia|]];
          apply Z.lt_trans with (2 ^ 24); lia).
    apply (SFmul_exact IEEE.dprec IEEE.demax ltac:(unfold IEEE.dprec; lia)
             Mk Mf k f); unfold IEEE.dprec, IEEE.demax; try lia; assumption.
  - destruct (Z.ltb_spec 0 k); [reflexivity|lia].
Qed.

(** X20: a whole number of seconds at a whole frame rate selects frame
    [seconds * rate].  With the time argument written as the unsigned
    decimal number [k], a frame rate of [f] frames per second
    ([0 < f < 2^24]) and [k * f < 2^53], both tools ask the SDK for frame
    [k * f], or for the last frame when the clip has [k * f] frames or
    fewer. *)
Theorem X20_whole_seconds_select_frame (undef : IEEE.float -> Z) (k f : Z) :
  0 <= k -> 0 < f < 2 ^ 24 -> k * f < 2 ^ 53 ->
  let timeSec := Libc.atof (Libc.fmt_u k) in
  let fps := IEEE.single_of_Z f in
  (forall clip : Braw.Clip,
      0 < Braw.out 0 (Braw.GetFrameCount clip) ->
      Braw.frameIndex undef clip fps timeSec
      = Z.min (k * f) (Braw.out 0 (Braw.GetFrameCount clip) - 1)) /\
  (forall clip : R3d.Clip,
      R3d.VideoAudioFramerate clip = fps ->
      0 < R3d.VideoFrameCount clip ->
      R3d.frameNo undef clip timeSec
      = Z.min (k * f) (R3d.VideoFrameCount clip - 1)).
Proof.
  intros Hk Hf Hkf timeSec fps.
  assert (Et : timeSec = IEEE.double_of_Z k) by (apply atof_fmt_u; exact Hk).
  destruct (whole_seconds_times_rate undef k f Hk Hf Hkf) as [Hidx Hgt].
  destruct (whole_rate_as_double f Hf) as [Hfps _].
  split.
  - intros clip Hcount. unfold Braw.frameIndex. rewrite Et. subst fps.
    rewrite Hidx.
    destruct (Z.ltb_spec 0 (Braw.out 0 (Braw.GetFrameCount clip))); [|lia].
    destruct (Z.leb_spec (Braw.out 0 (Braw.GetFrameCount clip)) (k * f));
      cbn [andb]; lia.
  - intros clip Hrate Hcount. unfold R3d.frameNo. rewrite Hrate, Et. subst fps.
    unfold R3d.zero. rewrite Hfps, Hgt, Hidx. cbn [andb].
    destruct (Z.ltb_spec 0 k) as [Hpos|Hzero].
    + destruct (Z.ltb_spec 0 (R3d.VideoFrameCount clip)); [|lia].
      destruct (Z.leb_spec (R3d.VideoFrameCount clip) (k * f)); cbn [andb]; lia.
    + assert (k = 0) by lia. subst k.
      destruct (Z.ltb_spec 0 (R3d.VideoFrameCount clip)); [|lia].
      destruct (Z.leb_spec (R3d.VideoFrameCount clip) 0); cbn [andb]; lia.
Qed.

(** X20 at 5 seconds and 24 frames per second: frame 120. *)
Lemma X20_witness_five_seconds :
  Braw.frameIndex Samples.undef Samples.braw_clip Samples.fps24 (Libc.atof "5") = 120
  /\ R3d.frameNo Samples.undef Samples.r3d_clip (Libc.atof "5") = 120.
Proof.
  destruct (X20_whole_seconds_select_frame Samples.undef 5 24
              ltac:(lia) ltac:(lia) ltac:(lia)) as [Hb Hr].
  split.
  - apply (Hb Samples.braw_clip). reflexivity.
  - apply (Hr Samples.r3d_clip); reflexivity.
Defined.

(** ** What the other commands print *)

Lemma occurs_substring (c : ascii) (n : nat) :
  forall s : string,
    Reader.occurs c s = false -> Reader.occurs c (substring 0 n s) = false.
Proof.
  induction n as [|n IH]; intros s H.
  - destruct s; reflexivity.
  - destruct s as [|x s]; [reflexivity|].
    cbn [Reader.occurs] in H. apply orb_false_elim in H. destruct H as [H1 H2].
    cbn [substring Reader.occurs]. rewrite H1, (IH s H2). reflexivity.
Qed.

Lemma frame_name_no_newline (outputDir : string) (i : nat) :
  Reader.occurs "010" outputDir = false ->
  Reader.occurs "010" (outputDir ++ "/frame_" ++ Libc.fmt_0u 4 (Z.of_nat i) ++ ".jpg")
  = false.
Proof.
  intros H. rewrite !occurs_app, H, fmt_0u_no_newline. reflexivity.
Qed.

Lemma braw_loop_no_newline (undef : IEEE.float -> Z) (clip : Braw.Clip)
      (fps : IEEE.float) (outputDir : string) (maxDim : Z)
      (times : list IEEE.float) :
  Reader.occurs "010" outputDir = false ->
  forall i : nat,
    Reader.occurs "010"
      (Braw.extract_frames_loop undef clip fps outputDir maxDim i times) = false.
Proof.
  intros H. induction times as [|t rest IH]; intros i; [reflexivity|].
  cbn [Braw.extract_frames_loop]. rewrite !occurs_app, IH.
  assert (Hp : Reader.occurs "010" (Braw.frame_path outputDir i) = false).
  { unfold Braw.frame_path, Libc.snprintf. apply occurs_substring.
    apply frame_name_no_newline. exact H. }
  destruct (0 <? i)%nat; destruct (_ =? 0);
    rewrite ?quoted_no_newline, ?Hp; reflexivity.
Qed.

Lemma r3d_loop_no_newline (undef : IEEE.float -> Z) (sdk : R3d.Sdk)
      (clip : R3d.Clip) (outputDir : string) (maxDim : Z)
      (times : list IEEE.float) :
  Reader.occurs "010" outputDir = false ->
  forall i : nat,
    Reader.occurs "010"
      (R3d.extract_frames_loop undef sdk clip outputDir maxDim i times) = false.
Proof.
  intros H. induction times as [|t rest IH]; intros i; [reflexivity|].
  cbn [R3d.extract_frames_loop]. rewrite !occurs_app, IH.
  assert (Hp : Reader.occurs "010" (R3d.frame_path outputDir i) = false).
  { unfold R3d.frame_path, Libc.snprintf. apply occurs_substring.
    apply frame_name_no_newline. exact H. }
  destruct (0 <? i)%nat; destruct (_ =? 0);
    rewrite ?quoted_no_newline, ?Hp; reflexivity.
Qed.

(** X21: what the commands other than probe print on standard output.
    extract-frame of either tool and extract-audio of r3d-tool print
    nothing, also when they succeed.  extract-frames of either tool, for an
    output directory without a newline, and extract-audio of braw-tool, for
    an output path without a newline, print nothing or exactly one line. *)
Theorem X21_what_the_other_commands_print (undef : IEEE.float -> Z) :
  let one_line (text : string) :=
    text = EmptyString \/
    exists line, text = (line ++ Libc.newline)%string /\
                 Reader.occurs "010" line = false in
  (forall (sdk : Braw.Sdk) (filePath : string) (timeSec : IEEE.float)
          (outputPath : string) (maxDim : Z),
      Platform.stdout (Braw.CmdExtractFrame undef sdk filePath timeSec outputPath maxDim)
      = EmptyString) /\
  (forall (sdk : R3d.Sdk) (filePath : string) (timeSec : IEEE.float)
          (outputPath : string) (maxDim : Z),
      Platform.stdout (R3d.cmd_extract_frame undef sdk filePath timeSec outputPath maxDim)
      = EmptyString) /\
  (forall (sdk : R3d.Sdk) (filePath outputPath : string),
      Platform.stdout (R3d.cmd_extract_audio undef sdk filePath outputPath)
      = EmptyString) /\
  (forall (sdk : Braw.Sdk) (filePath timesJSON outputDir : string) (maxDim : Z),
      Reader.occurs "010" outputDir = false ->
      one_line (Platform.stdout
                  (Braw.CmdExtractFrames undef sdk filePath timesJSON outputDir maxDim))) /\
  (forall (sdk : R3d.Sdk) (filePath timesJson outputDir : string) (maxDim : Z),
      Reader.occurs "010" outputDir = false ->
      one_line (Platform.stdout
                  (R3d.cmd_extract_frames undef sdk filePath timesJson outputDir maxDim))) /\
  (forall (sdk : Braw.Sdk) (filePath outputPath : string),
      Reader.occurs "010" outputPath = false ->
      one_line (Platform.stdout (Braw.CmdExtractAudio sdk filePath outputPath))).
Proof.
  intros one_line. repeat split.
  - intros sdk filePath timeSec outputPath maxDim. unfold Braw.CmdExtractFrame.
    destruct (Braw.CreateFactory sdk); cbn [negb]; [|reflexivity].
    destruct (Braw.is_ok (Braw.hr_CreateCodec sdk)); cbn [negb]; [|reflexivity].
    destruct (Braw.OpenClip sdk filePath) as [hr clip].
    destruct (Braw.is_ok hr); reflexivity.
  - intros sdk filePath timeSec outputPath maxDim. unfold R3d.cmd_extract_frame.
    destruct (R3d.LoadFrom sdk filePath) as [[|code] clip]; reflexivity.
  - intros sdk filePath outputPath.
    exact (proj1 (r3d_cmd_extract_audio_outcome undef sdk filePath outputPath)).
  - intros sdk filePath timesJSON outputDir maxDim H. subst one_line. cbv beta.
    unfold Braw.CmdExtractFrames.
    destruct (Braw.ParseTimesJSON timesJSON) as [|t times]; [left; reflexivity|].
    destruct (Braw.CreateFactory sdk); cbn [negb]; [|left; reflexivity].
    destruct (Braw.is_ok (Braw.hr_CreateCodec sdk)); cbn [negb]; [|left; reflexivity].
    destruct (Braw.OpenClip sdk filePath) as [hr clip].
    destruct (Braw.is_ok hr); cbn [negb]; [|left; reflexivity].
    right. cbn [Platform.stdout Braw.exit_with].
    apply (one_line_cons "["); [reflexivity|].
    apply one_line_cons; [apply braw_loop_no_newline; exact H|].
    apply (one_line_cons "]"); [reflexivity|]. apply one_line_end.
  - intros sdk filePath timesJson outputDir maxDim H. subst one_line. cbv beta.
    unfold R3d.cmd_extract_frames.
    destruct (R3d.parse_timesJson timesJson) as [|t times]; [left; reflexivity|].
    destruct (R3d.LoadFrom sdk filePath) as [[|code] clip]; [|left; reflexivity].
    right. cbn [Platform.stdout R3d.exit_with].
    apply (one_line_cons "["); [reflexivity|].
    apply one_line_cons; [apply r3d_loop_no_newline; exact H|].
    apply (one_line_cons "]"); [reflexivity|]. apply one_line_end.
  - intros sdk filePath outputPath H. subst one_line. cbv beta.
    unfold Braw.CmdExtractAudio.
    destruct (Braw.CreateFactory sdk); cbn [negb]; [|left; reflexivity].
    destruct (Braw.is_ok (Braw.hr_CreateCodec sdk)); cbn [negb]; [|left; reflexivity].
    destruct (Braw.OpenClip sdk filePath) as [hr clip].
    destruct (Braw.is_ok hr); cbn [negb]; [|left; reflexivity].
    destruct (Braw.QueryInterface_audio clip) as [hr' [audio|]]; [|left; reflexivity].
    destruct (Braw.is_ok hr'); cbn [negb]; [|left; reflexivity].
    destruct ((_ =? 0) || (_ =? 0)); [left; reflexivity|].
    destruct (Braw.fopen_wb sdk outputPath); cbn [negb]; [|left; reflexivity].
    right. cbn [Platform.stdout].
    repeat match goal with
           | |- exists line, (?a ++ ?r)%string = _ /\ _ =>
               apply (one_line_cons a r);
               [rewrite ?key_no_newline, ?quoted_no_newline, ?fmt_u_no_newline, ?H;
                reflexivity|]
           end.
    apply one_line_end.
Qed.

(** X21 at two frames written below [out]. *)
Lemma X21_witness_two_frames :
  Platform.stdout
    (Braw.CmdExtractFrames Samples.undef Samples.braw_sdk "clip.braw" "[0,1]" "out" 512)
  = EmptyString \/
  exists line,
    Platform.stdout
      (Braw.CmdExtractFrames Samples.undef Samples.braw_sdk "clip.braw" "[0,1]" "out" 512)
    = (line ++ Libc.newline)%string /\
    Reader.occurs "010" line = false.
Proof.
  apply (X21_what_the_other_commands_print Samples.undef). reflexivity.
Defined.

(** ** The number after the max-dim option *)

Lemma strtol10_fmt_u (n : Z) :
  0 <= n -> Libc.strtol10 (Libc.fmt_u n) = Z.min Libc.LONG_MAX n.
Proof.
  intros Hn.
  destruct (digits_fuel_shape (Z.to_nat (Z.log2 n)) n EmptyString Hn I)
    as [d [s' [Es [Hd _]]]].
  fold (Libc.fmt_u n) in Es.
  destruct (read_fmt_u n EmptyString Hn I) as [D [_ Hread]].
  rewrite string_app_empty_r in Hread.
  unfold Libc.strtol10.
  assert (Hskip : match Libc.skip_space (Libc.fmt_u n) with
                  | String "-"%char r => (true, r)
                  | String "+"%char r => (false, r)
                  | r => (false, r)
                  end = (false, Libc.fmt_u n)).
  { rewrite Es. clear Es.
    destruct d as [[] [] [] [] [] [] [] []];
      solve [reflexivity | exfalso; apply Hd; reflexivity]. }
  rewrite Hskip, Hread.
  unfold Libc.LONG_MIN, Libc.LONG_MAX. lia.
Qed.

(** X22: the number written after [--max-dim] is the number the tools use.
    For an unsigned decimal number [n] below 2^31, written right after the
    option, r3d-tool's [parseMaxDim] and braw-tool's scan both deliver [n];
    a number from 2^31 up to the largest [long] is delivered reduced to 32
    bits, two's complement. *)
Theorem X22_max_dim_value (n : Z) (rest : list string) (i : nat) :
  0 <= n <= Libc.LONG_MAX ->
  R3d.parseMaxDim ("--max-dim"%string :: Libc.fmt_u n :: rest) = CInt.int32_t n /\
  Braw.find_max_dim i ("--max-dim"%string :: Libc.fmt_u n :: rest)
  = Some (CInt.int32_t n, i) /\
  (n < 2 ^ 31 -> CInt.int32_t n = n).
Proof.
  intros Hn.
  assert (Ha : Libc.atoi (Libc.fmt_u n) = CInt.int32_t n).
  { unfold Libc.atoi. rewrite strtol10_fmt_u by lia. f_equal. lia. }
  split; [|split].
  - cbn [R3d.parseMaxDim]. 
    change (Libc.strcmp_eq "--max-dim" "--max-dim") with true. cbv iota.
    exact Ha.
  - cbn [Braw.find_max_dim].
    change (Libc.strcmp_eq "--max-dim" "--max-dim") with true. cbv iota.
    rewrite Ha. reflexivity.
  - intros Hlt. apply int32_small. unfold CInt.INT_MAX. lia.
Qed.

(** X22 at the value 256. *)
Lemma X22_witness_256 :
  R3d.parseMaxDim ["--max-dim"; "256"]%string = 256.
Proof.
  destruct (X22_max_dim_value 256 [] 5 ltac:(unfold Libc.LONG_MAX; lia))
    as [Hr [_ Hsmall]].
  change (R3d.parseMaxDim ["--max-dim"; Libc.fmt_u 256]%string = 256).
  rewrite Hr. apply Hsmall. lia.
Defined.

(** ** When a frame is extracted *)

Lemma braw_ProcessComplete_success (undef : IEEE.float -> Z) (f : Braw.FrameSdk)
      (outputPath : string) (maxDim : Z) :
  Braw.success (Braw.ProcessComplete undef f (Some outputPath) maxDim) = true <->
  Braw.is_ok (Braw.hr_ProcessComplete f) = true /\
  Braw.is_ok (fst (Braw.img_GetWidth f)) = true /\
  Braw.is_ok (fst (Braw.img_GetHeight f)) = true /\
  Braw.is_ok (fst (Braw.img_GetResourceSizeBytes f)) = true /\
  Braw.is_ok (fst (Braw.img_GetResource f)) = true /\
  snd (Braw.img_GetResource f) = true /\
  Braw.WriteJPEG undef (Braw.frame_cg f)
                 (snd (Braw.img_GetWidth f)) (snd (Braw.img_GetHeight f)) maxDim = true.
Proof.
  unfold Braw.ProcessComplete.
  destruct (Braw.is_ok (Braw.hr_ProcessComplete f)) eqn:E0.
  2:{ rewrite !E0. cbn. split; [discriminate|]. intros [H _]. discriminate. }
  destruct (Braw.img_GetWidth f) as [hw w]. cbn [fst snd].
  destruct (Braw.is_ok hw) eqn:E1.
  2:{ rewrite !E1. cbn. split; [discriminate|]. intros [_ [H _]]. discriminate. }
  destruct (Braw.img_GetHeight f) as [hh h]. cbn [fst snd].
  destruct (Braw.is_ok hh) eqn:E2.
  2:{ rewrite !E2. cbn. split; [discriminate|]. intros [_ [_ [H _]]]. discriminate. }
  destruct (Braw.img_GetResourceSizeBytes f) as [hs sz]. cbn [fst snd].
  destruct (Braw.is_ok hs) eqn:E3.
  2:{ rewrite !E3. cbn. split; [discriminate|]. intros [_ [_ [_ [H _]]]]. discriminate. }
  destruct (Braw.img_GetResource f) as [hg raw]. cbn [fst snd].
  destruct (Braw.is_ok hg) eqn:E4; cbn [andb].
  2:{ cbn. split; [discriminate|]. intros [_ [_ [_ [_ [H _]]]]]. discriminate. }
  destruct raw.
  2:{ cbn. split; [discriminate|]. intros [_ [_ [_ [_ [_ [H _]]]]]]. discriminate. }
  destruct (Braw.WriteJPEG undef (Braw.frame_cg f) w h maxDim); cbn.
  - split; [intros _; repeat split; reflexivity|reflexivity].
  - split; [discriminate|]. intros [_ [_ [_ [_ [_ [_ H]]]]]]. discriminate.
Qed.

(** X23: when extract-frame succeeds.  braw-tool exits with code 0 exactly
    when the clip opens, every call it checks for the frame returns [S_OK],
    the processed image has a resource and [WriteJPEG] returns true;
    r3d-tool exactly when the clip loads, the buffer of the decode size is
    allocated, the frame decodes and [writeBGRAasJPEG] returns true. *)
Theorem X23_extract_frame_succeeds_exactly_when (undef : IEEE.float -> Z) :
  (forall (sdk : Braw.Sdk) (filePath outputPath : string)
          (timeSec : IEEE.float) (maxDim : Z),
      let clip := snd (Braw.OpenClip sdk filePath) in
      let fps := Braw.out Braw.zero (Braw.GetFrameRate clip) in
      let f := Braw.frame_sdk clip 0 in
      Platform.exit_code
        (Braw.CmdExtractFrame undef sdk filePath timeSec outputPath maxDim) = 0
      <->
      Setup.braw_opens sdk filePath /\
      Setup.braw_frame_calls_ok f (Braw.frameIndex undef clip fps timeSec) /\
      snd (Braw.img_GetResource f) = true /\
      Braw.WriteJPEG undef (Braw.frame_cg f)
                     (snd (Braw.img_GetWidth f)) (snd (Braw.img_GetHeight f)) maxDim
      = true)
  /\
  (forall (sdk : R3d.Sdk) (filePath outputPath : string)
          (timeSec : IEEE.float) (maxDim : Z),
      let clip := snd (R3d.LoadFrom sdk filePath) in
      let '(mode, decW, decH) := R3d.decode_size (R3d.Width clip) (R3d.Height clip) in
      Platform.exit_code
        (R3d.cmd_extract_frame undef sdk filePath timeSec outputPath maxDim) = 0
      <->
      Setup.r3d_loads sdk filePath /\
      R3d.alloc_ok sdk 16 (R3d.decode_bufSize decW decH) = true /\
      R3d.DecodeVideoFrame clip 0 (R3d.frameNo undef clip timeSec) mode
      = R3d.DSDecodeOK /\
      R3d.writeBGRAasJPEG (R3d.jpeg_cg sdk 0) decW decH maxDim = true).
Proof.
  split.
  - intros sdk filePath outputPath timeSec maxDim clip fps f.
    unfold Setup.braw_opens, Setup.braw_frame_calls_ok, Braw.CmdExtractFrame.
    subst clip fps f.
    destruct (Braw.CreateFactory sdk); cbn [negb].
    2:{ cbn. split; [discriminate|]. intros [[H _] _]. discriminate. }
    destruct (Braw.is_ok (Braw.hr_CreateCodec sdk)); cbn [negb].
    2:{ cbn. split; [discriminate|]. intros [[_ [H _]] _]. discriminate. }
    destruct (Braw.OpenClip sdk filePath) as [hr clip]. cbn [fst snd].
    destruct (Braw.is_ok hr); cbn [negb].
    2:{ cbn. split; [discriminate|]. intros [[_ [_ H]] _]. discriminate. }
    cbn [Platform.exit_code Braw.exit_with].
    set (fps := Braw.out Braw.zero (Braw.GetFrameRate clip)).
    set (f := Braw.frame_sdk clip 0).
    unfold Braw.ExtractOneFrame.
    destruct (Braw.is_ok (Braw.hr_SetCallback f)); cbn [negb].
    2:{ split; [discriminate|]. intros [_ [[H _] _]]. discriminate. }
    destruct (Braw.is_ok (Braw.hr_CreateJobReadFrame f _)); cbn [negb].
    2:{ split; [discriminate|]. intros [_ [[_ [H _]] _]]. discriminate. }
    destruct (Braw.is_ok (Braw.hr_SubmitRead f)); cbn [negb].
    2:{ split; [discriminate|]. intros [_ [[_ [_ [H _]]] _]]. discriminate. }
    unfold Braw.FlushJobs.
    destruct (Braw.is_ok (Braw.hr_ReadComplete f)).
    2:{ cbn. split; [discriminate|]. intros [_ [[_ [_ [_ [H _]]]] _]]. discriminate. }
    destruct (Braw.is_ok (Braw.hr_CreateJobDecodeAndProcessFrame f)) eqn:Ec.
    2:{ rewrite Ec. cbn. split; [discriminate|].
        intros [_ [[_ [_ [_ [_ [H _]]]]] _]]. discriminate. }
    destruct (Braw.is_ok (Braw.hr_SubmitDecode f)).
    2:{ cbn. split; [discriminate|].
        intros [_ [[_ [_ [_ [_ [_ [H _]]]]]] _]]. discriminate. }
    pose proof (braw_ProcessComplete_success undef f outputPath maxDim) as Hp.
    destruct (Braw.success (Braw.ProcessComplete undef f (Some outputPath) maxDim));
      cbn [negb].
    + destruct (proj1 Hp eq_refl) as [H1 [H2 [H3 [H4 [H5 [H6 H7]]]]]].
      split; [|reflexivity]. intros _. repeat split; assumption.
    + split; [discriminate|].
      intros [_ [[_ [_ [_ [_ [_ [_ [H1 [H2 [H3 [H4 H5]]]]]]]]]] [H6 H7]]].
      assert (false = true); [|discriminate].
      apply Hp. repeat split; assumption.
  - intros sdk filePath outputPath timeSec maxDim clip.
    pose proof (r3d_decodeFrame_decode_size undef sdk clip 0 timeSec outputPath maxDim)
      as Hd.
    destruct (R3d.decode_size (R3d.Width clip) (R3d.Height clip)) as [[mode decW] decH].
    unfold Setup.r3d_loads, R3d.cmd_extract_frame. subst clip.
    destruct (R3d.LoadFrom sdk filePath) as [[|code] clip]; cbn [fst snd] in *.
    2:{ cbn. split; [discriminate|]. intros [H _]. discriminate. }
    cbn [Platform.exit_code R3d.exit_with]. rewrite Hd.
    destruct (R3d.alloc_ok sdk 16 _); cbn [negb].
    2:{ split; [discriminate|]. intros [_ [H _]]. discriminate. }
    destruct (R3d.DecodeVideoFrame clip 0 _ mode) as [|code];
      cbn [negb R3d.decode_ok].
    2:{ split; [discriminate|]. intros [_ [_ [H _]]]. discriminate. }
    destruct (R3d.writeBGRAasJPEG _ decW decH maxDim); cbn [negb].
    + split; [|reflexivity]. intros _. repeat split; reflexivity.
    + split; [discriminate|]. intros [_ [_ [_ H]]]. discriminate.
Qed.

(** X23 at the first frame of the sample clip. *)
Lemma X23_witness_first_frame :
  Platform.exit_code
    (Braw.CmdExtractFrame Samples.undef Samples.braw_sdk "clip.braw"
                          (Libc.atof "0") "out.jpg" 512) = 0.
Proof.
  apply (proj1 (X23_extract_frame_succeeds_exactly_when Samples.undef)
               Samples.braw_sdk "clip.braw" "out.jpg" (Libc.atof "0") 512).
  vm_compute. repeat split; reflexivity.
Defined.

(** ** The exit code of extract-audio *)



(** ** The header braw-tool writes *)

(** X25: the header fields of braw-tool's WAV.  In every run that exits
    with code 0 the format chunk size is 16, the format is PCM and the
    content size is 36 more than the data size, modulo 2^32.  When
    [channelCount * bitDepth] is a multiple of 8 below 2^19 and
    [sampleRate * channelCount * bitDepth] is below 2^32, the block
    alignment is [channelCount * bitDepth / 8] and the bytes per second are
    the sample rate times the block alignment. *)
Theorem X25_braw_wav_header_fields (sdk : Braw.Sdk) (filePath outputPath : string) :
  let run := Braw.CmdExtractAudio sdk filePath outputPath in
  Platform.exit_code run = 0 ->
  exists file audio,
    Platform.written run = Some file /\
    snd (Braw.QueryInterface_audio (snd (Braw.OpenClip sdk filePath))) = Some audio /\
    let hdr := Platform.file_header file in
    let channelCount := Braw.out 0 (Braw.GetAudioChannelCount audio) in
    let bitDepth := Braw.out 0 (Braw.GetAudioBitDepth audio) in
    let sampleRate := Braw.out 0 (Braw.GetAudioSampleRate audio) in
    Braw.fmtChunkSize hdr = 16 /\
    Braw.audioFormat hdr = 1 /\
    Braw.sampleRate hdr = sampleRate /\
    Braw.wavContentSize hdr = CInt.uint32_t (36 + Braw.dataBytes hdr) /\
    (0 <= sampleRate -> 0 < channelCount -> 0 <= bitDepth ->
     channelCount * bitDepth < 2 ^ 19 ->
     (channelCount * bitDepth) mod 8 = 0 ->
     sampleRate * channelCount * bitDepth < 2 ^ 32 ->
     Braw.blockAlign hdr = channelCount * bitDepth / 8 /\
     Braw.bytesPerSecond hdr = Braw.sampleRate hdr * Braw.blockAlign hdr).
Proof.
  intros run. subst run. unfold Braw.CmdExtractAudio.
  destruct (Braw.CreateFactory sdk); cbn [negb]; [|discriminate].
  destruct (Braw.is_ok (Braw.hr_CreateCodec sdk)); cbn [negb]; [|discriminate].
  destruct (Braw.OpenClip sdk filePath) as [hr clip]. cbn [fst snd].
  destruct (Braw.is_ok hr); cbn [negb]; [|discriminate].
  destruct (Braw.QueryInterface_audio clip) as [hr' [audio|]]; [|discriminate].
  destruct (Braw.is_ok hr'); cbn [negb]; [|discriminate].
  destruct ((_ =? 0) || (_ =? 0)); [discriminate|].
  destruct (Braw.fopen_wb sdk outputPath); cbn [negb]; [|discriminate].
  intros _. cbn [Platform.written]. eexists. exists audio.
  split; [reflexivity|]. split; [reflexivity|].
  cbn [Platform.file_header Braw.fmtChunkSize Braw.audioFormat Braw.sampleRate
       Braw.wavContentSize Braw.dataBytes Braw.blockAlign Braw.bytesPerSecond].
  set (ch := Braw.out 0 (Braw.GetAudioChannelCount audio)).
  set (bd := Braw.out 0 (Braw.GetAudioBitDepth audio)).
  set (sr := Braw.out 0 (Braw.GetAudioSampleRate audio)).
  repeat split; try reflexivity.
  - assert (Hq : 0 <= ch * bd / 8 < 2 ^ 16).
    { split; [apply Z.div_pos; nia|apply Z.div_lt_upper_bound; lia]. }
    unfold CInt.uint16_t, CInt.uint32_t.
    rewrite (wrap_small 32 (ch * bd)) by nia.
    apply wrap_small. exact Hq.
  - assert (Hq : 0 <= ch * bd / 8 < 2 ^ 16).
    { split; [apply Z.div_pos; nia|apply Z.div_lt_upper_bound; lia]. }
    assert (Hexact : ch * bd = 8 * (ch * bd / 8)).
    { pose proof (Z.div_mod (ch * bd) 8 ltac:(lia)). lia. }
    unfold CInt.uint16_t, CInt.uint32_t.
    rewrite (wrap_small 32 (ch * bd)) by nia.
    rewrite (wrap_small 16 (ch * bd / 8)) by exact Hq.
    destruct (Z.eq_dec bd 0) as [Hzero|Hnz].
    + rewrite Hzero, !Z.mul_0_r. reflexivity.
    + assert (Hprod : 0 <= sr * ch < 2 ^ 32) by nia.
      rewrite (wrap_small 32 (sr * ch)) by lia.
      rewrite wrap_small by nia.
      rewrite <- Z.mul_assoc, Hexact.
      replace (sr * (8 * (ch * bd / 8))) with (sr * (ch * bd / 8) * 8) by ring.
      rewrite Z.div_mul by lia. rewrite <- Hexact. reflexivity.
Qed.

(** X25 at the sample clip: 16-bit stereo at 48 kHz. *)
Lemma X25_witness_stereo_clip :
  exists file,
    Platform.written (Braw.CmdExtractAudio Samples.braw_sdk "clip.braw" "out.wav")
    = Some file /\
    Braw.blockAlign (Platform.file_header file) = 4 /\
    Braw.bytesPerSecond (Platform.file_header file) = 192000.
Proof.
  destruct (X25_braw_wav_header_fields Samples.braw_sdk "clip.braw" "out.wav" eq_refl)
    as [file [audio [Hw _]]].
  exists file. split; [exact Hw|].
  vm_compute in Hw. inversion Hw; subst file. split; reflexivity.
Defined.

(** ** The whole track in r3d-tool *)

(** The decode loop of r3d-tool collects two bytes for every sample of
    every channel when each decode delivers what was asked for. *)
Lemma r3d_decode_audio_length (undef : IEEE.float -> Z) (clip : R3d.Clip)
      (isFloat : bool) (channels totalSamples : Z) (fuel : nat) :
  Setup.r3d_decodes_what_is_asked clip isFloat ->
  0 < channels < 2 ^ 32 -> totalSamples < 2 ^ 63 ->
  forall decoded dataBytes : Z,
    0 <= decoded <= totalSamples ->
    totalSamples - decoded <= Z.of_nat fuel ->
    Z.of_nat (List.length
                (fst (R3d.decode_audio undef fuel clip isFloat channels
                                       totalSamples decoded dataBytes)))
    = 2 * channels * (totalSamples - decoded).
Proof.
  intros Hdec Hch Htot.
  induction fuel as [|fuel IH]; intros decoded dataBytes Hd Hfuel.
  - assert (decoded = totalSamples) by lia. subst decoded.
    cbn [R3d.decode_audio fst List.length].
    rewrite Z.sub_diag, Z.mul_0_r. reflexivity.
  - cbn [R3d.decode_audio].
    destruct (Z.ltb_spec decoded totalSamples) as [Hlt|Hge].
    2:{ assert (decoded = totalSamples) by lia. subst decoded.
        cbn [fst List.length]. rewrite Z.sub_diag, Z.mul_0_r. reflexivity. }
    set (want := if totalSamples - decoded <? R3d.chunkSamples
                 then totalSamples - decoded else R3d.chunkSamples).
    assert (Hwant : 0 < want <= 48000 /\ decoded + want <= totalSamples).
    { subst want. unfold R3d.chunkSamples.
      destruct (Z.ltb_spec (totalSamples - decoded) 48000); lia. }
    specialize (Hdec decoded want).
    set (call := if isFloat then
                   let '(ds, got, fbuf) := R3d.DecodeFloatAudio clip decoded want in
                   (ds, got, fbuf, fun _ : nat => 0)
                 else
                   let '(ds, got, raw) := R3d.DecodeAudio clip decoded want in
                   (ds, got, fun _ : nat => R3d.zero, raw)).
    assert (Hcall : fst (fst call) = (R3d.DSDecodeOK, want)).
    { subst call. destruct isFloat.
      - destruct (R3d.DecodeFloatAudio clip decoded want) as [[ds got] fbuf].
        exact Hdec.
      - destruct (R3d.DecodeAudio clip decoded want) as [[ds got] raw].
        exact Hdec. }
    destruct call as [[[ds got] fbuf] raw]. cbn [fst] in Hcall.
    inversion Hcall; subst ds got. cbn [R3d.decode_ok negb orb].
    destruct (Z.eqb_spec want 0) as [E|_]; [lia|].
    set (totalValues := CInt.uint64_t (want * channels)).
    assert (Etv : totalValues = want * channels).
    { subst totalValues. apply wrap_small. split; [nia|].
      apply Z.le_lt_trans with (48000 * 2 ^ 32); [nia|reflexivity]. }
    set (out16 := R3d.convert_chunk undef isFloat totalValues fbuf raw).
    set (wb := CInt.uint64_t (totalValues * 2)).
    assert (Ewb : wb = want * channels * 2).
    { subst wb. rewrite Etv. apply wrap_small. split; [nia|].
      apply Z.le_lt_trans with (48000 * 2 ^ 32 * 2); [nia|reflexivity]. }
    set (bytes := firstn (Z.to_nat wb) (List.concat (List.map R3d.int16_bytes out16))).
    assert (Hbytes : Z.of_nat (List.length bytes) = wb).
    { subst bytes. rewrite length_firstn.
      assert (Hc : List.length (List.concat (List.map R3d.int16_bytes out16))
                   = (2 * List.length out16)%nat).
      { clear. induction out16 as [|v l IHl]; [reflexivity|].
        cbn [List.map List.concat]. rewrite length_app, IHl.
        cbn [R3d.int16_bytes List.length]. lia. }
      rewrite Hc. subst out16. unfold R3d.convert_chunk.
      rewrite length_map, length_seq. rewrite Ewb, Etv. nia. }
    assert (Edec : CInt.uint64_t (decoded + want) = decoded + want).
    { apply wrap_small. split; [lia|].
      apply Z.le_lt_trans with totalSamples; [lia|].
      apply Z.lt_trans with (2 ^ 63); [exact Htot|reflexivity]. }
    specialize (IH (CInt.uint64_t (decoded + want))
                   (CInt.uint32_t (dataBytes + CInt.uint32_t wb))).
    destruct (R3d.decode_audio undef fuel clip isFloat channels totalSamples
                (CInt.uint64_t (decoded + want))
                (CInt.uint32_t (dataBytes + CInt.uint32_t wb))) as [rest final].
    cbn [fst] in IH |- *.
    rewrite length_app, Nat2Z.inj_add, Hbytes, IH, Ewb, Edec by (rewrite Edec; lia).
    ring.
Qed.



(** ** Samples that are numbers *)

(** X27: how r3d-tool converts the values of a decoded chunk that are
    numbers.  A float sample that is not NaN is clamped into [-1, 1]: a
    sample above 1 becomes 1, one below -1 becomes -1, any other is left as
    it is; the output is the product of the clamped sample with 32767,
    rounded to binary32 and truncated, and lies in [-32767, 32767].  An
    integer sample gives the [int16] spelled by its two leading bytes, the
    top 16 bits of the 32-bit big-endian sample. *)
Theorem X27_samples_that_are_numbers (undef : IEEE.float -> Z)
        (totalValues : Z) (fbuf : nat -> IEEE.float) (raw : nat -> Z) (i : nat) :
  (i < Z.to_nat totalValues)%nat ->
  (valid_binary IEEE.fprec IEEE.femax (fbuf i) = true ->
   IEEE.is_nan (fbuf i) = false ->
   let s := fbuf i in
   let c := R3d.clamp_sample s in
   IEEE.gt c R3d.one_f = false /\
   IEEE.lt c R3d.minus_one_f = false /\
   (IEEE.gt s R3d.one_f = true -> c = R3d.one_f) /\
   (IEEE.lt s R3d.minus_one_f = true -> c = R3d.minus_one_f) /\
   (IEEE.gt s R3d.one_f = false -> IEEE.lt s R3d.minus_one_f = false -> c = s) /\
   exists t,
     IEEE.trunc (IEEE.fmul c (IEEE.single_of_Z 32767)) = Some t /\
     nth_error (R3d.convert_chunk undef true totalValues fbuf raw) i = Some t /\
     - 32767 <= t <= 32767)
  /\
  (let p0 := raw (i * 4)%nat in
   let p1 := raw (i * 4 + 1)%nat in
   let p2 := raw (i * 4 + 2)%nat in
   let p3 := raw (i * 4 + 3)%nat in
   0 <= p0 < 256 -> 0 <= p1 < 256 -> 0 <= p2 < 256 -> 0 <= p3 < 256 ->
   let sample := p0 * 2 ^ 24 + p1 * 2 ^ 16 + p2 * 2 ^ 8 + p3 in
   nth_error (R3d.convert_chunk undef false totalValues fbuf raw) i
   = Some (CInt.int16_t (p0 * 256 + p1)) /\
   CInt.int16_t (p0 * 256 + p1) = CInt.int16_t (Z.shiftr sample 16)).
Proof.
  intros Hi. split.
  - intros Hv Hn s c.
    destruct (clamp_sample_cases s) as [H1 [H2 [H3 [H4 H5]]]].
    fold c in H1, H2, H3, H4, H5.
    repeat (split; [assumption|]).
    destruct (pcm16_of_float_in_range undef s Hv Hn) as [t [Et [Ep Hr]]].
    exists t. split; [exact Et|]. split; [|exact Hr].
    rewrite (convert_chunk_nth undef true totalValues fbuf raw i Hi).
    rewrite <- Ep. reflexivity.
  - intros p0 p1 p2 p3 H0 H1 H2 H3 sample. split.
    + rewrite (convert_chunk_nth undef false totalValues fbuf raw i Hi).
      unfold R3d.pcm16_of_raw. fold p0 p1.
      rewrite lor_bytes by exact H1. reflexivity.
    + f_equal. rewrite Z.shiftr_div_pow2 by lia. subst sample.
      apply Z.div_unique with (p2 * 2 ^ 8 + p3); lia.
Qed.

(** X27 at a sample of one half, and at the bytes [0x12 0x34 0x56 0x00]. *)
Lemma X27_witness_half_scale :
  nth_error (R3d.convert_chunk Samples.undef true 1
               (fun _ => S754_finite false 8388608 (- 24)) (fun _ => 0)) 0
  = Some 16383.
Proof.
  destruct (X27_samples_that_are_numbers Samples.undef 1
              (fun _ => S754_finite false 8388608 (- 24)) (fun _ => 0) 0%nat
              ltac:(apply Nat.ltb_lt; reflexivity)) as [Hf _].
  destruct (Hf eq_refl eq_refl) as [_ [_ [_ [_ [_ [t [Et [Ep _]]]]]]]].
  rewrite Ep. vm_compute in Et. congruence.
Defined.

(** * The printed JSON, read back *)

(** ** Reading what was printed *)

(** *** Numbers *)

Lemma is_digit_char (k : nat) :
  (k < 10)%nat -> Json.is_digit (ascii_of_nat (48 + k)) = true.
Proof.
  intros H. do 10 (destruct k as [|k]; [reflexivity|]). lia.
Qed.

Lemma decimal_digit (z : Z) :
  Json.is_digit (ascii_of_nat (48 + Z.to_nat (z mod 10))) = true.
Proof.
  apply is_digit_char. pose proof (Z.mod_pos_bound z 10 ltac:(lia)). lia.
Qed.

(** The digits [digits_fuel] puts in front of [acc] are read with those of
    [acc]. *)
Lemma digits_of_digits_fuel (fuel : nat) :
  forall (z : Z) (acc d rest : string),
    Json.digits acc = (d, rest) ->
    exists d', Json.digits (Libc.digits_fuel fuel z acc) = (d', rest) /\
               (Libc.digits_fuel fuel z EmptyString ++ d)%string = d'.
Proof.
  induction fuel as [|f IH]; intros z acc d rest H.
  - exists d. split; [exact H|reflexivity].
  - rewrite !digits_fuel_step.
    assert (Hs : Json.digits (String (ascii_of_nat (48 + Z.to_nat (z mod 10))) acc)
                 = (String (ascii_of_nat (48 + Z.to_nat (z mod 10))) d, rest)).
    { cbn [Json.digits]. rewrite decimal_digit, H. reflexivity. }
    destruct (z / 10 =? 0).
    + eexists. split; [exact Hs|reflexivity].
    + destruct (IH (z / 10) _ _ _ Hs) as [d' [H1 H2]].
      exists d'. split; [exact H1|].
      rewrite <- H2.
      rewrite (digits_fuel_app f (z / 10) (String _ EmptyString)).
      rewrite string_app_assoc. reflexivity.
Qed.

Lemma digits_of_fmt_u (z : Z) (s d rest : string) :
  Json.digits s = (d, rest) ->
  Json.digits (Libc.fmt_u z ++ s) = ((Libc.fmt_u z ++ d)%string, rest).
Proof.
  intros H. unfold Libc.fmt_u.
  rewrite <- digits_fuel_app.
  destruct (digits_of_digits_fuel (S (Z.to_nat (Z.log2 z))) z s d rest H)
    as [d' [H1 H2]].
  rewrite H1, H2. reflexivity.
Qed.

Lemma digits_of_zeros (k : nat) (s d rest : string) :
  Json.digits s = (d, rest) ->
  Json.digits (Libc.zeros k ++ s) = ((Libc.zeros k ++ d)%string, rest).
Proof.
  intros H. induction k as [|k IH]; [exact H|].
  cbn [Libc.zeros append Json.digits].
  change (Json.is_digit "0") with true. cbv iota. rewrite IH. reflexivity.
Qed.

Lemma digits_of_fmt_0u (w : nat) (z : Z) (s d rest : string) :
  Json.digits s = (d, rest) ->
  Json.digits (Libc.fmt_0u w z ++ s) = ((Libc.fmt_0u w z ++ d)%string, rest).
Proof.
  intros H. unfold Libc.fmt_0u. rewrite !string_app_assoc.
  apply digits_of_zeros, digits_of_fmt_u, H.
Qed.

(** What [%u] prints starts with a digit, and with [0] only when that is
    all of it. *)
Lemma digits_fuel_head (f : nat) :
  forall (z : Z) (acc : string),
    0 < z < 10 ^ Z.of_nat (S f) ->
    exists c r, Libc.digits_fuel (S f) z acc = String c r /\
                Json.is_digit c = true /\ Ascii.eqb c "0" = false.
Proof.
  induction f as [|f IH]; intros z acc Hz; rewrite digits_fuel_step.
  - assert (E : z / 10 = 0) by (apply Z.div_small; cbn in Hz; lia).
    rewrite E. cbn [Z.eqb].
    eexists. eexists. split; [reflexivity|]. split; [apply decimal_digit|].
    rewrite Z.mod_small by (cbn in Hz; lia).
    assert (Hz' : 1 <= z <= 9) by (cbn in Hz; lia).
    assert (Hc : z = 1 \/ z = 2 \/ z = 3 \/ z = 4 \/ z = 5 \/ z = 6 \/ z = 7
                 \/ z = 8 \/ z = 9) by lia.
    destruct Hc as [->|[->|[->|[->|[->|[->|[->|[->| ->]]]]]]]]; reflexivity.
  - destruct (Z.eqb_spec (z / 10) 0) as [E|E].
    + eexists. eexists. split; [reflexivity|]. split; [apply decimal_digit|].
      assert (Hz' : 1 <= z <= 9).
      { split; [lia|]. destruct (Z_lt_ge_dec z 10) as [|Hge]; [lia|].
        assert (1 <= z / 10) by (apply Z.div_le_lower_bound; lia). lia. }
      rewrite Z.mod_small by lia.
      assert (Hc : z = 1 \/ z = 2 \/ z = 3 \/ z = 4 \/ z = 5 \/ z = 6 \/ z = 7
                   \/ z = 8 \/ z = 9) by lia.
      destruct Hc as [->|[->|[->|[->|[->|[->|[->|[->| ->]]]]]]]]; reflexivity.
    + apply IH.
      assert (0 <= z / 10) by (apply Z.div_pos; lia).
      split; [lia|].
      apply Z.div_lt_upper_bound; [lia|].
      rewrite Nat2Z.inj_succ, Z.pow_succ_r in Hz by lia. lia.
Qed.

Lemma fmt_u_head (z : Z) :
  exists c r, Libc.fmt_u z = String c r /\ Json.is_digit c = true /\
              Json.int_part (Libc.fmt_u z) = true.
Proof.
  destruct (Z_lt_ge_dec 0 z) as [Hpos|Hle].
  - destruct (digits_fuel_head (Z.to_nat (Z.log2 z)) z EmptyString) as [c [r [E [D N]]]].
    { split; [lia|]. apply fmt_u_fuel. lia. }
    exists c, r. unfold Libc.fmt_u. rewrite E.
    split; [reflexivity|]. split; [exact D|].
    cbn [Json.int_part]. rewrite N. reflexivity.
  - assert (E : Z.to_nat (Z.log2 z) = 0%nat).
    { rewrite Z.log2_nonpos by lia. reflexivity. }
    unfold Libc.fmt_u. rewrite E.
    cbn [Libc.digits_fuel].
    exists (ascii_of_nat (48 + Z.to_nat (z mod 10))), EmptyString.
    split; [destruct (z / 10 =? 0); reflexivity|].
    split; [apply decimal_digit|].
    destruct (z / 10 =? 0); cbn [Json.int_part];
      destruct (Ascii.eqb _ "0"); reflexivity.
Qed.

Lemma is_digit_not_minus (c : ascii) :
  Json.is_digit c = true -> Ascii.eqb c "-" = false.
Proof.
  intros H. destruct (Ascii.eqb_spec c "-") as [->|]; [discriminate H|reflexivity].
Qed.

(** [%u] prints a JSON number. *)
Lemma number_fmt_u (z : Z) : Json.number (Libc.fmt_u z) = true.
Proof.
  destruct (fmt_u_head z) as [c [r [E [D I]]]].
  unfold Json.number.
  assert (Hd : Json.digits (Libc.fmt_u z) = (Libc.fmt_u z, EmptyString)).
  { pose proof (digits_of_fmt_u z EmptyString EmptyString EmptyString eq_refl) as H.
    rewrite !string_app_empty_r in H. exact H. }
  rewrite E in *. rewrite (is_digit_not_minus c D). rewrite Hd.
  rewrite I. reflexivity.
Qed.

(** *** Tokens *)

(** A text without closing character is a token to its end. *)
Lemma token_cat (a s : string) :
  Json.token a = (a, EmptyString) ->
  Json.token (a ++ s) = ((a ++ fst (Json.token s))%string, snd (Json.token s)).
Proof.
  induction a as [|c a IH]; intros H.
  - cbn [append]. destruct (Json.token s); reflexivity.
  - cbn [Json.token append] in *.
    destruct (Json.closing c); [discriminate H|].
    destruct (Json.token a) as [t r] eqn:E.
    injection H as H1 H2. subst t r.
    rewrite (IH eq_refl). reflexivity.
Qed.

Lemma token_closing (c : ascii) (r : string) :
  Json.closing c = true -> Json.token (String c r) = (EmptyString, String c r).
Proof. intros H. cbn [Json.token]. rewrite H. reflexivity. Qed.

Lemma token_before_closing (a : string) (c : ascii) (r : string) :
  Json.token a = (a, EmptyString) -> Json.closing c = true ->
  Json.token (a ++ String c r) = (a, String c r).
Proof.
  intros Ha Hc. rewrite (token_cat a _ Ha), (token_closing c r Hc).
  cbn [fst snd]. rewrite string_app_empty_r. reflexivity.
Qed.

Lemma token_app (a b : string) :
  Json.token a = (a, EmptyString) -> Json.token b = (b, EmptyString) ->
  Json.token (a ++ b) = ((a ++ b)%string, EmptyString).
Proof.
  intros Ha Hb. rewrite (token_cat a b Ha), Hb. reflexivity.
Qed.

Lemma is_digit_not_closing (c : ascii) :
  Json.is_digit c = true -> Json.closing c = false.
Proof.
  intros H. unfold Json.closing.
  destruct (Ascii.eqb_spec c ",") as [->|]; [discriminate H|].
  destruct (Ascii.eqb_spec c "}") as [->|]; [discriminate H|].
  destruct (Ascii.eqb_spec c "]") as [->|]; [discriminate H|].
  reflexivity.
Qed.

Lemma token_of_digits (t : string) :
  Json.digits t = (t, EmptyString) -> Json.token t = (t, EmptyString).
Proof.
  induction t as [|c t IH]; intros H; [reflexivity|].
  cbn [Json.digits Json.token] in *.
  destruct (Json.is_digit c) eqn:D; [|discriminate H].
  rewrite (is_digit_not_closing c D).
  destruct (Json.digits t) as [d r] eqn:E.
  injection H as H1 H2. subst d r.
  rewrite (IH eq_refl). reflexivity.
Qed.

Lemma digits_fmt_u (z : Z) :
  Json.digits (Libc.fmt_u z) = (Libc.fmt_u z, EmptyString).
Proof.
  pose proof (digits_of_fmt_u z EmptyString EmptyString EmptyString eq_refl) as H.
  rewrite !string_app_empty_r in H. exact H.
Qed.

Lemma digits_fmt_0u (w : nat) (z : Z) :
  Json.digits (Libc.fmt_0u w z) = (Libc.fmt_0u w z, EmptyString).
Proof.
  pose proof (digits_of_fmt_0u w z EmptyString EmptyString EmptyString eq_refl) as H.
  rewrite !string_app_empty_r in H. exact H.
Qed.

Lemma fmt_0u_head (w : nat) (z : Z) :
  exists c r, Libc.fmt_0u w z = String c r.
Proof.
  unfold Libc.fmt_0u.
  destruct (fmt_u_head z) as [c [r [E _]]]. rewrite E.
  destruct (w - String.length (String c r))%nat as [|k]; cbn [Libc.zeros append];
    eexists; eexists; reflexivity.
Qed.

Lemma number_unsigned (c : ascii) (u : string) :
  Json.is_digit c = true ->
  Json.number (String c u)
  = (let '(d, rest) := Json.digits (String c u) in
     Json.int_part d && Json.fraction_onward rest).
Proof.
  intros D. unfold Json.number. rewrite (is_digit_not_minus c D). reflexivity.
Qed.

Lemma number_minus (t : string) :
  Json.number (String "-" t)
  = (let '(d, rest) := Json.digits t in
     Json.int_part d && Json.fraction_onward rest).
Proof. reflexivity. Qed.

(** [%.Nf] of a finite value, for [N] at least 1, prints a JSON number. *)
Lemma number_fmt_f (d : nat) (x : IEEE.float) :
  IEEE.is_finite x = true ->
  Json.number (Libc.fmt_f (S d) x) = true /\
  Json.token (Libc.fmt_f (S d) x) = (Libc.fmt_f (S d) x, EmptyString).
Proof.
  intros Hx.
  assert (Hfixed : forall (s : bool) (q r : Z),
             let t := ((if s then "-" else EmptyString) ++ Libc.fmt_u q ++ "."
                       ++ Libc.fmt_0u (S d) r)%string in
             Json.number t = true /\ Json.token t = (t, EmptyString)).
  { intros s q r t.
    set (body := (Libc.fmt_u q ++ "." ++ Libc.fmt_0u (S d) r)%string) in *.
    assert (Hd : (let '(i, rest) := Json.digits body in
                  Json.int_part i && Json.fraction_onward rest) = true).
    { subst body.
      rewrite (digits_of_fmt_u q ("." ++ Libc.fmt_0u (S d) r) EmptyString
                 ("." ++ Libc.fmt_0u (S d) r) eq_refl).
      rewrite string_app_empty_r.
      destruct (fmt_u_head q) as [c [u [E [D I]]]]. rewrite I. cbn [andb].
      cbn [append Json.fraction_onward].
      change (Ascii.eqb "." ".") with true. cbv iota.
      rewrite digits_fmt_0u.
      destruct (fmt_0u_head (S d) r) as [c' [r' E']]. rewrite E'. reflexivity. }
    assert (Hh : exists c u, body = String c u /\ Json.is_digit c = true).
    { destruct (fmt_u_head q) as [c [u [E [D I]]]].
      exists c, (u ++ "." ++ Libc.fmt_0u (S d) r)%string.
      subst body. rewrite E. split; [reflexivity|exact D]. }
    assert (Ht : Json.token body = (body, EmptyString)).
    { subst body.
      apply token_app; [apply token_of_digits, digits_fmt_u|].
      apply (token_app "."); [reflexivity|].
      apply token_of_digits, digits_fmt_0u. }
    subst t. destruct s.
    - split.
      + cbn [append]. rewrite number_minus. exact Hd.
      + apply (token_app "-"); [reflexivity|exact Ht].
    - cbn [append]. split; [|exact Ht].
      destruct Hh as [c [u [E D]]]. rewrite E in *.
      rewrite (number_unsigned c u D). exact Hd. }
  unfold Libc.fmt_f. destruct x as [s|s| |s m e]; try discriminate Hx.
  - apply Hfixed.
  - apply Hfixed.
Qed.

(** *** Values *)

Lemma number_head (t : string) :
  Json.number t = true ->
  exists c u, t = String c u /\ (c = "-"%char \/ Json.is_digit c = true).
Proof.
  destruct t as [|c u]; [discriminate|]. intros H.
  exists c, u. split; [reflexivity|].
  destruct (Ascii.eqb_spec c "-") as [->|Hm]; [left; reflexivity|right].
  unfold Json.number in H.
  assert (E : Ascii.eqb c "-" = false) by (apply Ascii.eqb_neq; exact Hm).
  rewrite E in H. cbn [Json.digits] in H.
  destruct (Json.is_digit c); [reflexivity|]. discriminate H.
Qed.

Lemma reads_number (t : string) :
  Json.number t = true -> Json.token t = (t, EmptyString) ->
  Json.reads_as t (Json.Number t).
Proof.
  intros Hn Ht c r Hc.
  destruct (number_head t Hn) as [a [u [E Ha]]].
  pose proof (token_before_closing t c r Ht Hc) as Htok.
  rewrite E in *. cbn [append] in *.
  unfold Json.read_value.
  assert (Hq : Ascii.eqb a "034" = false).
  { destruct Ha as [->|D]; [reflexivity|].
    destruct (Ascii.eqb_spec a "034") as [->|]; [discriminate D|reflexivity]. }
  rewrite Hq, Htok.
  assert (Hk : forall k b, (b = "t" \/ b = "f" \/ b = "n")%char ->
                           String.eqb (String a u) (String b k) = false).
  { intros k b Hb. cbn [String.eqb].
    assert (Eab : Ascii.eqb a b = false).
    { destruct Ha as [->|D].
      - destruct Hb as [->|[->| ->]]; reflexivity.
      - destruct (Ascii.eqb_spec a b) as [->|]; [|reflexivity].
        destruct Hb as [->|[->| ->]]; discriminate D. }
    rewrite Eab. reflexivity. }
  rewrite !Hk by auto. rewrite Hn. reflexivity.
Qed.

Lemma reads_fmt_u (z : Z) : Json.reads_as (Libc.fmt_u z) (Json.Number (Libc.fmt_u z)).
Proof.
  apply reads_number; [apply number_fmt_u|apply token_of_digits, digits_fmt_u].
Qed.

Lemma reads_fmt_f (d : nat) (x : IEEE.float) :
  IEEE.is_finite x = true ->
  Json.reads_as (Libc.fmt_f (S d) x) (Json.Number (Libc.fmt_f (S d) x)).
Proof.
  intros H. destruct (number_fmt_f d x H) as [Hn Ht].
  apply reads_number; assumption.
Qed.

Lemma reads_bool (b : bool) :
  Json.reads_as (if b then "true" else "false") (Json.Bool b).
Proof.
  intros c r Hc. destruct b.
  - pose proof (token_before_closing "true" c r eq_refl Hc) as Ht.
    cbn [append] in Ht |- *. unfold Json.read_value.
    change (Ascii.eqb "t" "034") with false. cbv iota.
    rewrite Ht. reflexivity.
  - pose proof (token_before_closing "false" c r eq_refl Hc) as Ht.
    cbn [append] in Ht |- *. unfold Json.read_value.
    change (Ascii.eqb "f" "034") with false. cbv iota.
    rewrite Ht. reflexivity.
Qed.

Lemma reads_null : Json.reads_as "null" Json.Null.
Proof.
  intros c r Hc.
  pose proof (token_before_closing "null" c r eq_refl Hc) as Ht.
  cbn [append] in Ht |- *. unfold Json.read_value.
  change (Ascii.eqb "n" "034") with false. cbv iota.
  rewrite Ht. reflexivity.
Qed.

(** *** Strings *)

Lemma plain_cases (c : ascii) :
  Json.plain c = true ->
  Ascii.eqb c "034" = false /\ Ascii.eqb c "092" = false.
Proof.
  unfold Json.plain. intros H.
  apply andb_true_iff in H. destruct H as [H H2].
  apply andb_true_iff in H. destruct H as [_ H1].
  apply negb_true_iff in H1, H2. split; assumption.
Qed.

Lemma plain_text_app (a b : string) :
  Json.plain_text (a ++ b) = Json.plain_text a && Json.plain_text b.
Proof.
  induction a as [|c a IH]; [reflexivity|].
  cbn [append Json.plain_text]. rewrite IH. apply andb_assoc.
Qed.

Lemma string_end_plain (p rest : string) :
  Json.plain_text p = true ->
  Reader.string_end (p ++ Libc.dquote ++ rest) = Some (p, rest).
Proof.
  induction p as [|c p IH]; intros H; [reflexivity|].
  cbn [Json.plain_text] in H. apply andb_true_iff in H. destruct H as [Hc Hp].
  destruct (plain_cases c Hc) as [H1 H2].
  cbn [append Reader.string_end]. rewrite H1, H2, (IH Hp). reflexivity.
Qed.

Lemma string_body_plain (p : string) :
  Json.plain_text p = true -> Json.string_body p = true.
Proof.
  induction p as [|c p IH]; intros H; [reflexivity|].
  cbn [Json.plain_text] in H. apply andb_true_iff in H. destruct H as [Hc Hp].
  destruct (plain_cases c Hc) as [H1 H2].
  cbn [Json.string_body]. rewrite H2, Hc, (IH Hp). reflexivity.
Qed.

Lemma unescape_plain (p : string) :
  Json.plain_text p = true -> Reader.unescape p = p.
Proof.
  induction p as [|c p IH]; intros H; [reflexivity|].
  cbn [Json.plain_text] in H. apply andb_true_iff in H. destruct H as [Hc Hp].
  destruct (plain_cases c Hc) as [H1 H2].
  cbn [Reader.unescape]. rewrite H2, (IH Hp). reflexivity.
Qed.

(** A plain text between quotation marks is read as itself. *)
Lemma reads_quoted_plain (p : string) :
  Json.plain_text p = true -> Json.reads_as (Libc.quoted p) (Json.Str p).
Proof.
  intros H c r Hc. unfold Libc.quoted.
  rewrite !string_app_assoc.
  change (Libc.dquote ++ p ++ Libc.dquote ++ String c r)%string
    with (String "034" (p ++ Libc.dquote ++ String c r)).
  unfold Json.read_value.
  change (Ascii.eqb "034" "034") with true. cbv iota.
  rewrite (string_end_plain p (String c r) H), (string_body_plain p H),
    (unescape_plain p H).
  reflexivity.
Qed.

Lemma string_end_jsonEscape (s rest : string) :
  Reader.string_end (R3d.jsonEscape s ++ Libc.dquote ++ rest)
  = Some (R3d.jsonEscape s, rest).
Proof.
  induction s as [|c r IH]; [reflexivity|].
  destruct (jsonEscape_cases c r) as [[d [E [Hd Hc]]]|[E [H1 [H2 _]]]]; rewrite E.
  - change (String "092" (String d (R3d.jsonEscape r)) ++ Libc.dquote ++ rest)%string
      with (String "092" (String d (R3d.jsonEscape r ++ Libc.dquote ++ rest))).
    cbn [Reader.string_end].
    change (Ascii.eqb "092" "034") with false.
    change (Ascii.eqb "092" "092") with true. cbv iota.
    rewrite IH. reflexivity.
  - change (String c (R3d.jsonEscape r) ++ Libc.dquote ++ rest)%string
      with (String c (R3d.jsonEscape r ++ Libc.dquote ++ rest)).
    cbn [Reader.string_end]. rewrite H1, H2, IH. reflexivity.
Qed.

Lemma unescape_jsonEscape (s : string) : Reader.unescape (R3d.jsonEscape s) = s.
Proof.
  induction s as [|c r IH]; [reflexivity|].
  destruct (jsonEscape_cases c r) as [[d [E [Hd _]]]|[E [_ [H2 _]]]]; rewrite E.
  - cbn [Reader.unescape]. change (Ascii.eqb "092" "092") with true. cbv iota.
    rewrite IH, Hd. reflexivity.
  - cbn [Reader.unescape]. rewrite H2, IH. reflexivity.
Qed.

(** The escape of a text whose control characters are tab, newline and
    carriage return only is a string body. *)
Lemma string_body_jsonEscape (s : string) :
  Json.escapable s = true -> Json.string_body (R3d.jsonEscape s) = true.
Proof.
  induction s as [|c r IH]; intros H; [reflexivity|].
  cbn [Json.escapable] in H. apply andb_true_iff in H. destruct H as [Hc Hr].
  destruct (jsonEscape_cases c r) as [[d [E [Hd Hcase]]]|[E [H1 [H2 [H3 [H4 H5]]]]]];
    rewrite E.
  - cbn [Json.string_body]. change (Ascii.eqb "092" "092") with true. cbv iota.
    rewrite (IH Hr), andb_true_r.
    destruct Hcase as [->|[->|[->|[->| ->]]]]; reflexivity.
  - cbn [Json.string_body]. rewrite H2, (IH Hr), andb_true_r.
    unfold Json.plain. rewrite H1, H2. cbn [negb]. rewrite !andb_true_r.
    rewrite H3, H4, H5, !orb_false_r in Hc. exact Hc.
Qed.

(** What [jsonEscape] returns, between quotation marks, is read as the text
    escaped. *)
Lemma reads_quoted_jsonEscape (s : string) :
  Json.escapable s = true ->
  Json.reads_as (Libc.quoted (R3d.jsonEscape s)) (Json.Str s).
Proof.
  intros H c r Hc. unfold Libc.quoted.
  rewrite !string_app_assoc.
  change (Libc.dquote ++ R3d.jsonEscape s ++ Libc.dquote ++ String c r)%string
    with (String "034" (R3d.jsonEscape s ++ Libc.dquote ++ String c r)).
  unfold Json.read_value.
  change (Ascii.eqb "034" "034") with true. cbv iota.
  rewrite string_end_jsonEscape, (string_body_jsonEscape s H), unescape_jsonEscape.
  reflexivity.
Qed.

(** *** Objects and arrays *)

Lemma reads_as_nonempty (t : string) (v : Json.value) :
  Json.reads_as t v -> exists c u, t = String c u.
Proof.
  intros H. destruct t as [|c u]; [|exists c, u; reflexivity].
  specialize (H ","%char EmptyString eq_refl). discriminate H.
Qed.

Lemma ends_nonempty (x : string) (c : ascii) :
  exists a u, (x ++ String c EmptyString)%string = String a u.
Proof. destruct x as [|a x]; cbn [append]; eexists; eexists; reflexivity. Qed.

Lemma comma_separated_length (elements : list string) :
  (List.length elements <= String.length (comma_separated elements))%nat.
Proof.
  induction elements as [|e rest IH]; [cbn; lia|].
  cbn [comma_separated List.length append String.length].
  rewrite string_length_app. lia.
Qed.

(** One member and what follows its value. *)
Lemma read_members_step (fuel : nat) (k t : string) (v : Json.value)
      (c : ascii) (r : string) :
  Json.plain_text k = true -> Json.reads_as t v -> Json.closing c = true ->
  Json.read_members (S fuel) (Libc.key k ++ t ++ String c r)
  = if Ascii.eqb c ","
    then match Json.read_members fuel r with
         | Some rest => Some ((k, v) :: rest)
         | None => None
         end
    else if Ascii.eqb c "}"
         then match r with
              | EmptyString => Some [(k, v)]
              | String _ _ => None
              end
         else None.
Proof.
  intros Hk Ht Hc.
  unfold Libc.key, Libc.quoted. rewrite !string_app_assoc.
  change (Libc.dquote ++ k ++ Libc.dquote ++ ":" ++ t ++ String c r)%string
    with (String "034" (k ++ Libc.dquote ++ String ":" (t ++ String c r))).
  cbn [Json.read_members].
  change (Ascii.eqb "034" "034") with true. cbv iota.
  rewrite (string_end_plain k _ Hk).
  change (Ascii.eqb ":" ":") with true.
  rewrite (string_body_plain k Hk), (unescape_plain k Hk). cbn [andb].
  rewrite (Ht c r Hc). reflexivity.
Qed.

Lemma read_members_printed (ms : list (string * string)) (vs : list Json.value) :
  Forall2 (fun kv v => Json.plain_text (fst kv) = true /\ Json.reads_as (snd kv) v)
          ms vs ->
  forall (fuel : nat) (k t : string) (v : Json.value),
    Json.plain_text k = true -> Json.reads_as t v ->
    (List.length ms <= fuel)%nat ->
    Json.read_members
      (S fuel)
      (Libc.key k ++ t
       ++ comma_separated (List.map (fun kv => (Libc.key (fst kv) ++ snd kv)%string) ms)
       ++ "}")
    = Some ((k, v) :: List.combine (List.map fst ms) vs).
Proof.
  induction 1 as [|[k' t'] v' ms vs [Hk' Ht'] _ IH]; intros fuel k t v Hk Ht Hf.
  - cbn [List.map comma_separated append List.combine].
    rewrite (read_members_step fuel k t v "}" EmptyString Hk Ht eq_refl).
    reflexivity.
  - cbn [List.map comma_separated fst snd List.combine].
    cbn [List.length] in Hf. destruct fuel as [|fuel]; [lia|].
    rewrite !string_app_assoc.
    change ("," ++ Libc.key k' ++ t'
            ++ comma_separated (List.map (fun kv => (Libc.key (fst kv) ++ snd kv)%string) ms)
            ++ "}")%string
      with (String "," (Libc.key k' ++ t'
            ++ comma_separated (List.map (fun kv => (Libc.key (fst kv) ++ snd kv)%string) ms)
            ++ "}")).
    rewrite (read_members_step (S fuel) k t v "," _ Hk Ht eq_refl).
    change (Ascii.eqb "," ",") with true. cbv iota.
    cbn [fst snd] in Hk', Ht'.
    rewrite (IH fuel k' t' v' Hk' Ht' ltac:(lia)). reflexivity.
Qed.

(** The joining of member texts reads as an object when every name is plain
    and every value text reads as a value: the members read are those
    names with those values. *)
Lemma read_printed_object (members : list (string * string))
      (values : list Json.value) :
  members <> [] ->
  Forall2 (fun kv v => Json.plain_text (fst kv) = true /\ Json.reads_as (snd kv) v)
          members values ->
  Json.read_object (Spec.json_object members)
  = Some (List.combine (List.map fst members) values).
Proof.
  intros Hne H. destruct H as [|[k t] v ms vs [Hk Ht] Hrest]; [congruence|].
  cbn [fst snd] in Hk, Ht.
  unfold Spec.json_object. cbn [List.map fst snd].
  rewrite concat_comma_separated, !string_app_assoc.
  set (r := (Libc.key k ++ t
             ++ comma_separated (List.map (fun kv => (Libc.key (fst kv) ++ snd kv)%string) ms)
             ++ "}")%string).
  change ("{" ++ r)%string with (String "{" r).
  assert (Hlen : exists fuel, String.length r = S fuel /\ (List.length ms <= fuel)%nat).
  { exists (String.length r - 1)%nat.
    pose proof (comma_separated_length
                  (List.map (fun kv => (Libc.key (fst kv) ++ snd kv)%string) ms)) as Hc.
    rewrite length_map in Hc.
    subst r.
    remember (comma_separated
                (List.map (fun kv => (Libc.key (fst kv) ++ snd kv)%string) ms))
      as cs eqn:Ecs.
    clear Ecs. unfold Libc.key, Libc.quoted.
    rewrite !string_length_app. cbn [String.length Libc.dquote]. lia. }
  destruct Hlen as [fuel [El Hf]].
  assert (Hr : exists a b u, r = String a (String b u)).
  { subst r.
    remember (comma_separated
                (List.map (fun kv => (Libc.key (fst kv) ++ snd kv)%string) ms))
      as cs eqn:Ecs.
    clear Ecs. unfold Libc.key, Libc.quoted. rewrite !string_app_assoc.
    destruct (ends_nonempty (k ++ Libc.dquote ++ ":" ++ t ++ cs) "}") as [a [u E]].
    rewrite !string_app_assoc in E.
    exists "034"%char, a, u.
    change (Libc.dquote ++ ?x)%string with (String "034" x). rewrite E. reflexivity. }
  destruct Hr as [a [b [u Er]]].
  assert (Hobj : Json.read_object (String "{" r) = Json.read_members (String.length r) r).
  { rewrite Er. reflexivity. }
  rewrite Hobj, El. subst r.
  rewrite (read_members_printed ms vs Hrest fuel k t v Hk Ht Hf). reflexivity.
Qed.

Lemma read_elements_step (fuel : nat) (t : string) (v : Json.value)
      (c : ascii) (r : string) :
  Json.reads_as t v -> Json.closing c = true ->
  Json.read_elements (S fuel) (t ++ String c r)
  = if Ascii.eqb c ","
    then match Json.read_elements fuel r with
         | Some rest => Some (v :: rest)
         | None => None
         end
    else if Ascii.eqb c "]"
         then match r with
              | EmptyString => Some [v]
              | String _ _ => None
              end
         else None.
Proof.
  intros Ht Hc. cbn [Json.read_elements]. rewrite (Ht c r Hc). reflexivity.
Qed.

Lemma read_elements_printed (ts : list string) (vs : list Json.value) :
  Forall2 Json.reads_as ts vs ->
  forall (fuel : nat) (t : string) (v : Json.value),
    Json.reads_as t v -> (List.length ts <= fuel)%nat ->
    Json.read_elements (S fuel) (t ++ comma_separated ts ++ "]") = Some (v :: vs).
Proof.
  induction 1 as [|t' v' ts vs Ht' _ IH]; intros fuel t v Ht Hf.
  - cbn [comma_separated append].
    rewrite (read_elements_step fuel t v "]" EmptyString Ht eq_refl).
    reflexivity.
  - cbn [comma_separated].
    cbn [List.length] in Hf. destruct fuel as [|fuel]; [lia|].
    rewrite !string_app_assoc.
    change ("," ++ t' ++ comma_separated ts ++ "]")%string
      with (String "," (t' ++ comma_separated ts ++ "]")).
    rewrite (read_elements_step (S fuel) t v "," _ Ht eq_refl).
    change (Ascii.eqb "," ",") with true. cbv iota.
    rewrite (IH fuel t' v' Ht' ltac:(lia)). reflexivity.
Qed.

(** The joining of element texts reads as an array when every text reads
    as a value: the elements read are those values, in order. *)
Lemma read_printed_array (elements : list string) (values : list Json.value) :
  elements <> [] ->
  Forall2 Json.reads_as elements values ->
  Json.read_array (Spec.json_array elements) = Some values.
Proof.
  intros Hne H. destruct H as [|t v ts vs Ht Hrest]; [congruence|].
  unfold Spec.json_array.
  rewrite concat_comma_separated, !string_app_assoc.
  set (r := (t ++ comma_separated ts ++ "]")%string).
  change ("[" ++ r)%string with (String "[" r).
  assert (Hlen : exists fuel, String.length r = S fuel /\ (List.length ts <= fuel)%nat).
  { exists (String.length r - 1)%nat.
    pose proof (comma_separated_length ts) as Hc.
    subst r. rewrite !string_length_app. cbn [String.length]. lia. }
  destruct Hlen as [fuel [El Hf]].
  assert (Hr : exists a b u, r = String a (String b u)).
  { subst r. destruct (reads_as_nonempty t v Ht) as [a [t' ->]].
    destruct (ends_nonempty (t' ++ comma_separated ts) "]") as [b [u E]].
    rewrite string_app_assoc in E.
    exists a, b, u. cbn [append]. rewrite E. reflexivity. }
  destruct Hr as [a [b [u Er]]].
  assert (Harr : Json.read_array (String "[" r) = Json.read_elements (String.length r) r).
  { rewrite Er. reflexivity. }
  rewrite Harr, El. subst r.
  apply (read_elements_printed ts vs Hrest fuel t v Ht Hf).
Qed.

(** ** Finite results *)

(** Rounding does not overflow while the value rounded stays below
    [2 ^ (emax - 1)]; the result is not above the next power of two. *)
Lemma binary_round_aux_bound (prec emax : Z) (sx : bool) (mx ex : Z) (lx : location) :
  0 < prec -> prec < emax ->
  0 <= mx ->
  ex + 1 <= emax - prec ->
  Zdigits2 mx + ex + 1 <= emax ->
  match binary_round_aux prec emax sx mx ex lx with
  | S754_zero _ => True
  | S754_finite _ M e =>
      Zdigits2 (Z.pos M) + e
      <= Z.max (prec + Z.max ex (emin prec emax)) (Zdigits2 mx + ex) + 1
  | _ => False
  end.
Proof.
  intros Hprec Hemax Hmx Hex Hd.
  set (n := Z.max 0 (fexp prec emax (Zdigits2 mx + ex) - ex)).
  assert (Hn : 0 <= n) by (subst n; lia).
  pose proof (pow2_pos n Hn) as Hpn.
  destruct (binary_round_aux_enclosed prec emax Hprec sx mx ex lx 0 (mx + 1) Hmx)
    as [m2 [e2 [E [He2 [_ Hm2]]]]].
  - lia.
  - fold n. pose proof (inexact_cases lx). nia.
  - fold n in He2. rewrite E.
    assert (H0 : 0 <= m2).
    { pose proof (pow2_pos (prec - 1) ltac:(lia)). lia. }
    destruct m2 as [|p|p]; [exact I| |lia].
    unfold Round.pack.
    assert (Hle : e2 <= emax - prec).
    { subst n. unfold fexp, emin in He2. lia. }
    apply Z.leb_le in Hle. rewrite Hle.
    assert (Hdig : Zdigits2 (Z.pos p) <= prec)
      by (apply Zdigits2_le_of_lt_pow; lia).
    subst n. unfold fexp in He2. unfold emin in *. lia.
Qed.

Lemma shl_align_spec (m : positive) (e e' : Z) :
  snd (shl_align m e e') = Z.min e e' /\
  Z.pos (fst (shl_align m e e')) = Z.pos m * 2 ^ (e - snd (shl_align m e e')).
Proof.
  unfold shl_align. destruct (e' - e) as [|d|d] eqn:E; cbn [fst snd].
  - split; [lia|]. rewrite Z.sub_diag, Z.pow_0_r. lia.
  - split; [lia|]. rewrite Z.sub_diag, Z.pow_0_r. lia.
  - split; [lia|]. rewrite pos_iter_xO. f_equal. f_equal. lia.
Qed.

Lemma binary_round_bound (prec emax : Z) (s : bool) (m : positive) (e : Z) :
  0 < prec -> prec < emax ->
  emin prec emax <= e ->
  e + 1 <= emax - prec ->
  Zdigits2 (Z.pos m) + e + 1 <= emax ->
  match binary_round prec emax s m e with
  | S754_zero _ => True
  | S754_finite _ M e2 =>
      Zdigits2 (Z.pos M) + e2 <= Z.max (prec + e) (Zdigits2 (Z.pos m) + e) + 1
  | _ => False
  end.
Proof.
  intros Hprec Hemax Hemin He Hd. unfold binary_round.
  change (Z.pos (digits2_pos m)) with (Zdigits2 (Z.pos m)).
  destruct (shl_align_spec m e (fexp prec emax (Zdigits2 (Z.pos m) + e))) as [E1 E2].
  destruct (shl_align m e (fexp prec emax (Zdigits2 (Z.pos m) + e))) as [mz ez].
  cbn [fst snd] in E1, E2.
  assert (Hez : emin prec emax <= ez <= e) by (unfold fexp in E1; lia).
  assert (Hdz : Zdigits2 (Z.pos mz) + ez = Zdigits2 (Z.pos m) + e).
  { rewrite E2, Zdigits2_mul_pow2 by lia. lia. }
  pose proof (binary_round_aux_bound prec emax s (Z.pos mz) ez loc_Exact
                Hprec Hemax ltac:(lia) ltac:(lia) ltac:(lia)) as H.
  destruct (binary_round_aux prec emax s (Z.pos mz) ez loc_Exact); try exact H.
  lia.
Qed.

(** The promotion of a finite binary32 value is finite. *)
Lemma double_of_single_finite (x : IEEE.float) :
  valid_binary IEEE.fprec IEEE.femax x = true ->
  IEEE.is_finite x = true ->
  IEEE.is_finite (IEEE.double_of_single x) = true.
Proof.
  intros Hv Hf. destruct x as [s|s| |s m e]; try discriminate Hf; [reflexivity|].
  cbn [valid_binary] in Hv. unfold bounded, canonical_mantissa in Hv.
  apply andb_true_iff in Hv. destruct Hv as [Hc Hb].
  apply Z.eqb_eq in Hc. apply Z.leb_le in Hb.
  change (Z.pos (digits2_pos m)) with (Zdigits2 (Z.pos m)) in Hc.
  unfold fexp, emin, IEEE.fprec, IEEE.femax in Hc, Hb.
  unfold IEEE.double_of_single.
  assert (E : binary_normalize IEEE.dprec IEEE.demax
                (if s then Z.neg m else Z.pos m) e false
              = binary_round IEEE.dprec IEEE.demax s m e)
    by (destruct s; reflexivity).
  rewrite E.
  pose proof (binary_round_bound IEEE.dprec IEEE.demax s m e) as H.
  unfold emin, IEEE.dprec, IEEE.demax in H.
  specialize (H ltac:(lia) ltac:(lia) ltac:(lia) ltac:(lia) ltac:(lia)).
  unfold IEEE.dprec, IEEE.demax.
  destruct (binary_round 53 1024 s m e); try contradiction; reflexivity.
Qed.

(** A frame count converted to [double] is zero or a number below
    [2 ^ 65]. *)
Lemma double_of_Z_bound (z : Z) :
  0 <= z < 2 ^ 64 ->
  match IEEE.double_of_Z z with
  | S754_zero _ => True
  | S754_finite _ M e => Zdigits2 (Z.pos M) + e <= 65
  | _ => False
  end.
Proof.
  intros Hz. unfold IEEE.double_of_Z.
  destruct z as [|m|m]; [exact I| |lia].
  cbn [binary_normalize].
  assert (Hd : Zdigits2 (Z.pos m) <= 64)
    by (apply Zdigits2_le_of_lt_pow; lia).
  pose proof (binary_round_bound IEEE.dprec IEEE.demax false m 0) as H.
  unfold emin, IEEE.dprec, IEEE.demax in H.
  specialize (H ltac:(lia) ltac:(lia) ltac:(lia) ltac:(lia) ltac:(lia)).
  unfold IEEE.dprec, IEEE.demax.
  destruct (binary_round 53 1024 false m 0); try exact H. lia.
Qed.

(** The quotient of a number below [2 ^ 65] by one from [2 ^ -149] on does
    not overflow. *)
Lemma ddiv_does_not_overflow (sx sy : bool) (mx my : positive) (ex ey : Z) :
  Zdigits2 (Z.pos mx) + ex <= 65 ->
  -148 <= Zdigits2 (Z.pos my) + ey ->
  IEEE.is_finite (IEEE.ddiv (S754_finite sx mx ex) (S754_finite sy my ey)) = true.
Proof.
  intros Hx Hy. unfold IEEE.ddiv. cbn [SFdiv].
  unfold SFdiv_core_binary.
  set (d1 := Zdigits2 (Z.pos mx)) in *. set (d2 := Zdigits2 (Z.pos my)) in *.
  set (e' := Z.min (fexp IEEE.dprec IEEE.demax (d1 + ex - (d2 + ey))) (ex - ey)).
  set (s := ex - ey - e').
  assert (Hs : 0 <= s) by (subst s e'; lia).
  set (m' := match s with
             | 0 => Z.pos mx
             | Z.pos _ => Z.shiftl (Z.pos mx) s
             | Z.neg _ => 0
             end).
  assert (Hm' : m' = Z.pos mx * 2 ^ s).
  { subst m'. destruct s as [|p|p] eqn:Es; [rewrite Z.pow_0_r; lia| |lia].
    rewrite Z.shiftl_mul_pow2 by lia. reflexivity. }
  pose proof (Z_div_mod m' (Z.pos my) ltac:(lia)) as Hdm.
  destruct (Z.div_eucl m' (Z.pos my)) as [q r]. destruct Hdm as [Eq Hr].
  pose proof (Zdigits2_bounds (Z.pos mx) ltac:(lia)) as [_ Hxhi].
  pose proof (Zdigits2_bounds (Z.pos my) ltac:(lia)) as [Hylo _].
  fold d1 in Hxhi. fold d2 in Hylo.
  assert (Hd1 : 1 <= d1) by (subst d1; cbn; lia).
  assert (Hd2 : 1 <= d2) by (subst d2; cbn; lia).
  pose proof (pow2_pos s Hs) as Hps.
  assert (Hq0 : 0 <= q) by nia.
  set (k := Z.max 0 (d1 + s - d2 + 1)).
  assert (Hqk : q < 2 ^ k).
  { assert (Hm'lt : m' < 2 ^ (d1 + s)).
    { rewrite Hm', Z.pow_add_r by lia. nia. }
    assert (Hpow : 2 ^ (d1 + s) <= 2 ^ (d2 - 1) * 2 ^ k).
    { rewrite <- Z.pow_add_r by (subst k; lia).
      apply Z.pow_le_mono_r; subst k; lia. }
    pose proof (pow2_pos k ltac:(subst k; lia)) as Hpk.
    destruct (Z_lt_ge_dec q (2 ^ k)) as [|Hge]; [assumption|exfalso].
    assert (Z.pos my * 2 ^ k <= Z.pos my * q) by nia.
    nia. }
  assert (Hdq : Zdigits2 q <= k)
    by (apply Zdigits2_le_of_lt_pow; [subst k; lia|lia]).
  pose proof (binary_round_aux_bound IEEE.dprec IEEE.demax (xorb sx sy) q e'
                (new_location (Z.pos my) r)) as H.
  assert (He' : e' <= 160).
  { subst e'. unfold fexp, emin, IEEE.dprec, IEEE.demax. lia. }
  unfold emin, IEEE.dprec, IEEE.demax in H.
  specialize (H ltac:(lia) ltac:(lia) Hq0 ltac:(lia) ltac:(subst k s; lia)).
  unfold IEEE.dprec, IEEE.demax.
  destruct (binary_round_aux 53 1024 (xorb sx sy) q e'
              (new_location (Z.pos my) r)); try contradiction; reflexivity.
Qed.

(** The duration probe computes is a finite number, whatever binary32
    frame rate and whatever frame count the SDK reports. *)
Lemma duration_finite (fps : IEEE.float) (frames : Z) :
  valid_binary IEEE.fprec IEEE.femax fps = true ->
  0 <= frames < 2 ^ 64 ->
  IEEE.is_finite
    (if IEEE.gt fps (S754_zero false)
     then IEEE.ddiv (IEEE.double_of_Z frames) (IEEE.double_of_single fps)
     else S754_zero false) = true.
Proof.
  intros Hv Hf.
  pose proof (double_of_Z_bound frames Hf) as Hx.
  destruct fps as [s|s| |s m e]; try reflexivity.
  - destruct s; [reflexivity|].
    change (IEEE.gt (S754_infinity false) (S754_zero false)) with true. cbv iota.
    cbn [IEEE.double_of_single]. unfold IEEE.ddiv.
    destruct (IEEE.double_of_Z frames); try contradiction; reflexivity.
  - destruct s; [reflexivity|].
    change (IEEE.gt (S754_finite false m e) (S754_zero false)) with true. cbv iota.
    cbn [valid_binary] in Hv. unfold bounded, canonical_mantissa in Hv.
    apply andb_true_iff in Hv. destruct Hv as [Hc Hb].
    apply Z.eqb_eq in Hc. apply Z.leb_le in Hb.
    change (Z.pos (digits2_pos m)) with (Zdigits2 (Z.pos m)) in Hc.
    unfold fexp, emin, IEEE.fprec, IEEE.femax in Hc, Hb.
    assert (Hd1 : 1 <= Zdigits2 (Z.pos m)) by (cbn; lia).
    destruct (binary_normalize_exact IEEE.dprec IEEE.demax (Z.pos m) e)
      as [M [EM HM]];
      try (unfold emin, IEEE.dprec, IEEE.demax; lia).
    unfold IEEE.double_of_single. rewrite EM.
    assert (HdM : Zdigits2 (Z.pos M) = IEEE.dprec).
    { rewrite HM, Zdigits2_mul_pow2 by (unfold IEEE.dprec; lia). lia. }
    destruct (IEEE.double_of_Z frames) as [sx|sx| |sx mx ex]; try contradiction.
    + reflexivity.
    + apply ddiv_does_not_overflow; [exact Hx|]. rewrite HdM. unfold IEEE.dprec. lia.
Qed.

(** ** What probe prints, read back *)

(** The text of braw-tool's probe, member by member. *)
Lemma braw_probe_members (sdk : Braw.Sdk) (filePath : string)
      (hr : Braw.HRESULT) (clip : Braw.Clip) :
  Braw.CreateFactory sdk = true ->
  Braw.is_ok (Braw.hr_CreateCodec sdk) = true ->
  Braw.OpenClip sdk filePath = (hr, clip) ->
  Braw.is_ok hr = true ->
  let fps := Braw.out Braw.zero (Braw.GetFrameRate clip) in
  let frameCount := Braw.out 0 (Braw.GetFrameCount clip) in
  exists (hasAudio : bool) (ch sr bd : Z),
    Braw.CmdProbe sdk filePath =
    Braw.exit_with 0
      (Spec.json_object
         [("width", Libc.fmt_u (Braw.out 0 (Braw.GetWidth clip)));
          ("height", Libc.fmt_u (Braw.out 0 (Braw.GetHeight clip)));
          ("fps", Libc.fmt_f 4 (IEEE.double_of_single fps));
          ("frameCount", Libc.fmt_u frameCount);
          ("duration", Libc.fmt_f 4 (Braw.probe_duration fps frameCount));
          ("codec", Libc.quoted "braw");
          ("hasAudio", if hasAudio then "true" else "false");
          ("audioChannels", Libc.fmt_u ch);
          ("audioSampleRate", Libc.fmt_u sr);
          ("audioBitDepth", Libc.fmt_u bd)]%string
       ++ Libc.newline)%string.
Proof.
  intros Hf Hc Ho Hhr fps frameCount.
  set (au :=
         match Braw.QueryInterface_audio clip with
         | (hr, Some audio) =>
             if Braw.is_ok hr then
               let ch := Braw.out 0 (Braw.GetAudioChannelCount audio) in
               (ch, Braw.out 0 (Braw.GetAudioSampleRate audio),
                Braw.out 0 (Braw.GetAudioBitDepth audio), 0 <? ch)
             else (0, 0, 0, false)
         | (_, None) => (0, 0, 0, false)
         end).
  exists (snd au), (fst (fst (fst au))), (snd (fst (fst au))), (snd (fst au)).
  unfold Braw.CmdProbe. rewrite Hf, Hc, Ho, Hhr. cbn [negb].
  fold fps frameCount. fold au.
  destruct au as [[[ch sr] bd] ha].
  unfold Spec.json_object.
  cbn [List.map List.app String.concat fst snd].
  string_atoms. rewrite !string_app_assoc. reflexivity.
Qed.

(** The text of r3d-tool's probe, member by member. *)
Lemma r3d_probe_members (sdk : R3d.Sdk) (filePath : string) (clip : R3d.Clip) :
  R3d.LoadFrom sdk filePath = (R3d.LSClipLoaded, clip) ->
  let fps := R3d.VideoAudioFramerate clip in
  let frames := R3d.VideoFrameCount clip in
  let codec :=
    if R3d.MetadataExists clip R3d.RMD_REDCODE
    then R3d.MetadataItemAsString clip R3d.RMD_REDCODE else "REDCODE"%string in
  let camera :=
    if R3d.MetadataExists clip R3d.RMD_CAMERA_MODEL
    then R3d.MetadataItemAsString clip R3d.RMD_CAMERA_MODEL else EmptyString in
  exists sampleRate : Z,
    R3d.cmd_probe sdk filePath =
    R3d.exit_with 0
      (Spec.json_object
         [("width", Libc.fmt_u (R3d.Width clip));
          ("height", Libc.fmt_u (R3d.Height clip));
          ("fps", Libc.fmt_f 3 (IEEE.double_of_single fps));
          ("frameCount", Libc.fmt_u frames);
          ("duration", Libc.fmt_f 3 (R3d.probe_duration fps frames));
          ("codec", Libc.quoted (R3d.jsonEscape (Libc.c_str codec)));
          ("audioChannels", Libc.fmt_u (R3d.AudioChannelCount clip));
          ("audioSampleRate", Libc.fmt_u sampleRate);
          ("camera", Libc.quoted (R3d.jsonEscape (Libc.c_str camera)))]%string
       ++ Libc.newline)%string.
Proof.
  intros Hl fps frames codec camera.
  set (sr0 := if 0 <? R3d.AudioChannelCount clip
              then CInt.uint32_t (R3d.MetadataItemAsInt clip R3d.RMD_SAMPLERATE)
              else 0).
  exists (if (0 <? R3d.AudioChannelCount clip) && (sr0 =? 0) then 48000 else sr0).
  unfold R3d.cmd_probe. rewrite Hl. fold fps frames codec camera. fold sr0.
  rewrite !c_str_jsonEscape.
  unfold Spec.json_object.
  cbn [List.map List.app String.concat fst snd].
  string_atoms. rewrite !string_app_assoc. reflexivity.
Qed.




(** A control character that [jsonEscape] does not escape is printed as it
    is: with the camera model [R] followed by U+0001 what r3d-tool's probe
    prints is no JSON object. *)
Remark r3d_probe_control_character :
  R3d.cmd_probe Samples.r3d_sdk_control_character "clip.r3d"
  = R3d.exit_with 0
      (Spec.json_object
         [("width", "4096"); ("height", "2160"); ("fps", "24.000");
          ("frameCount", "240"); ("duration", "10.000");
          ("codec", Libc.quoted (String "R" (String "001" EmptyString)));
          ("audioChannels", "0"); ("audioSampleRate", "0");
          ("camera", Libc.quoted (String "R" (String "001" EmptyString)))]%string
       ++ Libc.newline)%string /\
  Json.read_object
    (Spec.json_object
       [("width", "4096"); ("height", "2160"); ("fps", "24.000");
        ("frameCount", "240"); ("duration", "10.000");
        ("codec", Libc.quoted (String "R" (String "001" EmptyString)));
        ("audioChannels", "0"); ("audioSampleRate", "0");
        ("camera", Libc.quoted (String "R" (String "001" EmptyString)))]%string)
  = None.
Proof. split; vm_compute; reflexivity. Qed.

(** ** What extract-frames prints, read back *)

Lemma is_digit_plain (c : ascii) : Json.is_digit c = true -> Json.plain c = true.
Proof.
  intros H. unfold Json.plain.
  destruct (Ascii.eqb_spec c "034") as [->|]; [discriminate H|].
  destruct (Ascii.eqb_spec c "092") as [->|]; [discriminate H|].
  unfold Json.is_digit in H. apply andb_true_iff in H. destruct H as [H _].
  apply Nat.leb_le in H.
  assert (Hle : (32 <= nat_of_ascii c)%nat) by lia.
  apply Nat.leb_le in Hle. rewrite Hle. reflexivity.
Qed.

Lemma plain_of_digits (t : string) :
  Json.digits t = (t, EmptyString) -> Json.plain_text t = true.
Proof.
  induction t as [|c t IH]; intros H; [reflexivity|].
  cbn [Json.digits Json.plain_text] in *.
  destruct (Json.is_digit c) eqn:D; [|discriminate H].
  destruct (Json.digits t) as [d r] eqn:E.
  injection H as H1 H2. subst d r.
  rewrite (is_digit_plain c D), (IH eq_refl). reflexivity.
Qed.

(** With a directory of plain characters the path of a frame is plain. *)
Lemma plain_frame_name (outputDir : string) (i : nat) :
  Json.plain_text outputDir = true ->
  Json.plain_text (Spec.frame_name outputDir i) = true.
Proof.
  intros H. unfold Spec.frame_name.
  rewrite !plain_text_app, H, (plain_of_digits _ (digits_fmt_0u 4 (Z.of_nat i))).
  reflexivity.
Qed.

Lemma reads_frame_element (outputDir : string) (i : nat) (ok : bool) :
  Json.plain_text outputDir = true ->
  Json.reads_as (Spec.frame_element outputDir i ok)
                (if ok then Json.Str (Spec.frame_name outputDir i) else Json.Null).
Proof.
  intros H. unfold Spec.frame_element. destruct ok.
  - apply reads_quoted_plain, plain_frame_name, H.
  - apply reads_null.
Qed.

Lemma Forall2_map_same {A B C : Type} (R : B -> C -> Prop) (f : A -> B) (g : A -> C)
      (l : list A) :
  (forall x, R (f x) (g x)) -> Forall2 R (List.map f l) (List.map g l).
Proof.
  intros H. induction l as [|x l IH]; cbn [List.map]; constructor; auto.
Qed.

Lemma nth_error_combine_seq {A : Type} (l : list A) :
  forall (a i : nat) (x : A),
    nth_error l i = Some x ->
    nth_error (List.combine (seq a (List.length l)) l) i = Some ((a + i)%nat, x).
Proof.
  induction l as [|y l IH]; intros a i x H; [destruct i; discriminate H|].
  destruct i as [|i]; cbn [List.length seq List.combine nth_error] in *.
  - injection H as <-. rewrite Nat.add_0_r. reflexivity.
  - rewrite (IH (S a) i x H). f_equal. f_equal. lia.
Qed.

(** C6, as the code has it: when the timestamps parse to a non-empty list
    of [n] times, the clip opens, every path fits the tool's path buffer and
    the output directory holds no quotation mark, backslash or control
    character, extract-frames prints one line, a JSON array of exactly [n]
    elements in input order, the [i]-th being the string
    [<outputDir>/frame_XXXX.jpg] when the extraction of the [i]-th time
    succeeded and [null] when it failed, and exits with code 0; when the
    parsed list is empty it prints nothing and exits with code 1. *)
Theorem C6_extract_frames_prints_one_element_per_time :
  forall (undef : IEEE.float -> Z) (filePath timesJSON outputDir : string)
         (maxDim : Z),
    (forall (sdk : Braw.Sdk),
        let times := Braw.ParseTimesJSON timesJSON in
        (times = [] ->
         let run :=
           Braw.CmdExtractFrames undef sdk filePath timesJSON outputDir maxDim in
         Platform.exit_code run = 1 /\ Platform.stdout run = EmptyString) /\
        (forall (hr : Braw.HRESULT) (clip : Braw.Clip),
            times <> [] ->
            Braw.CreateFactory sdk = true ->
            Braw.is_ok (Braw.hr_CreateCodec sdk) = true ->
            Braw.OpenClip sdk filePath = (hr, clip) ->
            Braw.is_ok hr = true ->
            (forall i, (i < List.length times)%nat ->
                       (String.length (Spec.frame_name outputDir i) < 4096)%nat) ->
            Json.plain_text outputDir = true ->
            let fps := Braw.out Braw.zero (Braw.GetFrameRate clip) in
            let run :=
              Braw.CmdExtractFrames undef sdk filePath timesJSON outputDir maxDim in
            exists (line : string) (elements : list Json.value),
              Platform.exit_code run = 0 /\
              Platform.stdout run = (line ++ Libc.newline)%string /\
              Json.read_array line = Some elements /\
              List.length elements = List.length times /\
              forall (i : nat) (t : IEEE.float),
                nth_error times i = Some t ->
                nth_error elements i
                = Some (if Braw.ExtractOneFrame
                             undef clip (Braw.frame_sdk clip i) fps t
                             (Spec.frame_name outputDir i) maxDim =? 0
                        then Json.Str (Spec.frame_name outputDir i)
                        else Json.Null)))
    /\
    (forall (sdk : R3d.Sdk),
        let times := R3d.parse_timesJson timesJSON in
        (times = [] ->
         let run :=
           R3d.cmd_extract_frames undef sdk filePath timesJSON outputDir maxDim in
         Platform.exit_code run = 1 /\ Platform.stdout run = EmptyString) /\
        (forall (clip : R3d.Clip),
            times <> [] ->
            R3d.LoadFrom sdk filePath = (R3d.LSClipLoaded, clip) ->
            (forall i, (i < List.length times)%nat ->
                       (String.length (Spec.frame_name outputDir i) < 2048)%nat) ->
            Json.plain_text outputDir = true ->
            let run :=
              R3d.cmd_extract_frames undef sdk filePath timesJSON outputDir maxDim in
            exists (line : string) (elements : list Json.value),
              Platform.exit_code run = 0 /\
              Platform.stdout run = (line ++ Libc.newline)%string /\
              Json.read_array line = Some elements /\
              List.length elements = List.length times /\
              forall (i : nat) (t : IEEE.float),
                nth_error times i = Some t ->
                nth_error elements i
                = Some (if R3d.decodeFrame undef sdk clip i t
                                           (Spec.frame_name outputDir i) maxDim =? 0
                        then Json.Str (Spec.frame_name outputDir i)
                        else Json.Null))).
Proof.
  intros undef filePath timesJSON outputDir maxDim.
  destruct (extract_frames_prints_elements undef filePath timesJSON outputDir maxDim)
    as [Hb Hr].
  split.
  - intros sdk times. destruct (Hb sdk) as [Hempty Hrun]. fold times in Hempty, Hrun.
    split; [intros He run; subst run; rewrite (Hempty He); split; reflexivity|].
    intros hr clip Hne Hf Hc Ho Hhr Hfit Hplain fps run. subst run.
    destruct (Hrun hr clip Hne Hf Hc Ho Hhr Hfit) as [Hlen E]. fold fps in Hlen, E.
    set (value :=
           fun it : nat * IEEE.float =>
             if Batch.braw_frame_ok undef clip fps outputDir maxDim (fst it) (snd it)
             then Json.Str (Spec.frame_name outputDir (fst it)) else Json.Null).
    eexists.
    exists (List.map value (List.combine (seq 0 (List.length times)) times)).
    split; [rewrite E; reflexivity|]. split; [rewrite E; reflexivity|].
    split; [|split].
    + apply read_printed_array.
      * intros Hnil. rewrite Hnil in Hlen. destruct times; [congruence|discriminate Hlen].
      * unfold Batch.braw_elements. apply Forall2_map_same.
        intros it. apply reads_frame_element, Hplain.
    + rewrite length_map, length_combine, length_seq. lia.
    + intros i t Hi.
      rewrite nth_error_map, (nth_error_combine_seq times 0 i t Hi).
      reflexivity.
  - intros sdk times. destruct (Hr sdk) as [Hempty Hrun]. fold times in Hempty, Hrun.
    split; [intros He run; subst run; rewrite (Hempty He); split; reflexivity|].
    intros clip Hne Hl Hfit Hplain run. subst run.
    destruct (Hrun clip Hne Hl Hfit) as [Hlen E].
    set (value :=
           fun it : nat * IEEE.float =>
             if Batch.r3d_frame_ok undef sdk clip outputDir maxDim (fst it) (snd it)
             then Json.Str (Spec.frame_name outputDir (fst it)) else Json.Null).
    eexists.
    exists (List.map value (List.combine (seq 0 (List.length times)) times)).
    split; [rewrite E; reflexivity|]. split; [rewrite E; reflexivity|].
    split; [|split].
    + apply read_printed_array.
      * intros Hnil. rewrite Hnil in Hlen. destruct times; [congruence|discriminate Hlen].
      * unfold Batch.r3d_elements. apply Forall2_map_same.
        intros it. apply reads_frame_element, Hplain.
    + rewrite length_map, length_combine, length_seq. lia.
    + intros i t Hi.
      rewrite nth_error_map, (nth_error_combine_seq times 0 i t Hi).
      reflexivity.
Qed.

(** C6 at a run of braw-tool over two times, the second of which fails:
    the array holds the first frame's path and [null]. *)
Lemma C6_witness_two_times :
  exists (line : string) (elements : list Json.value),
    Platform.stdout
      (Braw.CmdExtractFrames Samples.undef Samples.braw_sdk
                             "clip.braw" "[0, 1.5]" "out" 512)
    = (line ++ Libc.newline)%string /\
    Json.read_array line = Some elements /\
    List.length elements = 2%nat /\
    nth_error elements 0 = Some (Json.Str "out/frame_0000.jpg") /\
    nth_error elements 1 = Some Json.Null.
Proof.
  destruct (C6_extract_frames_prints_one_element_per_time
              Samples.undef "clip.braw" "[0, 1.5]" "out" 512) as [Hb _].
  destruct (Hb Samples.braw_sdk) as [_ H].
  destruct (H Braw.S_OK Samples.braw_clip)
    as [line [elements [_ [E [Hr [Hlen Hnth]]]]]].
  - vm_compute. discriminate.
  - reflexivity.
  - reflexivity.
  - reflexivity.
  - reflexivity.
  - intros i Hi. vm_compute in Hi.
    destruct i as [|[|i]]; [vm_compute; lia | vm_compute; lia | lia].
  - reflexivity.
  - exists line, elements.
    split; [exact E|]. split; [exact Hr|]. split; [exact Hlen|].
    split.
    + rewrite (Hnth 0%nat (Libc.atof "0") ltac:(vm_compute; reflexivity)).
      vm_compute. reflexivity.
    + rewrite (Hnth 1%nat (Libc.atof "1.5") ltac:(vm_compute; reflexivity)).
      vm_compute. reflexivity.
Defined.

(** A quotation mark in the output directory is printed as it is: with a
    directory named [a], quotation mark, comma, quotation mark, [b], and one
    time, what braw-tool prints is an array of two strings. *)
Remark extract_frames_quote_in_directory :
  List.length (Braw.ParseTimesJSON "[0]") = 1%nat /\
  Braw.CmdExtractFrames
    Samples.undef Samples.braw_sdk "clip.braw" "[0]"
    ("a" ++ Libc.dquote ++ "," ++ Libc.dquote ++ "b") 512
  = Braw.exit_with 0
      (Spec.json_array [Libc.quoted "a"; Libc.quoted "b/frame_0000.jpg"]
       ++ Libc.newline)%string /\
  Json.read_array
    (Spec.json_array [Libc.quoted "a"; Libc.quoted "b/frame_0000.jpg"])
  = Some [Json.Str "a"; Json.Str "b/frame_0000.jpg"].
Proof. repeat split; vm_compute; reflexivity. Qed.
